(* ===== verification/_CoqProject ===== *)
-Q . S2P
Prelude.v
CStr.v
Snprintf.v
Crypt.v
Tools.v
Pmatch.v
Md5.v
FtnAddr.v
Getw.v
Pkt.v
Sys.v
Types.v
Bsy.v
FtnNode.v
ReadFlo.v
Prothlp.v
FtnQ.v
Cleanup.v
Srif.v
Inbound.v
Frames.v
Hosts.v
Readcfg.v
Config.v
Debugcfg.v
Process.v
Spool.v
Login.v
Transfer.v
Session.v
Binlog.v
Https.v
Calls.v
Client.v
Server.v
Startup.v
