(* ===== verification/Prelude.v ===== *)
(** * Verification of binkd

    binkd is a FidoNet mailer: it exchanges packets, archives and files with
    other nodes over TCP with the binkp protocol.  This library models the C
    code that decides what is sent, received, stored, removed and believed, and
    proves what keeps that correct.  This file is the prelude of the library;
    its second half, below the overview, is what every other file uses.

    ** The program and the files that model it

    A process keeps a table of the nodes it knows, locks a node by a file in its
    outbound, collects what waits for it into a queue, and runs a session.  A
    session logs in, offers the files of the queue one by one, stores what the
    other side offers, and acknowledges.  From the bottom up:

    - [Prelude]: record update, computations that may step out of an object
      ([mem]), automation.
    - [CStr]: characters, C strings, ctype.h, string.h, printf and strtoul.
    - [Snprintf] (snprintf.c): formatted text for systems without it.
    - [Crypt] (crypt.c), [Md5] (md5b.c): the cipher of a session; MD5, HMAC and
      the CRAM challenge.
    - [Tools] (tools.c), [Pmatch] (pmatch.c), [Getw] (getw.c): bounded copies,
      quoting, arguments, replace-all; wildcards; the word splitter.
    - [FtnAddr] (ftnaddr.c, ftndom.c): addresses, their text, order and names
      in the outbound.  [Pkt] (tools.c): the addresses in a packet header.
    - [Sys] (tools.c, unix/rename.c): files, directories, clock and random
      numbers, as a record [SYS]; one definition per call that changes them.
    - [Types] (btypes.h, readcfg.h, protoco2.h): nodes, queue entries, files in
      transfer, the configuration, [WORLD] (the system, the node table and the
      locks of the process) and [STATE] (a session).
    - [Bsy] (bsy.c): locks.  [FtnNode] (ftnnode.c): the node table.  [ReadFlo]
      (readflo.c): file lists.  [FtnQ] (ftnq.c): scans, the queue, holds, polls
      and retries.  [Prothlp] (prothlp.c): comparing offers, names on the wire.
    - [Srif] (srif.c): events and file requests.  [Inbound] (inbound.c):
      temporary files, their records, and the final name.
    - [Hosts] (iptools.c, readcfg.c): hosts of a node and socket addresses.
    - [Readcfg] (readcfg.c): the keyword table, one definition per callback,
      included files, the passwords file, the checks, reloading; [Config] proves
      what an accepted configuration is, [Debugcfg] prints one.
    - protocol.c in five parts: [Frames] (the message queue, the buffers, frames
      in both directions), [Spool] (what happens to files that were sent),
      [Login] (M_NUL, M_ADR, M_PWD, M_OK, M_ERR, M_BSY), [Transfer] (M_FILE,
      M_GET, M_SKIP, M_GOT, M_EOB, data) and [Session] (start, dispatch,
      offering, the main loop, the end).
    - [Cleanup] (bsycleanup.c): the locks deleted at the start.  [Process]
      (readcfg.c, binkd.c, branch.c, exitproc.c): configurations with their
      users, children, fork, the exit of a process.  [Calls] (client.c,
      srv_gai.c): the hosts of a node and the addresses tried.  [Client]
      (client.c) and [Server] (server.c): the two managers, turn by turn.
      [Https] (https.c): connecting through a proxy.  [Binlog] (binlog.c): the
      records of sessions.
      [Startup] (binkd.c, getopt.c): the command line and the start.

    The processes share files only.  [Startup.main] reads the configuration and
    starts the managers; a manager keeps a [PROC], calls [branch] for each
    session, and the child runs [Calls.call] or [Session.protocol] on its own copy
    of the [WORLD].

    A C function is a Rocq function of the same name.  What it changes through
    pointers it returns: most take and give a [STATE] and a [WORLD].  [mem]
    separates the outcomes: [Ok] a result, [Oob] an access out of an object or
    through a null pointer (undefined in C), [Fuel] an exhausted budget.  The
    main loop runs over a list of events, what [select] reported and what the
    calls on the socket did; nothing is assumed of their order.

    ** What the theorems show

    - Who is let in ([Login]): a session marked secure was given the password of
      every protected address it holds, after any sequence of M_NUL and M_ADR
      messages, with one exception that is a flaw of the code and proved to be
      reachable: a session that expects the empty password accepts the digest
      of the empty password.  Encryption starts in step on both sides.  The node
      table ([FtnNode]) finds what was put in and never changes a password.
    - Bytes on the wire ([Frames], [Session]): what is sent is the frames in the
      order they were made under one key stream, in whatever pieces; a frame in
      whatever pieces is received exactly once; buffers are large enough; what
      is queued at the end goes out.  The cipher, MD5 and HMAC agree with their
      reference definitions.
    - Files ([Transfer], [Session], [FtnQ], [Inbound], [Bsy], [Srif]): an offer
      is understood and its acknowledgement recognised; an acknowledgement
      removes nothing else; looking for the next file ends; a file goes only to
      the address it waits for; each is offered once; two processes never hold
      the same lock; a resumed file belongs to its sender; nothing a file name
      contains is executed.
    - Processes ([Process], [Client], [Server], [Startup]): from the command line
      on, through any reloads, signals and failures, no configuration is used
      after it was freed and none is kept without a user; the children are
      counted exactly and the limits hold; each node is called once between two
      scans, and only when it waits for it; placing a call ends.  The start
      deletes the locks of all processes, which is a flaw ([Cleanup]).
    - The configuration ([Config], [Debugcfg]): reading ends, also when files
      include each other; what is accepted is within its bounds; a reload keeps
      the old configuration or puts an accepted one in its place.
    - Text ([Tools], [Getw], [Pmatch], [FtnAddr], [Pkt], [Snprintf], [Startup]):
      round trips, the meaning of patterns, injectivity of outbound names; the
      formatting machine and [getopt] do what a plain reading of their input does;
      a proxy's reply is read to its last byte ([Https]).
    - Flaws, where an input makes the code leave a buffer, loop or do another
      thing than it means to: theorems that say exactly when.

    ** Budgets

    Loops that C ends by reaching the end of a string, a file or a directory get
    a budget from its length (a step takes at least a character or an entry);
    theorems and lemmas of [Getw], [ReadFlo], [Spool], [FtnQ], [Session],
    [Snprintf] and [Startup] prove that these suffice.  [readcfg0] recurs on how many more levels of
    [include] there may be, which the code counts too.  [DIR_DEPTH] is the length of the longest path.
    [TMP_FUEL] and [rename_fuel] bound loops that the code leaves only when a
    call succeeds; there [Fuel] is a loop without end, and [Inbound] states when
    it is not.

    ** What is not modelled

    The build is the Unix one with processes, without Perl, compression, rate
    limits and proxies, except that [Snprintf], [Https] and [getopt] are those of
    this repository.  What comes from outside is an argument: the results of
    [select], [accept], [connect] and fork, signals, name resolution, the effect
    of programs run by events, free space and uninitialised variables.  A
    signal to stop is taken to end the process in its handler.  Files change only
    by the calls of the process and where a step says so.  The
    log is output only.  Not modelled are glue to other programs'
    code (perlhooks.c, compress.c, zlibdl.c, ntlm/),
    program start (run.c), code for other systems (nt/, os2/, amiga/, dos/) and
    the companion tools (misc/). *)
From stdpp Require Export base tactics list gmap sets strings.
From Stdlib Require Export ZArith Lia.
#[global] Open Scope Z_scope.

(** ** Record update

    The C code assigns structure fields one at a time; [s <| f := v |>] is the
    structure [s] with the field [f] replaced.  A record gets the notation by
    an instance of [Eta] that lists its fields once. *)
Class Eta (R : Type) := eta_expand : R -> R.
Class Setter {R T : Type} (proj : R -> T) := set_field : (T -> T) -> R -> R.
#[global] Hint Mode Setter - - ! : typeclass_instances.
Arguments set_field {R T} proj {Setter} _ _ /.

Ltac derive_setter R proj :=
  lazymatch constr:(@eta_expand R _) with
  | @eta_expand _ ?inst =>
      let expand := eval unfold inst in inst in
      let f := fresh "f" in let r := fresh "r" in
      unfold Setter; intros f r;
      let body := eval cbv beta in (expand r) in
      lazymatch body with
      | context C [proj r] => let upd := context C [f (proj r)] in exact upd
      end
  end.
#[global] Hint Extern 1 (@Setter ?R _ ?proj) => derive_setter R proj : typeclass_instances.

Declare Scope record_scope.
#[global] Open Scope record_scope.
Notation "r '<|' p ':=' v '|>'" := (set_field p (fun _ => v) r)
  (at level 1, left associativity, p at level 9, v at level 200) : record_scope.
Notation "r '<|' p '::=' f '|>'" := (set_field p f r)
  (at level 1, left associativity, p at level 9, f at level 200) : record_scope.

(** ** Memory accesses that may fail

    The string routines walk pointers.  Where the code can step over the end of
    an object, the model is a value of [mem A]: [Oob] is an access out of the
    object's bounds (undefined behaviour in C), [Fuel] is an exhausted
    recursion budget, which every entry point is proved never to produce. *)
Inductive mem (A : Type) : Type :=
| Ok (a : A)
| Oob
| Fuel.
Arguments Ok {A} a.
Arguments Oob {A}.
Arguments Fuel {A}.

Definition mem_bind {A B} (m : mem A) (k : A -> mem B) : mem B :=
  match m with Ok a => k a | Oob => Oob | Fuel => Fuel end.

Declare Scope mem_scope.
Delimit Scope mem_scope with mem.
Notation "'let*' x := m 'in' k" := (mem_bind m (fun x => k))
  (at level 10, x pattern, m at level 100, k at level 200) : mem_scope.
#[global] Open Scope mem_scope.

(** A pointer into an object is the suffix of the object it points at. *)
Definition deref {A} (p : list A) : mem A :=
  match p with x :: _ => Ok x | [] => Oob end.
Definition next {A} (p : list A) : mem (list A) :=
  match p with _ :: t => Ok t | [] => Oob end.

Lemma mem_bind_ok {A B} (m : mem A) (k : A -> mem B) b :
  mem_bind m k = Ok b -> exists a, m = Ok a /\ k a = Ok b.
Proof. destruct m; simpl; [eauto | done | done]. Qed.

Lemma mem_bind_assoc {A B C} (m : mem A) (f : A -> mem B) (g : B -> mem C) :
  mem_bind (mem_bind m f) g = mem_bind m (fun a => mem_bind (f a) g).
Proof. by destruct m. Qed.

(** A loop over a list that threads a state. *)
Fixpoint mem_fold {A B} (f : B -> A -> mem B) (l : list A) (b : B) : mem B :=
  match l with
  | [] => Ok b
  | x :: t => mem_bind (f b x) (mem_fold f t)
  end.

(** What a computation yields: a value in [P], or an access out of bounds, and
    that only under [E]; never an exhausted budget. *)
Definition outcome {A} (P : A -> Prop) (E : Prop) (m : mem A) : Prop :=
  match m with Ok a => P a | Oob => E | Fuel => False end.

Lemma outcome_bind {A B} (P : A -> Prop) (Q : B -> Prop) E (m : mem A) (k : A -> mem B) :
  outcome P E m -> (forall a, P a -> outcome Q E (k a)) -> outcome Q E (mem_bind m k).
Proof. destruct m; simpl; auto. Qed.

Lemma outcome_weaken {A} (P Q : A -> Prop) (E F : Prop) m :
  outcome P E m -> (forall a, P a -> Q a) -> (E -> F) -> outcome Q F m.
Proof. destruct m; simpl; auto. Qed.

Lemma outcome_fold {A B} (P : B -> Prop) E (f : B -> A -> mem B) l b :
  P b -> (forall b x, x ∈ l -> P b -> outcome P E (f b x)) -> outcome P E (mem_fold f l b).
Proof.
  intros Hb Hf. revert b Hb. induction l as [|x l IH]; intros b Hb; simpl; [done|].
  eapply outcome_bind; [apply Hf; [left|done]|]. intros b' Hb'. apply IH; [|done].
  intros b2 y Hy. apply Hf. by right.
Qed.

Lemma mem_fold_ok {A B} (R : B -> B -> Prop) (f : B -> A -> mem B) l b b' :
  (forall b, R b b) -> (forall a b c, R a b -> R b c -> R a c) -> (forall b x b', f b x = Ok b' -> R b b') ->
  mem_fold f l b = Ok b' -> R b b'.
Proof.
  intros Hr Ht Hf. revert b. induction l as [|x l IH]; intros b; simpl; [by intros [= <-]|]. intros H.
  apply mem_bind_ok in H as (b1 & H1 & H). eauto.
Qed.

(** The value of a run on a concrete input. *)
Definition from_ok {A} (d : A) (m : mem A) : A := match m with Ok a => a | _ => d end.
Definition is_ok {A} (m : mem A) : bool := match m with Ok _ => true | _ => false end.
Lemma from_ok_eq {A} (d : A) m : is_ok m = true -> m = Ok (from_ok d m).
Proof. by destruct m. Qed.
Lemma from_ok_eq3 {A B C} (d : A * B * C) m a : is_ok m = true -> (from_ok d m).1.1 = a ->
  m = Ok (a, (from_ok d m).1.2, (from_ok d m).2).
Proof. destruct m as [[[x y] z]| |]; [|done..]. by intros _ <-. Qed.

(** ** Automation *)
Create HintDb binkd.

(** Turn the boolean tests of the code into propositions. *)
Ltac bools :=
  repeat match goal with
  | H : andb _ _ = true |- _ => apply andb_prop in H; destruct H
  | H : orb _ _ = false |- _ => apply orb_false_iff in H; destruct H
  | H : orb _ _ = true |- _ => apply orb_true_iff in H
  | H : andb _ _ = false |- _ => apply andb_false_iff in H
  | H : negb _ = true |- _ => apply negb_true_iff in H
  | H : negb _ = false |- _ => apply negb_false_iff in H
  | H : (_ =? _) = true |- _ => apply Z.eqb_eq in H
  | H : (_ =? _) = false |- _ => apply Z.eqb_neq in H
  | H : (_ <=? _) = true |- _ => apply Z.leb_le in H
  | H : (_ <=? _) = false |- _ => apply Z.leb_gt in H
  | H : (_ <? _) = true |- _ => apply Z.ltb_lt in H
  | H : (_ <? _) = false |- _ => apply Z.ltb_ge in H
  end.

(** Case analysis on the next test of the goal. *)
Ltac case_if :=
  match goal with
  | |- context [if ?b then _ else _] =>
      lazymatch type of b with
      | bool => let E := fresh "E" in destruct b eqn:E
      end
  end.

(** Equations between lists of bytes: [autorewrite with len] normalises lengths. *)
Create Rewrite HintDb len.
#[export] Hint Rewrite @length_app @length_take @length_drop @length_replicate : len.
