(* ===== verification/CStr.v ===== *)
(** * C characters, strings and numbers

    The part of the C library the sources call on text: [ctype.h] in the "C"
    locale (binkd never calls [setlocale]), the [string.h] functions, and the
    conversions of [printf] and [strtoul].  A [char] is its unsigned value, an
    integer in [0, 256); a C string is the list of its characters before the
    terminating NUL, so [nil] is the empty string and reading at the end of the
    list is reading the NUL ([hd0]). *)
From Stdlib Require Export Ascii.
From Stdlib Require String.
From S2P Require Import Prelude.

Abbreviation char := Z (only parsing).
Abbreviation cstr := (list Z) (only parsing).

Definition chr (a : ascii) : char := Z.of_N (N_of_ascii a).
Definition str (s : String.string) : cstr := map chr (String.list_ascii_of_string s).
Arguments chr _%_char.
Arguments str _%_string.

(** The value of the [char] when the code looks at it as a signed [int]. *)
Definition schar (c : char) : Z := if c <? 128 then c else c - 256.
(** Conversion of an [int] to an unsigned [char]. *)
Definition uchar (z : Z) : char := z mod 256.

Definition is_byte (c : Z) : Prop := 0 <= c < 256.
(** A well-formed C string: bytes, none of them NUL. *)
Definition cstring (s : cstr) : Prop := Forall (fun c => 0 < c < 256) s.

(** [*s] for a string pointer. *)
Definition hd0 (s : cstr) : char := match s with [] => 0 | c :: _ => c end.
(** The string the buffer [b] holds: what precedes its first NUL. *)
Fixpoint c_string (b : list Z) : cstr :=
  match b with
  | [] => []
  | c :: t => if c =? 0 then [] else c :: c_string t
  end.

(** ** ctype.h *)
Definition isdigit (c : char) : bool := (48 <=? c) && (c <=? 57).
Definition isupper (c : char) : bool := (65 <=? c) && (c <=? 90).
Definition islower (c : char) : bool := (97 <=? c) && (c <=? 122).
Definition isalpha (c : char) : bool := isupper c || islower c.
Definition isalnum (c : char) : bool := isalpha c || isdigit c.
Definition isxdigit (c : char) : bool :=
  isdigit c || ((65 <=? c) && (c <=? 70)) || ((97 <=? c) && (c <=? 102)).
Definition isspace (c : char) : bool := ((9 <=? c) && (c <=? 13)) || (c =? 32).
Definition iscntrl (c : char) : bool := ((0 <=? c) && (c <=? 31)) || (c =? 127).
Definition isgraph (c : char) : bool := (33 <=? c) && (c <=? 126).
Definition tolower (c : Z) : Z := if isupper c then c + 32 else c.
Definition toupper (c : Z) : Z := if islower c then c - 32 else c.

(** ** string.h *)
Definition strlen (s : cstr) : Z := Z.of_nat (length s).

Fixpoint strcmp (s1 s2 : cstr) : Z :=
  match s1, s2 with
  | [], _ => - hd0 s2
  | c1 :: _, [] => c1
  | c1 :: t1, c2 :: t2 => if c1 =? c2 then strcmp t1 t2 else c1 - c2
  end.

Fixpoint strncmp (s1 s2 : cstr) (n : nat) : Z :=
  match n with
  | O => 0
  | S n' =>
      if hd0 s1 =? hd0 s2 then
        match s1, s2 with
        | _ :: t1, _ :: t2 => strncmp t1 t2 n'
        | _, _ => 0
        end
      else hd0 s1 - hd0 s2
  end.

(** Index of the first [c]; searching for NUL finds the terminator. *)
Fixpoint strchr (s : cstr) (c : char) : option nat :=
  match s with
  | [] => if c =? 0 then Some 0%nat else None
  | x :: t => if x =? c then Some 0%nat else S <$> strchr t c
  end.

Fixpoint strrchr (s : cstr) (c : char) : option nat :=
  match s with
  | [] => if c =? 0 then Some 0%nat else None
  | x :: t =>
      match strrchr t c with
      | Some i => Some (S i)
      | None => if x =? c then Some 0%nat else None
      end
  end.

Definition in_set (s : cstr) (c : char) : bool :=
  match strchr s c with Some _ => true | None => false end.

Fixpoint is_prefix (p s : cstr) : bool :=
  match p, s with
  | [], _ => true
  | x :: p', y :: s' => (x =? y) && is_prefix p' s'
  | _ :: _, [] => false
  end.

(** The suffix of [s] at the first occurrence of [p]. *)
Fixpoint strstr (s p : cstr) : option cstr :=
  if is_prefix p s then Some s
  else match s with [] => None | _ :: t => strstr t p end.

(** ** Numbers in text *)
Definition LONG_MAX : Z := 2 ^ 63 - 1.
Definition ULONG_MAX : Z := 2 ^ 64 - 1.
Definition UINTMAX_MAX : Z := 2 ^ 64 - 1.
Definition INT_MAX : Z := 2 ^ 31 - 1.

(** Two's complement value of the low [w] bits. *)
Definition wrap (w z : Z) : Z := z mod 2 ^ w.
Definition swrap (w z : Z) : Z :=
  let u := z mod 2 ^ w in if u <? 2 ^ (w - 1) then u else u - 2 ^ w.

Definition digit_char (d : Z) : char := if d <? 10 then 48 + d else 87 + d.

Fixpoint digits (fuel : nat) (base n : Z) (acc : cstr) : cstr :=
  match fuel with
  | O => acc
  | S f =>
      let acc' := digit_char (n mod base) :: acc in
      if n <? base then acc' else digits f base (n / base) acc'
  end.

(** [%u], [%lu] and [%x]: the binary logarithm bounds the number of digits. *)
Definition fmt_base (base n : Z) : cstr :=
  digits (S (Z.to_nat (Z.log2 n))) base n [].
Definition fmt_u (n : Z) : cstr := fmt_base 10 n.
Definition fmt_d (n : Z) : cstr :=
  if n <? 0 then chr "-" :: fmt_u (- n) else fmt_u n.
(** [%0<w>x] of an [unsigned int] argument. *)
Definition fmt_x (width : nat) (n : Z) : cstr :=
  let s := fmt_base 16 (wrap 32 n) in
  replicate (width - length s) (chr "0") ++ s.

Fixpoint skip_spaces (s : cstr) : cstr :=
  match s with
  | c :: t => if isspace c then skip_spaces t else s
  | [] => []
  end.

Fixpoint read_dec (acc : Z) (s : cstr) : Z * cstr :=
  match s with
  | c :: t => if isdigit c then read_dec (acc * 10 + (c - 48)) t else (acc, s)
  | [] => (acc, [])
  end.

(** [strtoumax (s, NULL, 10)] and [strtoul]: saturating, a sign negates modulo
    the width. *)
Definition strtoumax (s : cstr) : Z :=
  let s := skip_spaces s in
  let neg := hd0 s =? chr "-" in
  let s := if neg || (hd0 s =? chr "+") then tl s else s in
  let n := (read_dec 0 s).1 in
  if UINTMAX_MAX <? n then UINTMAX_MAX
  else if neg then wrap 64 (- n) else n.

(** [atol]/[strtol]: saturating at both ends.  The flag is [errno = ERANGE]. *)
Definition strtol (s : cstr) : Z * bool :=
  let s := skip_spaces s in
  let neg := hd0 s =? chr "-" in
  let s := if neg || (hd0 s =? chr "+") then tl s else s in
  let n := (read_dec 0 s).1 in
  if neg then (if LONG_MAX + 1 <? n then (- LONG_MAX - 1, true) else (- n, false))
  else if LONG_MAX <? n then (LONG_MAX, true) else (n, false).

Definition atoi (s : cstr) : Z := swrap 32 (strtol s).1.

(** ** Lemmas *)
Lemma schar_inj a b : is_byte a -> is_byte b -> schar a = schar b -> a = b.
Proof. unfold is_byte, schar. do 2 case_if; bools; lia. Qed.

Lemma uchar_byte z : is_byte (uchar z).
Proof. unfold is_byte, uchar. apply Z.mod_pos_bound. lia. Qed.

Lemma uchar_id c : is_byte c -> uchar c = c.
Proof. intros ?. apply Z.mod_small. done. Qed.

Lemma isdigit_spec c : isdigit c = true <-> 48 <= c <= 57.
Proof. unfold isdigit. rewrite andb_true_iff, !Z.leb_le. lia. Qed.

Lemma cstring_app s t : cstring (s ++ t) <-> cstring s /\ cstring t.
Proof. apply Forall_app. Qed.

Lemma c_string_id s : cstring s -> c_string s = s.
Proof.
  induction 1 as [|c t Hc _ IH]; [done|]. simpl.
  case_if; bools; [lia|]. by rewrite IH.
Qed.

Lemma c_string_nul s t : cstring s -> c_string (s ++ 0 :: t) = s.
Proof.
  induction 1 as [|c u Hc _ IH]; [done|]. simpl.
  case_if; bools; [lia|]. by rewrite IH.
Qed.

Lemma c_string_cstring s : Forall is_byte s -> cstring (c_string s).
Proof.
  induction 1 as [|c t Hc _ IH]; [constructor|]. simpl. unfold is_byte in Hc.
  case_if; bools; constructor; [lia|done].
Qed.

Lemma strcmp_eq s t : cstring s -> cstring t -> strcmp s t = 0 <-> s = t.
Proof.
  intros Hs. revert t. induction Hs as [|c s Hc Hs IH]; intros [|d t] Ht; simpl.
  - done.
  - inversion Ht; subst. split; [lia|done].
  - split; [lia|done].
  - inversion Ht; subst. case_if; bools.
    + rewrite IH by done. split; [by intros ->; f_equal | by intros [=]].
    + split; [lia|]. intros [=]. lia.
Qed.

Lemma strchr_app_r s t c :
  c <> 0 -> ~ In c s -> strchr (s ++ t) c = (fun i => (length s + i)%nat) <$> strchr t c.
Proof.
  intros Hc. induction s as [|x s IH]; intros Hin; simpl.
  - by destruct (strchr t c).
  - case_if; bools; [simpl in Hin; tauto|].
    rewrite IH by (simpl in Hin; tauto). by destruct (strchr t c).
Qed.

Lemma strstr_prefix s p : is_prefix p s = true -> strstr s p = Some s.
Proof. intros H. destruct s; simpl; by rewrite H. Qed.

Lemma is_prefix_app p s : is_prefix p (p ++ s) = true.
Proof. induction p as [|c p IH]; simpl; [done|]. by rewrite Z.eqb_refl. Qed.

Lemma in_set_false s c : c <> 0 -> ~ In c s -> in_set s c = false.
Proof.
  intros Hc. unfold in_set. induction s as [|x s IH]; intros Hin; simpl.
  - case_if; bools; [lia|done].
  - case_if; bools; [simpl in Hin; tauto|]. simpl in Hin.
    destruct (strchr s c); [naive_solver|done].
Qed.

(** *** Printing and reading numbers *)
Definition digit10 (c : char) : Prop := 48 <= c <= 57.

Lemma digits_read fuel : forall n acc a,
  0 <= n < 10 ^ Z.of_nat fuel -> (0 < fuel)%nat ->
  exists k, 0 < k /\ read_dec a (digits fuel 10 n acc) = read_dec (a * 10 ^ k + n) acc.
Proof.
  induction fuel as [|f IH]; intros n acc a Hn Hf; [lia|]. cbn [digits].
  assert (Hm := Z.mod_pos_bound n 10 ltac:(lia)).
  assert (Hd : forall b s, read_dec b (digit_char (n mod 10) :: s) = read_dec (b * 10 + n mod 10) s).
  { intros b s. unfold digit_char. rewrite (proj2 (Z.ltb_lt _ _)) by lia.
    cbn [read_dec]. rewrite (proj2 (isdigit_spec _)) by lia. f_equal. lia. }
  case_if; bools.
  - exists 1. split; [lia|]. rewrite Hd. f_equal. rewrite Z.mod_small; lia.
  - rewrite Nat2Z.inj_succ, Z.pow_succ_r in Hn by lia.
    assert (f <> O) by (intros ->; simpl in Hn; lia).
    destruct (IH (n / 10) (digit_char (n mod 10) :: acc) a) as (k & Hk & ->);
      [split; [apply Z.div_pos; lia | apply Z.div_lt_upper_bound; lia] | lia |].
    exists (k + 1). split; [lia|]. rewrite Hd. f_equal.
    rewrite Z.pow_add_r by lia. rewrite (Z.div_mod n 10) at 3 by lia. lia.
Qed.

Lemma digits_digit10 fuel n acc :
  0 <= n -> Forall digit10 acc -> Forall digit10 (digits fuel 10 n acc).
Proof.
  revert n acc. induction fuel as [|f IH]; intros n acc Hn Hacc; [done|]. cbn [digits].
  assert (Hm := Z.mod_pos_bound n 10 ltac:(lia)).
  assert (digit10 (digit_char (n mod 10))).
  { unfold digit_char, digit10. rewrite (proj2 (Z.ltb_lt _ _)) by lia. lia. }
  case_if; [by constructor|]. apply IH; [apply Z.div_pos; lia | by constructor].
Qed.

Lemma fmt_u_bound n : 0 <= n -> 0 <= n < 10 ^ Z.of_nat (S (Z.to_nat (Z.log2 n))).
Proof.
  intros Hn. split; [done|]. rewrite Nat2Z.inj_succ, Z2Nat.id by apply Z.log2_nonneg.
  destruct (decide (n = 0)) as [->|]; [done|].
  apply Z.lt_le_trans with (2 ^ Z.succ (Z.log2 n)).
  - apply Z.log2_spec. lia.
  - apply Z.pow_le_mono_l. lia.
Qed.

Lemma fmt_u_digit10 n : 0 <= n -> Forall digit10 (fmt_u n).
Proof. intros. by apply digits_digit10. Qed.

Lemma read_dec_stop a s : isdigit (hd0 s) = false -> read_dec a s = (a, s).
Proof. destruct s as [|c t]; simpl; [done|]. by intros ->. Qed.

Lemma digits_app fuel b n acc s : digits fuel b n acc ++ s = digits fuel b n (acc ++ s).
Proof.
  revert n acc. induction fuel as [|f IH]; intros n acc; [done|]. cbn [digits].
  case_if; [done|]. by rewrite IH.
Qed.

Lemma read_dec_fmt_u n s :
  0 <= n -> isdigit (hd0 s) = false -> read_dec 0 (fmt_u n ++ s) = (n, s).
Proof.
  intros Hn Hs. unfold fmt_u, fmt_base. rewrite digits_app. simpl app.
  destruct (digits_read (S (Z.to_nat (Z.log2 n))) n s 0) as (k & _ & ->);
    [by apply fmt_u_bound | lia |].
  simpl. by apply read_dec_stop.
Qed.

Lemma digits_cons fuel b n acc :
  exists c t, digits (S fuel) b n acc = c :: t.
Proof.
  revert n acc. induction fuel as [|f IH]; intros n acc.
  - cbn. case_if; eauto.
  - remember (S f) as g. cbn [digits]. case_if; [eauto|]. subst. apply IH.
Qed.

Lemma fmt_u_head n s : 0 <= n -> exists c t, fmt_u n ++ s = c :: t /\ digit10 c.
Proof.
  intros Hn. assert (H := fmt_u_digit10 n Hn). unfold fmt_u, fmt_base in *.
  destruct (digits_cons (Z.to_nat (Z.log2 n)) 10 n []) as (c & t & E).
  rewrite E in *. inversion H; subst. simpl. eauto.
Qed.

Lemma fmt_u_cstring n : 0 <= n -> cstring (fmt_u n).
Proof.
  intros Hn. eapply Forall_impl; [by apply fmt_u_digit10|]. unfold digit10. lia.
Qed.

(** Skipping blanks and the sign leaves a digit string alone. *)
Lemma strtoumax_fmt_u n s :
  0 <= n <= UINTMAX_MAX -> isdigit (hd0 s) = false -> strtoumax (fmt_u n ++ s) = n.
Proof.
  intros Hn Hs. unfold strtoumax. assert (Hr := read_dec_fmt_u n s ltac:(lia) Hs).
  destruct (fmt_u_head n s ltac:(lia)) as (c & t & E & Hc). rewrite E in *.
  unfold digit10 in Hc. cbn [skip_spaces].
  replace (isspace c) with false
    by (symmetry; unfold isspace; rewrite orb_false_iff, andb_false_iff; lia).
  cbn [hd0]. change (chr "-") with 45. change (chr "+") with 43.
  rewrite !(proj2 (Z.eqb_neq c _)) by lia. cbn [orb]. rewrite Hr. cbn [fst].
  rewrite (proj2 (Z.ltb_ge _ _)) by lia. done.
Qed.

(** *** Hexadecimal *)
Definition xval (c : char) : Z := if c <? 58 then c - 48 else c - 87.
Definition hexval (a : Z) (s : cstr) : Z := fold_left (fun a c => a * 16 + xval c) s a.

Lemma xval_digit d : 0 <= d < 16 -> xval (digit_char d) = d.
Proof. intros. unfold xval, digit_char. repeat case_if; bools; lia. Qed.

Lemma digits_hexval fuel : forall n acc,
  0 <= n < 16 ^ Z.of_nat fuel -> hexval 0 (digits fuel 16 n acc) = hexval n acc.
Proof.
  induction fuel as [|f IH]; intros n acc Hn.
  - simpl in *. by replace n with 0 by lia.
  - cbn [digits]. pose proof (Z.mod_pos_bound n 16 ltac:(lia)) as Hm. case_if; bools.
    + simpl. rewrite xval_digit by lia. f_equal. rewrite Z.mod_small; lia.
    + rewrite Nat2Z.inj_succ, Z.pow_succ_r in Hn by lia.
      rewrite IH by (split; [apply Z.div_pos; lia | apply Z.div_lt_upper_bound; lia]).
      simpl. rewrite xval_digit by lia. f_equal. rewrite (Z.div_mod n 16) at 3 by lia. lia.
Qed.

Lemma log2_pow_bound b n : 2 <= b -> 0 <= n -> 0 <= n < b ^ Z.of_nat (S (Z.to_nat (Z.log2 n))).
Proof.
  intros Hb Hn. split; [done|]. rewrite Nat2Z.inj_succ, Z2Nat.id by apply Z.log2_nonneg.
  destruct (decide (n = 0)) as [-> | ]; [simpl; lia|].
  apply Z.lt_le_trans with (2 ^ Z.succ (Z.log2 n)).
  - apply Z.log2_spec. lia.
  - apply Z.pow_le_mono_l. lia.
Qed.

Lemma hexval_fmt_x w n : 0 <= n < 2 ^ 32 -> hexval 0 (fmt_x w n) = n.
Proof.
  intros Hn. unfold fmt_x, wrap. rewrite Z.mod_small by lia.
  assert (Hz : forall k s, hexval 0 (replicate k (chr "0") ++ s) = hexval 0 s).
  { induction k as [|k IH]; intros s; [done|]. simpl. apply IH. }
  rewrite Hz. unfold fmt_base. rewrite digits_hexval by (apply log2_pow_bound; lia). done.
Qed.

Lemma fmt_x_inj w n1 n2 :
  0 <= n1 < 2 ^ 32 -> 0 <= n2 < 2 ^ 32 -> fmt_x w n1 = fmt_x w n2 -> n1 = n2.
Proof. intros H1 H2 E. by rewrite <- (hexval_fmt_x w n1), <- (hexval_fmt_x w n2), E. Qed.

Lemma digits_length fuel n acc k :
  0 <= n < 16 ^ Z.of_nat k -> (0 < k)%nat -> (length (digits fuel 16 n acc) <= k + length acc)%nat.
Proof.
  revert n acc k. induction fuel as [|f IH]; intros n acc k Hn Hk; cbn [digits]; [lia|].
  case_if; bools; [simpl; lia|]. destruct k as [|[|k]]; [lia | simpl in Hn; lia |].
  rewrite Nat2Z.inj_succ, Z.pow_succ_r in Hn by lia.
  etransitivity; [apply (IH _ _ (S k))|simpl; lia]; [|lia].
  split; [apply Z.div_pos; lia | apply Z.div_lt_upper_bound; lia].
Qed.

Lemma fmt_x_length w n :
  0 <= n < 16 ^ Z.of_nat w -> n < 2 ^ 32 -> (0 < w)%nat -> length (fmt_x w n) = w.
Proof.
  intros Hn H32 Hw. unfold fmt_x, wrap. rewrite Z.mod_small by lia.
  pose proof (digits_length (S (Z.to_nat (Z.log2 n))) n [] w Hn Hw) as Hl.
  unfold fmt_base. rewrite length_app, length_replicate. cbn [length] in Hl. lia.
Qed.

Lemma digits_hex fuel n acc :
  0 <= n -> Forall (fun c => isxdigit c = true) acc ->
  Forall (fun c => isxdigit c = true) (digits fuel 16 n acc).
Proof.
  revert n acc. induction fuel as [|f IH]; intros n acc Hn Hacc; [done|]. cbn [digits].
  pose proof (Z.mod_pos_bound n 16 ltac:(lia)) as Hm.
  assert (isxdigit (digit_char (n mod 16)) = true).
  { unfold digit_char, isxdigit, isdigit.
    case_if; bools; rewrite ?orb_true_iff, ?andb_true_iff, ?Z.leb_le; lia. }
  case_if; [by constructor|]. apply IH; [apply Z.div_pos; lia | by constructor].
Qed.

Lemma fmt_x_hex w n : Forall (fun c => isxdigit c = true) (fmt_x w n).
Proof.
  unfold fmt_x. apply Forall_app. split; [by apply Forall_replicate|].
  apply digits_hex; [|done]. unfold wrap. apply Z.mod_pos_bound. lia.
Qed.

(** The digits printed are lowercase, so their values are below the base. *)
Definition lxdigit (c : char) : Prop := 48 <= c <= 57 \/ 97 <= c <= 102.

Lemma digits_lxdigit fuel n acc :
  0 <= n -> Forall lxdigit acc -> Forall lxdigit (digits fuel 16 n acc).
Proof.
  revert n acc. induction fuel as [|f IH]; intros n acc Hn Hacc; [done|]. cbn [digits].
  pose proof (Z.mod_pos_bound n 16 ltac:(lia)) as Hm.
  assert (lxdigit (digit_char (n mod 16))) by (unfold digit_char, lxdigit; case_if; bools; lia).
  case_if; [by constructor|]. apply IH; [apply Z.div_pos; lia | by constructor].
Qed.

Lemma fmt_x_digits w n : Forall lxdigit (fmt_x w n).
Proof.
  unfold fmt_x. apply Forall_app. split; [apply Forall_replicate; left; cbv; split; discriminate|].
  apply digits_lxdigit; [|done]. unfold wrap. apply Z.mod_pos_bound. lia.
Qed.

Lemma hexval_bound s : Forall lxdigit s -> 0 <= hexval 0 s < 16 ^ Z.of_nat (length s).
Proof.
  intros H. unfold hexval.
  assert (Hg : forall a, 0 <= a ->
    a * 16 ^ Z.of_nat (length s) <= fold_left (fun a c => a * 16 + xval c) s a
      < (a + 1) * 16 ^ Z.of_nat (length s)).
  { induction H as [|c s Hc _ IH]; intros a Ha; [simpl; lia|]. cbn [fold_left length].
    assert (0 <= xval c < 16) by (unfold xval, lxdigit in *; case_if; bools; lia).
    specialize (IH (a * 16 + xval c) ltac:(lia)). rewrite Nat2Z.inj_succ, Z.pow_succ_r by lia.
    pose proof (Z.pow_pos_nonneg 16 (Z.of_nat (length s)) ltac:(lia) ltac:(lia)). nia. }
  specialize (Hg 0 ltac:(lia)). lia.
Qed.

Lemma xdigit_range c : isxdigit c = true -> 48 <= c <= 102 /\ c <> 47 /\ c <> 46.
Proof. unfold isxdigit, isdigit. intros H. rewrite !orb_true_iff, !andb_true_iff, !Z.leb_le in H. lia. Qed.

Lemma fmt_x_cstring w n : cstring (fmt_x w n).
Proof.
  eapply Forall_impl; [apply fmt_x_hex|]. intros c Hc. apply xdigit_range in Hc. lia.
Qed.

Lemma swrap_id w z : 0 < w -> - 2 ^ (w - 1) <= z < 2 ^ (w - 1) -> swrap w z = z.
Proof.
  intros Hw Hz. unfold swrap.
  assert (H2 : 2 ^ w = 2 * 2 ^ (w - 1)) by (rewrite <- Z.pow_succ_r by lia; f_equal; lia).
  destruct (Z_lt_le_dec z 0).
  - replace (z mod 2 ^ w) with (z + 2 ^ w) by (apply (Z.mod_unique _ _ (-1)); lia).
    case_if; bools; lia.
  - rewrite Z.mod_small by lia. case_if; bools; lia.
Qed.

Lemma fmt_d_u n : 0 <= n -> fmt_d n = fmt_u n.
Proof. intros. unfold fmt_d. case_if; bools; [lia|done]. Qed.

#[export] Hint Resolve fmt_x_cstring uchar_byte fmt_u_cstring c_string_cstring : binkd.
