(* ===== verification/Snprintf.v ===== *)
(** * snprintf.c: formatted text for systems without snprintf

    [dopr] is a state machine over the format.  The array it writes is part of
    the state, so an access outside of it shows.  The arguments are a list of
    typed values; asking for an argument of a type that is not next is
    undefined, like an access out of bounds.  The arithmetic of [long double] is
    a record of operations. *)
From Stdlib Require QArith_base.
From S2P Require Import Prelude CStr.

Record LDOUBLE := mkLDOUBLE {
  ld : Type;
  ld_of : Z -> ld;
  ld_half : ld;
  ld_neg : ld -> ld;
  ld_mul : ld -> ld -> ld;
  ld_sub : ld -> ld -> ld;
  ld_lt : ld -> ld -> bool;
  ld_le : ld -> ld -> bool;
  ld_long : ld -> Z                    (* the conversion to [long] *)
}.

(** The kinds of arguments that are told apart. *)
Inductive ARG (F : Type) :=
| A_int (v : Z) | A_long (v : Z) | A_int64 (v : Z)
| A_double (x : F) | A_ldouble (x : F)
| A_string (s : option cstr)           (* [None] is a null pointer *)
| A_pointer (a : Z)
| A_store.                             (* where [%n] stores *)
Arguments A_int {F}. Arguments A_long {F}. Arguments A_int64 {F}. Arguments A_double {F}.
Arguments A_ldouble {F}. Arguments A_string {F}. Arguments A_pointer {F}. Arguments A_store {F}.

Inductive DP_STATE := DP_S_DEFAULT | DP_S_FLAGS | DP_S_MIN | DP_S_DOT | DP_S_MAX | DP_S_MOD | DP_S_CONV | DP_S_DONE.
Definition DP_F_MINUS : Z := 1.
Definition DP_F_PLUS : Z := 2.
Definition DP_F_SPACE : Z := 4.
Definition DP_F_NUM : Z := 8.
Definition DP_F_ZERO : Z := 16.
Definition DP_F_UP : Z := 32.
Definition DP_F_UNSIGNED : Z := 64.
Definition has_flag (flags bit : Z) : bool := negb (Z.land flags bit =? 0).
Inductive CFLAGS := DP_C_NONE | DP_C_SHORT | DP_C_LONG | DP_C_LDOUBLE.
Definition char_to_int (c : char) : Z := c - 48.

(** ** The array *)
Definition store (buf : list Z) (i : Z) (c : Z) : mem (list Z) :=
  if (0 <=? i) && (i <? strlen buf) then Ok (<[Z.to_nat i := c]> buf) else Oob.
Definition dopr_outch (maxlen : Z) (b : list Z * Z) (c : char) : mem (list Z * Z) :=
  let '(buf, currlen) := b in
  if currlen <? maxlen then let* buf := store buf currlen c in Ok (buf, currlen + 1) else Ok b.
(** The characters of a field, in turn. *)
Definition outs (maxlen : Z) (t : cstr) (b : list Z * Z) : mem (list Z * Z) := mem_fold (dopr_outch maxlen) t b.

Definition pad_spaces (n : Z) : cstr := replicate (Z.to_nat n) 32.
Definition zeros (n : Z) : cstr := replicate (Z.to_nat n) 48.

(** ** Strings *)
(** The characters copied while [cnt < max]. *)
Definition upto (n : Z) (s : cstr) : cstr := take (Z.to_nat (Z.min n (strlen s))) s.
Definition fmtstr (value : option cstr) (flags min max : Z) : cstr :=
  let value := default (str "<NULL>") value in
  let padlen := Z.max 0 (swrap 32 (min - strlen value)) in
  let left := has_flag flags DP_F_MINUS in
  let s1 := upto max (if left then [] else pad_spaces padlen) in
  let s2 := upto (max - strlen s1) value in
  let s3 := upto (max - strlen s1 - strlen s2) (if left then pad_spaces padlen else []) in
  s1 ++ s2 ++ s3.

(** ** Integers *)
Definition digit_of (caps : bool) (d : Z) : char :=
  nth (Z.to_nat d) (str (if caps then "0123456789ABCDEF" else "0123456789abcdef")) 0.
(** The digits, the last one first. *)
Fixpoint convert (room : nat) (caps : bool) (base u : Z) : cstr :=
  match room with
  | O => []
  | S r => digit_of caps (u mod base) :: (if u / base =? 0 then [] else convert r caps base (u / base))
  end.
Definition signvalue (neg : bool) (flags : Z) : cstr :=
  if neg then [chr "-"] else if has_flag flags DP_F_PLUS then [chr "+"] else if has_flag flags DP_F_SPACE then [32] else [].
Definition fmtint (value base min max flags : Z) : cstr :=
  let max := if max <? 0 then 0 else max in
  let signed := negb (has_flag flags DP_F_UNSIGNED) in
  let neg := signed && (value <? 0) in
  let uvalue := if neg then wrap 64 (- value) else wrap 64 value in
  let sign := if signed then signvalue neg flags else [] in
  let conv := convert 20 (has_flag flags DP_F_UP) base uvalue in
  let conv := if (length conv =? 20)%nat then take 19 conv else conv in
  let place := strlen conv in
  let zpadlen := Z.max 0 (max - place) in
  let spadlen := Z.max 0 (swrap 32 (min - Z.max max place - strlen sign)) in
  let '(zpadlen, spadlen) := if has_flag flags DP_F_ZERO then (Z.max zpadlen spadlen, 0) else (zpadlen, spadlen) in
  let left := has_flag flags DP_F_MINUS in
  (if left then [] else pad_spaces spadlen) ++ sign ++ zeros zpadlen ++ rev conv ++ (if left then pad_spaces spadlen else []).

(** ** Fractions *)
Section Dopr.
Context (L : LDOUBLE) (long_bits : Z).
Abbreviation F := (ld L).
Definition abs_val (x : F) : F := if ld_lt L x (ld_of L 0) then ld_neg L x else x.
Fixpoint pow10 (exp : nat) : F := match exp with O => ld_of L 1 | S e => ld_mul L (pow10 e) (ld_of L 10) end.
Definition round (x : F) : Z :=
  let intpart := ld_long L x in
  if ld_le L (ld_half L) (ld_sub L x (ld_of L intpart)) then swrap long_bits (intpart + 1) else intpart.
(** Digits of a [long]; the index of a negative one is before the table. *)
Fixpoint convert_long (room : nat) (n : Z) : mem cstr :=
  match room with
  | O => Ok []
  | S r =>
      if Z.rem n 10 <? 0 then Oob else
      let* t := if Z.quot n 10 =? 0 then Ok [] else convert_long r (Z.quot n 10) in
      Ok (digit_of false (Z.rem n 10) :: t)
  end.
Definition fmtfp (fvalue : F) (min max flags : Z) : mem cstr :=
  let max := if max <? 0 then 6 else max in
  let ufvalue := abs_val fvalue in
  let sign := signvalue (ld_lt L fvalue (ld_of L 0)) flags in
  let intpart := ld_long L ufvalue in
  let max := if 9 <? max then 9 else max in
  let p := pow10 (Z.to_nat max) in
  let fracpart := round (ld_mul L p (ld_sub L ufvalue (ld_of L intpart))) in
  let '(intpart, fracpart) := if ld_le L p (ld_of L fracpart) then (swrap long_bits (intpart + 1), fracpart - ld_long L p)
                              else (intpart, fracpart) in
  let* iconvert := convert_long 20 intpart in
  let iconvert := if (length iconvert =? 20)%nat then take 19 iconvert else iconvert in
  let* fconvert := convert_long 20 fracpart in
  let fconvert := if (length fconvert =? 20)%nat then take 19 fconvert else fconvert in
  let padlen := Z.max 0 (swrap 32 (min - strlen iconvert - max - 1 - strlen sign)) in
  let zpadlen := Z.max 0 (max - strlen fconvert) in
  let left := has_flag flags DP_F_MINUS in
  let body := rev iconvert ++ chr "." :: rev fconvert ++ zeros zpadlen in
  Ok (if left then sign ++ body ++ pad_spaces padlen
      else if has_flag flags DP_F_ZERO && (0 <? padlen) then sign ++ zeros (padlen - strlen sign) ++ body
      else pad_spaces padlen ++ sign ++ body).

(** ** Arguments *)
Definition va_int (c : CFLAGS) (uns : bool) (args : list (ARG F)) : mem (Z * list (ARG F)) :=
  match c, args with
  | DP_C_SHORT, A_int v :: t => Ok (if uns then wrap 16 v else swrap 16 v, t)
  | DP_C_LONG, A_long v :: t => Ok (if uns then swrap 64 (wrap long_bits v) else swrap long_bits v, t)
  | DP_C_LDOUBLE, A_int64 v :: t => Ok (swrap 64 v, t)
  | DP_C_NONE, A_int v :: t => Ok (if uns then wrap 32 v else swrap 32 v, t)
  | _, _ => Oob
  end.
Definition va_double (c : CFLAGS) (args : list (ARG F)) : mem (F * list (ARG F)) :=
  match c, args with
  | DP_C_LDOUBLE, A_ldouble x :: t => Ok (x, t)
  | DP_C_LDOUBLE, _ => Oob
  | _, A_double x :: t => Ok (x, t)
  | _, _ => Oob
  end.
(** [*] for a width or a precision. *)
Definition va_star (args : list (ARG F)) : mem (Z * list (ARG F)) := va_int DP_C_NONE false args.
(** What [%n] stores of [currlen]. *)
Definition stored (c : CFLAGS) (currlen : Z) : Z :=
  swrap match c with DP_C_SHORT => 16 | DP_C_LONG => long_bits | DP_C_LDOUBLE => 64 | DP_C_NONE => 32 end currlen.

(** A conversion: the text it writes, what it stores, the arguments left.  The
    characters that convert nothing are skipped, and [%e] and [%g] write
    nothing.  [nomax] is the limit on strings without a precision. *)
Definition conversion (nomax currlen : Z) (ch : char) (flags : Z) (c : CFLAGS) (min max : Z) (args : list (ARG F)) :
    mem (cstr * list Z * list (ARG F)) :=
  let int base uns fl := let* r := va_int c uns args in Ok (fmtint r.1 base min max (Z.lor flags fl), [], r.2) in
  if (ch =? chr "d") || (ch =? chr "i") then int 10 false 0
  else if ch =? chr "o" then int 8 true DP_F_UNSIGNED
  else if ch =? chr "u" then int 10 true DP_F_UNSIGNED
  else if ch =? chr "X" then int 16 true (Z.lor DP_F_UP DP_F_UNSIGNED)
  else if ch =? chr "x" then int 16 true DP_F_UNSIGNED
  else if ch =? chr "f" then let* r := va_double c args in let* t := fmtfp r.1 min max flags in Ok (t, [], r.2)
  else if in_set (str "EeGg") ch then let* r := va_double c args in Ok ([], [], r.2)
  else if ch =? chr "c" then match args with A_int v :: t => Ok ([uchar v], [], t) | _ => Oob end
  else if ch =? chr "s" then
    match args with
    | A_string s :: t => Ok (fmtstr s flags min (if max <? 0 then nomax else max), [], t)
    | _ => Oob
    end
  else if ch =? chr "p" then match args with A_pointer a :: t => Ok (fmtint (swrap long_bits a) 16 min max flags, [], t) | _ => Oob end
  else if ch =? chr "n" then match args with A_store :: t => Ok ([], [stored c currlen], t) | _ => Oob end
  else if ch =? chr "%" then Ok ([ch], [], args)
  else Ok ([], [], args).

(** ** The machine *)
Record DOPR := mkDOPR {
  d_ch : char; d_format : list char;   (* what [format] points at, with the final NUL *)
  d_state : DP_STATE; d_flags : Z; d_cflags : CFLAGS; d_min : Z; d_max : Z;
  d_args : list (ARG F);
  d_buf : list Z * Z;                  (* [buffer] and [currlen] *)
  d_stores : list Z                    (* by [%n], in order *)
}.
#[local] Instance eta_DOPR : Eta DOPR := fun d =>
  mkDOPR (d_ch d) (d_format d) (d_state d) (d_flags d) (d_cflags d) (d_min d) (d_max d) (d_args d) (d_buf d) (d_stores d).
(** [ch = *format++] *)
Definition advance (d : DOPR) : mem DOPR :=
  let* c := deref (d_format d) in let* f := next (d_format d) in Ok (d <| d_ch := c |> <| d_format := f |>).
Definition flag_bit (ch : char) : option Z :=
  if ch =? chr "-" then Some DP_F_MINUS else if ch =? chr "+" then Some DP_F_PLUS else if ch =? chr " " then Some DP_F_SPACE
  else if ch =? chr "#" then Some DP_F_NUM else if ch =? chr "0" then Some DP_F_ZERO else None.
Definition is_64 (f : list char) : bool := match f with a :: b :: _ => (a =? chr "6") && (b =? chr "4") | _ => false end.

(** One pass of the loop. *)
Definition dopr_step (maxlen : Z) (d : DOPR) : mem DOPR :=
  let ch := d_ch d in
  match d_state d with
  | DP_S_DEFAULT =>
      if ch =? chr "%" then advance (d <| d_state := DP_S_FLAGS |>)
      else let* b := dopr_outch maxlen (d_buf d) ch in advance (d <| d_buf := b |>)
  | DP_S_FLAGS =>
      match flag_bit ch with
      | Some bit => advance (d <| d_flags ::= Z.lor bit |>)
      | None => Ok (d <| d_state := DP_S_MIN |>)
      end
  | DP_S_MIN =>
      if isdigit ch then advance (d <| d_min ::= fun m => swrap 32 (10 * m + char_to_int ch) |>)
      else if ch =? chr "*" then
        let* r := va_star (d_args d) in advance (d <| d_min := r.1 |> <| d_args := r.2 |> <| d_state := DP_S_DOT |>)
      else Ok (d <| d_state := DP_S_DOT |>)
  | DP_S_DOT => if ch =? chr "." then advance (d <| d_state := DP_S_MAX |>) else Ok (d <| d_state := DP_S_MOD |>)
  | DP_S_MAX =>
      if isdigit ch then advance (d <| d_max ::= fun m => swrap 32 (10 * (if m <? 0 then 0 else m) + char_to_int ch) |>)
      else if ch =? chr "*" then
        let* r := va_star (d_args d) in advance (d <| d_max := r.1 |> <| d_args := r.2 |> <| d_state := DP_S_MOD |>)
      else Ok (d <| d_state := DP_S_MOD |>)
  | DP_S_MOD =>
      let d := d <| d_state := DP_S_CONV |> in
      if ch =? chr "h" then advance (d <| d_cflags := DP_C_SHORT |>)
      else if ch =? chr "l" then
        let* d := advance (d <| d_cflags := DP_C_LONG |>) in
        if d_ch d =? chr "l" then advance (d <| d_cflags := DP_C_LDOUBLE |>) else Ok d
      else if ch =? chr "L" then advance (d <| d_cflags := DP_C_LDOUBLE |>)
      else if (ch =? chr "I") && is_64 (d_format d) then advance (d <| d_cflags := DP_C_LDOUBLE |> <| d_format ::= drop 2 |>)
      else Ok d
  | DP_S_CONV =>
      (* [int max = maxlen] *)
      let* r := conversion (swrap 32 maxlen) (d_buf d).2 ch (d_flags d) (d_cflags d) (d_min d) (d_max d) (d_args d) in
      let* b := outs maxlen r.1.1 (d_buf d) in
      let* d := if ch =? chr "w" then advance d else Ok d in
      let* d := advance d in
      Ok (d <| d_buf := b |> <| d_stores ::= fun s => s ++ r.1.2 |> <| d_args := r.2 |> <| d_state := DP_S_DEFAULT |>
            <| d_flags := 0 |> <| d_cflags := DP_C_NONE |> <| d_min := 0 |> <| d_max := -1 |>)
  | DP_S_DONE => Ok d
  end.
Fixpoint dopr_loop (fuel : nat) (maxlen : Z) (d : DOPR) : mem DOPR :=
  match fuel with
  | O => Fuel
  | S n =>
      if (d_ch d =? 0) || (maxlen <=? (d_buf d).2) then Ok (d <| d_state := DP_S_DONE |>)
      else let* d := dopr_step maxlen d in dopr_loop n maxlen d
  end.
(** Seven states at most are passed without reading on. *)
Definition dopr_fuel (format : cstr) : nat := 8 * length format + 8.
(** A terminator follows; [maxlen - 1] is unsigned. *)
Definition dopr (buffer : list Z) (maxlen : Z) (format : cstr) (args : list (ARG F)) : mem (list Z * list Z) :=
  let* d := advance (mkDOPR 0 (format ++ [0]) DP_S_DEFAULT 0 DP_C_NONE 0 (-1) args (buffer, 0) []) in
  let* d := dopr_loop (dopr_fuel format) maxlen d in
  let '(buf, currlen) := d_buf d in
  let last := wrap 64 (maxlen - 1) in
  let* buf := store buf (if currlen <? last then currlen else last) 0 in
  Ok (buf, d_stores d).
(** The result is the array, the values stored and what is returned.
    [snprintf] returns the same: the length of what is in the array. *)
Definition vsnprintf (buffer : list Z) (count : Z) (format : cstr) (args : list (ARG F)) : mem (list Z * list Z * Z) :=
  let* buffer := store buffer 0 0 in
  let* r := dopr buffer count format args in
  Ok (r.1, r.2, strlen (c_string r.1)).

(** ** A reference: the format read from left to right

    The text is not limited.  Numbers that do not fit [int], and a [*] after
    digits, are undefined, as in the C standard. *)
Fixpoint flags_of (f : cstr) (fl : Z) : Z * cstr :=
  match f with
  | c :: t => match flag_bit c with Some b => flags_of t (Z.lor b fl) | None => (fl, f) end
  | [] => (fl, [])
  end.
Definition number_of (f : cstr) (none : Z) (args : list (ARG F)) : mem (Z * cstr * list (ARG F)) :=
  if hd0 f =? chr "*" then let* r := va_star args in Ok (r.1, tl f, r.2)
  else let '(n, t) := read_dec 0 f in
       if (INT_MAX <? n) || (hd0 t =? chr "*") then Oob else Ok (if isdigit (hd0 f) then n else none, t, args).
Definition precision_of (f : cstr) (args : list (ARG F)) : mem (Z * cstr * list (ARG F)) :=
  if hd0 f =? chr "." then number_of (tl f) (-1) args else Ok (-1, f, args).
Definition modifier_of (f : cstr) : CFLAGS * cstr :=
  if hd0 f =? chr "h" then (DP_C_SHORT, tl f)
  else if hd0 f =? chr "l" then (if hd0 (tl f) =? chr "l" then (DP_C_LDOUBLE, tl (tl f)) else (DP_C_LONG, tl f))
  else if hd0 f =? chr "L" then (DP_C_LDOUBLE, tl f)
  else if (hd0 f =? chr "I") && is_64 (tl f) then (DP_C_LDOUBLE, drop 3 f)
  else (DP_C_NONE, f).
(** The text and the values stored for a format, after those there are. *)
Fixpoint printf (fuel : nat) (f : cstr) (args : list (ARG F)) (out : cstr) (sts : list Z) : mem (cstr * list Z) :=
  match fuel with
  | O => Fuel
  | S n =>
      match f with
      | [] => Ok (out, sts)
      | c :: t =>
          if c =? chr "%" then
            let '(fl, t) := flags_of t 0 in
            let* (w, t, args) := number_of t 0 args in
            let* (p, t, args) := precision_of t args in
            let '(cf, t) := modifier_of t in
            match t with
            | [] => Ok (out, sts)
            | ch :: t =>
                let* (x, s, args) := conversion INT_MAX (strlen out) ch fl cf w p args in
                if (ch =? chr "w") && bool_decide (t = []) then Oob
                else printf n (if ch =? chr "w" then tl t else t) args (out ++ x) (sts ++ s)
            end
          else printf n t args (out ++ [c]) sts
      end
  end.
End Dopr.

(** ** What is in the array *)

(** After the text [out], cut at [maxlen], the rest is as it was. *)
Definition written (buf0 : list Z) (maxlen : Z) (out : cstr) (b : list Z * Z) : Prop :=
  let s := take (Z.to_nat maxlen) out in b = (s ++ drop (length s) buf0, strlen s).
Lemma written_len buf0 maxlen out b : written buf0 maxlen out b -> b.2 < maxlen -> b.2 = strlen out /\ take (Z.to_nat maxlen) out = out.
Proof.
  intros -> H. cbn [snd] in *. unfold strlen in *. rewrite length_take in *. assert (length out <= Z.to_nat maxlen)%nat by lia.
  split; [lia|by apply take_ge].
Qed.
Lemma written_full buf0 maxlen out t b : 0 <= maxlen -> written buf0 maxlen out b -> maxlen <= b.2 -> written buf0 maxlen (out ++ t) b.
Proof.
  intros Hm -> H. cbn [snd] in *. unfold written, strlen in *. rewrite length_take in *.
  rewrite take_app_le by lia. by rewrite length_take.
Qed.
Lemma outch_written buf0 maxlen out c b : 0 <= maxlen <= strlen buf0 -> written buf0 maxlen out b ->
  exists b', dopr_outch maxlen b c = Ok b' /\ written buf0 maxlen (out ++ [c]) b'.
Proof.
  intros Hm Hw. destruct b as [buf len]. unfold dopr_outch. destruct (len <? maxlen) eqn:El; bools.
  - destruct (written_len _ _ _ _ Hw El) as [E1 E2]. cbn [snd] in E1. unfold written in Hw. rewrite E2 in Hw.
    injection Hw as -> ->. unfold store, strlen in *. rewrite length_app, length_drop.
    rewrite (proj2 (Z.leb_le 0 _)), (proj2 (Z.ltb_lt _ _)) by lia. cbn [andb mem_bind].
    eexists. split; [done|]. unfold written. rewrite take_ge by (rewrite length_app; simpl; lia).
    unfold strlen. rewrite length_app. cbn [length]. f_equal; [|lia]. rewrite Nat2Z.id.
    rewrite insert_app_r_alt by lia. rewrite Nat.sub_diag.
    destruct (drop (length out) buf0) as [|x t] eqn:Ed; [apply (f_equal length) in Ed; rewrite length_drop in Ed; simpl in Ed; lia|].
    cbn. rewrite <- app_assoc. cbn. do 2 f_equal. rewrite <- drop_drop, Ed. done.
  - exists (buf, len). split; [done|]. apply written_full; [lia|done|exact El].
Qed.
Lemma outs_written buf0 maxlen t : 0 <= maxlen <= strlen buf0 -> forall out b, written buf0 maxlen out b ->
  exists b', outs maxlen t b = Ok b' /\ written buf0 maxlen (out ++ t) b'.
Proof.
  intros Hm. unfold outs. induction t as [|c t IH]; intros out b Hw; cbn [mem_fold]; [exists b; by rewrite app_nil_r|].
  destruct (outch_written _ _ _ c _ Hm Hw) as (b1 & -> & H1). cbn [mem_bind].
  destruct (IH _ _ H1) as (b2 & H2 & H3). exists b2. split; [done|]. by rewrite <- app_assoc in H3.
Qed.
(** Only the part of a text that fits matters. *)
Lemma written_cut buf0 maxlen out t1 t2 b : take (Z.to_nat maxlen) t1 = take (Z.to_nat maxlen) t2 ->
  written buf0 maxlen (out ++ t1) b -> written buf0 maxlen (out ++ t2) b.
Proof.
  intros E. unfold written. replace (take (Z.to_nat maxlen) (out ++ t2)) with (take (Z.to_nat maxlen) (out ++ t1)); [done|].
  rewrite !take_app. f_equal. replace (Z.to_nat maxlen - length out)%nat with (Nat.min (Z.to_nat maxlen - length out) (Z.to_nat maxlen)) by lia.
  by rewrite <- !take_take, E.
Qed.

Lemma upto_app n a b : 0 <= n -> upto n (a ++ b) = upto n a ++ upto (n - strlen (upto n a)) b.
Proof.
  intros Hn. unfold upto, strlen. rewrite length_app, length_take, take_app. 
  destruct (decide (n <= Z.of_nat (length a))) as [H|H].
  - replace (Z.to_nat (Z.min n (Z.of_nat (length a + length b))) - length a)%nat with 0%nat by lia.
    f_equal; [f_equal; lia|]. rewrite take_0. replace (Z.to_nat (Z.min (n - _) _)) with 0%nat by lia. done.
  - rewrite !take_ge with (l := a) by lia. f_equal. f_equal. lia.
Qed.
Lemma fmtstr_limit value flags min max : 0 <= max -> exists full, forall max', 0 <= max' -> fmtstr value flags min max' = upto max' full.
Proof.
  intros _. set (v := default (str "<NULL>") value). set (pad := pad_spaces (Z.max 0 (swrap 32 (min - strlen v)))).
  exists (if has_flag flags DP_F_MINUS then v ++ pad else pad ++ v). intros max' H. unfold fmtstr. fold v. fold pad.
  assert (Hn : forall n, upto n [] = []) by (intros n; unfold upto; by rewrite take_nil).
  destruct (has_flag flags DP_F_MINUS).
  - rewrite Hn. cbn. rewrite Z.sub_0_r. by rewrite upto_app.
  - rewrite Hn, app_nil_r. by rewrite upto_app.
Qed.

(** ** The machine as a step relation *)
Section Machine.
Context (L : LDOUBLE) (long_bits maxlen : Z).
Abbreviation DOPR := (DOPR L).
Abbreviation step := (dopr_step L long_bits maxlen).
Abbreviation loop := (dopr_loop L long_bits).

#[local] Instance eta_machine : Eta DOPR := fun d => mkDOPR L (d_ch L d) (d_format L d) (d_state L d) (d_flags L d) (d_cflags L d)
  (d_min L d) (d_max L d) (d_args L d) (d_buf L d) (d_stores L d).
Definition steps (d d' : DOPR) : Prop := d_ch L d <> 0 /\ (d_buf L d).2 < maxlen /\ step d = Ok d'.
(** The machine in front of the format [f]. *)
Definition in_front (f : cstr) (st : DP_STATE) (fl : Z) (c : CFLAGS) (mn mx : Z) (args : list (ARG (ld L))) (b : list Z * Z) (s : list Z) : DOPR :=
  mkDOPR L (hd0 f) (tl (f ++ [0])) st fl c mn mx args b s.
(** [d'] is reached, or the end of the format before, with the same result. *)
Definition reach (d d' : DOPR) : Prop := exists d1, rtc steps d d1 /\
  (d1 = d' \/ d_ch L d1 = 0 /\ d_ch L d' = 0 /\ d_buf L d1 = d_buf L d' /\ d_stores L d1 = d_stores L d').

Lemma reach_refl d : reach d d.
Proof. exists d. split; [done|by left]. Qed.
Lemma reach_step d d1 d2 : steps d d1 -> reach d1 d2 -> reach d d2.
Proof. intros H (d3 & H1 & H2). exists d3. split; [by eapply rtc_l|done]. Qed.
Lemma reach_trans d d1 d2 : reach d d1 -> reach d1 d2 -> reach d d2.
Proof.
  intros (d3 & H1 & H2) (d4 & H3 & H4). destruct H2 as [->|(A & B & C & D)]; [exists d4; split; [by etrans|done]|].
  assert (d4 = d1) as ->. { destruct H3 as [|? ? ? (X & _) _]; [done|by rewrite B in X]. }
  exists d3. split; [done|]. right. destruct H4 as [->|(_ & E & F & G)]; [done|]. split_and!; [done|done|congruence|congruence].
Qed.
Lemma reach_end d d' : d_ch L d = 0 -> d_ch L d' = 0 -> d_buf L d = d_buf L d' -> d_stores L d = d_stores L d' -> reach d d'.
Proof. intros. exists d. split; [done|by right]. Qed.
Lemma advance_at x f st fl cf mn mx args b s :
  advance L (mkDOPR L x (f ++ [0]) st fl cf mn mx args b s) = Ok (in_front f st fl cf mn mx args b s).
Proof. by destruct f. Qed.
(** A pass of the loop that reads on, and one that does not. *)
Lemma reach_at c f st fl cf mn mx args b s d1 d2 : c <> 0 -> b.2 < maxlen -> step (in_front (c :: f) st fl cf mn mx args b s) = Ok d1 ->
  reach d1 d2 -> reach (in_front (c :: f) st fl cf mn mx args b s) d2.
Proof. intros Hc Hb E. by apply reach_step. Qed.

Lemma flags_reach f : forall fl cf mn mx args b s, cstring f -> b.2 < maxlen ->
  reach (in_front f DP_S_FLAGS fl cf mn mx args b s) (in_front (flags_of f fl).2 DP_S_MIN (flags_of f fl).1 cf mn mx args b s).
Proof.
  induction f as [|c f IH]; intros fl cf mn mx args b s Hf Hb; [by apply reach_end|].
  apply Forall_cons in Hf as [Hc Hf]. cbn [flags_of]. destruct (flag_bit c) as [bit|] eqn:Eb.
  - eapply reach_at; [lia|done| |by apply IH]. unfold dopr_step. cbn. rewrite Eb. apply advance_at.
  - eapply reach_at; [lia|done| |apply reach_refl]. unfold dopr_step. cbn. by rewrite Eb.
Qed.

Lemma isdigit_of c : isdigit c = true -> 48 <= c <= 57.
Proof. apply isdigit_spec. Qed.
Lemma read_dec_le f : forall a, 0 <= a -> a <= (read_dec a f).1.
Proof.
  induction f as [|c f IH]; intros a Ha; cbn [read_dec]; [done|]. destruct (isdigit c) eqn:E; [|done]. apply isdigit_of in E.
  etrans; [|apply IH]; lia.
Qed.
Lemma digit_step a c f : isdigit c = true -> 0 <= a -> (read_dec a (c :: f)).1 <= INT_MAX ->
  swrap 32 (10 * a + char_to_int c) = a * 10 + (c - 48) /\ 0 <= a * 10 + (c - 48).
Proof.
  intros E Ha. cbn [read_dec]. rewrite E. apply isdigit_of in E. pose proof (read_dec_le f (a * 10 + (c - 48)) ltac:(lia)) as H.
  unfold char_to_int, INT_MAX in *. intros ?. rewrite swrap_id by lia. lia.
Qed.
Lemma min_reach f : forall fl cf mn mx args b s, cstring f -> b.2 < maxlen -> 0 <= mn -> (read_dec mn f).1 <= INT_MAX ->
  reach (in_front f DP_S_MIN fl cf mn mx args b s) (in_front (read_dec mn f).2 DP_S_MIN fl cf (read_dec mn f).1 mx args b s).
Proof.
  induction f as [|c f IH]; intros fl cf mn mx args b s Hf Hb Hm Hn; [by apply reach_refl|].
  apply Forall_cons in Hf as [Hc Hf]. cbn [read_dec]. destruct (isdigit c) eqn:E; [|apply reach_refl].
  destruct (digit_step mn c f E Hm Hn) as [E1 E2]. cbn [read_dec] in Hn. rewrite E in Hn.
  eapply reach_at; [lia|done| |apply IH; [done|done|exact E2|done]]. unfold dopr_step. cbn. rewrite E, E1. apply advance_at.
Qed.
Lemma max_reach f : forall fl cf mn mx args b s, cstring f -> b.2 < maxlen -> 0 <= mx -> (read_dec mx f).1 <= INT_MAX ->
  reach (in_front f DP_S_MAX fl cf mn mx args b s) (in_front (read_dec mx f).2 DP_S_MAX fl cf mn (read_dec mx f).1 args b s).
Proof.
  induction f as [|c f IH]; intros fl cf mn mx args b s Hf Hb Hm Hn; [by apply reach_refl|].
  apply Forall_cons in Hf as [Hc Hf]. cbn [read_dec]. destruct (isdigit c) eqn:E; [|apply reach_refl].
  destruct (digit_step mx c f E Hm Hn) as [E1 E2]. cbn [read_dec] in Hn. rewrite E in Hn.
  eapply reach_at; [lia|done| |apply IH; [done|done|exact E2|done]]. unfold dopr_step. cbn. rewrite E, (proj2 (Z.ltb_ge mx 0)), E1 by done. apply advance_at.
Qed.
Lemma read_dec_suffix f : forall a, exists p, f = p ++ (read_dec a f).2 /\ (isdigit (hd0 (read_dec a f).2) = false).
Proof.
  induction f as [|c f IH]; intros a; cbn [read_dec]; [by exists []|]. destruct (isdigit c) eqn:E; [|by exists []].
  destruct (IH (a * 10 + (c - 48))) as (p & Hp & Hd). exists (c :: p). split; [cbn; by rewrite <- Hp|done].
Qed.
Lemma cstring_suffix p f : cstring (p ++ f) -> cstring f.
Proof. intros H. by apply cstring_app in H as [_ H]. Qed.
Lemma width_reach f fl cf mx args b s w t args' : cstring f -> b.2 < maxlen -> number_of L long_bits f 0 args = Ok (w, t, args') ->
  cstring t /\ reach (in_front f DP_S_MIN fl cf 0 mx args b s) (in_front t DP_S_DOT fl cf w mx args' b s).
Proof.
  intros Hf Hb. unfold number_of. destruct (hd0 f =? chr "*") eqn:Es; bools.
  - intros E. apply mem_bind_ok in E as ([v a] & Ea & E). injection E as <- <- <-. cbn [fst snd].
    destruct f as [|c f]; [done|]. cbn [hd0] in Es. subst c. cbn [tl]. split; [by apply Forall_cons in Hf as [_ ?]|].
    eapply reach_at; [done|done| |apply reach_refl]. unfold dopr_step. cbn -[va_star]. rewrite Ea. apply advance_at.
  - destruct (read_dec 0 f) as [n f'] eqn:Ed. destruct (INT_MAX <? n) eqn:En; [done|]. apply Z.ltb_ge in En.
    destruct (hd0 f' =? chr "*") eqn:Es'; [done|]. cbn [orb]. intros [= <- <- <-].
    destruct (read_dec_suffix f 0) as (p & Hp & Hd). rewrite Ed in Hp, Hd. cbn [snd] in Hp, Hd.
    assert (Hf' : cstring f') by (apply (cstring_suffix p); by rewrite <- Hp). split; [done|].
    pose proof (min_reach f fl cf 0 mx args b s Hf Hb ltac:(lia)) as Hr. rewrite Ed in Hr. specialize (Hr En). cbn [fst snd] in Hr.
    replace (if isdigit (hd0 f) then n else 0) with n.
    2:{ destruct f as [|c f0]; [by injection Ed as <- <-|]. cbn [hd0]. destruct (isdigit c) eqn:E0; [done|]. cbn [read_dec] in Ed. rewrite E0 in Ed. by injection Ed. }
    eapply reach_trans; [exact Hr|]. destruct f' as [|c f']; [by apply reach_end|]. apply Forall_cons in Hf' as [Hc _]. cbn [hd0] in Hd, Es'.
    eapply reach_at; [lia|done| |apply reach_refl]. unfold dopr_step. cbn. by rewrite Hd, Es'.
Qed.

Lemma number_reach f fl cf mn args b s v t args' : cstring f -> b.2 < maxlen -> number_of L long_bits f (-1) args = Ok (v, t, args') ->
  cstring t /\ reach (in_front f DP_S_MAX fl cf mn (-1) args b s) (in_front t DP_S_MOD fl cf mn v args' b s).
Proof.
  intros Hf Hb. unfold number_of. destruct (hd0 f =? chr "*") eqn:Es; bools.
  - intros E. apply mem_bind_ok in E as ([v' a] & Ea & E). injection E as <- <- <-. cbn [fst snd].
    destruct f as [|c f]; [done|]. cbn [hd0] in Es. subst c. cbn [tl]. split; [by apply Forall_cons in Hf as [_ ?]|].
    eapply reach_at; [done|done| |apply reach_refl]. unfold dopr_step. cbn -[va_star]. rewrite Ea. apply advance_at.
  - destruct f as [|c f]; [intros [= <- <- <-]; split; [done|by apply reach_end]|].
    pose proof Hf as Hf0. apply Forall_cons in Hf as [Hc Hf]. cbn [hd0] in *.
    destruct (read_dec 0 (c :: f)) as [n f'] eqn:Ed. destruct (INT_MAX <? n) eqn:En; [done|]. apply Z.ltb_ge in En.
    destruct (hd0 f' =? chr "*") eqn:Es'; [done|]. cbn [orb]. intros [= <- <- <-].
    destruct (read_dec_suffix (c :: f) 0) as (p & Hp & Hd). rewrite Ed in Hp, Hd. cbn [snd] in Hp, Hd.
    assert (Hf' : cstring f') by (apply (cstring_suffix p); by rewrite <- Hp). split; [done|].
    assert (Hend : reach (in_front f' DP_S_MAX fl cf mn (if isdigit c then n else -1) args b s)
                         (in_front f' DP_S_MOD fl cf mn (if isdigit c then n else -1) args b s)).
    { destruct f' as [|c' f']; [by apply reach_end|]. apply Forall_cons in Hf' as [Hc' _]. cbn [hd0] in Hd, Es'.
      eapply reach_at; [lia|done| |apply reach_refl]. unfold dopr_step. cbn. by rewrite Hd, Es'. }
    destruct (isdigit c) eqn:E0.
    2:{ cbn [read_dec] in Ed. rewrite E0 in Ed. by injection Ed as <- <-. }
    destruct (digit_step 0 c f E0 ltac:(lia)) as [E1 E2]; [by rewrite Ed|].
    cbn [read_dec] in Ed. rewrite E0 in Ed. eapply reach_at; [lia|done| |].
    { unfold dopr_step. cbn. rewrite E0. cbn [Z.ltb]. change (swrap 32 _) with (swrap 32 (10 * 0 + char_to_int c)). rewrite E1. apply advance_at. }
    eapply reach_trans; [apply max_reach; [done|done|exact E2|by rewrite Ed]|]. by rewrite Ed.
Qed.
Lemma precision_reach f fl cf mn args b s v t args' : cstring f -> b.2 < maxlen -> precision_of L long_bits f args = Ok (v, t, args') ->
  cstring t /\ reach (in_front f DP_S_DOT fl cf mn (-1) args b s) (in_front t DP_S_MOD fl cf mn v args' b s).
Proof.
  intros Hf Hb. unfold precision_of. destruct f as [|c f]; [intros [= <- <- <-]; split; [done|by apply reach_end]|].
  pose proof Hf as Hf0. apply Forall_cons in Hf as [Hc Hf]. cbn [hd0 tl]. destruct (c =? chr ".") eqn:Es.
  - intros E. destruct (number_reach f fl cf mn args b s v t args' Hf Hb E) as [Ht Hr]. split; [done|].
    eapply reach_at; [lia|done| |exact Hr]. unfold dopr_step. cbn. rewrite Es. apply advance_at.
  - intros [= <- <- <-]. split; [done|]. eapply reach_at; [lia|done| |apply reach_refl]. unfold dopr_step. cbn. by rewrite Es.
Qed.
Lemma modifier_reach f fl mn mx args b s : cstring f -> b.2 < maxlen ->
  cstring (modifier_of f).2 /\ reach (in_front f DP_S_MOD fl DP_C_NONE mn mx args b s) (in_front (modifier_of f).2 DP_S_CONV fl (modifier_of f).1 mn mx args b s).
Proof.
  intros Hf Hb. destruct f as [|c f]; [split; [done|by apply reach_end]|]. apply Forall_cons in Hf as [Hc Hf].
  unfold modifier_of. cbn [hd0 tl drop].
  assert (Hgo : forall d, step (in_front (c :: f) DP_S_MOD fl DP_C_NONE mn mx args b s) = Ok d -> forall d', d = d' ->
    reach (in_front (c :: f) DP_S_MOD fl DP_C_NONE mn mx args b s) d').
  { intros d E d' <-. eapply reach_at; [lia|done|exact E|apply reach_refl]. }
  destruct (c =? chr "h") eqn:E1; [split; [done|]; eapply Hgo; [unfold dopr_step; cbn; rewrite E1; apply advance_at|done]|].
  destruct (c =? chr "l") eqn:E2.
  { destruct f as [|c2 f]; cbn [hd0 tl].
    { split; [done|]. eapply Hgo; [unfold dopr_step; cbn; rewrite E1, E2; done|done]. }
    apply Forall_cons in Hf as [Hc2 Hf]. destruct (c2 =? chr "l") eqn:E3.
    - split; [done|]. eapply Hgo; [unfold dopr_step; cbn; rewrite E1, E2; cbn; rewrite E3; apply advance_at|done].
    - split; [by constructor|]. eapply Hgo; [unfold dopr_step; cbn; rewrite E1, E2; cbn; rewrite E3; done|done]. }
  destruct (c =? chr "L") eqn:E4; [split; [done|]; eapply Hgo; [unfold dopr_step; cbn; rewrite E1, E2, E4; apply advance_at|done]|].
  assert (E5 : is_64 (f ++ [0]) = is_64 f) by (destruct f as [|x [|y f]]; cbn; [done| |done]; by rewrite andb_false_r).
  destruct ((c =? chr "I") && is_64 f) eqn:E6.
  - destruct f as [|x [|y f]]; [by rewrite andb_false_r in E6..|]. split; [by do 2 apply Forall_cons in Hf as [_ Hf]|].
    eapply Hgo; [unfold dopr_step; cbn -[is_64]; rewrite E1, E2, E4; change (x :: y :: f ++ [0]) with ((x :: y :: f) ++ [0]); rewrite E5, E6; apply advance_at|done].
  - split; [by constructor|]. eapply Hgo; [unfold dopr_step; cbn -[is_64]; rewrite E1, E2, E4, E5, E6; done|done].
Qed.

(** ** A conversion *)
Lemma upto_take n s : 0 <= n -> upto n s = take (Z.to_nat n) s.
Proof.
  intros Hn. unfold upto, strlen. destruct (decide (n <= Z.of_nat (length s))); [f_equal; lia|]. by rewrite !take_ge by lia.
Qed.
Lemma conversion_limit currlen ch fl c mn mx args x st args' : 0 <= maxlen <= INT_MAX ->
  conversion L long_bits INT_MAX currlen ch fl c mn mx args = Ok (x, st, args') ->
  exists x', conversion L long_bits (swrap 32 maxlen) currlen ch fl c mn mx args = Ok (x', st, args') /\
    take (Z.to_nat maxlen) x' = take (Z.to_nat maxlen) x.
Proof.
  intros Hm. unfold INT_MAX in Hm. assert (Hs : swrap 32 maxlen = maxlen) by (apply swrap_id; lia). rewrite Hs.
  destruct (ch =? chr "s") eqn:Es.
  - bools. subst ch. cbn. destruct args as [|[] args]; try done. intros [= <- <- <-].
    eexists. split; [done|]. destruct (mx <? 0); [|done]. destruct (fmtstr_limit s fl mn 0 ltac:(lia)) as (full & Hfull).
    rewrite !Hfull by (unfold INT_MAX; lia). rewrite !upto_take by (unfold INT_MAX; lia). rewrite !take_take. f_equal. unfold INT_MAX. lia.
  - intros E. exists x. split; [|done]. rewrite <- E. unfold conversion. by rewrite Es.
Qed.

Abbreviation start f args b s := (in_front f DP_S_DEFAULT 0 DP_C_NONE 0 (-1) args b s).
Lemma printf_extends n : forall f args out sts text s', printf L long_bits n f args out sts = Ok (text, s') ->
  out `prefix_of` text /\ sts `prefix_of` s'.
Proof.
  induction n as [|n IH]; intros f args out sts text s'; cbn [printf]; [done|]. destruct f as [|c t]; [by intros [= <- <-]|].
  destruct (c =? chr "%").
  2:{ intros E. destruct (IH _ _ _ _ _ _ E) as [A B]. split; [|done]. etrans; [|exact A]. by apply prefix_app_r. }
  destruct (flags_of t 0) as [fl t1]. intros E. apply mem_bind_ok in E as ([[w t2] a2] & _ & E).
  apply mem_bind_ok in E as ([[p t3] a3] & _ & E). destruct (modifier_of t3) as [cf [|ch t4]]; [by injection E as <- <-|].
  apply mem_bind_ok in E as ([[x s] a4] & _ & E). destruct (_ && _); [done|].
  destruct (IH _ _ _ _ _ _ E) as [A B]. split; (etrans; [|eassumption]); by apply prefix_app_r.
Qed.

Lemma at_zero f st fl cf mn mx args b s : cstring f -> d_ch L (in_front f st fl cf mn mx args b s) = 0 -> f = [].
Proof. intros Hf. destruct f as [|c f]; [done|]. apply Forall_cons in Hf as [Hc _]. cbn. lia. Qed.
Lemma flags_cstring f : forall fl, cstring f -> cstring (flags_of f fl).2.
Proof.
  induction f as [|c f IH]; intros fl Hf; [done|]. cbn [flags_of]. apply Forall_cons in Hf as [Hc Hf].
  destruct (flag_bit c); [by apply IH|by constructor].
Qed.
(** From a [%] to the character of the conversion. *)
Lemma directive_reach f fl t1 w t2 a2 p t3 a3 args b s : cstring f -> b.2 < maxlen -> flags_of f 0 = (fl, t1) ->
  number_of L long_bits t1 0 args = Ok (w, t2, a2) -> precision_of L long_bits t2 a2 = Ok (p, t3, a3) ->
  cstring (modifier_of t3).2 /\
  reach (start (chr "%" :: f) args b s) (in_front (modifier_of t3).2 DP_S_CONV fl (modifier_of t3).1 w p a3 b s).
Proof.
  intros Hf Hb Ef Ew Ep. pose proof (flags_cstring f 0 Hf) as H1. rewrite Ef in H1. cbn [snd] in H1.
  destruct (width_reach t1 fl DP_C_NONE (-1) args b s w t2 a2 H1 Hb Ew) as [H2 R2].
  destruct (precision_reach t2 fl DP_C_NONE w a2 b s p t3 a3 H2 Hb Ep) as [H3 R3].
  destruct (modifier_reach t3 fl w p a3 b s H3 Hb) as [H4 R4]. split; [done|].
  eapply reach_at; [done|done|unfold dopr_step; cbn; apply advance_at|].
  pose proof (flags_reach f 0 DP_C_NONE 0 (-1) args b s Hf Hb) as R1. rewrite Ef in R1. cbn [fst snd] in R1.
  eapply reach_trans; [exact R1|]. eapply reach_trans; [exact R2|]. by eapply reach_trans.
Qed.

Lemma printf_steps buf0 n : 0 <= maxlen <= INT_MAX -> maxlen <= strlen buf0 ->
  forall f args out sts b text s', cstring f -> written buf0 maxlen out b -> printf L long_bits n f args out sts = Ok (text, s') ->
  exists d, rtc steps (start f args b sts) d /\ (d_ch L d = 0 \/ maxlen <= (d_buf L d).2) /\
    written buf0 maxlen text (d_buf L d) /\ d_stores L d `prefix_of` s'.
Proof.
  intros Hm Hb. induction n as [|n IH]; intros f args out sts b text s' Hf Hw E; [done|].
  pose proof (printf_extends _ _ _ _ _ _ _ E) as [[t' Ht] Hs]. cbn [printf] in E.
  destruct (decide (maxlen <= b.2)) as [Hfull|Hlen].
  { exists (start f args b sts). split; [done|]. split; [by right|]. split; [|done]. subst text. by apply written_full; [lia|..]. }
  assert (Hlen' : b.2 < maxlen) by lia. destruct f as [|c f].
  { injection E as <- <-. exists (start [] args b sts). split_and!; [done|by left|done|done]. }
  pose proof Hf as Hf0. apply Forall_cons in Hf as [Hc Hf]. destruct (c =? chr "%") eqn:Ec.
  - bools. subst c. destruct (flags_of f 0) as [fl t1] eqn:Ef. apply mem_bind_ok in E as ([[w t2] a2] & Ew & E).
    apply mem_bind_ok in E as ([[p t3] a3] & Ep & E).
    destruct (directive_reach f fl t1 w t2 a2 p t3 a3 args b sts Hf Hlen' Ef Ew Ep) as [H4 (d1 & R & Hd)].
    destruct (modifier_of t3) as [cf t4]. cbn [fst snd] in *.
    assert (Hstop : t4 = [] -> exists d, rtc steps (start (chr "%" :: f) args b sts) d /\ (d_ch L d = 0 \/ maxlen <= (d_buf L d).2) /\
      written buf0 maxlen out (d_buf L d) /\ d_stores L d `prefix_of` sts).
    { intros ->. exists d1. split; [done|]. destruct Hd as [->|(A & _ & B & C)]; [by split_and!; [left|..]|].
      rewrite B, C. by split_and!; [left|..]. }
    destruct t4 as [|ch t4]; [injection E as <- <-; by apply Hstop|].
    destruct Hd as [->|(_ & A & _)]; [|by apply at_zero in A]. apply mem_bind_ok in E as ([[x s] a4] & Ex & E).
    destruct (written_len _ _ _ _ Hw Hlen') as [Elen _]. rewrite <- Elen in Ex.
    destruct (conversion_limit _ _ _ _ _ _ _ _ _ _ Hm Ex) as (x' & Ex' & Hx).
    destruct (outs_written buf0 maxlen x' ltac:(lia) out b Hw) as (b' & Eb & Hw').
    apply (written_cut _ _ _ _ x) in Hw'; [|done]. destruct (_ && _) eqn:Ew'; [done|].
    apply Forall_cons in H4 as [Hch H4].
    assert (Hstep : step (in_front (ch :: t4) DP_S_CONV fl cf w p a3 b sts) = Ok (start (if ch =? chr "w" then tl t4 else t4) a4 b' (sts ++ s))).
    { unfold dopr_step. cbn -[conversion outs]. rewrite Ex'. cbn -[conversion outs]. rewrite Eb. cbn -[conversion outs].
      destruct (ch =? chr "w") eqn:Ech; [|by destruct t4]. destruct t4 as [|c4 t4]; [done|]. by destruct t4. }
    destruct (IH _ _ _ _ b' _ _ (if ch =? chr "w" as z return cstring (if z then tl t4 else t4) then Forall_tail _ _ H4 else H4) Hw' E) as (d & R2 & Hd).
    exists d. split; [|exact Hd]. etrans; [exact R|]. eapply rtc_l; [|exact R2]. split; [cbn; lia|done].
  - destruct (outch_written buf0 maxlen out c b ltac:(lia) Hw) as (b' & Eb & Hw').
    destruct (IH f args (out ++ [c]) sts b' text s' Hf Hw' E) as (d & R & Hd). exists d. split; [|exact Hd].
    eapply rtc_l; [|exact R]. split; [cbn; lia|]. split; [done|]. unfold dopr_step. cbn -[dopr_outch]. rewrite Ec, Eb. apply advance_at.
Qed.

(** ** Termination *)
Definition dp_rank (st : DP_STATE) : nat :=
  match st with
  | DP_S_FLAGS => 6 | DP_S_MIN => 5 | DP_S_DOT => 4 | DP_S_MAX => 3 | DP_S_MOD => 2 | DP_S_CONV => 1 | DP_S_DEFAULT | DP_S_DONE => 0
  end.
Definition dp_measure (d : DOPR) : nat := (8 * length (d_format L d) + dp_rank (d_state L d))%nat.
(** A pass goes on, and reads on or is nearer to the conversion. *)
Definition goes_on (d : DOPR) (m : mem DOPR) : Prop :=
  outcome (fun d' => (dp_measure d' < dp_measure d)%nat /\ d_state L d' <> DP_S_DONE) True m.
Lemma advance_goes d d1 : d_state L d1 <> DP_S_DONE -> (length (d_format L d1) <= length (d_format L d))%nat -> goes_on d (advance L d1).
Proof.
  intros Hs Hl. unfold advance, goes_on. destruct (d_format L d1) as [|c f] eqn:E; [done|]. cbn. split; [|done].
  unfold dp_measure. cbn in *. assert (dp_rank (d_state L d1) <= 6)%nat by (by destruct (d_state L d1); cbn; lia). lia.
Qed.
Lemma goes_bind {A} d (m : mem A) k : m <> Fuel -> (forall a, goes_on d (k a)) -> goes_on d (mem_bind m k).
Proof. destruct m; [intros _ H; apply H|done..]. Qed.
Lemma fuel_free {A} (m : mem A) P : outcome P True m -> m <> Fuel.
Proof. by destruct m. Qed.
Lemma outch_fuel b c : dopr_outch maxlen b c <> Fuel.
Proof. destruct b as [buf len]. unfold dopr_outch, store. destruct (_ <? _); [|done]. by destruct (_ && _). Qed.
Lemma outs_fuel t : forall b, outs maxlen t b <> Fuel.
Proof.
  induction t as [|c t IH]; intros b; [done|]. unfold outs in *. cbn [mem_fold].
  pose proof (outch_fuel b c) as Hc. destruct (dopr_outch maxlen b c); [apply IH|done..].
Qed.
Lemma va_int_fuel c u args : va_int L long_bits c u args <> Fuel.
Proof. unfold va_int. by destruct c, args as [|[] args]. Qed.
Lemma convert_long_fuel n z : convert_long n z <> Fuel.
Proof.
  revert z. induction n as [|n IH]; intros z; cbn [convert_long]; [done|]. destruct (_ <? 0); [done|]. destruct (_ =? 0); [done|].
  specialize (IH (Z.quot z 10)). by destruct (convert_long n (Z.quot z 10)).
Qed.
Lemma fmtfp_fuel x mn mx fl : fmtfp L long_bits x mn mx fl <> Fuel.
Proof.
  unfold fmtfp. match goal with |- (let '(_, _) := ?p in _) <> _ => destruct p as [i f] end.
  pose proof (convert_long_fuel 20 i). destruct (convert_long 20 i); [|done..]. cbn [mem_bind].
  pose proof (convert_long_fuel 20 f). by destruct (convert_long 20 f).
Qed.
Lemma va_double_fuel c args : va_double L c args <> Fuel.
Proof. unfold va_double. by destruct c, args as [|[] args]. Qed.
Lemma conversion_fuel nomax len ch fl c mn mx args : conversion L long_bits nomax len ch fl c mn mx args <> Fuel.
Proof.
  unfold conversion.
  assert (Hi : forall u k, (let* r := va_int L long_bits c u args in Ok (k r : cstr * list Z * list (ARG (ld L)))) <> Fuel).
  { intros u k. pose proof (va_int_fuel c u args). by destruct (va_int L long_bits c u args). }
  repeat match goal with |- (if ?b then _ else _) <> _ => destruct b end; try done; try apply Hi; try (by destruct args as [|[] args]).
  - pose proof (va_double_fuel c args). destruct (va_double L c args) as [r| |]; [|done..]. cbn [mem_bind].
    pose proof (fmtfp_fuel r.1 mn mx fl). by destruct (fmtfp L long_bits r.1 mn mx fl).
  - pose proof (va_double_fuel c args). by destruct (va_double L c args).
Qed.
Lemma step_goes d : d_state L d <> DP_S_DONE -> goes_on d (step d).
Proof.
  intros Hd. assert (Hlow : forall st, (dp_rank st < dp_rank (d_state L d))%nat -> st <> DP_S_DONE -> goes_on d (Ok (d <| (d_state L) := st |>))).
  { intros st Hr Hst. split; [|done]. unfold dp_measure. cbn. lia. }
  unfold dopr_step. destruct (d_state L d) eqn:Es; try done.
  - destruct (_ =? _); [by apply advance_goes|]. apply goes_bind; [apply outch_fuel|]. intros b. apply advance_goes; [cbn; by rewrite Es|done].
  - destruct (flag_bit _); [apply advance_goes; [cbn; by rewrite Es|done]|]. apply Hlow; [cbn; lia|done].
  - destruct (isdigit _); [apply advance_goes; [cbn; by rewrite Es|done]|]. destruct (_ =? _); [|apply Hlow; [cbn; lia|done]].
    apply goes_bind; [apply va_int_fuel|]. intros r. by apply advance_goes.
  - destruct (_ =? _); [by apply advance_goes|]. apply Hlow; [cbn; lia|done].
  - destruct (isdigit _); [apply advance_goes; [cbn; by rewrite Es|done]|]. destruct (_ =? _); [|apply Hlow; [cbn; lia|done]].
    apply goes_bind; [apply va_int_fuel|]. intros r. by apply advance_goes.
  - destruct (_ =? _); [by apply advance_goes|]. destruct (_ =? chr "l").
    { assert (H : goes_on d (advance L (d <| (d_state L) := DP_S_CONV |> <| (d_cflags L) := DP_C_LONG |>))) by (by apply advance_goes).
      destruct (advance L _) as [d1| |] eqn:E1; [|done..]. cbn [mem_bind].
      destruct (_ =? chr "l"); [|exact H]. apply advance_goes; [cbn; apply H|]. cbn. destruct H as [H _]. unfold dp_measure in H.
      unfold advance in E1. cbn in E1. destruct (d_format L d) as [|c f]; [done|]. injection E1 as <-. cbn. lia. }
    destruct (_ =? chr "L"); [by apply advance_goes|]. destruct (_ && _).
    + apply advance_goes; [done|]. cbn. rewrite length_drop. lia.
    + apply Hlow; [cbn; lia|done].
  - apply goes_bind; [apply conversion_fuel|]. intros r. apply goes_bind; [apply outs_fuel|]. intros b.
    assert (Ha : forall d0, (length (d_format L d0) <= length (d_format L d))%nat -> goes_on d
      (let* d1 := advance L d0 in Ok (d1 <| (d_buf L) := b |> <| (d_stores L) ::= fun s => s ++ r.1.2 |> <| (d_args L) := r.2 |> <| (d_state L) := DP_S_DEFAULT |>
            <| (d_flags L) := 0 |> <| (d_cflags L) := DP_C_NONE |> <| (d_min L) := 0 |> <| (d_max L) := -1 |>))).
    { intros d0 Hl. unfold advance. destruct (d_format L d0) as [|c f] eqn:E0; [done|]. cbn. split; [|done]. unfold dp_measure. cbn in *. lia. }
    destruct (_ =? chr "w"); [|by apply Ha]. unfold advance at 1. destruct (d_format L d) as [|c f] eqn:E0; [done|]. cbn [deref next mem_bind].
    apply Ha. cbn. lia.
Qed.
Lemma loop_ends n : forall d, d_state L d <> DP_S_DONE -> (dp_measure d < n)%nat -> loop n maxlen d <> Fuel.
Proof.
  induction n as [|n IH]; intros d Hd Hn; [lia|]. cbn [dopr_loop]. destruct (_ || _); [done|].
  pose proof (step_goes d Hd) as H. destruct (step d) as [d'| |]; [|done..]. destruct H as [H1 H2]. apply IH; [done|lia].
Qed.
Lemma loop_steps d d' : rtc steps d d' -> d_ch L d' = 0 \/ maxlen <= (d_buf L d').2 ->
  exists n, forall m, (n <= m)%nat -> exists d1, loop m maxlen d = Ok d1 /\ d_buf L d1 = d_buf L d' /\ d_stores L d1 = d_stores L d'.
Proof.
  intros R Hend. induction R as [d|d d1 d2 (A & B & C) R IH].
  - exists 1%nat. intros [|m] Hm; [lia|]. cbn [dopr_loop].
    assert ((d_ch L d =? 0) || (maxlen <=? (d_buf L d).2) = true) as ->; [|by eexists]. apply orb_true_iff. destruct Hend; [left; by apply Z.eqb_eq|right; by apply Z.leb_le].
  - destruct (IH Hend) as [n Hn]. exists (S n). intros [|m] Hm; [lia|]. cbn [dopr_loop].
    rewrite (proj2 (Z.eqb_neq _ _)), (proj2 (Z.leb_gt _ _)) by lia. cbn [orb]. rewrite C. apply Hn. lia.
Qed.
Lemma loop_more n : forall m d, loop n maxlen d <> Fuel -> (n <= m)%nat -> loop m maxlen d = loop n maxlen d.
Proof.
  induction n as [|n IH]; intros [|m] d E Hm; [done|done|lia|]. cbn [dopr_loop] in *. destruct (_ || _); [done|].
  destruct (step d) as [d1| |]; [|done..]. apply IH; [done|lia].
Qed.

Lemma store_ok buf i c : 0 <= i < strlen buf -> store buf i c = Ok (<[Z.to_nat i := c]> buf).
Proof. intros Hi. unfold store. by rewrite (proj2 (Z.leb_le _ _)), (proj2 (Z.ltb_lt _ _)) by lia. Qed.
Lemma dopr_fuel_enough f args b : loop (dopr_fuel f) maxlen (start f args b []) <> Fuel.
Proof.
  apply loop_ends; [done|]. unfold dp_measure, dopr_fuel. cbn. destruct f as [|c f]; cbn; [lia|]. rewrite length_app. cbn. lia.
Qed.

(** Whatever the format and the arguments are, formatting ends. *)
Lemma dopr_ends buffer f args : dopr L long_bits buffer maxlen f args <> Fuel.
Proof.
  unfold dopr. rewrite advance_at. cbn [mem_bind]. pose proof (dopr_fuel_enough f args (buffer, 0)) as H.
  destruct (loop _ _ _) as [d| |]; [|done..]. cbn [mem_bind]. destruct (d_buf L d) as [buf len]. unfold store. by destruct (_ && _).
Qed.
(** The end: the text cut to [maxlen - 1] characters, a terminator, and the
    array as it was. *)
Lemma written_end buf0 out b : 0 < maxlen <= strlen buf0 -> maxlen <= INT_MAX -> written buf0 maxlen out b ->
  let t := take (Z.to_nat (maxlen - 1)) out in let last := wrap 64 (maxlen - 1) in
  store b.1 (if b.2 <? last then b.2 else last) 0 = Ok (t ++ 0 :: drop (S (length t)) buf0).
Proof.
  intros Hm Hi -> t last. unfold INT_MAX in Hi. assert (Hl : last = maxlen - 1) by (unfold last, wrap; apply Z.mod_small; lia).
  rewrite Hl. clear Hl last. cbn [fst snd]. set (s := take (Z.to_nat maxlen) out).
  assert (Ht : t = take (Z.to_nat (maxlen - 1)) s) by (unfold s; rewrite take_take; f_equal; lia).
  assert (Hs : (length s <= Z.to_nat maxlen)%nat) by (unfold s; rewrite length_take; lia). clearbody s t. unfold strlen in *.
  assert (Hlen : (if Z.of_nat (length s) <? maxlen - 1 then Z.of_nat (length s) else maxlen - 1) = Z.of_nat (length t)).
  { rewrite Ht, length_take. destruct (_ <? _) eqn:E; bools; lia. }
  rewrite Hlen. assert (Hlt : (length t < length buf0)%nat) by (rewrite Ht, length_take; lia).
  rewrite store_ok by (unfold strlen; rewrite length_app, length_drop; lia). rewrite Nat2Z.id. f_equal.
  assert (Hpre : s = t ++ drop (length t) s).
  { rewrite <- (take_drop (Z.to_nat (maxlen - 1)) s) at 1. rewrite <- Ht. f_equal. rewrite Ht, length_take.
    destruct (decide (Z.to_nat (maxlen - 1) <= length s)%nat); [by rewrite Nat.min_l|]. by rewrite !drop_ge by lia. }
  rewrite Hpre at 1. rewrite <- app_assoc, insert_app_r_alt, Nat.sub_diag by lia. f_equal.
  set (u := drop (length t) s) in *.
  assert (Hu : (length u <= 1)%nat) by (unfold u; rewrite length_drop, Ht, length_take; lia).
  destruct u as [|x [|y u]]; [|cbn; f_equal; f_equal; rewrite Hpre, length_app; cbn; lia|cbn in Hu; lia].
  cbn. rewrite app_nil_r in Hpre. rewrite Hpre. destruct (drop (length t) buf0) as [|x l] eqn:Ed.
  { apply (f_equal length) in Ed. rewrite length_drop in Ed. cbn in Ed. lia. }
  cbn. f_equal. rewrite <- Nat.add_1_r, <- drop_drop, Ed. done.
Qed.
Lemma printf_ends n : forall f args out sts, (length f < n)%nat -> printf L long_bits n f args out sts <> Fuel.
Proof.
  induction n as [|n IH]; intros f args out sts Hn; [lia|]. destruct f as [|c f]; cbn [printf]; [done|]. cbn in Hn.
  destruct (_ =? _); [|apply IH; lia].
  assert (Hf : forall fl, (length (flags_of f fl).2 <= length f)%nat).
  { clear. induction f as [|c f IH]; intros fl; cbn; [lia|]. destruct (flag_bit c); [|done]. specialize (IH (Z.lor z fl)). cbn. lia. }
  specialize (Hf 0). destruct (flags_of f 0) as [fl t1]. cbn [snd] in Hf.
  assert (Hnum : forall f x args, number_of L long_bits f x args <> Fuel /\ forall v t a, number_of L long_bits f x args = Ok (v, t, a) -> (length t <= length f)%nat).
  { clear. intros f x args. unfold number_of, va_star. destruct (_ =? _).
    - pose proof (va_int_fuel DP_C_NONE false args) as Hv. destruct (va_int _ _ _ _ _) as [r| |]; [|done..]. cbn. split; [done|].
      intros v t a [= <- <- <-]. destruct f; cbn; lia.
    - destruct (read_dec 0 f) as [k t] eqn:E. destruct (read_dec_suffix f 0) as (p & Hp & _). rewrite E in Hp. cbn [snd] in Hp.
      destruct (_ || _); [done|]. split; [done|]. intros v t' a [= <- <- <-]. rewrite Hp, length_app. lia. }
  pose proof (Hnum t1 0 args) as [H1 H2]. destruct (number_of _ _ t1 0 args) as [[[w t2] a2]| |]; [|done..]. cbn [mem_bind].
  specialize (H2 _ _ _ eq_refl).
  assert (Hp : precision_of L long_bits t2 a2 <> Fuel /\ forall v t a, precision_of L long_bits t2 a2 = Ok (v, t, a) -> (length t <= length t2)%nat).
  { unfold precision_of. destruct (_ =? _); [|split; [done|]; by intros v t a [= <- <- <-]]. destruct (Hnum (tl t2) (-1) a2) as [A B].
    split; [done|]. intros v t a E. apply B in E. destruct t2; cbn in *; lia. }
  destruct Hp as [H3 H4]. destruct (precision_of _ _ t2 a2) as [[[p t3] a3]| |]; [|done..]. cbn [mem_bind]. specialize (H4 _ _ _ eq_refl).
  assert (Hm : (length (modifier_of t3).2 <= length t3)%nat).
  { clear. unfold modifier_of. destruct t3 as [|x [|y l]]; cbn; repeat case_if; cbn; rewrite ?length_drop; lia. }
  destruct (modifier_of t3) as [cf [|ch t4]]; [done|]. cbn in Hm.
  pose proof (conversion_fuel INT_MAX (strlen out) ch fl cf w p a3) as Hc. destruct (conversion _ _ _ _ _ _ _ _ _ _) as [[[x s] a4]| |]; [|done..].
  cbn [mem_bind]. destruct (_ && _); [done|]. apply IH. destruct (ch =? chr "w"); [destruct t4; cbn in *; lia|lia].
Qed.
End Machine.

(** C18: [vsnprintf] agrees with the reference wherever that is defined: the array
    holds the text cut to [count - 1] characters and a terminator, the
    rest of the array is untouched, and the length of the cut text is
    returned.  The machine never reads past the format or writes past the array. *)
Theorem vsnprintf_correct L long_bits n buffer count format args text sts :
  0 < count <= INT_MAX -> count <= strlen buffer -> cstring format -> cstring text ->
  printf L long_bits n format args [] [] = Ok (text, sts) ->
  let t := take (Z.to_nat (count - 1)) text in
  exists st, vsnprintf L long_bits buffer count format args = Ok (t ++ 0 :: drop (S (length t)) buffer, st, strlen t) /\ st `prefix_of` sts.
Proof.
  intros Hc Hb Hf Ht E t. unfold vsnprintf. rewrite store_ok by lia. cbn [mem_bind]. set (buf0 := <[Z.to_nat 0:=0]> buffer).
  assert (Hb0 : strlen buf0 = strlen buffer) by (unfold strlen, buf0; by rewrite length_insert).
  destruct (printf_steps L long_bits count buf0 n ltac:(lia) ltac:(lia) format args [] [] (buf0, 0) text sts Hf) as (d & R & Hd & Hw & Hs); [by unfold written; rewrite take_nil|done|].
  destruct (loop_steps L long_bits count _ _ R Hd) as [m Hm].
  destruct (Hm (Nat.max m (dopr_fuel format)) ltac:(lia)) as (d1 & E1 & Eb & Es).
  assert (Ed : dopr L long_bits buf0 count format args = Ok (t ++ 0 :: drop (S (length t)) buffer, d_stores L d)).
  { unfold dopr. rewrite advance_at. cbn [mem_bind].
    pose proof (dopr_fuel_enough L long_bits count format args (buf0, 0)) as Hfuel.
    rewrite <- (loop_more L long_bits count _ (Nat.max m (dopr_fuel format)) _ Hfuel), E1 by lia. cbn [mem_bind].
    rewrite Eb, Es. rewrite <- Hb0 in Hb. pose proof (written_end count buf0 text (d_buf L d) ltac:(lia) ltac:(lia) Hw) as He.
    destruct (d_buf L d) as [buf len]. cbn [fst snd] in He. rewrite He. cbn [mem_bind]. fold t. do 3 f_equal.
    unfold buf0. by destruct buffer. }
  rewrite Ed. cbn [mem_bind fst snd]. exists (d_stores L d). split; [|done]. rewrite c_string_nul; [done|]. apply Forall_take. exact Ht.
Qed.

(** ** Integers as in the C standard *)
Definition c_digits (caps : bool) (base n : Z) : cstr := (if caps then map toupper else id) (fmt_base base n).
(** A precision is a least number of digits; zeros fill the field when there is
    neither a precision nor [-]. *)
Definition c_int (neg : bool) (n base min max flags : Z) : cstr :=
  let sign := if has_flag flags DP_F_UNSIGNED then [] else signvalue neg flags in
  let ds := if (max =? 0) && (n =? 0) then [] else c_digits (has_flag flags DP_F_UP) base n in
  let body := zeros (max - strlen ds) ++ ds in
  let pad := min - strlen sign - strlen body in
  if has_flag flags DP_F_MINUS then sign ++ body ++ pad_spaces pad
  else if has_flag flags DP_F_ZERO && (max <? 0) then sign ++ zeros pad ++ body
  else pad_spaces pad ++ sign ++ body.

Lemma digit_of_char caps d : 0 <= d < 16 -> digit_of caps d = (if caps then toupper else id) (digit_char d).
Proof.
  intros Hd. assert (Hn : exists k, (k < 16)%nat /\ d = Z.of_nat k) by (exists (Z.to_nat d); lia). destruct Hn as (k & Hk & ->).
  do 16 (destruct k as [|k]; [by destruct caps|]). lia.
Qed.
Lemma convert_digits caps base : 2 <= base <= 16 -> forall m k n acc, 0 <= n < base ^ Z.of_nat (S k) -> n < base ^ Z.of_nat (S m) ->
  rev (convert (S m) caps base n) ++ (if caps then map toupper else id) acc = (if caps then map toupper else id) (digits (S k) base n acc).
Proof.
  intros Hb. assert (Hmap : forall x l, (if caps then map toupper else id) (x :: l) = (if caps then toupper else id) x :: (if caps then map toupper else id) l) by (by destruct caps).
  induction m as [|m IH]; intros k n acc Hn Hm; cbn [convert digits].
  - assert (Hs : n < base) by (rewrite Z.pow_1_r in Hm; lia). rewrite (Z.div_small n base), (proj2 (Z.ltb_lt n base)) by lia. cbn [Z.eqb rev app].
    rewrite Hmap, digit_of_char; [done|]. pose proof (Z.mod_pos_bound n base). lia.
  - pose proof (Z.mod_pos_bound n base ltac:(lia)) as Hmod. rewrite digit_of_char by lia.
    destruct (Z.ltb_spec n base) as [Hs|Hs].
    + rewrite Z.div_small by lia. cbn [Z.eqb rev app]. by rewrite Hmap.
    + assert (0 < n / base) by (apply Z.div_str_pos; lia). rewrite (proj2 (Z.eqb_neq (n / base) 0)) by lia.
      cbn [rev]. rewrite <- app_assoc. cbn [app]. rewrite <- Hmap.
      assert (Hp : forall j, base ^ Z.of_nat (S j) = base * base ^ Z.of_nat j) by (intros j; rewrite Nat2Z.inj_succ, Z.pow_succ_r by lia; done).
      destruct k as [|k]; [rewrite Z.pow_1_r in Hn; lia|]. rewrite Hp in Hn, Hm.
      apply IH; [split; [lia|]|]; apply Z.div_lt_upper_bound; lia.
Qed.
Lemma convert_length base caps m : forall j n, 2 <= base -> 0 <= n < base ^ Z.of_nat (S j) -> (length (convert m caps base n) <= S j)%nat.
Proof.
  induction m as [|m IH]; intros j n Hb Hn; cbn [convert length]; [lia|]. destruct (n / base =? 0) eqn:E; [cbn; lia|]. bools.
  destruct j as [|j]. { rewrite Z.pow_1_r in Hn. rewrite Z.div_small in E; lia. }
  apply le_n_S, IH; [done|]. rewrite Nat2Z.inj_succ, Z.pow_succ_r in Hn by lia. split; [apply Z.div_pos; lia|apply Z.div_lt_upper_bound; lia].
Qed.
(** The digits, when nineteen are enough. *)
Lemma convert_number caps base n : 2 <= base <= 16 -> 0 <= n < base ^ 19 ->
  rev (convert 20 caps base n) = c_digits caps base n /\ (length (convert 20 caps base n) <= 19)%nat.
Proof.
  intros Hb Hn. assert (Hn' : n < base ^ Z.of_nat 20) by (etrans; [apply Hn|]; apply Z.pow_lt_mono_r; lia).
  split; [|apply convert_length; [lia|done]]. pose proof (convert_digits caps base Hb 19 (Z.to_nat (Z.log2 n)) n [] (log2_pow_bound base n ltac:(lia) ltac:(lia)) Hn') as H.
  unfold c_digits, fmt_base. rewrite <- H. destruct caps; cbn [map id]; by rewrite app_nil_r.
Qed.
Lemma signvalue_len neg flags : strlen (signvalue neg flags) <= 1.
Proof. unfold signvalue. by repeat case_if. Qed.
Lemma strlen_zeros n : strlen (zeros n) = Z.max 0 n.
Proof. unfold strlen, zeros. rewrite length_replicate. lia. Qed.
Lemma zeros_max n : zeros (Z.max 0 n) = zeros n.
Proof. unfold zeros. f_equal. lia. Qed.
Lemma zeros_neg n : n <= 0 -> zeros n = [].
Proof. intros H. unfold zeros. by replace (Z.to_nat n) with 0%nat by lia. Qed.
Lemma spaces_max n : pad_spaces (Z.max 0 n) = pad_spaces n.
Proof. unfold pad_spaces. f_equal. lia. Qed.


(** ** Where it is not the standard *)
Definition exact : LDOUBLE := mkLDOUBLE QArith_base.Q QArith_base.inject_Z (QArith_base.Qmake 1 2) QArith_base.Qopp QArith_base.Qmult
  QArith_base.Qminus (fun a b => negb (QArith_base.Qle_bool b a)) QArith_base.Qle_bool
  (fun x => Z.quot (QArith_base.Qnum x) (Zpos (QArith_base.Qden x))).

(** With [-] or a precision the flag [0] pads with zeros, even too few; of twenty
    digits the first is lost; a precision of 0 does not suppress the digit of 0. *)
Lemma fmtint_differs :
  fmtint 42 10 5 (-1) (Z.lor DP_F_ZERO DP_F_MINUS) = str "00042" /\ c_int false 42 10 5 (-1) (Z.lor DP_F_ZERO DP_F_MINUS) = str "42   " /\
  fmtint 42 10 5 3 DP_F_ZERO = str "0042" /\ c_int false 42 10 5 3 DP_F_ZERO = str "  042" /\
  fmtint (swrap 64 (2 ^ 64 - 1)) 10 0 (-1) DP_F_UNSIGNED = str "8446744073709551615" /\
  c_int false (2 ^ 64 - 1) 10 0 (-1) DP_F_UNSIGNED = str "18446744073709551615" /\
  fmtint 0 10 0 0 0 = str "0" /\ c_int false 0 10 0 0 0 = [].
Proof. by vm_compute. Qed.
(** The zeros before the digits of a fraction are printed after them, and a
    number filled with zeros is one character short when it has_flag a sign. *)
Lemma fmtfp_differs :
  fmtfp exact 64 (QArith_base.Qmake 105 100) 0 2 0 = Ok (str "1.50") /\
  fmtfp exact 64 (QArith_base.Qmake (-3) 2) 8 2 DP_F_ZERO = Ok (str "-001.50") /\
  fmtfp exact 64 (QArith_base.Qmake 5 2) 0 0 0 = Ok (str "3.0").
Proof. by vm_compute. Qed.
(** [%w] at the end reads past the format; an array of no characters is written. *)
Lemma vsnprintf_undefined : vsnprintf exact 64 [1; 1] 2 (str "%w") [] = Oob /\ vsnprintf exact 64 [1; 1] 0 (str "a") [] = Ok ([0; 1], [], 0).
Proof. by vm_compute. Qed.

(** ** Witnesses *)
Definition s_format : cstr := str "%-4d|%05u|%.2s|%n%x".
Definition s_args : list (ARG (ld exact)) := [A_int (-7); A_int 42; A_string (Some (str "abc")); A_store; A_int 255].
Lemma vsnprintf_correct_witness :
  0 < 12 <= INT_MAX /\ exists st, vsnprintf exact 64 (replicate 16 1) 12 s_format s_args = Ok (str "-7  |00042|" ++ [0; 1; 1; 1; 1], st, 11) /\ st `prefix_of` [14].
Proof.
  split; [by unfold INT_MAX|].
  apply (vsnprintf_correct exact 64 100 (replicate 16 1) 12 s_format s_args (str "-7  |00042|ab|ff") [14]);
    [by unfold INT_MAX|by vm_compute|by apply (bool_decide_unpack _); vm_compute|by apply (bool_decide_unpack _); vm_compute|by vm_compute].
Defined.
