(* ===== verification/Crypt.v ===== *)
(** * crypt.c: the stream cipher of a CRYPT session

    Three CRC-mixed keys produce one byte of key stream at a time.  The keys
    are [unsigned long]: [w] is the width of that type, 32 or 64 on the systems
    binkd is built for. *)
From S2P Require Import Prelude CStr.

Definition crc_32_tab : list Z := [
   0x00000000; 0x77073096; 0xee0e612c; 0x990951ba; 0x076dc419; 0x706af48f;
   0xe963a535; 0x9e6495a3; 0x0edb8832; 0x79dcb8a4; 0xe0d5e91e; 0x97d2d988;
   0x09b64c2b; 0x7eb17cbd; 0xe7b82d07; 0x90bf1d91; 0x1db71064; 0x6ab020f2;
   0xf3b97148; 0x84be41de; 0x1adad47d; 0x6ddde4eb; 0xf4d4b551; 0x83d385c7;
   0x136c9856; 0x646ba8c0; 0xfd62f97a; 0x8a65c9ec; 0x14015c4f; 0x63066cd9;
   0xfa0f3d63; 0x8d080df5; 0x3b6e20c8; 0x4c69105e; 0xd56041e4; 0xa2677172;
   0x3c03e4d1; 0x4b04d447; 0xd20d85fd; 0xa50ab56b; 0x35b5a8fa; 0x42b2986c;
   0xdbbbc9d6; 0xacbcf940; 0x32d86ce3; 0x45df5c75; 0xdcd60dcf; 0xabd13d59;
   0x26d930ac; 0x51de003a; 0xc8d75180; 0xbfd06116; 0x21b4f4b5; 0x56b3c423;
   0xcfba9599; 0xb8bda50f; 0x2802b89e; 0x5f058808; 0xc60cd9b2; 0xb10be924;
   0x2f6f7c87; 0x58684c11; 0xc1611dab; 0xb6662d3d; 0x76dc4190; 0x01db7106;
   0x98d220bc; 0xefd5102a; 0x71b18589; 0x06b6b51f; 0x9fbfe4a5; 0xe8b8d433;
   0x7807c9a2; 0x0f00f934; 0x9609a88e; 0xe10e9818; 0x7f6a0dbb; 0x086d3d2d;
   0x91646c97; 0xe6635c01; 0x6b6b51f4; 0x1c6c6162; 0x856530d8; 0xf262004e;
   0x6c0695ed; 0x1b01a57b; 0x8208f4c1; 0xf50fc457; 0x65b0d9c6; 0x12b7e950;
   0x8bbeb8ea; 0xfcb9887c; 0x62dd1ddf; 0x15da2d49; 0x8cd37cf3; 0xfbd44c65;
   0x4db26158; 0x3ab551ce; 0xa3bc0074; 0xd4bb30e2; 0x4adfa541; 0x3dd895d7;
   0xa4d1c46d; 0xd3d6f4fb; 0x4369e96a; 0x346ed9fc; 0xad678846; 0xda60b8d0;
   0x44042d73; 0x33031de5; 0xaa0a4c5f; 0xdd0d7cc9; 0x5005713c; 0x270241aa;
   0xbe0b1010; 0xc90c2086; 0x5768b525; 0x206f85b3; 0xb966d409; 0xce61e49f;
   0x5edef90e; 0x29d9c998; 0xb0d09822; 0xc7d7a8b4; 0x59b33d17; 0x2eb40d81;
   0xb7bd5c3b; 0xc0ba6cad; 0xedb88320; 0x9abfb3b6; 0x03b6e20c; 0x74b1d29a;
   0xead54739; 0x9dd277af; 0x04db2615; 0x73dc1683; 0xe3630b12; 0x94643b84;
   0x0d6d6a3e; 0x7a6a5aa8; 0xe40ecf0b; 0x9309ff9d; 0x0a00ae27; 0x7d079eb1;
   0xf00f9344; 0x8708a3d2; 0x1e01f268; 0x6906c2fe; 0xf762575d; 0x806567cb;
   0x196c3671; 0x6e6b06e7; 0xfed41b76; 0x89d32be0; 0x10da7a5a; 0x67dd4acc;
   0xf9b9df6f; 0x8ebeeff9; 0x17b7be43; 0x60b08ed5; 0xd6d6a3e8; 0xa1d1937e;
   0x38d8c2c4; 0x4fdff252; 0xd1bb67f1; 0xa6bc5767; 0x3fb506dd; 0x48b2364b;
   0xd80d2bda; 0xaf0a1b4c; 0x36034af6; 0x41047a60; 0xdf60efc3; 0xa867df55;
   0x316e8eef; 0x4669be79; 0xcb61b38c; 0xbc66831a; 0x256fd2a0; 0x5268e236;
   0xcc0c7795; 0xbb0b4703; 0x220216b9; 0x5505262f; 0xc5ba3bbe; 0xb2bd0b28;
   0x2bb45a92; 0x5cb36a04; 0xc2d7ffa7; 0xb5d0cf31; 0x2cd99e8b; 0x5bdeae1d;
   0x9b64c2b0; 0xec63f226; 0x756aa39c; 0x026d930a; 0x9c0906a9; 0xeb0e363f;
   0x72076785; 0x05005713; 0x95bf4a82; 0xe2b87a14; 0x7bb12bae; 0x0cb61b38;
   0x92d28e9b; 0xe5d5be0d; 0x7cdcefb7; 0x0bdbdf21; 0x86d3d2d4; 0xf1d4e242;
   0x68ddb3f8; 0x1fda836e; 0x81be16cd; 0xf6b9265b; 0x6fb077e1; 0x18b74777;
   0x88085ae6; 0xff0f6a70; 0x66063bca; 0x11010b5c; 0x8f659eff; 0xf862ae69;
   0x616bffd3; 0x166ccf45; 0xa00ae278; 0xd70dd2ee; 0x4e048354; 0x3903b3c2;
   0xa7672661; 0xd06016f7; 0x4969474d; 0x3e6e77db; 0xaed16a4a; 0xd9d65adc;
   0x40df0b66; 0x37d83bf0; 0xa9bcae53; 0xdebb9ec5; 0x47b2cf7f; 0x30b5ffe9;
   0xbdbdf21c; 0xcabac28a; 0x53b39330; 0x24b4a3a6; 0xbad03605; 0xcdd70693;
   0x54de5729; 0x23d967bf; 0xb3667a2e; 0xc4614ab8; 0x5d681b02; 0x2a6f2b94;
   0xb40bbe37; 0xc30c8ea1; 0x5a05df1b; 0x2d02ef8d ].

(** The three-element array [keys]. *)
Record KEYS := mkKEYS { key0 : Z; key1 : Z; key2 : Z }.

Definition CRC32 (c b : Z) : Z :=
  Z.lxor (nth (Z.to_nat (Z.land (Z.lxor (swrap 32 c) b) 0xff)) crc_32_tab 0)
         (Z.shiftr c 8).

Section Width.
Variable w : Z.

Definition update_keys (keys : KEYS) (c : Z) : KEYS :=
  let k0 := CRC32 (key0 keys) c in
  let k1 := wrap w (key1 keys + Z.land k0 0xff) in
  let k1 := wrap w (k1 * 134775813 + 1) in
  let keyshift := swrap 32 (Z.shiftr k1 24) in
  mkKEYS k0 k1 (CRC32 (key2 keys) keyshift).

(** The caller's loop over the rest of a password. *)
Fixpoint update_keys_str (keys : KEYS) (p : cstr) : KEYS :=
  match p with
  | [] => keys
  | c :: t => update_keys_str (update_keys keys (schar c)) t
  end.

Definition init_keys (passwd : cstr) : KEYS :=
  update_keys_str (mkKEYS 305419896 591751049 878082192) passwd.

Definition decrypt_byte (keys : KEYS) : Z :=
  let temp := Z.lor (Z.land (wrap 32 (key2 keys)) 0xffff) 2 in
  Z.land (Z.shiftr (wrap 32 (temp * Z.lxor temp 1)) 8) 0xff.

Fixpoint decrypt_buf (buf : list Z) (keys : KEYS) : list Z * KEYS :=
  match buf with
  | [] => ([], keys)
  | c :: t =>
      let c' := Z.lxor c (decrypt_byte keys) in
      let (t', keys') := decrypt_buf t (update_keys keys (schar c')) in
      (c' :: t', keys')
  end.

Fixpoint encrypt_buf (buf : list Z) (keys : KEYS) : list Z * KEYS :=
  match buf with
  | [] => ([], keys)
  | c :: t =>
      let x := decrypt_byte keys in
      let (t', keys') := encrypt_buf t (update_keys keys (schar c)) in
      (Z.lxor c x :: t', keys')
  end.
End Width.

(** ** Lemmas *)
Lemma encrypt_buf_app w a b k :
  encrypt_buf w (a ++ b) k =
  let (a', k1) := encrypt_buf w a k in
  let (b', k2) := encrypt_buf w b k1 in (a' ++ b', k2).
Proof.
  revert k. induction a as [|c a IH]; intros k; simpl.
  - by destruct (encrypt_buf w b k).
  - rewrite IH. destruct (encrypt_buf w a _) as [a' k1].
    by destruct (encrypt_buf w b k1).
Qed.

Lemma decrypt_buf_app w a b k :
  decrypt_buf w (a ++ b) k =
  let (a', k1) := decrypt_buf w a k in
  let (b', k2) := decrypt_buf w b k1 in (a' ++ b', k2).
Proof.
  revert k. induction a as [|c a IH]; intros k; simpl.
  - by destruct (decrypt_buf w b k).
  - rewrite IH. destruct (decrypt_buf w a _) as [a' k1].
    by destruct (decrypt_buf w b k1).
Qed.

Lemma encrypt_buf_length w a k : length (encrypt_buf w a k).1 = length a.
Proof.
  revert k. induction a as [|c a IH]; intros k; simpl; [done|].
  specialize (IH (update_keys w k (schar c))).
  destruct (encrypt_buf w a _). simpl in *. by f_equal.
Qed.

Lemma decrypt_buf_length w a k : length (decrypt_buf w a k).1 = length a.
Proof.
  revert k. induction a as [|c a IH]; intros k; simpl; [done|].
  specialize (IH (update_keys w k (schar (Z.lxor c (decrypt_byte k))))).
  destruct (decrypt_buf w a _). simpl in *. by f_equal.
Qed.

Lemma lxor_cancel c x : Z.lxor (Z.lxor c x) x = c.
Proof. by rewrite Z.lxor_assoc, Z.lxor_nilpotent, Z.lxor_0_r. Qed.

Lemma decrypt_encrypt_buf w buf k :
  decrypt_buf w (encrypt_buf w buf k).1 k = (buf, (encrypt_buf w buf k).2).
Proof.
  revert k. induction buf as [|c buf IH]; intros k; [done|].
  cbn [encrypt_buf]. specialize (IH (update_keys w k (schar c))).
  destruct (encrypt_buf w buf _) as [t' k']. cbn [fst snd decrypt_buf] in *.
  by rewrite lxor_cancel, IH.
Qed.

(** *** The width of [unsigned long] does not show *)
Definition same_low (k k' : KEYS) : Prop :=
  key0 k = key0 k' /\ key2 k = key2 k' /\ key1 k mod 2 ^ 32 = key1 k' mod 2 ^ 32.

Lemma land_255 x : Z.land x 0xff = x mod 256.
Proof. change 0xff with (Z.ones 8). by rewrite Z.land_ones by lia. Qed.

Lemma swrap_mod256 x : swrap 32 x mod 256 = x mod 256.
Proof.
  unfold swrap. set (u := x mod 2 ^ 32).
  assert (u mod 256 = x mod 256) as <-.
  { subst u. change (2 ^ 32) with (256 * 2 ^ 24).
    rewrite Z.rem_mul_r by lia. rewrite Z.mul_comm, Z.mod_add by lia.
    apply Z.mod_mod. lia. }
  case_if; [done|]. change (2 ^ 32) with (2 ^ 24 * 256).
  rewrite <- Z.add_opp_r, <- Z.mul_opp_l. by rewrite Z.mod_add by lia.
Qed.

Lemma land_lxor_distr a b m : Z.land (Z.lxor a b) m = Z.lxor (Z.land a m) (Z.land b m).
Proof.
  apply Z.bits_inj'. intros n _. rewrite !Z.land_spec, !Z.lxor_spec, !Z.land_spec.
  by destruct (Z.testbit a n), (Z.testbit b n), (Z.testbit m n).
Qed.

Lemma CRC32_low c b b' : b mod 256 = b' mod 256 -> CRC32 c b = CRC32 c b'.
Proof.
  intros H. unfold CRC32. do 3 f_equal. rewrite !land_lxor_distr.
  by rewrite !(land_255 b), !(land_255 b'), H.
Qed.

Lemma div_mod_low x : (x / 2 ^ 24) mod 256 = (x mod 2 ^ 32) / 2 ^ 24.
Proof.
  change (2 ^ 32) with (2 ^ 24 * 256). rewrite Z.rem_mul_r by lia.
  rewrite Z.mul_comm, Z.div_add by lia.
  rewrite (Z.div_small (x mod _)) by (apply Z.mod_pos_bound; lia). lia.
Qed.

Lemma wrap_mod32 w x : 32 <= w -> wrap w x mod 2 ^ 32 = x mod 2 ^ 32.
Proof.
  intros Hw. unfold wrap. replace w with (32 + (w - 32)) by lia.
  rewrite Z.pow_add_r by lia. rewrite Z.rem_mul_r by lia.
  rewrite Z.mul_comm, Z.mod_add by lia. apply Z.mod_mod. lia.
Qed.

Lemma update_keys_same_low w w' k k' c :
  32 <= w -> 32 <= w' -> same_low k k' -> same_low (update_keys w k c) (update_keys w' k' c).
Proof.
  intros Hw Hw' (H0 & H2 & H1). unfold same_low, update_keys; cbn [key0 key1 key2].
  rewrite <- H0, <- H2. set (k0 := CRC32 (key0 k) c).
  assert (E : wrap w (wrap w (key1 k + Z.land k0 255) * 134775813 + 1) mod 2 ^ 32 =
    wrap w' (wrap w' (key1 k' + Z.land k0 255) * 134775813 + 1) mod 2 ^ 32).
  { rewrite !wrap_mod32 by done.
    set (A := wrap w _). set (B := wrap w' _).
    assert (HAB : A mod 2 ^ 32 = B mod 2 ^ 32).
    { subst A B. rewrite !wrap_mod32 by done.
      by rewrite (Zplus_mod (key1 k)), H1, <- Zplus_mod. }
    by rewrite (Zplus_mod (A * _)), (Zmult_mod A), HAB, <- Zmult_mod, <- Zplus_mod. }
  split_and!; [done| |done]. apply CRC32_low.
  rewrite !swrap_mod256, !Z.shiftr_div_pow2, !div_mod_low by lia. by rewrite E.
Qed.

Lemma encrypt_buf_same_low w w' buf : forall k k',
  32 <= w -> 32 <= w' -> same_low k k' ->
  (encrypt_buf w buf k).1 = (encrypt_buf w' buf k').1 /\
  same_low (encrypt_buf w buf k).2 (encrypt_buf w' buf k').2.
Proof.
  induction buf as [|c buf IH]; intros k k' Hw Hw' Hk; [done|]. cbn [encrypt_buf].
  destruct (IH _ _ Hw Hw' (update_keys_same_low w w' k k' (schar c) Hw Hw' Hk)) as [E1 E2].
  destruct (encrypt_buf w buf _), (encrypt_buf w' buf _). cbn [fst snd] in *.
  unfold decrypt_byte. destruct Hk as (_ & -> & _). by rewrite E1.
Qed.

Lemma update_keys_str_same_low w w' p : forall k k',
  32 <= w -> 32 <= w' -> same_low k k' ->
  same_low (update_keys_str w k p) (update_keys_str w' k' p).
Proof.
  induction p as [|c p IH]; intros k k' Hw Hw' Hk; simpl; [done|].
  apply IH; [done..|]. by apply update_keys_same_low.
Qed.

#[export] Hint Rewrite encrypt_buf_length decrypt_buf_length : len.

(** ** Properties *)

(** C35: a receiver whose [keys_in] equal the sender's [keys_out] recovers the
    plain text of every buffer, and both sides' keys stay equal, so the next
    buffer decrypts as well. *)
Theorem decrypt_encrypt_sync w b1 b2 k :
  let (c1, k1) := encrypt_buf w b1 k in
  let (c2, k2) := encrypt_buf w b2 k1 in
  decrypt_buf w (c1 ++ c2) k = (b1 ++ b2, k2).
Proof.
  destruct (encrypt_buf w b1 k) as [c1 k1] eqn:E1.
  destruct (encrypt_buf w b2 k1) as [c2 k2] eqn:E2.
  rewrite decrypt_buf_app.
  assert (H := decrypt_encrypt_buf w b1 k). rewrite E1 in H. cbn in H. rewrite H.
  assert (H' := decrypt_encrypt_buf w b2 k1). rewrite E2 in H'. cbn in H'. by rewrite H'.
Qed.

(** systems with 32-bit and 64-bit [unsigned long] interoperate: with keys
    initialised from the same password the cipher text of every buffer is the
    same on both. *)
Theorem encrypt_buf_portable passwd buf w w' :
  32 <= w -> 32 <= w' ->
  (encrypt_buf w buf (init_keys w passwd)).1 = (encrypt_buf w' buf (init_keys w' passwd)).1.
Proof.
  intros Hw Hw'. apply encrypt_buf_same_low; [done..|].
  by apply update_keys_str_same_low.
Qed.

Lemma encrypt_buf_portable_witness :
  32 <= 32 /\ 32 <= 64 /\
  (encrypt_buf 32 (str "hello") (init_keys 32 (str "pwd"))).1 =
  (encrypt_buf 64 (str "hello") (init_keys 64 (str "pwd"))).1.
Proof. split; [lia|]. split; [lia|]. apply encrypt_buf_portable; lia. Defined.

(** Deciphered bytes are bytes. *)
Lemma lxor_byte a b : is_byte a -> is_byte b -> is_byte (Z.lxor a b).
Proof.
  unfold is_byte. intros Ha Hb. split; [apply Z.lxor_nonneg; lia|].
  destruct (Z.eq_dec (Z.lxor a b) 0) as [->|Hn]; [lia|]. apply (Z.log2_lt_cancel _ (2 ^ 8)).
  change (Z.log2 (2 ^ 8)) with 8.
  assert (H0 : 0 <= Z.lxor a b) by (apply Z.lxor_nonneg; lia).
  assert (Hl : forall x, 0 <= x < 256 -> Z.log2 x <= 7).
  { intros x Hx. destruct (Z.eq_dec x 0) as [->|]; [by vm_compute|]. apply Z.lt_succ_r, Z.log2_lt_pow2; lia. }
  pose proof (Z.log2_lxor a b ltac:(lia) ltac:(lia)). pose proof (Hl a Ha). pose proof (Hl b Hb). lia.
Qed.
Lemma decrypt_byte_byte k : is_byte (decrypt_byte k).
Proof. unfold decrypt_byte, is_byte. rewrite land_255. apply Z.mod_pos_bound. lia. Qed.
Lemma decrypt_buf_bytes w bs k : Forall is_byte bs -> Forall is_byte (decrypt_buf w bs k).1.
Proof.
  intros H. revert k. induction H as [|c bs Hc _ IH]; intros k; [constructor|]. cbn [decrypt_buf].
  specialize (IH (update_keys w k (schar (Z.lxor c (decrypt_byte k))))). destruct (decrypt_buf w bs _) as [t k'].
  constructor; [|done]. apply lxor_byte; [done|apply decrypt_byte_byte].
Qed.
