(* ===== verification/Tools.v ===== *)
(** * tools.c: text utilities

    Case folding and comparison, bounded copies, quoting of file names on the
    wire, argument splitting, the replace-all editor [ed] and file-name case. *)
From S2P Require Import Prelude CStr.

(** ** Case *)
Definition strlower (s : cstr) : cstr := map tolower s.
Definition strupper (s : cstr) : cstr := map toupper s.

Fixpoint o_memicmp (s1 s2 : list Z) (n : nat) : Z :=
  match n, s1, s2 with
  | S n', c1 :: t1, c2 :: t2 =>
      let a := tolower (schar c1) in
      let b := tolower (schar c2) in
      if a =? b then o_memicmp t1 t2 n' else a - b
  | _, _, _ => 0
  end.

Fixpoint o_stricmp (s1 s2 : cstr) : Z :=
  let a := tolower (schar (hd0 s1)) in
  let b := tolower (schar (hd0 s2)) in
  if a =? b then
    match s1, s2 with
    | _ :: t1, _ :: t2 => o_stricmp t1 t2
    | _, _ => 0
    end
  else a - b.

Fixpoint o_strnicmp (s1 s2 : cstr) (n : nat) : Z :=
  match n with
  | O => 0
  | S n' =>
      let a := tolower (schar (hd0 s1)) in
      let b := tolower (schar (hd0 s2)) in
      if a =? b then
        match s1, s2 with
        | _ :: t1, _ :: t2 => o_strnicmp t1 t2 n'
        | _, _ => 0
        end
      else a - b
  end.

(** ** Quoting *)
Definition SQ_CNTRL : Z := 1.
Definition SQ_SPACE : Z := 2.

Definition quote_char (flags c : Z) : bool :=
  (negb (Z.land flags SQ_CNTRL =? 0) && iscntrl c)
  || (negb (Z.land flags SQ_SPACE =? 0) && isspace c)
  || (c =? chr "\").

Fixpoint strquote (s : cstr) (flags : Z) : cstr :=
  match s with
  | [] => []
  | c :: t =>
      if quote_char flags c
      then chr "\" :: chr "x" :: digit_char (c / 16) :: digit_char (c mod 16) :: strquote t flags
      else c :: strquote t flags
  end.

Definition XD (x : char) : Z := if isdigit x then x - 48 else tolower x - 97 + 10.

(** The loop of [strdequote]; [\x00] writes a NUL into the result. *)
Fixpoint dequote_loop (s : cstr) : list Z :=
  match s with
  | [] => []
  | c :: t =>
      if c =? chr "\" then
        match t with
        | x :: ((h :: ((l :: rest) as t3)) as t2) =>
            if (x =? chr "x") && isxdigit h && isxdigit l
            then uchar (XD h * 16 + XD l) :: dequote_loop rest
            else if isxdigit x && isxdigit h
            then uchar (XD x * 16 + XD h) :: dequote_loop t3
            else c :: dequote_loop t
        | x :: [h] =>
            if isxdigit x && isxdigit h
            then [uchar (XD x * 16 + XD h)]
            else c :: dequote_loop t
        | _ => c :: dequote_loop t
        end
      else c :: dequote_loop t
  end.

Definition strdequote (s : cstr) : cstr := c_string (dequote_loop s).

Definition strwipe (s : cstr) : cstr :=
  map (fun c => if iscntrl c || (c =? chr "\") || (c =? chr "/") || (c =? chr ":")
                then chr "_" else c) s.

(** ** Bounded copies: [len] is the size of the destination *)
Definition strnzcpy (src : cstr) (len : nat) : cstr := take (len - 1) src.
Definition strnzcat (dst src : cstr) (len : nat) : cstr :=
  let x := length dst in
  if (len <=? x)%nat then dst else dst ++ strnzcpy src (len - x).

(** ** Splitting: [argc] words and what follows them *)
Fixpoint span_word (s : cstr) : cstr * cstr :=
  match s with
  | c :: t => if isspace c then ([], s) else let (w, r) := span_word t in (c :: w, r)
  | [] => ([], [])
  end.

Fixpoint parse_args (argc : nat) (src : cstr) : option (list cstr * cstr) :=
  match argc with
  | O => Some ([], src)
  | S n =>
      match skip_spaces src with
      | [] => None
      | s =>
          let (w, r) := span_word s in
          match r with
          | [] => match n with O => Some ([w], []) | S _ => None end
          | _ :: r' =>
              match parse_args n r' with
              | Some (ws, rest) => Some (w :: ws, rest)
              | None => None
              end
          end
      end
  end.

(** ** Replace all entries of [a] in [s] for [b], ignoring case

    [r] is the line being edited, [sz] the size of its buffer, [i] and [j] the
    positions in the line and in [a]. *)
Definition at_ (s : cstr) (i : nat) : char := nth i s 0.

Fixpoint ed_loop (fuel : nat) (a b r : cstr) (sz : Z) (i j : nat) : mem (cstr * Z) :=
  match fuel with
  | O => Fuel
  | S f =>
      if (i <? length r)%nat then
        if tolower (at_ r i) =? tolower (at_ a j) then
          if (S j <? length a)%nat then ed_loop f a b r sz (S i) (S j)
          else
            let sz' := if sz <=? strlen r - strlen a + strlen b
                       then if strlen b <? 64 then sz + 64 else sz + strlen b
                       else sz in
            let i' := (i - (length a - 1))%nat in
            let r' := take i' r ++ b ++ drop (i' + length a) r in
            ed_loop f a b r' sz' (i' + length b) 0
        else ed_loop f a b r sz (S (i - j)) 0
      else Ok (r, sz)
  end.

(** The edited line and the size of its buffer; without [size] the line is
    copied to a buffer of its exact size first. *)
Definition ed (s a b : cstr) (size : option Z) : mem (cstr * Z) :=
  let sz := match size with Some z => z | None => strlen s + 1 end in
  match a with
  | [] => Ok (s, sz)
  | _ => ed_loop (S (length s * S (length a))) a b s sz 0 0
  end.

(** ** File names *)
Inductive inbcasetype := INB_SAVE | INB_UPPER | INB_LOWER | INB_MIXED.

Fixpoint mixed_loop (prev : char) (s : cstr) : cstr :=
  match s with
  | [] => []
  | c :: t =>
      let c' := if isalnum prev then tolower c else toupper c in
      c' :: mixed_loop c' t
  end.

(** On the empty string [INB_MIXED] goes on reading after the terminator. *)
Definition makeinboundcase (s : cstr) (inbcase : inbcasetype) : mem cstr :=
  match inbcase with
  | INB_UPPER => Ok (strupper s)
  | INB_LOWER => Ok (strlower s)
  | INB_MIXED =>
      match s with
      | [] => Oob
      | c :: t => Ok (toupper c :: mixed_loop (toupper c) t)
      end
  | INB_SAVE => Ok s
  end.

Fixpoint last_slash (s : cstr) : option nat :=
  match s with
  | [] => None
  | c :: t =>
      match last_slash t with
      | Some i => Some (S i)
      | None => if (c =? chr "/") || (c =? chr "\") then Some 0%nat else None
      end
  end.

(** [max] of two pointers, NULL being the least. *)
Definition ptr_max (p q : option nat) : option nat :=
  match p, q with
  | Some i, Some j => Some (if (j <? i)%nat then i else j)
  | Some i, None => Some i
  | None, _ => q
  end.

Definition extract_filename (s : cstr) : cstr :=
  match ptr_max (last_slash s) (strrchr s (chr ":")) with
  | Some i => drop (S i) s
  | None => s
  end.

(** The value and whether an error message was set. *)
Definition safe_atol (s : cstr) : Z * bool :=
  if hd0 s =? chr "-" then strtol s
  else
    let n := (read_dec 0 (skip_spaces s)).1 in
    (swrap 64 (strtoumax s), ULONG_MAX <? n).

(** Formats an argument vector for the log, quoting arguments with blanks. *)
Definition arg_quoted (a : cstr) : bool :=
  match a with [] => true | _ => existsb (fun c => schar c <=? 32) a end.

Fixpoint print_args_loop (buf : cstr) (size : nat) (argv : list cstr) : cstr :=
  match argv with
  | [] => buf
  | a :: rest =>
      let quote := arg_quoted a in
      let buf := strnzcat buf (str " ") size in
      let buf := if quote then strnzcat buf [34] size else buf in
      let buf := strnzcat buf a size in
      let buf := if quote then strnzcat buf [34] size else buf in
      print_args_loop buf size rest
  end.
Definition print_args (size : nat) (argv : list cstr) : cstr := print_args_loop [] size argv.

(** ** Lemmas *)

(** *** Comparison ignoring case *)
Definition fold_char (c : char) : Z := tolower (schar c).

Lemma fold_char_eq c d : is_byte c -> is_byte d ->
  fold_char c = fold_char d <-> tolower c = tolower d.
Proof.
  unfold fold_char, is_byte, tolower, schar, isupper. intros.
  repeat case_if; bools; lia.
Qed.

Lemma fold_char_0 c : 0 < c < 256 -> fold_char c <> 0.
Proof. unfold fold_char, tolower, schar, isupper. intros. repeat case_if; bools; lia. Qed.

Lemma fold_char_nul : fold_char 0 = 0.
Proof. done. Qed.

Lemma o_stricmp_cons c d s t :
  o_stricmp (c :: s) (d :: t) =
  if fold_char c =? fold_char d then o_stricmp s t else fold_char c - fold_char d.
Proof. done. Qed.

Lemma o_stricmp_nil_cons c s : 0 < c < 256 -> o_stricmp [] (c :: s) = - fold_char c.
Proof.
  intros Hc. assert (H := fold_char_0 c Hc). cbn [o_stricmp hd0].
  change (tolower (schar 0)) with 0. change (tolower (schar c)) with (fold_char c).
  case_if; bools; lia.
Qed.

Lemma o_stricmp_cons_nil c s : 0 < c < 256 -> o_stricmp (c :: s) [] = fold_char c.
Proof.
  intros Hc. assert (H := fold_char_0 c Hc). cbn [o_stricmp hd0].
  change (tolower (schar 0)) with 0. change (tolower (schar c)) with (fold_char c).
  case_if; bools; lia.
Qed.

Ltac stricmp_cases :=
  intros; repeat match goal with H : cstring (_ :: _) |- _ => inversion H; subst; clear H end;
  rewrite ?o_stricmp_cons, ?o_stricmp_nil_cons, ?o_stricmp_cons_nil in * by assumption.

Lemma o_stricmp_sym s t : cstring s -> cstring t -> o_stricmp s t = - o_stricmp t s.
Proof.
  revert t. induction s as [|c s IH]; intros [|d t] Hs Ht; stricmp_cases; [done|lia..|].
  rewrite (Z.eqb_sym (fold_char d)). case_if; [by apply IH|lia].
Qed.

Lemma o_stricmp_eq s t : cstring s -> cstring t ->
  o_stricmp s t = 0 <-> strlower s = strlower t.
Proof.
  revert t. induction s as [|c s IH]; intros [|d t] Hs Ht; stricmp_cases; [done|..].
  - assert (fold_char d <> 0) by by apply fold_char_0. split; [lia|done].
  - assert (fold_char c <> 0) by by apply fold_char_0. split; [lia|done].
  - cbn [strlower map]. assert (Hc := fold_char_eq c d). unfold is_byte in Hc.
    case_if; bools.
    + change (map tolower) with strlower. rewrite IH by done. split.
      * intros ->. f_equal. apply Hc; lia.
      * by intros [=].
    + split; [lia|]. intros [=]. exfalso. apply E, Hc; [lia..|done].
Qed.

Lemma o_stricmp_trans s t u : cstring s -> cstring t -> cstring u ->
  o_stricmp s t <= 0 -> o_stricmp t u <= 0 ->
  o_stricmp s u <= 0 /\ (o_stricmp s u = 0 -> o_stricmp s t = 0 /\ o_stricmp t u = 0).
Proof.
  revert t u. induction s as [|c s IH]; intros [|d t] [|e u] Hs Ht Hu; stricmp_cases;
    repeat match goal with H : 0 < ?c < 256 |- _ =>
      lazymatch goal with
      | _ : fold_char c <> 0 |- _ => fail
      | _ => pose proof (fold_char_0 c H) end end.
  all: change (o_stricmp [] []) with 0 in *.
  all: repeat match goal with
       | H : context [if ?b then _ else _] |- _ => destruct b eqn:?; bools
       | |- context [if ?b then _ else _] => destruct b eqn:?; bools
       end.
  all: first [lia | by apply IH].
Qed.

(** *** Quoting *)
Lemma digit_char_hex d : 0 <= d < 16 ->
  isxdigit (digit_char d) = true /\ XD (digit_char d) = d /\ digit_char d <> chr "\".
Proof.
  intros Hd. change (chr "\") with 92.
  unfold digit_char, XD, isxdigit, isdigit, tolower, isupper.
  destruct (d <? 10) eqn:E; bools;
    repeat case_if; bools; split_and!; try lia; try done.
Qed.

Lemma dequote_quoted c s : is_byte c ->
  dequote_loop (chr "\" :: chr "x" :: digit_char (c / 16) :: digit_char (c mod 16) :: s)
  = c :: dequote_loop s.
Proof.
  unfold is_byte. intros Hc.
  destruct (digit_char_hex (c / 16)) as (X1 & V1 & _).
  { split; [apply Z.div_pos; lia | apply Z.div_lt_upper_bound; lia]. }
  destruct (digit_char_hex (c mod 16)) as (X2 & V2 & _); [apply Z.mod_pos_bound; lia|].
  cbn [dequote_loop]. rewrite !Z.eqb_refl, X1, X2, V1, V2. cbn [andb]. f_equal.
  pose proof (Z.div_mod c 16 ltac:(lia)). replace (_ + _) with c by lia. by apply uchar_id.
Qed.

Lemma dequote_plain c s : c <> chr "\" -> dequote_loop (c :: s) = c :: dequote_loop s.
Proof. intros Hc. cbn [dequote_loop]. by rewrite (proj2 (Z.eqb_neq c _) Hc). Qed.

Lemma dequote_strquote s flags : cstring s -> dequote_loop (strquote s flags) = s.
Proof.
  induction 1 as [|c s Hc Hs IH]; [done|]. cbn [strquote].
  destruct (quote_char flags c) eqn:E.
  - rewrite dequote_quoted by (unfold is_byte; lia). by rewrite IH.
  - rewrite dequote_plain, IH; [done|].
    unfold quote_char in E. bools. done.
Qed.

Lemma strquote_cstring s flags : cstring s -> cstring (strquote s flags).
Proof.
  induction 1 as [|c s Hc Hs IH]; [constructor|]. cbn [strquote].
  assert (Hd : forall d, 0 <= d < 16 -> 0 < digit_char d < 256).
  { intros d Hd. unfold digit_char. case_if; bools; lia. }
  case_if; [|by constructor].
  repeat constructor; try done; apply Hd;
    first [apply Z.mod_pos_bound; lia
          | split; [apply Z.div_pos; lia | apply Z.div_lt_upper_bound; lia]].
Qed.

(** *** Splitting *)
Definition word (s : cstr) : Prop := s <> [] /\ Forall (fun c => isspace c = false) s.

Lemma span_word_word w s :
  Forall (fun c => isspace c = false) w -> (s = [] \/ isspace (hd0 s) = true) ->
  span_word (w ++ s) = (w, s).
Proof.
  intros Hw Hs. induction Hw as [|c w Hc _ IH]; cbn [app span_word].
  - destruct Hs as [->|Hs]; [done|]. destruct s as [|c s]; [done|]. cbn in *. by rewrite Hs.
  - by rewrite Hc, IH.
Qed.

Lemma skip_spaces_word w s : word w -> skip_spaces (w ++ s) = w ++ s.
Proof.
  intros [Hne Hw]. destruct w as [|c w]; [done|]. inversion Hw; subst. cbn.
  by rewrite H1.
Qed.

(** Words separated by single blanks, the way every message is printed. *)
Fixpoint join (ws : list cstr) : cstr :=
  match ws with
  | [] => []
  | [w] => w
  | w :: ws' => w ++ 32 :: join ws'
  end.

Lemma parse_args_step n w s :
  word w -> (s = [] \/ isspace (hd0 s) = true) ->
  parse_args (S n) (w ++ s) =
  match s with
  | [] => match n with O => Some ([w], []) | S _ => None end
  | _ :: r => match parse_args n r with Some (ws, rest) => Some (w :: ws, rest) | None => None end
  end.
Proof.
  intros Hw Hs. cbn [parse_args]. rewrite skip_spaces_word by done.
  destruct Hw as [Hne Hw]. destruct w as [|c w]; [done|]. cbn [app].
  change (c :: w ++ s) with ((c :: w) ++ s). rewrite span_word_word by done.
  by destruct s.
Qed.

(** A printed list of words splits back, whatever follows the last blank. *)
Lemma parse_args_join ws rest :
  Forall word ws -> ws <> [] ->
  parse_args (length ws) (join ws ++ match rest with [] => [] | _ => 32 :: rest end)
  = Some (ws, rest).
Proof.
  intros Hws. induction Hws as [|w ws Hw Hws IH]; intros Hne; [done|].
  destruct ws as [|w' ws].
  - cbn [join length]. rewrite parse_args_step; [|done|destruct rest; auto].
    by destruct rest.
  - change (join (w :: w' :: ws)) with (w ++ 32 :: join (w' :: ws)).
    rewrite <- app_assoc. cbn [length]. rewrite parse_args_step by auto.
    cbn [app]. cbn [length] in IH. by rewrite IH.
Qed.

(** *** Bounded copies *)
Lemma strnzcpy_length src len : (0 < len)%nat -> (length (strnzcpy src len) < len)%nat.
Proof. unfold strnzcpy. autorewrite with len. lia. Qed.

Lemma strnzcat_length dst src len :
  (length dst < len)%nat -> (length (strnzcat dst src len) < len)%nat.
Proof.
  unfold strnzcat, strnzcpy. intros H. destruct (Nat.leb_spec len (length dst)); [lia|].
  autorewrite with len. lia.
Qed.

Lemma strnzcat_fits dst src len :
  (length dst + length src < len)%nat -> strnzcat dst src len = dst ++ src.
Proof.
  unfold strnzcat, strnzcpy. intros H. destruct (Nat.leb_spec len (length dst)); [lia|].
  by rewrite take_ge by lia.
Qed.

Lemma strnzcpy_fits src len : (length src < len)%nat -> strnzcpy src len = src.
Proof. unfold strnzcpy. intros H. by rewrite take_ge by lia. Qed.

Lemma strnzcat_cstring dst src len : cstring dst -> cstring src -> cstring (strnzcat dst src len).
Proof.
  intros Hd Hs. unfold strnzcat, strnzcpy. destruct (_ <=? _)%nat; [done|].
  apply cstring_app. split; [done|]. by apply Forall_take.
Qed.

Lemma strnzcpy_cstring src len : cstring src -> cstring (strnzcpy src len).
Proof. intros H. by apply Forall_take. Qed.

#[export] Hint Resolve strnzcat_cstring strnzcpy_cstring strquote_cstring : binkd.

(** *** Replacing *)
Definition fold_eq (c d : char) : bool := tolower c =? tolower d.

Fixpoint ci_prefix (a s : cstr) : bool :=
  match a, s with
  | [], _ => true
  | c :: a', d :: s' => fold_eq c d && ci_prefix a' s'
  | _ :: _, [] => false
  end.

(** The specification of [ed]: every leftmost occurrence replaced, the
    inserted text not searched again.  [skip] counts the characters of a
    replaced occurrence that are still to be dropped. *)
Fixpoint replace_ci (skip : nat) (a b s : cstr) : cstr :=
  match s with
  | [] => []
  | c :: t =>
      match skip with
      | S k => replace_ci k a b t
      | O => if ci_prefix a s then b ++ replace_ci (length a - 1) a b t
             else c :: replace_ci O a b t
      end
  end.

Lemma replace_ci_skip k a b s : replace_ci k a b s = replace_ci O a b (drop k s).
Proof.
  revert s. induction k as [|k IH]; intros s; [done|]. destruct s as [|c s]; [done|]. apply IH.
Qed.

Lemma ci_prefix_short a s : (length s < length a)%nat -> ci_prefix a s = false.
Proof.
  revert s. induction a as [|c a IH]; intros [|d s] H; simpl in *; [lia|lia|done|].
  rewrite IH by lia. apply andb_false_r.
Qed.

Lemma replace_ci_short a b s : (length s < length a)%nat -> replace_ci O a b s = s.
Proof.
  induction s as [|c s IH]; intros H; [done|]. cbn [replace_ci].
  rewrite ci_prefix_short by done. cbn [length] in H. by rewrite IH by lia.
Qed.

Lemma ci_prefix_split a s j :
  (j <= length a)%nat ->
  ci_prefix a s = ci_prefix (take j a) s && ci_prefix (drop j a) (drop j s).
Proof.
  revert s j. induction a as [|c a IH]; intros s [|j] H; simpl in *; [done|lia|done|].
  destruct s as [|d s]; [done|]. cbn [ci_prefix]. rewrite (IH s j) by lia. by rewrite andb_assoc.
Qed.

Lemma ci_prefix_length a s : ci_prefix a s = true -> (length a <= length s)%nat.
Proof.
  intros H. destruct (Nat.ltb_spec (length s) (length a)); [|lia].
  by rewrite ci_prefix_short in H.
Qed.

Section Ed.
Variables (a b : cstr).
Hypothesis Ha : (0 < length a)%nat.

(** The line is [pre ++ rest]: [pre] is final, the first [j] characters of
    [rest] match the beginning of [a]. *)
Lemma ed_loop_spec fuel : forall pre rest j sz,
  (j < length a)%nat -> (j <= length rest)%nat -> ci_prefix (take j a) rest = true ->
  strlen (pre ++ rest) < sz ->
  (length rest * S (length a) - j < fuel)%nat ->
  exists sz', ed_loop fuel a b (pre ++ rest) sz (length pre + j) j
              = Ok (pre ++ replace_ci O a b rest, sz')
            /\ strlen (pre ++ replace_ci O a b rest) < sz' /\ sz <= sz'.
Proof.
  induction fuel as [|f IH]; intros pre rest j sz Hja Hjr Hm Hsz Hf; [lia|].
  cbn [ed_loop]. rewrite length_app.
  destruct (Nat.ltb_spec (length pre + j) (length pre + length rest)) as [Hlt|Hge].
  2:{ rewrite replace_ci_short by lia. eauto with lia. }
  destruct (lookup_lt_is_Some_2 rest j ltac:(lia)) as [c Hc].
  destruct (lookup_lt_is_Some_2 a j ltac:(lia)) as [d Hd].
  assert (Hr : at_ (pre ++ rest) (length pre + j) = c).
  { unfold at_. rewrite app_nth2_plus. by apply nth_lookup_Some. }
  assert (Hda : at_ a j = d) by by apply nth_lookup_Some.
  assert (Hstep : ci_prefix (take (S j) a) rest = fold_eq d c).
  { rewrite (take_S_r _ _ _ Hd), (ci_prefix_split _ _ j) by (autorewrite with len; simpl; lia).
    rewrite take_app_le, take_take, Nat.min_id, Hm by (autorewrite with len; lia).
    rewrite drop_app_ge by (autorewrite with len; lia).
    rewrite length_take, Nat.min_l, Nat.sub_diag by lia.
    rewrite (drop_S _ _ _ Hc). cbn. apply andb_true_r. }
  rewrite Hr, Hda, Z.eqb_sym. fold (fold_eq d c).
  destruct (fold_eq d c) eqn:Ecd.
  - destruct (Nat.ltb_spec (S j) (length a)) as [HS|HS].
    + rewrite <- Nat.add_succ_r. apply IH; [lia|lia|done|done|lia].
    + assert (S j = length a) as HSj by lia.
      assert (Hfull : ci_prefix a rest = true).
      { rewrite <- Hstep, HSj, firstn_all. done. }
      assert (Hlen := ci_prefix_length _ _ Hfull).
      replace (length pre + j - (length a - 1))%nat with (length pre) by lia.
      rewrite take_app_length, <- drop_drop, drop_app_length.
      set (sz' := if sz <=? _ then _ else sz).
      assert (Hsz' : strlen (pre ++ b ++ drop (length a) rest) < sz' /\ sz <= sz').
      { subst sz'. unfold strlen in *. autorewrite with len in *.
        repeat case_if; bools; lia. }
      destruct (IH (pre ++ b) (drop (length a) rest) O sz') as (sz2 & E & L & M).
      * lia.
      * lia.
      * done.
      * rewrite <- app_assoc. apply Hsz'.
      * autorewrite with len. destruct (length rest) as [|n]; simpl in *; nia.
      * exists sz2. rewrite Nat.add_0_r, length_app, <- !app_assoc in E.
        assert (Hrep : replace_ci O a b rest = b ++ replace_ci O a b (drop (length a) rest)).
        { destruct rest as [|e rest]; [by simpl in *; lia|]. cbn [replace_ci].
          rewrite Hfull, replace_ci_skip. destruct a as [|x a']; [simpl in Ha; lia|].
          simpl. by rewrite Nat.sub_0_r. }
        rewrite Hrep. rewrite <- app_assoc in L. split_and!; [exact E|exact L|lia].
  - assert (Hno : ci_prefix a rest = false).
    { rewrite (ci_prefix_split _ _ (S j)) by lia. by rewrite Hstep. }
    destruct rest as [|e rest]; [simpl in *; lia|].
    replace (S (length pre + j - j))%nat with (length (pre ++ [e]) + 0)%nat
      by (autorewrite with len; simpl; lia).
    change (pre ++ e :: rest) with (pre ++ [e] ++ rest). rewrite app_assoc.
    cbn [replace_ci]. rewrite Hno.
    change (pre ++ e :: replace_ci O a b rest) with (pre ++ [e] ++ replace_ci O a b rest).
    rewrite app_assoc. apply IH; [lia|lia|done| |].
    + rewrite <- app_assoc. exact Hsz.
    + simpl in *. lia.
Qed.
End Ed.

(** ** Properties *)

(** quoting a file name for the wire and dequoting it on the other side
    gives the name back, for every choice of what to quote. *)
Theorem strdequote_strquote s flags : cstring s -> strdequote (strquote s flags) = s.
Proof.
  intros Hs. unfold strdequote. rewrite dequote_strquote by done. by apply c_string_id.
Qed.

Lemma strdequote_strquote_witness :
  cstring (str "a b\c") /\ strdequote (strquote (str "a b\c") 3) = str "a b\c".
Proof.
  assert (H : cstring (str "a b\c")) by (repeat constructor).
  split; [exact H | exact (strdequote_strquote _ 3 H)].
Defined.

Lemma ed_replaces s a b size :
  strlen s < match size with Some z => z | None => strlen s + 1 end -> a <> [] ->
  exists sz', ed s a b size = Ok (replace_ci O a b s, sz') /\ strlen (replace_ci O a b s) < sz'.
Proof.
  intros Hsz Ha. unfold ed. destruct a as [|c a'] eqn:E; [done|]. rewrite <- E.
  destruct (ed_loop_spec a b ltac:(subst; simpl; lia) (S (length s * S (length a)))
              [] s O (match size with Some z => z | None => strlen s + 1 end))
    as (sz' & E' & L & _); [subst; simpl; lia | lia | done | done | lia |].
  exists sz'. split; [exact E' | exact L].
Qed.

(** [ed] always ends, and the line it returns is the specification's: every
    leftmost occurrence replaced, ignoring case; the buffer it has grown is
    large enough for the line and its terminator, so it never writes past it. *)
Theorem ed_correct s a b size :
  strlen s < match size with Some z => z | None => strlen s + 1 end -> a <> [] ->
  exists sz', ed s a b size = Ok (replace_ci O a b s, sz') /\ strlen (replace_ci O a b s) < sz'.
Proof. apply ed_replaces. Qed.

Lemma ed_correct_witness :
  exists sz', ed (str "run *S *s") (str "*S") (str "/tmp/x.srf") None
    = Ok (str "run /tmp/x.srf /tmp/x.srf", sz') /\ strlen (str "run /tmp/x.srf /tmp/x.srf") < sz'.
Proof.
  exact (ed_correct (str "run *S *s") (str "*S") (str "/tmp/x.srf") None eq_refl
           ltac:(discriminate)).
Defined.
