(* ===== verification/Pmatch.v ===== *)
(** * pmatch.c: wildcard patterns

    [xpmatch] walks the pattern and the string as NUL-terminated buffers, here
    the suffixes [p] and [q] of [pattern ++ [0]] and [string ++ [0]]; a step
    past the terminator is [Oob].  The second half gives patterns an abstract
    syntax and a declarative meaning and proves [xpmatch] computes it. *)
From S2P Require Import Prelude CStr.

Definition CTLESC : char := 92.

(** Is there a [']'] that closes the set whose text starts at [endp]? *)
Fixpoint scan_close (endp : list Z) : mem bool :=
  match endp with
  | [] => Oob
  | c :: t =>
      if c =? 0 then Ok false
      else if c =? CTLESC then
        match t with
        | _ :: ((d :: _) as t') => if d =? chr "]" then Ok true else scan_close t'
        | _ => Oob
        end
      else
        match t with
        | d :: _ => if d =? chr "]" then Ok true else scan_close t
        | [] => Oob
        end
  end.

(** The [do ... while] loop over the set: was [ch] found, and [p] after. *)
Fixpoint set_loop (fuel : nat) (ch c : char) (p : list Z) (found : bool) : mem (bool * list Z) :=
  match fuel with
  | O => Fuel
  | S f =>
      let* (c, p) := if c =? CTLESC
                     then (let* c := deref p in let* p := next p in Ok (c, p))
                     else Ok (c, p) in
      let* x := deref p in
      let* y := if x =? chr "-" then (let* t := next p in deref t) else Ok (chr "]") in
      let* (found, p) :=
        if (x =? chr "-") && negb (y =? chr "]") then
          let* p := next p in
          let* z := deref p in
          let* p := if z =? CTLESC then next p else Ok p in
          let* hi := deref p in
          let* p := next p in
          Ok (found || ((schar c <=? schar ch) && (schar ch <=? schar hi)), p)
        else Ok (found || (ch =? c), p) in
      let* c := deref p in
      let* p := next p in
      if c =? chr "]" then Ok (found, p) else set_loop f ch c p found
  end.

Definition char_eq (ncase : bool) (a b : char) : bool :=
  if ncase then toupper a =? toupper b else a =? b.

(** The loop after a star that skips to the next plain character; [None] is [return 0]. *)
Fixpoint skip_to (ncase : bool) (c : char) (q : list Z) : mem (option (list Z)) :=
  match q with
  | [] => Oob
  | d :: q' =>
      if (d =? c) || (ncase && (toupper d =? toupper c)) then Ok (Some q)
      else if d =? 0 then Ok None
      else skip_to ncase c q'
  end.

(** The [do ... while] loop of a star over the suffixes of the string. *)
Fixpoint star_loop (rec : list Z -> mem bool) (q : list Z) : mem bool :=
  let* r := rec q in
  if r then Ok true
  else match q with
       | [] => Oob
       | d :: q' => if d =? 0 then Ok false else star_loop rec q'
       end.

Fixpoint xpmatch (fuel : nat) (ncase : bool) (p q : list Z) : mem bool :=
  match fuel with
  | O => Fuel
  | S f =>
      let dft c p :=
        let* d := deref q in
        let* q := next q in
        if char_eq ncase d c then xpmatch f ncase p q else Ok false in
      let* c := deref p in
      let* p := next p in
      if c =? 0 then (let* d := deref q in Ok (d =? 0))
      else if c =? CTLESC then
        let* d := deref q in
        let* q := next q in
        let* e := deref p in
        let* p := next p in
        if d =? e then xpmatch f ncase p q else Ok false
      else if c =? chr "?" then
        let* d := deref q in
        let* q := next q in
        if d =? 0 then Ok false else xpmatch f ncase p q
      else if c =? chr "*" then
        let* c := deref p in
        let* q :=
          if negb (c =? CTLESC) && negb (c =? chr "?") && negb (c =? chr "*") && negb (c =? chr "[")
          then skip_to ncase c q else Ok (Some q) in
        match q with
        | None => Ok false
        | Some q => star_loop (fun q => xpmatch f ncase p q) q
        end
      else if c =? chr "[" then
        let* x := deref p in
        let* endp := if x =? chr "!" then next p else Ok p in
        let* closed := scan_close endp in
        if closed then
          let invert := x =? chr "!" in
          let p := endp in
          let* ch := deref q in
          let* q := next q in
          let* c := deref p in
          let* p := next p in
          let* (found, p) := set_loop (length p) ch c p false in
          if Bool.eqb found invert then Ok false else xpmatch f ncase p q
        else dft c p
      else dft c p
  end.

(** The C entry points on two C strings. *)
Definition pmatch_gen (ncase : bool) (pattern string : cstr) : mem bool :=
  xpmatch (S (length pattern)) ncase (pattern ++ [0]) (string ++ [0]).
Definition pmatch_ncase (pattern string : cstr) : bool :=
  match pmatch_gen true pattern string with Ok b => b | _ => false end.

(** ** tools.c: tests of net names against wildcards *)
Definition ispkt (s : cstr) : bool := pmatch_ncase (str "*.pkt") s.
Definition isreq (s : cstr) : bool := pmatch_ncase (str "*.req") s.
Definition istic (s : cstr) : bool := pmatch_ncase (str "*.?ic") s.
Definition isarcmail (s : cstr) : bool :=
  pmatch_ncase (str "*.su?") s || pmatch_ncase (str "*.mo?") s ||
  pmatch_ncase (str "*.tu?") s || pmatch_ncase (str "*.we?") s ||
  pmatch_ncase (str "*.th?") s || pmatch_ncase (str "*.fr?") s ||
  pmatch_ncase (str "*.sa?") s.

(** ** The meaning of patterns *)
Inductive set_item := SChar (c : char) | SRange (lo hi : char).
Inductive pelem :=
| PLit (c : char)                          (* a plain character *)
| PEsc (c : char)                          (* a backslash and a character *)
| PAny                                     (* one character *)
| PStar                                    (* any run *)
| PSet (invert : bool) (first : set_item) (items : list set_item).

#[export] Instance set_item_eq_dec : EqDecision set_item.
Proof. solve_decision. Defined.
#[export] Instance pelem_eq_dec : EqDecision pelem.
Proof. solve_decision. Defined.

Definition plain (c : char) : Prop :=
  0 < c < 256 /\ c <> CTLESC /\ c <> chr "?" /\ c <> chr "*" /\ c <> chr "[".
(** Characters that stand for themselves in a set. *)
Definition set_plain (c : char) : Prop :=
  0 < c < 128 /\ c <> CTLESC /\ c <> chr "]" /\ c <> chr "-" /\ c <> chr "!".
Definition item_wf (i : set_item) : Prop :=
  match i with SChar c => set_plain c | SRange lo hi => set_plain lo /\ set_plain hi end.
Definition elem_wf (e : pelem) : Prop :=
  match e with
  | PLit c => plain c
  | PEsc c => 0 < c < 256
  | PAny | PStar => True
  | PSet _ i its => item_wf i /\ Forall item_wf its
  end.

Definition render_item (i : set_item) : cstr :=
  match i with SChar c => [c] | SRange lo hi => [lo; chr "-"; hi] end.
Definition render_elem (e : pelem) : cstr :=
  match e with
  | PLit c => [c]
  | PEsc c => [CTLESC; c]
  | PAny => str "?"
  | PStar => str "*"
  | PSet inv i its =>
      chr "[" :: (if inv then [chr "!"] else []) ++ concat (map render_item (i :: its)) ++ [chr "]"]
  end.
Definition render (es : list pelem) : cstr := concat (map render_elem es).

Definition item_matches (i : set_item) (d : char) : bool :=
  match i with
  | SChar c => d =? c
  | SRange lo hi => (schar lo <=? schar d) && (schar d <=? schar hi)
  end.
Definition elem_matches (ncase : bool) (e : pelem) (d : char) : bool :=
  match e with
  | PLit c => char_eq ncase d c
  | PEsc c => d =? c
  | PAny => true
  | PStar => false
  | PSet inv i its => xorb inv (existsb (fun i => item_matches i d) (i :: its))
  end.

Inductive Match (ncase : bool) : list pelem -> cstr -> Prop :=
| Match_nil : Match ncase [] []
| Match_char e es d s :
    elem_matches ncase e d = true -> Match ncase es s -> Match ncase (e :: es) (d :: s)
| Match_star es s : Match ncase es s -> Match ncase (PStar :: es) s
| Match_more es d s : Match ncase (PStar :: es) s -> Match ncase (PStar :: es) (d :: s).

Definition no_inverted (es : list pelem) : Prop :=
  Forall (fun e => match e with PSet inv _ _ => inv = false | _ => True end) es.

(** ** Lemmas *)
Ltac chars := change (chr "?") with 63 in *; change (chr "*") with 42 in *;
  change (chr "[") with 91 in *; change (chr "]") with 93 in *; change (chr "-") with 45 in *;
  change (chr "!") with 33 in *; unfold CTLESC in *.

Lemma scan_close_ok u rest :
  u <> [] -> Forall (fun c => c <> 0 /\ c <> CTLESC /\ c <> chr "]") u ->
  scan_close (u ++ chr "]" :: rest) = Ok true.
Proof.
  intros Hne H. induction H as [|c u (H0 & H1 & H2) Hu IH]; [done|].
  cbn [app scan_close]. rewrite !(proj2 (Z.eqb_neq _ _)) by done.
  destruct u as [|d u]; [done|]. cbn [app] in *.
  inversion Hu as [|? ? (_ & _ & Hd)]; subst. rewrite (proj2 (Z.eqb_neq d _)) by done.
  by apply IH.
Qed.

Lemma item_chars i : item_wf i ->
  Forall (fun c => c <> 0 /\ c <> CTLESC /\ c <> chr "]") (render_item i).
Proof.
  unfold item_wf, set_plain. chars.
  destruct i; simpl; intros; repeat (constructor; [chars; lia|]); constructor.
Qed.

Lemma items_chars its : Forall item_wf its ->
  Forall (fun c => c <> 0 /\ c <> CTLESC /\ c <> chr "]") (concat (map render_item its)).
Proof.
  induction 1 as [|i its Hi _ IH]; [constructor|]. cbn. apply Forall_app.
  split; [by apply item_chars|done].
Qed.

Lemma render_item_cons i : exists c t, render_item i = c :: t.
Proof. destruct i; simpl; eauto. Qed.

(** The character that follows an item is never a dash. *)
Lemma items_next its rest : Forall item_wf its ->
  exists x t, concat (map render_item its) ++ chr "]" :: rest = x :: t /\ x <> chr "-".
Proof.
  destruct 1 as [|i its Hi _].
  - exists (chr "]"), rest. split; [done|by chars].
  - cbn. destruct i; unfold item_wf, set_plain in Hi; simpl; eexists _, _; split;
      [done| tauto | done | tauto].
Qed.

Lemma set_loop_step f ch i its rest found :
  item_wf i -> Forall item_wf its ->
  exists c p x t,
    render_item i ++ concat (map render_item its) ++ chr "]" :: rest = c :: p /\
    concat (map render_item its) ++ chr "]" :: rest = x :: t /\
    set_loop (S f) ch c p found =
      (if x =? chr "]" then Ok (found || item_matches i ch, t)
       else set_loop f ch x t (found || item_matches i ch)).
Proof.
  intros Hi Hits. destruct (items_next its rest Hits) as (x & t & E & Hx).
  rewrite E. destruct i as [c|lo hi]; cbn [render_item app]; eexists _, _, x, t;
    split_and!; try done; unfold item_wf, set_plain in Hi; cbn [set_loop].
  - rewrite (proj2 (Z.eqb_neq c CTLESC)) by tauto. cbn [mem_bind deref].
    rewrite (proj2 (Z.eqb_neq x (chr "-"))) by done. cbn [andb mem_bind deref next]. done.
  - rewrite (proj2 (Z.eqb_neq lo CTLESC)) by tauto. cbn [mem_bind deref].
    rewrite Z.eqb_refl. cbn [mem_bind deref next].
    rewrite (proj2 (Z.eqb_neq hi (chr "]"))) by tauto. cbn [andb negb].
    rewrite (proj2 (Z.eqb_neq hi CTLESC)) by tauto. done.
Qed.

Lemma set_loop_ok ch rest its : forall i f found c p,
  item_wf i -> Forall item_wf its -> (length its < f)%nat ->
  render_item i ++ concat (map render_item its) ++ chr "]" :: rest = c :: p ->
  set_loop f ch c p found = Ok (found || existsb (fun i => item_matches i ch) (i :: its), rest).
Proof.
  induction its as [|j its IH]; intros i f found c p Hi Hits Hf E;
    (destruct f as [|f]; [simpl in Hf; lia|]);

    destruct (set_loop_step f ch i _ rest found Hi Hits) as (c' & p' & x & t & E1 & E2 & E3).
  all: rewrite E in E1; injection E1 as <- <-; rewrite E3.
  - injection E2 as <- <-. rewrite Z.eqb_refl. cbn. by rewrite orb_false_r.
  - inversion Hits; subst.
    assert (Hx : x <> chr "]").
    { cbn in E2. destruct j; cbn in E2; injection E2 as <- _;
        unfold item_wf, set_plain in *; tauto. }
    rewrite (proj2 (Z.eqb_neq _ _) Hx).
    rewrite (IH j f _ x t); [|done|done|simpl in Hf; lia|].
    + cbn [existsb]. by rewrite !orb_assoc.
    + rewrite <- E2. cbn. by rewrite <- app_assoc.
Qed.

Lemma char_eq_nul ncase c : 0 < c < 256 -> char_eq ncase 0 c = false.
Proof.
  intros Hc. unfold char_eq, toupper, islower.
  destruct ncase; apply Z.eqb_neq; [|lia]. cbn.
  destruct (_ && _) eqn:E; bools; lia.
Qed.

(** *** Stars *)
Lemma star_loop_spec (rec : list Z -> mem bool) (P : cstr -> Prop) s :
  cstring s ->
  (forall s2, cstring s2 -> exists b, rec (s2 ++ [0]) = Ok b /\ (b = true <-> P s2)) ->
  exists b, star_loop rec (s ++ [0]) = Ok b /\
            (b = true <-> exists s1 s2, s = s1 ++ s2 /\ P s2).
Proof.
  intros Hs Hrec. induction Hs as [|c s Hc Hs IH]; cbn [app star_loop].
  - destruct (Hrec [] ltac:(constructor)) as (b & E & Hb). cbn in E. rewrite E.
    exists b. split; [by destruct b|]. rewrite Hb. split.
    + intros HP. by exists [], [].
    + intros (s1 & s2 & E' & HP). symmetry in E'. apply app_eq_nil in E' as [-> ->]. done.
  - destruct (Hrec (c :: s) ltac:(by constructor)) as (b & E & Hb). cbn in E. rewrite E.
    cbn [mem_bind]. destruct b.
    + exists true. split; [done|]. split; [|done]. intros _. exists [], (c :: s). tauto.
    + rewrite (proj2 (Z.eqb_neq c 0)) by lia. destruct IH as (b & -> & Hb').
      exists b. split; [done|]. rewrite Hb'. split.
      * intros (s1 & s2 & -> & HP). by exists (c :: s1), s2.
      * intros (s1 & s2 & E' & HP). destruct s1 as [|d s1]; simpl in E'.
        { subst s2. apply Hb in HP. done. }
        injection E' as -> ->. eauto.
Qed.

Lemma skip_to_spec ncase c s : cstring s ->
  (exists s1 s2, s = s1 ++ s2 /\ skip_to ncase c (s ++ [0]) = Ok (Some (s2 ++ [0])) /\
     Forall (fun d => char_eq ncase d c = false) s1 /\ (c = 0 -> s2 = [])) \/
  (c <> 0 /\ skip_to ncase c (s ++ [0]) = Ok None /\
     Forall (fun d => char_eq ncase d c = false) s).
Proof.
  induction 1 as [|d s Hd Hs IH]; cbn [app skip_to].
  - destruct (Z.eqb_spec 0 c) as [<-|Hc]; cbn [orb].
    + left. exists [], []. split_and!; try done; constructor.
    + destruct (ncase && (toupper 0 =? toupper c)) eqn:E; cbn [orb].
      * left. exists [], []. split_and!; try done; constructor.
      * right. split_and!; [done|done|constructor].
  - destruct ((d =? c) || (ncase && (toupper d =? toupper c))) eqn:E.
    + left. exists [], (d :: s). split_and!; [done|done|constructor|].
      intros ->. exfalso. apply orb_true_iff in E as [E|E]; bools; [lia|].
      unfold toupper, islower in *. repeat (destruct (_ && _) eqn:?; bools); cbn in *; lia.
    + rewrite (proj2 (Z.eqb_neq d 0)) by lia.
      assert (Hdc : char_eq ncase d c = false).
      { unfold char_eq. apply orb_false_iff in E as [E1 E2]. by destruct ncase. }
      destruct IH as [(s1 & s2 & -> & -> & Hf & Hz)|(Hc & -> & Hf)].
      * left. exists (d :: s1), s2. split_and!; [done|done|by constructor|done].
      * right. split_and!; [done|done|by constructor].
Qed.

Lemma Match_star_iff ncase es s :
  Match ncase (PStar :: es) s <-> exists s1 s2, s = s1 ++ s2 /\ Match ncase es s2.
Proof.
  split.
  - remember (PStar :: es) as es0 eqn:E. intros H. revert es E.
    induction H as [|e es d s Hm _ _|es s H _|es d s H IH]; intros es' E; simplify_eq.
    + by exists [], s.
    + destruct (IH es' eq_refl) as (s1 & s2 & -> & HM). by exists (d :: s1), s2.
  - intros (s1 & s2 & -> & H). induction s1 as [|d s1 IH]; simpl; [by apply Match_star|].
    by apply Match_more.
Qed.

Lemma Match_cons_iff ncase e es s : e <> PStar ->
  Match ncase (e :: es) s <->
  match s with [] => False | d :: s' => elem_matches ncase e d = true /\ Match ncase es s' end.
Proof.
  intros He. split.
  - inversion 1; subst; done.
  - destruct s; [done|]. intros [H1 H2]. by apply Match_char.
Qed.

(** Characters that cannot start a match may be skipped. *)
Lemma skip_sound ncase c es s1 s2 :
  (es = [] /\ c = 0 /\ s2 = []) \/ (exists es', es = PLit c :: es') ->
  Forall (fun d => char_eq ncase d c = false) s1 ->
  (exists t1 t2, s1 ++ s2 = t1 ++ t2 /\ Match ncase es t2) ->
  exists t1 t2, s2 = t1 ++ t2 /\ Match ncase es t2.
Proof.
  intros Hes Hs1. induction Hs1 as [|d s1 Hd _ IH]; [done|].
  intros (t1 & t2 & E & HM). destruct t1 as [|x t1]; cbn in E.
  - subst t2. exfalso. destruct Hes as [(-> & -> & ->)|(es' & ->)].
    + inversion HM.
    + apply Match_cons_iff in HM as [HM _]; [|done]. cbn in HM. by rewrite Hd in HM.
  - injection E as -> E. eauto.
Qed.

Lemma items_nul its : Forall item_wf its -> existsb (fun i => item_matches i 0) its = false.
Proof.
  induction 1 as [|i its Hi _ IH]; [done|]. cbn [existsb]. rewrite IH, orb_false_r.
  unfold item_wf, set_plain in Hi. destruct i as [c|lo hi]; cbn [item_matches].
  - apply Z.eqb_neq. lia.
  - apply andb_false_iff. left. apply Z.leb_gt. unfold schar. cbn.
    destruct (lo <? 128) eqn:E; bools; lia.
Qed.

Lemma items_fuel i its r c p :
  render_item i ++ concat (map render_item its) ++ chr "]" :: r ++ [0] = c :: p ->
  (length its < length p)%nat.
Proof.
  intros E. apply (f_equal length) in E. rewrite !length_app in E. cbn [length] in E.
  rewrite length_app in E. cbn [length] in E.
  assert (length its <= length (concat (map render_item its)))%nat.
  { clear. induction its as [|j its IH]; [done|]. cbn. rewrite length_app.
    destruct j; simpl; lia. }
  destruct i; simpl in E; lia.
Qed.

(** What follows a star: a special character, or one that may be searched. *)
Lemma render_head es : Forall elem_wf es ->
  (exists c t, render es ++ [0] = c :: t /\ (c = CTLESC \/ c = chr "?" \/ c = chr "*" \/ c = chr "[")) \/
  (exists c t, render es ++ [0] = c :: t /\ ((es = [] /\ c = 0) \/ (exists es', es = PLit c :: es' /\ plain c))).
Proof.
  destruct 1 as [|e es He _].
  - right. exists 0, []. tauto.
  - change (render (e :: es)) with (render_elem e ++ render es).
    destruct e as [c|c| | |inv i its]; cbn [render_elem].
    + right. exists c. eexists. split; [done|]. right. eauto.
    + left. exists CTLESC. eexists. split; [done|]. tauto.
    + left. exists (chr "?"). eexists. split; [done|]. tauto.
    + left. exists (chr "*"). eexists. split; [done|]. tauto.
    + left. exists (chr "["). eexists. split; [done|]. tauto.
Qed.

(** *** One step of the matcher per kind of element *)
Lemma elem_char_step f ncase e es q :
  e <> PStar -> elem_wf e -> (match e with PSet inv _ _ => inv = false | _ => True end) ->
  (length (render es) < f)%nat -> cstring q ->
  xpmatch (S f) ncase (render_elem e ++ render es ++ [0]) (q ++ [0]) =
  match q with
  | [] => Ok false
  | d :: q' => if elem_matches ncase e d then xpmatch f ncase (render es ++ [0]) (q' ++ [0])
               else Ok false
  end.
Proof.
  intros Hstar Hwf Hinv Hf Hq.
  destruct e as [c|c| | |inv i its]; [| | |done|]; cbn [render_elem elem_matches];
    unfold elem_wf, plain in Hwf.
  - destruct Hwf as (? & ? & ? & ? & ?). cbn [app xpmatch deref next mem_bind].
    rewrite !(proj2 (Z.eqb_neq c _)) by first [done | lia].
    destruct q as [|d q']; cbn [app deref next mem_bind]; [|done].
    by rewrite char_eq_nul.
  - change (str "*") with [42]. cbn [app xpmatch deref next mem_bind].
    change (CTLESC =? 0) with false. rewrite Z.eqb_refl.
    destruct q as [|d q']; cbn [app deref next mem_bind]; [|done].
    by rewrite (proj2 (Z.eqb_neq 0 c)) by lia.
  - change (str "?") with [63]. cbn [app xpmatch deref next mem_bind].
    change (63 =? 0) with false. change (63 =? CTLESC) with false.
    change (63 =? chr "?") with true.
    destruct q as [|d q']; cbn [app deref next mem_bind]; [done|].
    inversion Hq; subst. by rewrite (proj2 (Z.eqb_neq d 0)) by lia.
  - subst inv. destruct Hwf as [Hi Hits]. cbn [app xpmatch deref next mem_bind].
    change (chr "[" =? 0) with false. change (chr "[" =? CTLESC) with false.
    change (chr "[" =? chr "?") with false. change (chr "[" =? chr "*") with false.
    rewrite Z.eqb_refl. rewrite <- !app_assoc. cbn [app map concat].
    rewrite <- !app_assoc. cbn [app].
    destruct (render_item i ++ concat (map render_item its) ++ chr "]" :: render es ++ [0])
      as [|c p] eqn:E; [by destruct i|].
    assert (Hc : c <> chr "!").
    { destruct i; cbn in E; injection E as <- _; unfold item_wf, set_plain in Hi; tauto. }
    cbn [deref mem_bind next]. rewrite (proj2 (Z.eqb_neq c _)) by done. cbn [mem_bind].
    rewrite <- E. rewrite app_assoc.
    rewrite scan_close_ok;
      [|by destruct i|apply Forall_app; split; [by apply item_chars|by apply items_chars]].
    rewrite <- app_assoc, E. cbn [mem_bind deref next].
    destruct q as [|d q']; cbn [app deref next mem_bind].
    all: rewrite (set_loop_ok _ (render es ++ [0]) its i); [|done|done| |done].
    2,4: by apply (items_fuel i its (render es) c p).
    + cbn [mem_bind]. rewrite (items_nul (i :: its)) by by constructor. done.
    + cbn [mem_bind orb xorb]. by destruct (existsb _ _).
Qed.

Lemma xpmatch_render ncase es : forall f s,
  Forall elem_wf es -> no_inverted es -> (length (render es) < f)%nat -> cstring s ->
  exists b, xpmatch f ncase (render es ++ [0]) (s ++ [0]) = Ok b /\ (b = true <-> Match ncase es s).
Proof.
  induction es as [|e es IH]; intros f s Hwf Hinv Hf Hs; (destruct f as [|f]; [lia|]).
  - cbn. destruct Hs as [|d s Hd _]; cbn.
    + exists true. split; [done|]. split; [constructor|done].
    + exists false. rewrite (proj2 (Z.eqb_neq d 0)) by lia. split; [done|].
      split; [done|inversion 1].
  - inversion Hwf as [|? ? He Hes]; subst. inversion Hinv as [|? ? Hie Hies]; subst.
    change (render (e :: es)) with (render_elem e ++ render es) in *.
    rewrite length_app in Hf.
    assert (Hf' : (length (render es) < f)%nat).
    { destruct e; cbn [render_elem length] in Hf; cbn in Hf; lia. }
    destruct (decide (e = PStar)) as [->|Hne].
    2:{ rewrite <- app_assoc, elem_char_step by done. setoid_rewrite Match_cons_iff; [|done].
        destruct s as [|d s]; [by exists false|]. inversion Hs; subst.
        destruct (elem_matches ncase e d) eqn:Em.
        - destruct (IH f s Hes Hies Hf' ltac:(done)) as (b & -> & Hb).
          exists b. split; [done|]. rewrite Hb. tauto.
        - exists false. split; [done|]. split; [done|]. by intros [Em' _]. }
    setoid_rewrite Match_star_iff. change (render_elem PStar) with [42].
    cbn [app xpmatch deref next mem_bind].
    change (42 =? 0) with false. change (42 =? CTLESC) with false.
    change (42 =? chr "?") with false. change (42 =? chr "*") with true. cbv iota.
    destruct (render_head es Hes) as [(c & t & E & Hc)|(c & t & E & Hc)].
    all: rewrite E; cbn [deref mem_bind]; rewrite <- E.
    + destruct Hc as [-> | [-> | [-> | ->]]]; cbn [Z.eqb Pos.eqb negb andb mem_bind].
      all: chars; cbn [Z.eqb Pos.eqb negb andb mem_bind].
      all: apply star_loop_spec; [done|]; intros s2 Hs2; by apply IH.
    + assert (Hsk : negb (c =? CTLESC) && negb (c =? chr "?") && negb (c =? chr "*")
                    && negb (c =? chr "[") = true).
      { chars. destruct Hc as [(-> & ->)|(es' & -> & Hp)]; [done|]. unfold plain in Hp. chars.
        rewrite !(proj2 (Z.eqb_neq c _)) by tauto. done. }
      rewrite Hsk. destruct (skip_to_spec ncase c s Hs) as
        [(s1 & s2 & -> & -> & Hs1 & Hz)|(Hc0 & -> & Hs1)]; cbn [mem_bind].
      * apply cstring_app in Hs as [_ Hs2].
        destruct (star_loop_spec (fun q => xpmatch f ncase (render es ++ [0]) q)
                    (Match ncase es) s2 Hs2) as (b & Eb & Hb); [intros; by apply IH|].
        exists b. split; [done|]. rewrite Hb. split.
        -- intros (t1 & t2 & -> & HM). exists (s1 ++ t1), t2. by rewrite <- app_assoc.
        -- apply (skip_sound ncase c); [|done]. destruct Hc as [(-> & ->)|(es' & -> & _)]; eauto.
      * exists false. split; [done|]. split; [done|]. intros HM. exfalso.
        destruct Hc as [(-> & ->)|(es' & -> & _)]; [done|].
        destruct (skip_sound ncase c (PLit c :: es') s []) as (t1 & t2 & E2 & HM2);
          [eauto|done|by rewrite app_nil_r|].
        symmetry in E2. apply app_eq_nil in E2 as [-> ->]. inversion HM2.
Qed.

(** Past the end of the string every element reads out of bounds. *)
Lemma xpmatch_past ncase es : forall f,
  Forall elem_wf es -> (length (render es) < f)%nat ->
  xpmatch f ncase (render es ++ [0]) [] = Oob.
Proof.
  induction es as [|e es IH]; intros f Hwf Hf; (destruct f as [|f]; [lia|]); [done|].
  inversion Hwf as [|? ? He Hes]; subst.
  change (render (e :: es)) with (render_elem e ++ render es) in *.
  rewrite length_app in Hf. rewrite <- app_assoc.
  destruct e as [c|c| | |inv i its]; cbn [render_elem elem_wf] in *.
  - unfold plain in He. destruct He as (? & ? & ? & ? & ?). cbn [app xpmatch deref next mem_bind].
    by rewrite !(proj2 (Z.eqb_neq c _)) by first [done | lia].
  - done.
  - done.
  - cbn [app length] in Hf. cbn [str String.list_ascii_of_string map length] in Hf.
    change (str "*") with [42]. cbn [app xpmatch deref next mem_bind].
    change (42 =? 0) with false. change (42 =? CTLESC) with false.
    change (42 =? chr "?") with false. change (42 =? chr "*") with true. cbv iota.
    destruct (render es ++ [0]) as [|c t] eqn:E; [by destruct (render es)|].
    cbn [deref mem_bind].
    destruct (_ && _); [done|]. cbn [mem_bind star_loop]. rewrite IH by first [done|lia]. done.
  - destruct He as [Hi Hits]. cbn [app xpmatch deref next mem_bind].
    change (chr "[" =? 0) with false. change (chr "[" =? CTLESC) with false.
    change (chr "[" =? chr "?") with false. change (chr "[" =? chr "*") with false.
    rewrite Z.eqb_refl. cbv iota. rewrite <- !app_assoc. cbn [app map concat].
    rewrite <- !app_assoc. cbn [app].
    destruct (render_item i ++ concat (map render_item its) ++ chr "]" :: render es ++ [0])
      as [|c p] eqn:E; [by destruct i|].
    assert (Hc : c <> chr "!").
    { destruct i; cbn in E; injection E as <- _; unfold item_wf, set_plain in Hi; tauto. }
    assert (Hscan : scan_close (c :: p) = Ok true).
    { rewrite <- E, app_assoc. apply scan_close_ok; [by destruct i|].
      apply Forall_app. split; [by apply item_chars|by apply items_chars]. }
    destruct inv; cbn [app deref mem_bind next].
    + rewrite Z.eqb_refl. cbn [mem_bind]. by rewrite Hscan.
    + rewrite (proj2 (Z.eqb_neq c _)) by done. cbn [mem_bind]. by rewrite Hscan.
Qed.

(** *** File types *)
Lemma Match_fixed ncase es s :
  Forall (fun e => e <> PStar) es -> Match ncase es s ->
  Forall2 (fun e d => elem_matches ncase e d = true) es s.
Proof.
  intros Hes H. induction H as [|e es d s Hm _ IH|es s _ _|es d s _ _]; inversion Hes; subst;
    [constructor|constructor; auto|done|done].
Qed.

Lemma pmatch_ncase_match es s :
  Forall elem_wf es -> no_inverted es -> cstring s ->
  pmatch_ncase (render es) s = true <-> Match true es s.
Proof.
  intros Hwf Hinv Hs. unfold pmatch_ncase, pmatch_gen.
  destruct (xpmatch_render true es (S (length (render es))) s Hwf Hinv ltac:(lia) Hs)
    as (b & -> & Hb). exact Hb.
Qed.

(** A name matched by "*.xyz" ends in a period and three more characters. *)
Lemma pmatch_ext es s :
  Forall elem_wf es -> no_inverted es -> Forall (fun e => e <> PStar) es ->
  length es = 3%nat -> cstring s ->
  pmatch_ncase (render (PStar :: PLit (chr ".") :: es)) s = true ->
  exists base x, s = base ++ chr "." :: x /\ length x = 3%nat.
Proof.
  intros Hwf Hinv Hst Hlen Hs H. apply pmatch_ncase_match in H; [| |by repeat (constructor; [done|])|done].
  2:{ constructor; [done|]. constructor; [|done]. unfold elem_wf, plain. chars.
      change (chr ".") with 46. lia. }
  apply Match_star_iff in H as (s1 & s2 & -> & H).
  apply Match_fixed in H; [|by constructor].
  destruct s2 as [|d x]; inversion H as [|? ? ? ? Hd H']; subst.
  apply Forall2_length in H'.
  assert (d = chr ".") as ->.
  { unfold elem_matches, char_eq in Hd. bools. change (chr ".") with 46 in *.
    unfold toupper, islower in Hd. cbn in Hd. destruct (_ && _) eqn:E in Hd; bools; lia. }
  exists s1, x. split; [done|]. by rewrite <- H'.
Qed.

Lemma typed_name s : cstring s ->
  ispkt s || istic s || isarcmail s || isreq s = true ->
  exists base x, s = base ++ chr "." :: x /\ length x = 3%nat.
Proof.
  intros Hs H. unfold ispkt, istic, isarcmail, isreq in H.
  assert (HX : forall a b c, elem_wf a -> elem_wf b -> elem_wf c ->
    no_inverted [a; b; c] -> a <> PStar -> b <> PStar -> c <> PStar ->
    pmatch_ncase (render (PStar :: PLit (chr ".") :: [a; b; c])) s = true ->
    exists base x, s = base ++ chr "." :: x /\ length x = 3%nat).
  { intros. apply (pmatch_ext [a; b; c]); try done.
    all: repeat (apply Forall_cons; split; [done|]); by apply Forall_nil. }
  repeat (apply orb_true_iff in H as [H|H]).
  all: [> refine (HX (PLit (chr "p")) (PLit (chr "k")) (PLit (chr "t")) _ _ _ _ _ _ _ H)
        | refine (HX PAny (PLit (chr "i")) (PLit (chr "c")) _ _ _ _ _ _ _ H)
        | refine (HX (PLit (chr "s")) (PLit (chr "u")) PAny _ _ _ _ _ _ _ H)
        | refine (HX (PLit (chr "m")) (PLit (chr "o")) PAny _ _ _ _ _ _ _ H)
        | refine (HX (PLit (chr "t")) (PLit (chr "u")) PAny _ _ _ _ _ _ _ H)
        | refine (HX (PLit (chr "w")) (PLit (chr "e")) PAny _ _ _ _ _ _ _ H)
        | refine (HX (PLit (chr "t")) (PLit (chr "h")) PAny _ _ _ _ _ _ _ H)
        | refine (HX (PLit (chr "f")) (PLit (chr "r")) PAny _ _ _ _ _ _ _ H)
        | refine (HX (PLit (chr "s")) (PLit (chr "a")) PAny _ _ _ _ _ _ _ H)
        | refine (HX (PLit (chr "r")) (PLit (chr "e")) (PLit (chr "q")) _ _ _ _ _ _ _ H) ].
  all: first [done | by vm_compute; repeat split | by repeat constructor].
Qed.

(** A closed pattern is well-formed. *)
Ltac wf_pattern :=
  repeat first [apply Forall_nil | apply Forall_cons; split | split]; vm_compute.

(** ** Properties *)



(** an inverted set matches the terminator of the string, after which the
    matcher reads past the end of the string: it does so for every pattern that
    starts with an inverted set, on the empty string. *)
Theorem xpmatch_inverted_set_overrun ncase i its es :
  Forall elem_wf (PSet true i its :: es) ->
  pmatch_gen ncase (render (PSet true i its :: es)) [] = Oob.
Proof.
  intros Hwf. inversion Hwf as [|? ? He Hes]; subst. destruct He as [Hi Hits]. unfold pmatch_gen.
  change (render (PSet true i its :: es)) with (render_elem (PSet true i its) ++ render es).
  rewrite <- app_assoc. cbn [render_elem app xpmatch deref next mem_bind].
  change (chr "[" =? 0) with false. change (chr "[" =? CTLESC) with false.
  change (chr "[" =? chr "?") with false. change (chr "[" =? chr "*") with false.
  rewrite !Z.eqb_refl. cbn [mem_bind map concat]. rewrite <- !app_assoc. cbn [app].
  destruct (render_item i ++ concat (map render_item its) ++ chr "]" :: render es ++ [0])
    as [|c p] eqn:E; [by destruct i|].
  assert (Hscan : scan_close (c :: p) = Ok true).
  { rewrite <- E, app_assoc. apply scan_close_ok; [by destruct i|].
    apply Forall_app. split; [by apply item_chars|by apply items_chars]. }
  rewrite Hscan. cbn [mem_bind deref next].
  rewrite (set_loop_ok 0 (render es ++ [0]) its i _ false c p Hi Hits);
    [|by eapply items_fuel|exact E].
  cbn [mem_bind orb]. rewrite (items_nul (i :: its)) by by constructor. cbn [Bool.eqb].
  apply xpmatch_past; [done|]. cbn [length]. autorewrite with len. cbn [length]. lia.
Qed.

Lemma xpmatch_inverted_set_overrun_witness : pmatch_gen true (str "[!a]*") [] = Oob.
Proof.
  apply (xpmatch_inverted_set_overrun true (SChar 97) [] [PStar]).
  by wf_pattern.
Defined.
