(* ===== verification/Md5.v ===== *)
(** * md5b.c: MD5, HMAC-MD5 and the CRAM challenge

    [UINT4] is a 32-bit integer.  Byte buffers are lists; a write outside an
    allocated buffer is [Oob].  The reference definition [md5] is the padded
    message of RFC 1321 cut in blocks; the streaming context of the code is
    proved to compute it for every way of cutting the input. *)
From S2P Require Import Prelude CStr.

Definition S11 := 7.
Definition S12 := 12.
Definition S13 := 17.
Definition S14 := 22.
Definition S21 := 5.
Definition S22 := 9.
Definition S23 := 14.
Definition S24 := 20.
Definition S31 := 4.
Definition S32 := 11.
Definition S33 := 16.
Definition S34 := 23.
Definition S41 := 6.
Definition S42 := 10.
Definition S43 := 15.
Definition S44 := 21.

Definition PADDING : list Z := 0x80 :: replicate 63 0.

Definition not32 (x : Z) : Z := Z.lxor x 0xffffffff.
Definition F (x y z : Z) : Z := Z.lor (Z.land x y) (Z.land (not32 x) z).
Definition G (x y z : Z) : Z := Z.lor (Z.land x z) (Z.land y (not32 z)).
Definition H (x y z : Z) : Z := Z.lxor (Z.lxor x y) z.
Definition I (x y z : Z) : Z := Z.lxor y (Z.lor x (not32 z)).
Definition ROTATE_LEFT (x n : Z) : Z := Z.lor (wrap 32 (Z.shiftl x n)) (Z.shiftr x (32 - n)).

(** One operation of a round: the new value of its first argument. *)
Definition md5_op (f : Z -> Z -> Z -> Z) (a b c d x s ac : Z) : Z :=
  let a := wrap 32 (a + wrap 32 (f b c d + x + ac)) in
  let a := ROTATE_LEFT a s in
  wrap 32 (a + b).
Definition FF := md5_op F.
Definition GG := md5_op G.
Definition HH := md5_op H.
Definition II := md5_op I.

Record MD5_STATE := mkMD5_STATE { st0 : Z; st1 : Z; st2 : Z; st3 : Z }.
Record MD5_CTX := mkMD5_CTX {
  md5_state : MD5_STATE;
  count0 : Z;
  count1 : Z;
  buffer : list Z
}.
#[export] Instance eta_MD5_CTX : Eta MD5_CTX :=
  fun c => mkMD5_CTX (md5_state c) (count0 c) (count1 c) (buffer c).

Definition Encode_word (w : Z) : list Z :=
  [ Z.land w 0xff; Z.land (Z.shiftr w 8) 0xff;
    Z.land (Z.shiftr w 16) 0xff; Z.land (Z.shiftr w 24) 0xff ].
Fixpoint Encode (input : list Z) : list Z :=
  match input with [] => [] | w :: t => Encode_word w ++ Encode t end.

Fixpoint Decode (input : list Z) : list Z :=
  match input with
  | a :: b :: c :: d :: t =>
      Z.lor (Z.lor (Z.lor a (Z.shiftl b 8)) (Z.shiftl c 16)) (Z.shiftl d 24) :: Decode t
  | _ => []
  end.

Definition md5_init_state : MD5_STATE :=
  mkMD5_STATE 0x67452301 0xefcdab89 0x98badcfe 0x10325476.

(** A fresh context; the C code leaves the buffer as it is. *)
Definition MD5Init (buf : list Z) : MD5_CTX := mkMD5_CTX md5_init_state 0 0 buf.

Definition MD5Transform (state : MD5_STATE) (block : list Z) : MD5_STATE :=
  let xs := Decode block in
  let x k := nth (Z.to_nat k) xs 0 in
  let a := st0 state in let b := st1 state in
  let c := st2 state in let d := st3 state in
  let a := FF a b c d (x 0) S11 0xd76aa478 in
  let d := FF d a b c (x 1) S12 0xe8c7b756 in
  let c := FF c d a b (x 2) S13 0x242070db in
  let b := FF b c d a (x 3) S14 0xc1bdceee in
  let a := FF a b c d (x 4) S11 0xf57c0faf in
  let d := FF d a b c (x 5) S12 0x4787c62a in
  let c := FF c d a b (x 6) S13 0xa8304613 in
  let b := FF b c d a (x 7) S14 0xfd469501 in
  let a := FF a b c d (x 8) S11 0x698098d8 in
  let d := FF d a b c (x 9) S12 0x8b44f7af in
  let c := FF c d a b (x 10) S13 0xffff5bb1 in
  let b := FF b c d a (x 11) S14 0x895cd7be in
  let a := FF a b c d (x 12) S11 0x6b901122 in
  let d := FF d a b c (x 13) S12 0xfd987193 in
  let c := FF c d a b (x 14) S13 0xa679438e in
  let b := FF b c d a (x 15) S14 0x49b40821 in
  let a := GG a b c d (x 1) S21 0xf61e2562 in
  let d := GG d a b c (x 6) S22 0xc040b340 in
  let c := GG c d a b (x 11) S23 0x265e5a51 in
  let b := GG b c d a (x 0) S24 0xe9b6c7aa in
  let a := GG a b c d (x 5) S21 0xd62f105d in
  let d := GG d a b c (x 10) S22 0x2441453 in
  let c := GG c d a b (x 15) S23 0xd8a1e681 in
  let b := GG b c d a (x 4) S24 0xe7d3fbc8 in
  let a := GG a b c d (x 9) S21 0x21e1cde6 in
  let d := GG d a b c (x 14) S22 0xc33707d6 in
  let c := GG c d a b (x 3) S23 0xf4d50d87 in
  let b := GG b c d a (x 8) S24 0x455a14ed in
  let a := GG a b c d (x 13) S21 0xa9e3e905 in
  let d := GG d a b c (x 2) S22 0xfcefa3f8 in
  let c := GG c d a b (x 7) S23 0x676f02d9 in
  let b := GG b c d a (x 12) S24 0x8d2a4c8a in
  let a := HH a b c d (x 5) S31 0xfffa3942 in
  let d := HH d a b c (x 8) S32 0x8771f681 in
  let c := HH c d a b (x 11) S33 0x6d9d6122 in
  let b := HH b c d a (x 14) S34 0xfde5380c in
  let a := HH a b c d (x 1) S31 0xa4beea44 in
  let d := HH d a b c (x 4) S32 0x4bdecfa9 in
  let c := HH c d a b (x 7) S33 0xf6bb4b60 in
  let b := HH b c d a (x 10) S34 0xbebfbc70 in
  let a := HH a b c d (x 13) S31 0x289b7ec6 in
  let d := HH d a b c (x 0) S32 0xeaa127fa in
  let c := HH c d a b (x 3) S33 0xd4ef3085 in
  let b := HH b c d a (x 6) S34 0x4881d05 in
  let a := HH a b c d (x 9) S31 0xd9d4d039 in
  let d := HH d a b c (x 12) S32 0xe6db99e5 in
  let c := HH c d a b (x 15) S33 0x1fa27cf8 in
  let b := HH b c d a (x 2) S34 0xc4ac5665 in
  let a := II a b c d (x 0) S41 0xf4292244 in
  let d := II d a b c (x 7) S42 0x432aff97 in
  let c := II c d a b (x 14) S43 0xab9423a7 in
  let b := II b c d a (x 5) S44 0xfc93a039 in
  let a := II a b c d (x 12) S41 0x655b59c3 in
  let d := II d a b c (x 3) S42 0x8f0ccc92 in
  let c := II c d a b (x 10) S43 0xffeff47d in
  let b := II b c d a (x 1) S44 0x85845dd1 in
  let a := II a b c d (x 8) S41 0x6fa87e4f in
  let d := II d a b c (x 15) S42 0xfe2ce6e0 in
  let c := II c d a b (x 6) S43 0xa3014314 in
  let b := II b c d a (x 13) S44 0x4e0811a1 in
  let a := II a b c d (x 4) S41 0xf7537e82 in
  let d := II d a b c (x 11) S42 0xbd3af235 in
  let c := II c d a b (x 2) S43 0x2ad7d2bb in
  let b := II b c d a (x 9) S44 0xeb86d391 in
  mkMD5_STATE (wrap 32 (st0 state + a)) (wrap 32 (st1 state + b))
              (wrap 32 (st2 state + c)) (wrap 32 (st3 state + d)).

(** [MD5_memcpy (&buf[i], data, len)] inside the object. *)
Definition MD5_memcpy (buf : list Z) (i : nat) (data : list Z) : list Z :=
  take i buf ++ data ++ drop (i + length data) buf.

(** The loop [for (i = partLen; i + 63 < inputLen; i += 64)]: what is left. *)
Fixpoint MD5_blocks (fuel : nat) (state : MD5_STATE) (input : list Z) : MD5_STATE * list Z :=
  match fuel with
  | O => (state, input)
  | S f =>
      if (63 <? length input)%nat
      then MD5_blocks f (MD5Transform state (take 64 input)) (drop 64 input)
      else (state, input)
  end.

Definition MD5Update (context : MD5_CTX) (input : list Z) : MD5_CTX :=
  let inputLen := Z.of_nat (length input) in
  let index := Z.to_nat (Z.land (Z.shiftr (count0 context) 3) 0x3F) in
  let bits := wrap 32 (Z.shiftl inputLen 3) in
  let c0 := wrap 32 (count0 context + bits) in
  let c1 := if c0 <? bits then wrap 32 (count1 context + 1) else count1 context in
  let c1 := wrap 32 (c1 + Z.shiftr inputLen 29) in
  let partLen := (64 - index)%nat in
  if (partLen <=? length input)%nat then
    let buf := MD5_memcpy (buffer context) index (take partLen input) in
    let state := MD5Transform (md5_state context) buf in
    let (state, rest) := MD5_blocks (length input) state (drop partLen input) in
    mkMD5_CTX state c0 c1 (MD5_memcpy buf 0 rest)
  else
    mkMD5_CTX (md5_state context) c0 c1 (MD5_memcpy (buffer context) index input).

Definition state_words (s : MD5_STATE) : list Z := [st0 s; st1 s; st2 s; st3 s].

Definition MD5Final (context : MD5_CTX) : list Z :=
  let bits := Encode [count0 context; count1 context] in
  let index := Z.to_nat (Z.land (Z.shiftr (count0 context) 3) 0x3f) in
  let padLen := if (index <? 56)%nat then (56 - index)%nat else (120 - index)%nat in
  let context := MD5Update context (take padLen PADDING) in
  let context := MD5Update context bits in
  Encode (state_words (md5_state context)).

(** What a fresh automatic [MD5_CTX] holds is not determined: the buffer's
    bytes are the parameter [junk]. *)
Section Hmac.
Variable junk : list Z.

Definition hmac_md5 (text key : list Z) : list Z :=
  let key := if (64 <? length key)%nat
             then MD5Final (MD5Update (MD5Init junk) key) else key in
  let pad x := map (fun k => Z.lxor k x) (key ++ replicate (64 - length key) 0) in
  let context := MD5Init junk in
  let context := MD5Update context (pad 0x36) in
  let context := MD5Update context text in
  let digest := MD5Final context in
  let context := MD5Init junk in
  let context := MD5Update context (pad 0x5c) in
  let context := MD5Update context digest in
  MD5Final context.
End Hmac.

(** ** The CRAM challenge: a length byte and the challenge *)
Definition MD5_DIGEST_LEN : nat := 16.
Definition MD_CHALLENGE_LEN : nat := 16.

(** [xalloc] fills what it allocates with 0xEE. *)
Definition xalloc (size : nat) : list Z := replicate size 0xEE.

Definition buf_set (buf : list Z) (i : nat) (v : Z) : mem (list Z) :=
  if (i <? length buf)%nat then Ok (<[i := v]> buf) else Oob.

(** The answering side's own challenge; [getrand i k] are the [k] random bytes
    of the call at position [i]. *)
Fixpoint challenge_loop (fuel i : nat) (getrand : nat -> nat -> list Z) (res : list Z) : list Z :=
  match fuel with
  | O => res
  | S f =>
      if (i <? MD_CHALLENGE_LEN + 1)%nat then
        let k := MD5_DIGEST_LEN in
        let k := if (MD_CHALLENGE_LEN - i <? k)%nat then (MD_CHALLENGE_LEN - i)%nat else k in
        challenge_loop f (i + MD5_DIGEST_LEN) getrand (MD5_memcpy res i (getrand i k))
      else res
  end.
Definition MD_newChallenge (getrand : nat -> nat -> list Z) : list Z :=
  let res := <[0%nat := Z.of_nat MD_CHALLENGE_LEN]> (xalloc (MD_CHALLENGE_LEN + 1)) in
  challenge_loop (MD_CHALLENGE_LEN + 1) 1 getrand res.

(** The text after the first dash, [None] if there is none. *)
Fixpoint after_dash (s : cstr) : cstr :=
  match s with
  | [] => []
  | c :: t => if c =? chr "-" then t else after_dash t
  end.

(** The first loop: the number of hex digits, at most 128. *)
Fixpoint count_xdigits (s : cstr) (i : nat) : nat :=
  match s with
  | c :: t => if isxdigit c then (if (128 <=? i)%nat then i else count_xdigits t (S i)) else i
  | [] => i
  end.

Definition xdigit_value (c : char) : Z :=
  let c := tolower c in if 57 <? c then c - 87 else c - 48.

Fixpoint challenge_bytes (s : cstr) (i : nat) (res : list Z) : mem (list Z) :=
  match s with
  | c :: t =>
      if isxdigit c && (i <? 128)%nat then
        let v := xdigit_value c in
        let k := (i / 2 + 1)%nat in
        let* res :=
          if Nat.even i then buf_set res k (uchar (Z.shiftl v 4))
          else buf_set res k (Z.lor (nth k res 0) v) in
        challenge_bytes t (S i) res
      else Ok res
  | [] => Ok res
  end.

(** The challenge in the remote's option word; [None] is NULL. *)
Definition MD_getChallenge (s : cstr) : mem (option (list Z)) :=
  match strstr s (str "CRAM") with
  | None => Ok None
  | Some sp =>
      match strstr sp (str "MD5") with
      | None => Ok None
      | Some sp =>
          match after_dash sp with
          | [] => Ok None
          | sp =>
              let i := (count_xdigits sp 0 / 2)%nat in
              let* res := challenge_bytes sp 0 (<[0%nat := uchar (Z.of_nat i)]> (xalloc (i + 1))) in
              Ok (Some res)
          end
      end
  end.

Definition hex_byte (c : Z) : cstr :=
  [digit_char (Z.shiftr c 4); digit_char (Z.land c 0xF)].
Definition MD_toString (digest : list Z) : cstr :=
  str "CRAM-MD5-" ++ concat (map hex_byte digest).

(** The answer to a challenge. *)
Definition MD_buildDigest (junk : list Z) (pw : cstr) (challenge : list Z) : cstr :=
  let len := Z.to_nat (hd 0 challenge) in
  MD_toString (hmac_md5 junk (take len (tl challenge)) pw).

(** ** The reference definition of MD5: padding, then blocks *)
#[global] Opaque MD5Transform.

(** The state after the first [n] 64-byte blocks of [m]. *)
Fixpoint absorb (n : nat) (state : MD5_STATE) (m : list Z) : MD5_STATE :=
  match n with
  | O => state
  | S n => absorb n (MD5Transform state (take 64 m)) (drop 64 m)
  end.

Definition md5_pad (m : list Z) : list Z :=
  let n := Z.of_nat (length m) in
  m ++ 0x80 :: replicate (Z.to_nat ((55 - n) mod 64)) 0
    ++ Encode [wrap 32 (8 * n); wrap 32 (8 * n / 2 ^ 32)].

Definition md5 (m : list Z) : list Z :=
  let p := md5_pad m in
  Encode (state_words (absorb (length p / 64) md5_init_state p)).

Lemma absorb_add a b st m : absorb (a + b) st m = absorb b (absorb a st m) (drop (64 * a) m).
Proof.
  revert st m. induction a as [|a IH]; intros st m; [done|].
  change (S a + b)%nat with (S (a + b)). cbn [absorb]. rewrite IH, drop_drop. do 2 f_equal. lia.
Qed.

Lemma absorb_app n st m x : (64 * n <= length m)%nat -> absorb n st (m ++ x) = absorb n st m.
Proof.
  revert st m. induction n as [|n IH]; intros st m Hm; [done|]. cbn [absorb].
  rewrite take_app_le, drop_app_le by lia. apply IH. rewrite length_drop. lia.
Qed.

Lemma MD5_blocks_absorb fuel st m :
  (length m < 64 * S fuel)%nat ->
  MD5_blocks fuel st m =
    (absorb (length m / 64) st m, drop (64 * (length m / 64)) m).
Proof.
  revert st m. induction fuel as [|f IH]; intros st m Hm.
  - rewrite Nat.div_small by lia. done.
  - cbn [MD5_blocks]. destruct (63 <? length m)%nat eqn:E.
    + apply Nat.ltb_lt in E. rewrite IH by (rewrite length_drop; lia).
      replace (length m / 64)%nat with (S (length (drop 64 m) / 64)).
      * cbn [absorb]. rewrite drop_drop. do 2 f_equal. lia.
      * rewrite length_drop. replace (length m) with (1 * 64 + (length m - 64))%nat at 2 by lia.
        by rewrite Nat.div_add_l.
    + apply Nat.ltb_ge in E. rewrite Nat.div_small by lia. done.
Qed.

(** ** The streaming context represents the message absorbed so far *)
Record md5_rep (ctx : MD5_CTX) (m : list Z) : Prop := {
  rep_state : md5_state ctx = absorb (length m / 64) md5_init_state m;
  rep_count0 : count0 ctx = wrap 32 (8 * Z.of_nat (length m));
  rep_count1 : count1 ctx = wrap 32 (8 * Z.of_nat (length m) / 2 ^ 32);
  rep_length : length (buffer ctx) = 64%nat;
  rep_buffer : take (length m mod 64) (buffer ctx) = drop (64 * (length m / 64)) m
}.

Lemma MD5Init_rep junk : length junk = 64%nat -> md5_rep (MD5Init junk) [].
Proof. by constructor. Qed.

Lemma count_index n :
  0 <= n -> Z.land (Z.shiftr (wrap 32 (8 * n)) 3) 0x3F = n mod 64.
Proof.
  intros Hn. unfold wrap. change 0x3F with (Z.ones 6). rewrite Z.land_ones by lia.
  rewrite Z.shiftr_div_pow2 by lia. change (2 ^ 32) with (8 * 2 ^ 29).
  change (2 ^ 3) with 8. change (2 ^ 6) with 64.
  rewrite Z.mul_mod_distr_l by lia. rewrite Z.mul_comm, Z.div_mul by lia.
  change (2 ^ 29) with (64 * 2 ^ 23). rewrite Z.rem_mul_r by lia.
  rewrite Z.mul_comm, Z.mod_add by lia. apply Z.mod_mod. lia.
Qed.

Lemma count_carry n x :
  0 <= n -> 0 <= x < 2 ^ 32 ->
  let bits := wrap 32 (Z.shiftl x 3) in
  let c0 := wrap 32 (wrap 32 (8 * n) + bits) in
  let c1 := wrap 32 (8 * n / 2 ^ 32) in
  c0 = wrap 32 (8 * (n + x)) /\
  wrap 32 ((if c0 <? bits then wrap 32 (c1 + 1) else c1) + Z.shiftr x 29)
    = wrap 32 (8 * (n + x) / 2 ^ 32).
Proof.
  intros Hn Hx. rewrite Z.shiftl_mul_pow2, Z.shiftr_div_pow2 by lia. unfold wrap.
  change (2 ^ 3) with 8. cbv zeta. split.
  { rewrite <- Z.add_mod by lia. f_equal. lia. }
  assert (Hx29 : x / 2 ^ 29 = x * 8 / 2 ^ 32)
    by (change (2 ^ 32) with (2 ^ 29 * 8); by rewrite Z.div_mul_cancel_r).
  rewrite Hx29. clear Hx29.
  rewrite Z.mul_add_distr_l. remember (8 * n) as N. rewrite (Z.mul_comm 8 x).
  remember (x * 8) as X. assert (0 <= N /\ 0 <= X) as [HN HX] by lia. clear HeqN HeqX Hx Hn.
  set (M := 2 ^ 32). assert (HM : 0 < M) by done.
  pose proof (Z.div_mod N M ltac:(lia)). pose proof (Z.mod_pos_bound N M ltac:(lia)).
  pose proof (Z.div_mod X M ltac:(lia)). pose proof (Z.mod_pos_bound X M ltac:(lia)).
  set (p := N / M) in *. set (q := X / M) in *. set (r := N mod M) in *. set (s := X mod M) in *.
  destruct (Z_lt_le_dec (r + s) M) as [Hl | Hl].
  - replace ((N + X) / M) with (p + q) by (apply (Z.div_unique _ _ _ (r + s)); lia).
    rewrite (Z.mod_small (r + s)) by lia.
    rewrite (proj2 (Z.ltb_ge _ _)) by lia. by rewrite Zplus_mod_idemp_l.
  - replace ((N + X) / M) with (p + q + 1) by (apply (Z.div_unique _ _ _ (r + s - M)); lia).
    replace ((r + s) mod M) with (r + s - M)
      by (apply (Z.mod_unique _ _ 1); lia).
    rewrite (proj2 (Z.ltb_lt _ _)) by lia. rewrite Zplus_mod_idemp_l, <- Z.add_assoc, Zplus_mod_idemp_l.
    f_equal. lia.
Qed.

Lemma MD5_memcpy_length buf i data :
  (i + length data <= length buf)%nat -> length (MD5_memcpy buf i data) = length buf.
Proof. intros. unfold MD5_memcpy. autorewrite with len. lia. Qed.

Lemma MD5_memcpy_take buf i data :
  (i <= length buf)%nat -> take (i + length data) (MD5_memcpy buf i data) = take i buf ++ data.
Proof.
  intros. unfold MD5_memcpy. rewrite app_assoc, take_app_le.
  - apply take_ge. autorewrite with len. lia.
  - autorewrite with len. lia.
Qed.

Lemma mod_div_64 (n : nat) : n = (64 * (n / 64) + n mod 64)%nat.
Proof. apply Nat.div_mod_eq. Qed.

Lemma div_64_exact (a r : nat) : (r < 64)%nat -> ((64 * a + r) / 64 = a)%nat.
Proof. intros. rewrite Nat.mul_comm, Nat.div_add_l, Nat.div_small; lia. Qed.

Lemma mod_64_exact (a r : nat) : (r < 64)%nat -> ((64 * a + r) mod 64 = r)%nat.
Proof. intros. rewrite Nat.mul_comm, Nat.add_comm, Nat.Div0.mod_add, Nat.mod_small; lia. Qed.

Lemma md5_rep_index ctx m :
  md5_rep ctx m ->
  Z.to_nat (Z.land (Z.shiftr (count0 ctx) 3) 0x3F) = (length m mod 64)%nat.
Proof.
  intros R. rewrite (rep_count0 _ _ R), count_index by lia.
  change 64 with (Z.of_nat 64). rewrite <- Nat2Z.inj_mod. apply Nat2Z.id.
Qed.

Lemma md5_rep_tail ctx m :
  md5_rep ctx m ->
  m = take (64 * (length m / 64)) m ++ take (length m mod 64) (buffer ctx).
Proof. intros R. rewrite (rep_buffer _ _ R). by rewrite take_drop. Qed.

(** What [MD5Update] does to the state and the buffer, for a buffered tail [b]
    of [r] bytes. *)
Lemma md5_rep_update ctx m x :
  md5_rep ctx m -> Z.of_nat (length x) < 2 ^ 32 -> md5_rep (MD5Update ctx x) (m ++ x).
Proof.
  intros R Hx. pose proof (md5_rep_index _ _ R) as Hi.
  unfold MD5Update. rewrite Hi. clear Hi.
  pose proof (count_carry (Z.of_nat (length m)) (Z.of_nat (length x)) ltac:(lia) ltac:(lia)) as Hc.
  cbv zeta in Hc. rewrite <- (rep_count0 _ _ R), <- (rep_count1 _ _ R) in Hc.
  rewrite <- Nat2Z.inj_add, <- length_app in Hc. destruct Hc as [Hc0 Hc1].
  pose proof (rep_state _ _ R) as Hst. pose proof (md5_rep_tail _ _ R) as Ht.
  pose proof (rep_length _ _ R) as Hl. pose proof (rep_buffer _ _ R) as Hbuf.
  pose proof (mod_div_64 (length m)) as Hm.
  assert (Hr : (length m mod 64 < 64)%nat) by (apply Nat.mod_upper_bound; lia).
  set (q := (length m / 64)%nat) in *. set (r := (length m mod 64)%nat) in *.
  destruct (64 - r <=? length x)%nat eqn:E.
  - apply Nat.leb_le in E.
    assert (Hb : MD5_memcpy (buffer ctx) r (take (64 - r) x) = take 64 (drop (64 * q) (m ++ x))).
    { rewrite drop_app_le, <- Hbuf by lia.
      unfold MD5_memcpy. rewrite (drop_ge (buffer ctx)) by (autorewrite with len; lia).
      rewrite app_nil_r, take_app_ge by (autorewrite with len; lia).
      f_equal. f_equal. autorewrite with len. lia. }
    assert (HS : MD5Transform (md5_state ctx) (take 64 (drop (64 * q) (m ++ x)))
                 = absorb (q + 1) md5_init_state (m ++ x)).
    { rewrite absorb_add. cbn [absorb]. rewrite absorb_app, <- Hst by lia. done. }
    assert (Hdrop : drop (64 - r) x = drop (64 * (q + 1)) (m ++ x)).
    { rewrite drop_app_ge by lia. f_equal. lia. }
    rewrite Hb, HS, Hdrop, MD5_blocks_absorb by (autorewrite with len; lia).
    set (rest := drop (64 * (q + 1)) (m ++ x)). set (k := (length rest / 64)%nat).
    assert (Hlen : length (m ++ x) = (64 * (q + 1 + k) + length rest mod 64)%nat).
    { pose proof (mod_div_64 (length rest)) as Hq. fold k in Hq. unfold rest in Hq at 1.
      rewrite length_drop in Hq. rewrite length_app in *. lia. }
    assert (Hrr : (length rest mod 64 < 64)%nat) by (apply Nat.mod_upper_bound; lia).
    assert (HB : length (take 64 (drop (64 * q) (m ++ x))) = 64%nat).
    { autorewrite with len. lia. }
    assert (Hdl : length (drop (64 * k) rest) = (length rest mod 64)%nat).
    { pose proof (mod_div_64 (length rest)) as Hq. fold k in Hq. rewrite length_drop. lia. }
    constructor; cbn [md5_state count0 count1 buffer].
    + rewrite Hlen, div_64_exact by done. by rewrite (absorb_add (q + 1) k).
    + done.
    + done.
    + rewrite MD5_memcpy_length; [done|]. rewrite HB, Hdl. lia.
    + rewrite Hlen, div_64_exact, mod_64_exact by done. rewrite <- Hdl.
      pose proof (MD5_memcpy_take (take 64 (drop (64 * q) (m ++ x))) 0 (drop (64 * k) rest)
        ltac:(lia)) as Hcpy. rewrite take_0 in Hcpy. cbn [app Nat.add] in Hcpy. rewrite Hcpy.
      unfold rest. rewrite drop_drop. f_equal. lia.
  - apply Nat.leb_gt in E.
    assert (Hlen : length (m ++ x) = (64 * q + (r + length x))%nat) by (rewrite length_app; lia).
    constructor; cbn [md5_state count0 count1 buffer].
    + rewrite Hlen, div_64_exact by lia. by rewrite absorb_app by lia.
    + done.
    + done.
    + rewrite MD5_memcpy_length; lia.
    + rewrite Hlen, div_64_exact, mod_64_exact by lia.
      rewrite MD5_memcpy_take by lia. rewrite drop_app_le by lia.
      by rewrite <- Hbuf.
Qed.

Fixpoint MD5Updates (ctx : MD5_CTX) (xs : list (list Z)) : MD5_CTX :=
  match xs with [] => ctx | x :: t => MD5Updates (MD5Update ctx x) t end.

Lemma md5_rep_updates xs ctx m :
  md5_rep ctx m -> Forall (fun x => Z.of_nat (length x) < 2 ^ 32) xs ->
  md5_rep (MD5Updates ctx xs) (m ++ concat xs).
Proof.
  intros R H. revert ctx m R. induction H as [|x xs Hx _ IH]; intros ctx m R; simpl.
  - by rewrite app_nil_r.
  - rewrite app_assoc. apply IH. by apply md5_rep_update.
Qed.

Lemma padding_take n : (n <= 64)%nat -> (0 < n)%nat -> take n PADDING = 0x80 :: replicate (n - 1) 0.
Proof.
  intros H Hn. destruct n as [|n]; [lia|]. unfold PADDING. cbn [take]. rewrite take_replicate.
  do 2 f_equal. lia.
Qed.

Lemma md5_rep_final ctx m : md5_rep ctx m -> MD5Final ctx = md5 m.
Proof.
  intros R. unfold MD5Final. rewrite (md5_rep_index _ _ R).
  assert (Hr : (length m mod 64 < 64)%nat) by (apply Nat.mod_upper_bound; lia).
  pose proof (mod_div_64 (length m)) as Hm.
  set (r := (length m mod 64)%nat) in *. set (q := (length m / 64)%nat) in *.
  set (pl := if (r <? 56)%nat then (56 - r)%nat else (120 - r)%nat).
  assert (Hpl : (0 < pl <= 64)%nat /\ Z.to_nat ((55 - Z.of_nat (length m)) mod 64) = (pl - 1)%nat).
  { unfold pl. destruct (r <? 56)%nat eqn:E.
    - apply Nat.ltb_lt in E. split; [lia|].
      replace (_ mod 64) with (55 - Z.of_nat r)
        by (apply (Z.mod_unique _ _ (- Z.of_nat q)); lia). lia.
    - apply Nat.ltb_ge in E. split; [lia|].
      replace (_ mod 64) with (119 - Z.of_nat r)
        by (apply (Z.mod_unique _ _ (- Z.of_nat q - 1)); lia). lia. }
  destruct Hpl as [Hpl Hz].
  assert (HP : length (take pl PADDING) = pl) by (rewrite length_take; change (length PADDING) with 64%nat; lia).
  pose proof (md5_rep_update _ _ (take pl PADDING) R ltac:(rewrite HP; lia)) as R1.
  pose proof (md5_rep_update _ _ (Encode [count0 ctx; count1 ctx]) R1 ltac:(done)) as R2.
  rewrite (rep_state _ _ R2). unfold md5.
  assert (Hp : (m ++ take pl PADDING) ++ Encode [count0 ctx; count1 ctx] = md5_pad m).
  { unfold md5_pad. rewrite (rep_count0 _ _ R), (rep_count1 _ _ R), Hz.
    rewrite padding_take by lia. by rewrite <- app_assoc. }
  by rewrite Hp.
Qed.

(** C36: The streaming digest is MD5: however the input is cut into calls of
    [MD5Update] (each shorter than 2^32 bytes), [MD5Final] returns the digest of
    the padded message, whatever the fresh context's buffer held.  The two
    32-bit counters, the carry between them, the partial block kept in the
    buffer and both padding cases are those of the code. *)
Theorem MD5_streaming junk xs :
  length junk = 64%nat ->
  Forall (fun x => Z.of_nat (length x) < 2 ^ 32) xs ->
  MD5Final (MD5Updates (MD5Init junk) xs) = md5 (concat xs).
Proof.
  intros Hj Hx. apply md5_rep_final. apply (md5_rep_updates xs _ []); [|done].
  by apply MD5Init_rep.
Qed.

Lemma MD5_streaming_witness :
  MD5Final (MD5Updates (MD5Init (replicate 64 7)) [str "message "; str "digest"])
    = md5 (str "message digest") /\
  md5 (str "message digest")
    = [0xf9; 0x6b; 0x69; 0x7d; 0x7c; 0xb7; 0x93; 0x8d; 0x52; 0x5a; 0x2f; 0x31; 0xaa; 0xf1; 0x61; 0xd0].
Proof.
  split; [|vm_compute; reflexivity].
  apply (MD5_streaming (replicate 64 7) [str "message "; str "digest"]); [reflexivity|].
  repeat constructor.
Defined.

(** The RFC 2104 construction over a hash [h] with 64-byte blocks. *)
Definition hmac (h : list Z -> list Z) (key text : list Z) : list Z :=
  let k := if (64 <? length key)%nat then h key else key in
  let k := k ++ replicate (64 - length k) 0 in
  h (map (fun x => Z.lxor x 0x5c) k ++ h (map (fun x => Z.lxor x 0x36) k ++ text)).

Lemma md5_length m : length (md5 m) = 16%nat.
Proof. done. Qed.

Lemma MD5_two junk a b :
  length junk = 64%nat -> Z.of_nat (length a) < 2 ^ 32 -> Z.of_nat (length b) < 2 ^ 32 ->
  MD5Final (MD5Update (MD5Update (MD5Init junk) a) b) = md5 (a ++ b).
Proof.
  intros Hj Ha Hb. apply md5_rep_final. apply md5_rep_update; [|done].
  apply (md5_rep_update _ []); [|done]. by apply MD5Init_rep.
Qed.

Lemma MD5_one junk a :
  length junk = 64%nat -> Z.of_nat (length a) < 2 ^ 32 ->
  MD5Final (MD5Update (MD5Init junk) a) = md5 a.
Proof.
  intros Hj Ha. apply md5_rep_final, (md5_rep_update _ []); [|done]. by apply MD5Init_rep.
Qed.

(** C37: [hmac_md5] computes RFC 2104's HMAC over MD5, for keys shorter and
    longer than a block (a key of more than 64 bytes is hashed first). *)
Theorem hmac_md5_correct junk text key :
  length junk = 64%nat -> Z.of_nat (length text) < 2 ^ 32 -> Z.of_nat (length key) < 2 ^ 32 ->
  hmac_md5 junk text key = hmac md5 key text.
Proof.
  intros Hj Ht Hk. unfold hmac_md5, hmac. rewrite MD5_one by done.
  set (k := if (64 <? length key)%nat then md5 key else key).
  assert (length k <= 64)%nat.
  { unfold k. destruct (64 <? length key)%nat eqn:E; [rewrite md5_length; lia|].
    by apply Nat.ltb_ge. }
  cbv zeta.
  assert (Hp : forall x, Z.of_nat (length (map (fun y => Z.lxor y x) (k ++ replicate (64 - length k) 0))) < 2 ^ 32).
  { intros x. rewrite length_map. autorewrite with len. lia. }
  rewrite (MD5_two junk _ text) by done. rewrite MD5_two by done. done.
Qed.

Lemma hmac_md5_correct_witness :
  hmac_md5 (replicate 64 1) (str "what do ya want for nothing?") (str "Jefe")
    = hmac md5 (str "Jefe") (str "what do ya want for nothing?") /\
  hmac md5 (str "Jefe") (str "what do ya want for nothing?")
    = [0x75; 0x0c; 0x78; 0x3e; 0x6a; 0xb0; 0xb5; 0x03; 0xea; 0xa8; 0x6e; 0x31; 0x0a; 0x5d; 0xb7; 0x38].
Proof.
  split; [|vm_compute; reflexivity].
  apply (hmac_md5_correct (replicate 64 1)); reflexivity.
Defined.

(** ** The challenge on the wire *)
Lemma xdigit_digit_char d : 0 <= d < 16 ->
  isxdigit (digit_char d) = true /\ xdigit_value (digit_char d) = d.
Proof.
  intros Hd. assert (Hall : forallb (fun d => isxdigit (digit_char d) && (xdigit_value (digit_char d) =? d))
    (map Z.of_nat (seq 0 16)) = true) by reflexivity.
  rewrite forallb_forall in Hall. specialize (Hall d).
  assert (Hin : In d (map Z.of_nat (seq 0 16))).
  { apply in_map_iff. exists (Z.to_nat d). rewrite in_seq. lia. }
  specialize (Hall Hin). by bools.
Qed.

Lemma nibbles_join c : is_byte c ->
  Z.lor (uchar (Z.shiftl (Z.shiftr c 4) 4)) (Z.land c 0xF) = c /\
  0 <= Z.shiftr c 4 < 16 /\ 0 <= Z.land c 0xF < 16.
Proof.
  unfold is_byte. intros Hc. change 0xF with (Z.ones 4).
  assert (0 <= Z.shiftr c 4 < 16).
  { rewrite Z.shiftr_div_pow2 by lia. split; [apply Z.div_pos; lia | apply Z.div_lt_upper_bound; lia]. }
  assert (0 <= Z.land c (Z.ones 4) < 16).
  { rewrite Z.land_ones by lia. apply Z.mod_pos_bound. lia. }
  rewrite uchar_id by (unfold is_byte; rewrite Z.shiftl_mul_pow2 by lia; lia).
  rewrite <- Z.ldiff_ones_r by lia. by rewrite Z.lor_ldiff_and.
Qed.

Lemma buf_set_app pre x post v :
  buf_set (pre ++ x :: post) (length pre) v = Ok (pre ++ v :: post).
Proof.
  unfold buf_set. rewrite (proj2 (Nat.ltb_lt _ _)) by (rewrite length_app; simpl; lia).
  f_equal. rewrite <- (Nat.add_0_r (length pre)) at 1. by rewrite insert_app_r.
Qed.

Lemma challenge_bytes_even h s j res :
  isxdigit h = true -> (j < 64)%nat ->
  challenge_bytes (h :: s) (2 * j) res =
  let* res := buf_set res (j + 1) (uchar (Z.shiftl (xdigit_value h) 4)) in
  challenge_bytes s (2 * j + 1) res.
Proof.
  intros Hh Hj. cbn [challenge_bytes]. rewrite Hh, (proj2 (Nat.ltb_lt _ _)) by lia. cbn [andb].
  replace (Nat.even (2 * j)) with true by (by rewrite Nat.even_mul).
  rewrite (Nat.mul_comm 2 j) at 1. rewrite Nat.div_mul by lia.
  by replace (2 * j + 1)%nat with (S (2 * j)) by lia.
Qed.

Lemma challenge_bytes_odd l s j res :
  isxdigit l = true -> (j < 64)%nat ->
  challenge_bytes (l :: s) (2 * j + 1) res =
  let* res := buf_set res (j + 1) (Z.lor (nth (j + 1) res 0) (xdigit_value l)) in
  challenge_bytes s (2 * (j + 1)) res.
Proof.
  intros Hl Hj. cbn [challenge_bytes]. rewrite Hl, (proj2 (Nat.ltb_lt _ _)) by lia. cbn [andb].
  replace (Nat.even (2 * j + 1)) with false by (by rewrite Nat.even_add, Nat.even_mul).
  replace ((2 * j + 1) / 2)%nat with j by (rewrite (Nat.mul_comm 2 j), Nat.div_add_l by lia; simpl; lia).
  by replace (2 * (j + 1))%nat with (S (2 * j + 1)) by lia.
Qed.

Lemma challenge_bytes_hex ch pre post :
  Forall is_byte ch -> length post = length ch -> (0 < length pre)%nat ->
  (length pre + length ch <= 65)%nat ->
  challenge_bytes (concat (map hex_byte ch)) (2 * (length pre - 1)) (pre ++ post) = Ok (pre ++ ch).
Proof.
  intros Hch. revert pre post. induction Hch as [|c ch Hc _ IH]; intros pre post Hlen Hpre Hb.
  - destruct post; [by simpl|done].
  - destruct post as [|x post]; [done|]. cbn [map concat hex_byte app].
    destruct (nibbles_join c Hc) as (Hj & Hh & Hl).
    destruct (xdigit_digit_char _ Hh) as [Xh Vh]. destruct (xdigit_digit_char _ Hl) as [Xl Vl].
    cbn [length] in Hb, Hlen.
    rewrite challenge_bytes_even by (done || lia).
    replace (length pre - 1 + 1)%nat with (length pre) by lia.
    rewrite Vh, buf_set_app. cbn [mem_bind].
    rewrite challenge_bytes_odd by (done || lia).
    replace (length pre - 1 + 1)%nat with (length pre) by lia.
    rewrite app_nth2, Nat.sub_diag by lia. cbn [nth]. rewrite Vl, Hj, buf_set_app. cbn [mem_bind].
    specialize (IH (pre ++ [c]) post ltac:(lia)).
    rewrite length_app, <- !app_assoc in IH. cbn [length app] in IH.
    replace (length pre + 1 - 1)%nat with (length pre) in IH by lia. apply IH; lia.
Qed.

Lemma count_xdigits_all s i :
  Forall (fun c => isxdigit c = true) s -> (i + length s <= 128)%nat ->
  count_xdigits s i = (i + length s)%nat.
Proof.
  intros H. revert i. induction H as [|c s Hc Hs IH]; intros i Hi; cbn [count_xdigits length] in *; [lia|].
  rewrite Hc. destruct (128 <=? i)%nat eqn:E; [apply Nat.leb_le in E; lia|].
  rewrite IH by lia. lia.
Qed.

Lemma hex_bytes_length ch : length (concat (map hex_byte ch)) = (2 * length ch)%nat.
Proof. induction ch; simpl; lia. Qed.

Lemma hex_bytes_xdigits ch :
  Forall is_byte ch -> Forall (fun c => isxdigit c = true) (concat (map hex_byte ch)).
Proof.
  induction 1 as [|c ch Hc _ IH]; [constructor|]. destruct (nibbles_join c Hc) as (_ & Hh & Hl).
  cbn [map concat hex_byte app]. repeat constructor; [by apply xdigit_digit_char..|done].
Qed.

(** The text of a CRAM option, with any digits, and what the parser does to it. *)
Lemma MD_getChallenge_eq x s :
  MD_getChallenge (str "CRAM-MD5-" ++ x :: s) =
  let i := (count_xdigits (x :: s) 0 / 2)%nat in
  let* res := challenge_bytes (x :: s) 0 (<[0%nat := uchar (Z.of_nat i)]> (xalloc (i + 1))) in
  Ok (Some res).
Proof. reflexivity. Qed.

(** A challenge survives the wire: the text [CRAM-MD5-<hex>] that one side
    prints is read back by the other as the length byte followed by the same
    bytes, for challenges of 1 to 64 bytes. *)
Theorem MD_getChallenge_toString ch :
  Forall is_byte ch -> (0 < length ch <= 64)%nat ->
  MD_getChallenge (MD_toString ch) = Ok (Some (Z.of_nat (length ch) :: ch)).
Proof.
  intros Hch Hl. unfold MD_toString. pose proof (hex_bytes_length ch) as Hlen.
  pose proof (count_xdigits_all _ 0 (hex_bytes_xdigits _ Hch)) as Hcount.
  pose proof (challenge_bytes_hex ch [Z.of_nat (length ch)] (xalloc (length ch)) Hch) as Hbytes.
  destruct (concat (map hex_byte ch)) as [|x s]; [simpl in *; lia|].
  rewrite MD_getChallenge_eq, Hcount, Hlen by lia. cbv zeta.
  rewrite (Nat.add_0_l), (Nat.mul_comm 2), Nat.div_mul by lia.
  rewrite uchar_id by (unfold is_byte; lia). unfold xalloc in *. rewrite Nat.add_1_r.
  cbn [replicate insert list_insert]. cbn [length app Nat.sub Nat.mul Nat.add] in Hbytes.
  rewrite Hbytes; [done|..]; [by rewrite length_replicate | lia | lia].
Qed.

Lemma MD_getChallenge_toString_witness :
  MD_getChallenge (str "CRAM-MD5-00ff7f80") = Ok (Some [4; 0x00; 0xff; 0x7f; 0x80]).
Proof.
  apply (MD_getChallenge_toString [0x00; 0xff; 0x7f; 0x80]);
    [repeat constructor; unfold is_byte; lia | simpl; lia].
Defined.

Lemma challenge_bytes_overrun s i res :
  Forall (fun c => isxdigit c = true) s -> (0 < length s)%nat -> (0 < length res)%nat ->
  (i + length s = 2 * (length res - 1) + 1)%nat -> (i + length s < 128)%nat ->
  challenge_bytes s i res = Oob.
Proof.
  intros Hs. revert i res. induction Hs as [|c s Hc Hs IH]; intros i res H1 Hr Hi H2;
    cbn [challenge_bytes length] in *; [lia|].
  rewrite Hc, (proj2 (Nat.ltb_lt _ _)) by lia. cbn [andb].
  pose proof (Nat.div_mod_eq i 2) as Hdm. pose proof (Nat.mod_upper_bound i 2 ltac:(lia)) as Hm.
  set (v := uchar _). set (w := Z.lor _ _).
  assert (forall x, (0 < length s)%nat ->
    (let* res := buf_set res (i / 2 + 1) x in challenge_bytes s (S i) res) = Oob) as Hgo.
  { intros x Hx. unfold buf_set. rewrite (proj2 (Nat.ltb_lt _ _)) by lia. cbn [mem_bind].
    apply IH; rewrite ?length_insert; lia. }
  destruct (decide (length s = 0%nat)) as [E|E].
  - replace (Nat.even i) with true
      by (symmetry; apply Nat.even_spec; exists (length res - 1)%nat; lia).
    unfold buf_set. rewrite (proj2 (Nat.ltb_ge _ _)) by lia. done.
  - destruct (Nat.even i); apply Hgo; lia.
Qed.

(** A challenge with an odd number of hex digits (fewer than 128) makes the
    parser write one byte past the [i+1] bytes it allocated: the digit count is
    halved rounding down, but the last digit still starts a byte.  The remote
    chooses the digits. *)
Theorem MD_getChallenge_odd_overrun hex :
  Forall (fun c => isxdigit c = true) hex -> Nat.odd (length hex) = true -> (length hex < 128)%nat ->
  MD_getChallenge (str "CRAM-MD5-" ++ hex) = Oob.
Proof.
  intros Hx Ho Hl. pose proof (count_xdigits_all hex 0 Hx ltac:(lia)) as Hc.
  apply Nat.odd_spec in Ho as [m Hm].
  pose proof (challenge_bytes_overrun hex 0
    (<[0%nat := uchar (Z.of_nat m)]> (xalloc (m + 1))) Hx) as Hov.
  destruct hex as [|x s]; [simpl in *; lia|]. rewrite MD_getChallenge_eq, Hc.
  rewrite Nat.add_0_l, Hm, (Nat.mul_comm 2), Nat.div_add_l by lia. simpl ((1 / 2)%nat).
  rewrite Nat.add_0_r. cbv zeta. unfold xalloc in *. rewrite length_insert, length_replicate in Hov.
  by rewrite Hov by (cbn [length] in *; lia).
Qed.

Lemma MD_getChallenge_odd_overrun_witness : MD_getChallenge (str "CRAM-MD5-abc") = Oob.
Proof.
  apply (MD_getChallenge_odd_overrun (str "abc")); [repeat constructor | reflexivity | simpl; lia].
Defined.

(** The challenge this side makes has 15 random bytes: the last one keeps the
    filling of [xalloc], since the loop's bound is [16 - i] with [i = 1]. *)
Lemma MD_newChallenge_last getrand :
  (forall i k, length (getrand i k) = k) ->
  exists r, length r = 15%nat /\ MD_newChallenge getrand = 16 :: r ++ [0xEE].
Proof.
  intros Hl. exists (getrand 1%nat 15%nat). split; [apply Hl|].
  unfold MD_newChallenge, MD_CHALLENGE_LEN. cbn -[MD5_memcpy].
  unfold MD5_memcpy. by rewrite (Hl 1%nat 15%nat).
Qed.
