(* ===== verification/FtnAddr.v ===== *)
(** * ftnaddr.c, ftndom.c: FTN addresses and domains

    A Fido address [zone:net/node.point@domain]; a field of -1 is unknown or a
    wildcard.  Parsing, printing, completion from the main address, the total
    order used to compare addresses, and the outbound path of an address. *)
From S2P Require Import Prelude CStr Tools Pmatch.

Definition MAX_DOMAIN : nat := 32.
Definition FTN_ADDR_SZ : nat := 80 + MAX_DOMAIN.
(** [PATH_MAX] of the Unix build. *)
Definition MAXPATHLEN : nat := Z.to_nat 4096.
(** [NI_MAXHOST] of the Unix build. *)
Definition BINKD_FQDNLEN : nat := Z.to_nat 1025.

Record FTN_ADDR := mkFTN_ADDR {
  fa_domain : cstr;
  fa_z : Z;
  fa_net : Z;
  fa_node : Z;
  fa_p : Z
}.
#[export] Instance eta_FTN_ADDR : Eta FTN_ADDR :=
  fun a => mkFTN_ADDR (fa_domain a) (fa_z a) (fa_net a) (fa_node a) (fa_p a).
#[export] Instance FTN_ADDR_eq_dec : EqDecision FTN_ADDR.
Proof. solve_decision. Defined.

Definition FA_ZERO : FTN_ADDR := mkFTN_ADDR [] (-1) (-1) (-1) (-1).
Definition FA_ISNULL (fa : FTN_ADDR) : bool :=
  match fa_domain fa with
  | [] => (fa_z fa =? -1) && (fa_net fa =? -1) && (fa_node fa =? -1) && (fa_p fa =? -1)
  | _ :: _ => false
  end.
Definition is4D (fa : FTN_ADDR) : bool :=
  negb (fa_z fa =? -1) && negb (fa_node fa =? -1)
  && negb (fa_net fa =? -1) && negb (fa_p fa =? -1).
Definition is5D (fa : FTN_ADDR) : bool :=
  is4D fa && match fa_domain fa with [] => false | _ :: _ => true end.

(** A configured domain; [alias4] is the domain this name is an alias of. *)
#[warnings="-register-all"]
Inductive FTN_DOMAIN := mkFTN_DOMAIN {
  d_name : cstr;
  d_path : cstr;
  d_dir : cstr;
  d_z : Z;
  d_idomain : option cstr;
  d_alias4 : option FTN_DOMAIN
}.

(** ** ftndom.c *)
Fixpoint get_domain_info (domain_name : cstr) (pDomains : list FTN_DOMAIN) : option FTN_DOMAIN :=
  match pDomains with
  | [] => None
  | curr :: next =>
      if o_stricmp (d_name curr) domain_name =? 0 then Some curr
      else get_domain_info domain_name next
  end.

Fixpoint default_zone_domain (zone : Z) (pDomains : list FTN_DOMAIN) : option cstr :=
  match pDomains with
  | [] => None
  | curr :: next =>
      match d_alias4 curr with
      | None => if d_z curr =? zone then Some (d_name curr) else default_zone_domain zone next
      | Some _ => default_zone_domain zone next
      end
  end.

Fixpoint aka_zone_domain (zone : Z) (pAddr : list FTN_ADDR) : option cstr :=
  match pAddr with
  | [] => None
  | a :: next => if zone =? fa_z a then Some (fa_domain a) else aka_zone_domain zone next
  end.

(** Without a domain or an address of one's own there is nothing to guess from. *)
Definition get_matched_domain (zone : Z) (pAddr : list FTN_ADDR) (pDomains : list FTN_DOMAIN) : mem cstr :=
  match default_zone_domain zone pDomains with
  | Some d => Ok d
  | None =>
      match aka_zone_domain zone pAddr with
      | Some d => Ok d
      | None =>
          match pAddr, pDomains with
          | a :: _, _ => Ok (fa_domain a)
          | [], d :: _ => Ok (d_name d)
          | [], [] => Oob
          end
      end
  end.

(** ** Tokens *)
Record TOKEN := mkTOKEN { t_c : char; t_n : Z; t_s : cstr }.
Inductive token_kind := T_NULL | T_SEP | T_NUM | T_WORD.
#[export] Instance token_kind_eq_dec : EqDecision token_kind.
Proof. solve_decision. Defined.

Definition token_type (t : TOKEN) : token_kind :=
  match t_s t with
  | _ :: _ => T_WORD
  | [] => if negb (t_c t =? 0) then T_SEP else if t_n t =? -1 then T_NULL else T_NUM
  end.
Definition is_num (t : TOKEN) : bool := bool_decide (token_type t = T_NUM).

(** [token->n] is an [int]: the sum wraps at 32 bits. *)
Fixpoint token_int (n : Z) (s : cstr) : Z * cstr :=
  match s with
  | c :: t => if isdigit c then token_int (swrap 32 (n * 10 + c - 48)) t else (n, s)
  | [] => (n, [])
  end.

Definition domain_char (c : char) : bool :=
  (c =? chr ".") || (c =? chr "-") || (c =? chr "_") || isalnum c.
Fixpoint read_word (i : nat) (s : cstr) : cstr * cstr :=
  match i, s with
  | S i', c :: t => if domain_char c then let (w, r) := read_word i' t in (c :: w, r) else ([], s)
  | _, _ => ([], s)
  end.

Definition gettoken (s : cstr) : option (TOKEN * cstr) :=
  match s with
  | [] => Some (mkTOKEN 0 (-1) [], [])
  | c :: t =>
      if in_set (str ":/.@") c then Some (mkTOKEN c 0 [], t)
      else if isdigit c then let (n, r) := token_int 0 s in Some (mkTOKEN 0 n [], r)
      else if isalpha c then let (w, r) := read_word MAX_DOMAIN s in Some (mkTOKEN 0 0 w, r)
      else None
  end.

Definition TOKENS : nat := 10.
Fixpoint gettokens (k : nat) (s : cstr) : option (list TOKEN) :=
  match k with
  | O => Some []
  | S k' =>
      match gettoken s with
      | None => None
      | Some (t, r) => match gettokens k' r with None => None | Some ts => Some (t :: ts) end
      end
  end.

(** ** Parsing: the flag is the return value, the address what [fa] holds *)
Definition domain_spelling (w : cstr) (pDomains : list FTN_DOMAIN) : cstr :=
  match get_domain_info w pDomains with
  | Some d => match d_alias4 d with Some d4 => d_name d4 | None => d_name d end
  | None => w
  end.

Definition parse_tokens (token : nat -> TOKEN) (pDomains : list FTN_DOMAIN) : bool * FTN_ADDR :=
  let fa := FA_ZERO in
  let i := O in
  let '(fa, i) :=
    if is_num (token i) && (t_c (token (i + 1)%nat) =? chr ":")
    then (fa <| fa_z := t_n (token i) |>, (i + 2)%nat) else (fa, i) in
  let '(fa, i) :=
    if is_num (token i) && (t_c (token (i + 1)%nat) =? chr "/")
    then (fa <| fa_net := t_n (token i) |>, (i + 1)%nat) else (fa, i) in
  let i := if t_c (token i) =? chr "/" then (i + 1)%nat else i in
  if negb (is_num (token i)) && negb (t_c (token i) =? chr ".") then (false, fa) else
  let '(fa, i) :=
    if is_num (token i)
    then (fa <| fa_node := t_n (token i) |>, (i + 1)%nat) else (fa, i) in
  let point := t_c (token i) =? chr "." in
  if point && negb (is_num (token (i + 1)%nat)) then (false, fa) else
  let '(fa, i) :=
    if point then (fa <| fa_p := t_n (token (i + 1)%nat) |>, (i + 2)%nat) else (fa, i) in
  let at_ := t_c (token i) =? chr "@" in
  if at_ && negb (bool_decide (token_type (token (i + 1)%nat) = T_WORD)) then (false, fa) else
  let '(fa, i) :=
    if at_ then (fa <| fa_domain := domain_spelling (t_s (token (i + 1)%nat)) pDomains |>, (i + 2)%nat)
    else (fa, i) in
  if negb (bool_decide (token_type (token i) = T_NULL))
     || ((fa_node fa =? -1) && (fa_p fa =? -1))
     || (match fa_domain fa with [] => false | _ => true end && (fa_z fa =? -1))
     || (negb (fa_z fa =? -1) && (fa_net fa =? -1))
     || (negb (fa_net fa =? -1) && (fa_node fa =? -1))
  then (false, fa)
  else (true, if fa_p fa =? -1 then fa <| fa_p := 0 |> else fa).

(** [token(i)] past the last token would be an access out of the array; the
    positions used are at most 9. *)
Definition NO_TOKEN : TOKEN := mkTOKEN 0 (-1) [].
Definition parse_ftnaddress (s : cstr) (pDomains : list FTN_DOMAIN) : bool * FTN_ADDR :=
  match gettokens TOKENS s with
  | None => (false, FA_ZERO)
  | Some ts => parse_tokens (fun i => nth i ts NO_TOKEN) pDomains
  end.

(** ** Printing *)
Definition xftnaddress_to_str (fa : FTN_ADDR) (force_point : bool) : cstr :=
  (if negb (fa_z fa =? -1) then fmt_d (fa_z fa) ++ str ":" else []) ++
  (if negb (fa_net fa =? -1) then fmt_d (fa_net fa) else []) ++
  (if negb (fa_node fa =? -1) then str "/" ++ fmt_d (fa_node fa) else []) ++
  (if negb (fa_p fa =? 0) || (fa_node fa =? -1) || force_point
   then str "." ++ fmt_d (fa_p fa) else []) ++
  match fa_domain fa with [] => [] | d => str "@" ++ d end.
Definition ftnaddress_to_str (fa : FTN_ADDR) : cstr := xftnaddress_to_str fa false.

(** ** Completion from the main address; without one the program stops *)
Definition exp_ftnaddress (fa : FTN_ADDR) (pAddr : list FTN_ADDR) (pDomains : list FTN_DOMAIN)
  : mem (option FTN_ADDR) :=
  match pAddr with
  | [] => Ok None
  | main :: _ =>
      let fa :=
        if fa_z fa =? -1 then
          fa <| fa_z := match get_domain_info (fa_domain fa) pDomains with
                        | Some d => match d_alias4 d with Some d4 => d_z d4 | None => d_z d end
                        | None => fa_z main
                        end |>
        else fa in
      let fa := if fa_net fa =? -1 then fa <| fa_net := fa_net main |> else fa in
      let fa := if fa_node fa =? -1 then fa <| fa_node := fa_node main |> else fa in
      match fa_domain fa with
      | [] =>
          let* d := get_matched_domain (fa_z fa) pAddr pDomains in
          Ok (Some (fa <| fa_domain := d |>))
      | _ => Ok (Some fa)
      end
  end.

(** ** Comparison: [int] subtractions at 32 bits *)
Definition ftnaddress_cmp (a b : FTN_ADDR) : Z :=
  let i := o_stricmp (fa_domain a) (fa_domain b) in
  if negb (i =? 0) then i
  else if negb (fa_z a =? fa_z b) then swrap 32 (fa_z a - fa_z b)
  else if negb (fa_net a =? fa_net b) then swrap 32 (fa_net a - fa_net b)
  else if negb (fa_node a =? fa_node b) then swrap 32 (fa_node a - fa_node b)
  else if negb (fa_p a =? fa_p b) then swrap 32 (fa_p a - fa_p b)
  else 0.

(** 0 if the mask matches one of the addresses. *)
Fixpoint ftnamask_cmpm (mask : cstr) (fa : list FTN_ADDR) : Z :=
  match fa with
  | [] => -1
  | a :: t => if pmatch_ncase mask (xftnaddress_to_str a true) then 0 else ftnamask_cmpm mask t
  end.

(** ** Names derived from an address *)
Definition ftnaddress_to_domain (fa : FTN_ADDR) (ds : list FTN_DOMAIN) (domain : cstr) : cstr :=
  let s :=
    (if fa_p fa =? 0 then [] else str "p" ++ fmt_d (fa_p fa) ++ str ".") ++
    str "f" ++ fmt_d (fa_node fa) ++ str ".n" ++ fmt_d (fa_net fa) ++
    str ".z" ++ fmt_d (fa_z fa) ++ str "." in
  match get_domain_info (fa_domain fa) ds with
  | Some d => match d_idomain d with
              | Some i => strnzcat s i BINKD_FQDNLEN
              | None => strnzcat s domain BINKD_FQDNLEN
              end
  | None => strnzcat s domain BINKD_FQDNLEN
  end.

(** The outbound path of an address, without the extension; empty if the
    domain is not configured.  The zone's extension is printed into a buffer of
    [ext_size] bytes, terminator included. *)
Definition ext_size : nat := length (str ".ext") + 1.
Definition ftnaddress_to_filename_ (fa : FTN_ADDR) (pDomains : list FTN_DOMAIN) : mem cstr :=
  match get_domain_info (fa_domain fa) pDomains with
  | None => Ok []
  | Some d =>
      let ext := if fa_z fa =? d_z d then [] else str "." ++ fmt_x 3 (fa_z fa) in
      if (ext_size <? length ext + 1)%nat then Oob else
      let pnt := if fa_p fa =? 0 then [] else str ".pnt/" ++ fmt_x 8 (fa_p fa) in
      Ok (take (MAXPATHLEN - 1)
        (d_path d ++ str "/" ++ d_dir d ++ ext ++ str "/" ++
         fmt_x 4 (fa_net fa) ++ fmt_x 4 (fa_node fa) ++ pnt))
  end.

(** ** Lemmas: tokens *)
Lemma read_dec_ge a s : 0 <= a -> a <= (read_dec a s).1.
Proof.
  revert a. induction s as [|c t IH]; intros a Ha; simpl; [lia|].
  destruct (isdigit c) eqn:E; [|simpl; lia]. apply isdigit_spec in E.
  etransitivity; [|apply IH]; lia.
Qed.

Lemma read_int_dec a s : 0 <= a -> (read_dec a s).1 <= INT_MAX -> token_int a s = read_dec a s.
Proof.
  revert a. induction s as [|c t IH]; intros a Ha Hm; [done|]. simpl in *.
  destruct (isdigit c) eqn:E; [|done]. apply isdigit_spec in E.
  pose proof (read_dec_ge (a * 10 + (c - 48)) t ltac:(lia)) as Hge. unfold INT_MAX in Hm.
  replace (a * 10 + c - 48) with (a * 10 + (c - 48)) by lia.
  rewrite swrap_id by lia. apply IH; unfold INT_MAX; lia.
Qed.

Lemma gettoken_num n s :
  0 <= n <= INT_MAX -> isdigit (hd0 s) = false ->
  gettoken (fmt_d n ++ s) = Some (mkTOKEN 0 n [], s).
Proof.
  intros Hn Hs. rewrite fmt_d_u by lia. pose proof (read_dec_fmt_u n s ltac:(lia) Hs) as Hr.
  destruct (fmt_u_head n s ltac:(lia)) as (c & t & E & Hc). rewrite E in *.
  unfold gettoken. unfold digit10 in Hc.
  rewrite in_set_false by (try change (str ":/.@") with [58; 47; 46; 64]; simpl; lia).
  rewrite (proj2 (isdigit_spec c)) by lia.
  by rewrite read_int_dec by (rewrite ?Hr; simpl; lia); rewrite Hr.
Qed.

Definition domain_word (w : cstr) : Prop :=
  isalpha (hd0 w) = true /\ Forall (fun c => domain_char c = true) w /\ (length w <= MAX_DOMAIN)%nat.

Lemma read_word_all i w :
  Forall (fun c => domain_char c = true) w -> (length w <= i)%nat -> read_word i w = (w, []).
Proof.
  intros H. revert i. induction H as [|c w Hc _ IH]; intros [|i] Hl; simpl in *; try done; [lia|].
  rewrite Hc, IH by lia. done.
Qed.

Lemma gettoken_word w : domain_word w -> gettoken w = Some (mkTOKEN 0 0 w, []).
Proof.
  intros (Ha & Hw & Hl). unfold gettoken. destruct w as [|c t]; [done|]. cbn [hd0] in Ha.
  assert (65 <= c <= 122 /\ c <> 64).
  { unfold isalpha, isupper, islower in Ha. rewrite orb_true_iff, !andb_true_iff, !Z.leb_le in Ha. lia. }
  rewrite in_set_false by (try change (str ":/.@") with [58; 47; 46; 64]; simpl; lia).
  replace (isdigit c) with false by (unfold isdigit; symmetry; apply andb_false_iff; right; apply Z.leb_gt; lia).
  rewrite Ha, read_word_all by done. done.
Qed.

Lemma gettokens_step k s t r :
  gettoken s = Some (t, r) -> gettokens (S k) s = cons t <$> gettokens k r.
Proof. intros H. cbn [gettokens]. rewrite H. by destruct (gettokens k r). Qed.

Lemma gettokens_nil k : gettokens k [] = Some (replicate k NO_TOKEN).
Proof. induction k as [|k IH]; [done|]. cbn [gettokens gettoken]. by rewrite IH. Qed.

Lemma gettoken_sep c s : In c (str ":/.@") -> gettoken (c :: s) = Some (mkTOKEN c 0 [], s).
Proof. cbn. intros H. by repeat destruct H as [<- | H]. Qed.

Lemma is_num_num n : 0 <= n -> is_num (mkTOKEN 0 n []) = true.
Proof.
  intros Hn. unfold is_num, token_type. cbn [t_s t_c t_n].
  rewrite (proj2 (Z.eqb_neq n (-1))) by lia. done.
Qed.

Lemma is_word_word w : domain_word w -> bool_decide (token_type (mkTOKEN 0 0 w) = T_WORD) = true.
Proof. intros (Ha & _ & _). by destruct w. Qed.

(** ** Round trip *)
Definition known (z : Z) : Prop := 0 <= z <= INT_MAX.

(** An address the parser can return: what is known is a suffix of the
    zone:net/node hierarchy, the point is always known. *)
Record fa_valid (fa : FTN_ADDR) : Prop := {
  valid_z : fa_z fa = -1 \/ known (fa_z fa) /\ fa_net fa <> -1;
  valid_net : fa_net fa = -1 \/ known (fa_net fa) /\ fa_node fa <> -1;
  valid_node : fa_node fa = -1 \/ known (fa_node fa);
  valid_p : known (fa_p fa);
  valid_domain : fa_domain fa = [] \/ domain_word (fa_domain fa) /\ fa_z fa <> -1
}.


(** *** The tokens of the printed form *)
Definition num (n : Z) : TOKEN := mkTOKEN 0 n [].
Definition sep (c : char) : TOKEN := mkTOKEN c 0 [].
Definition addr_tokens (fa : FTN_ADDR) (force : bool) : list TOKEN :=
  (if fa_z fa =? -1 then [] else [num (fa_z fa); sep (chr ":")]) ++
  (if fa_net fa =? -1 then [] else [num (fa_net fa)]) ++
  (if fa_node fa =? -1 then [] else [sep (chr "/"); num (fa_node fa)]) ++
  (if negb (fa_p fa =? 0) || (fa_node fa =? -1) || force
   then [sep (chr "."); num (fa_p fa)] else []) ++
  match fa_domain fa with [] => [] | d => [sep (chr "@"); mkTOKEN 0 0 d] end.

(** [spells s ts]: the text [s] reads as the tokens [ts] and nothing more. *)
Inductive spells : cstr -> list TOKEN -> Prop :=
| spells_nil : spells [] []
| spells_cons s t r ts : gettoken s = Some (t, r) -> spells r ts -> spells s (t :: ts).

Lemma spells_gettokens s ts k :
  spells s ts -> (length ts <= k)%nat ->
  gettokens k s = Some (ts ++ replicate (k - length ts) NO_TOKEN).
Proof.
  intros H. revert k. induction H as [|s t r ts Ht _ IH]; intros k Hk.
  - rewrite gettokens_nil. simpl. by rewrite Nat.sub_0_r.
  - destruct k as [|k]; simpl in Hk; [lia|]. rewrite (gettokens_step _ _ _ _ Ht), IH by lia. done.
Qed.

Lemma spells_num n s ts :
  known n -> isdigit (hd0 s) = false -> spells s ts -> spells (fmt_d n ++ s) (num n :: ts).
Proof. intros. eapply spells_cons; [by apply gettoken_num|done]. Qed.

Lemma spells_sep c s ts : In c (str ":/.@") -> spells s ts -> spells (c :: s) (sep c :: ts).
Proof. intros. eapply spells_cons; [by apply gettoken_sep|done]. Qed.

(** A part that starts with a separator, or nothing, ends the number before it. *)
Definition stops (s : cstr) : Prop := isdigit (hd0 s) = false.

Lemma addr_spells fa force : fa_valid fa -> spells (xftnaddress_to_str fa force) (addr_tokens fa force).
Proof.
  intros [Hz Hnet Hnode Hp Hd]. unfold xftnaddress_to_str, addr_tokens.
  set (D := match fa_domain fa with [] => [] | d => str "@" ++ d end).
  set (TD := match fa_domain fa with [] => [] | d => [sep (chr "@"); mkTOKEN 0 0 d] end).
  assert (HD : spells D TD /\ stops D).
  { subst D TD. destruct Hd as [-> | [Hw _]]; [repeat constructor|].
    pose proof (gettoken_word _ Hw) as Hg. destruct (fa_domain fa) as [|c t]; [by destruct Hw|].
    split; [|done]. apply spells_sep; [cbn; tauto|]. eapply spells_cons; [done|constructor]. }
  clearbody D TD. clear Hd. destruct HD as [HD HsD].
  set (b := negb (fa_p fa =? 0) || (fa_node fa =? -1) || force).
  set (P := if b then _ else _). set (TP := if b then _ else _).
  assert (HP : spells (P ++ D) (TP ++ TD) /\ stops (P ++ D)).
  { subst P TP. destruct b; [|done]. rewrite <- app_assoc. split; [|done].
    apply spells_sep; [cbn; tauto|]. by apply spells_num. }
  clearbody P TP. clear b HD HsD Hp. destruct HP as [HP HsP].
  destruct (Z.eqb_spec (fa_node fa) (-1)) as [En|En]; simpl negb; cbn [app].
  - destruct Hnet as [Et | [_ ?]]; [|done]. destruct Hz as [Ez | [_ ?]]; [|done].
    rewrite Et, Ez. apply HP.
  - destruct Hnode as [?|Hnode]; [done|].
    assert (HN : spells (str "/" ++ fmt_d (fa_node fa) ++ P ++ D) (sep (chr "/") :: num (fa_node fa) :: TP ++ TD)).
    { apply spells_sep; [cbn; tauto|]. by apply spells_num. }
    rewrite <- app_assoc. destruct (Z.eqb_spec (fa_net fa) (-1)) as [Et|Et]; simpl negb; cbn [app].
    + destruct Hz as [Ez | [_ ?]]; [|done]. rewrite Ez. apply HN.
    + destruct Hnet as [?|[Hnet _]]; [done|].
      destruct (Z.eqb_spec (fa_z fa) (-1)) as [Ez|Ez]; simpl negb; cbn [app].
      * by apply spells_num.
      * destruct Hz as [?|[Hz _]]; [done|]. rewrite <- app_assoc.
        apply spells_num; [done..|]. apply spells_sep; [cbn; tauto|]. by apply spells_num.
Qed.

Lemma is_num_sep c : c <> 0 -> is_num (sep c) = false.
Proof. intros. unfold is_num, token_type, sep. simpl. by rewrite (proj2 (Z.eqb_neq c 0)). Qed.

(** Evaluate the parser on a list of tokens whose numbers are known. *)
Arguments is_num : simpl never.
Ltac read_tokens :=
  unfold parse_tokens, num; rewrite ?orb_true_r;
  repeat (progress (simpl; rewrite ?is_num_num, ?is_num_sep by (done || lia);
    rewrite ?(fun x => proj2 (Z.eqb_neq x (-1))) by (done || lia)));
  try done.

Lemma parse_addr_tokens fa force k doms :
  fa_valid fa -> domain_spelling (fa_domain fa) doms = fa_domain fa ->
  parse_tokens (fun i => nth i (addr_tokens fa force ++ replicate (S k) NO_TOKEN) NO_TOKEN) doms
    = (true, fa).
Proof.
  destruct fa as [d z net node p]. intros [Hz Hnet Hnode Hp Hd] Hs. unfold addr_tokens.
  cbn [fa_domain fa_z fa_net fa_node fa_p] in *. unfold known in *.
  assert (Hdom : d = [] \/
    (exists c t, d = c :: t /\ z <> -1)).
  { destruct Hd as [-> | [Hw Hd]]; [by left|]. right. destruct d as [|c t]; [by destruct Hw|]. eauto 10. }
  clear Hd.
  destruct (Z.eqb_spec node (-1)) as [-> | En].
  - destruct Hnet as [-> | [_ ?]]; [|done]. destruct Hz as [-> | [_ ?]]; [|done].
    destruct Hdom as [-> | (c & t & -> & ?)]; [|done]. read_tokens.
  - destruct Hnode as [?|Hnode]; [done|]. destruct (Z.eqb_spec net (-1)) as [-> | Et].
    + destruct Hz as [-> | [_ ?]]; [|done].
      destruct Hdom as [-> | (c & t & -> & ?)]; [|done].
      destruct (Z.eqb_spec p 0) as [-> | Ep]; [destruct force|]; read_tokens.
    + destruct Hnet as [?|[Hnet _]]; [done|]. destruct (Z.eqb_spec z (-1)) as [-> | Ez].
      * destruct Hdom as [-> | (c & t & -> & ?)]; [|done].
        destruct (Z.eqb_spec p 0) as [-> | Ep]; [destruct force|]; read_tokens.
      * destruct Hz as [?|[Hz _]]; [done|].
        destruct Hdom as [-> | (c & t & -> & _)];
          (destruct (Z.eqb_spec p 0) as [-> | Ep]; [destruct force|]);
          read_tokens; rewrite Hs; by read_tokens.
Qed.

Lemma addr_tokens_length fa force : (length (addr_tokens fa force) <= 9)%nat.
Proof.
  unfold addr_tokens. rewrite !length_app.
  destruct (fa_z fa =? -1), (fa_net fa =? -1), (fa_node fa =? -1), (fa_domain fa);
    destruct (_ || _); simpl; lia.
Qed.

(** ** Comparison *)
Definition fa_wf (fa : FTN_ADDR) : Prop :=
  cstring (fa_domain fa) /\ -1 <= fa_z fa < INT_MAX /\ -1 <= fa_net fa < INT_MAX /\
  -1 <= fa_node fa < INT_MAX /\ -1 <= fa_p fa < INT_MAX.

(** The order the comparison decides: domains ignoring case, then the numbers. *)
Definition fa_key (fa : FTN_ADDR) : Z * Z * Z * Z := (fa_z fa, fa_net fa, fa_node fa, fa_p fa).

Definition lex (i : Z) (j : Z) : Z := if i =? 0 then j else i.

Lemma lex_sub x y r : (if negb (x =? y) then x - y else r) = lex (x - y) r.
Proof.
  unfold lex. destruct (Z.eqb_spec x y); simpl.
  - by rewrite (proj2 (Z.eqb_eq (x - y) 0)) by lia.
  - by rewrite (proj2 (Z.eqb_neq (x - y) 0)) by lia.
Qed.

Lemma lex_0 i : lex i 0 = i.
Proof. unfold lex. destruct (Z.eqb_spec i 0); lia. Qed.

Lemma ftnaddress_cmp_lex a b : fa_wf a -> fa_wf b ->
  ftnaddress_cmp a b =
    lex (o_stricmp (fa_domain a) (fa_domain b)) (lex (fa_z a - fa_z b)
      (lex (fa_net a - fa_net b) (lex (fa_node a - fa_node b) (fa_p a - fa_p b)))).
Proof.
  unfold fa_wf, INT_MAX. intros Ha Hb. unfold ftnaddress_cmp. rewrite !swrap_id by lia.
  rewrite !lex_sub, lex_0. unfold lex at 4. by destruct (o_stricmp _ _ =? 0).
Qed.

(** A comparison that is antisymmetric and transitive, and so a total preorder. *)
Definition order_like (f : FTN_ADDR -> FTN_ADDR -> Z) : Prop :=
  (forall a b, fa_wf a -> fa_wf b -> f a b = - f b a) /\
  (forall a b c, fa_wf a -> fa_wf b -> fa_wf c -> f a b <= 0 -> f b c <= 0 ->
     f a c <= 0 /\ (f a c = 0 -> f a b = 0 /\ f b c = 0)).

Lemma order_like_sub (g : FTN_ADDR -> Z) : order_like (fun a b => g a - g b).
Proof. split; intros; lia. Qed.

Lemma order_like_lex f g : order_like f -> order_like g ->
  order_like (fun a b => lex (f a b) (g a b)).
Proof.
  intros [Fs Ft] [Gs Gt]. unfold lex. split.
  - intros a b Ha Hb. rewrite (Fs a b) by done. rewrite (Gs a b) by done.
    destruct (Z.eqb_spec (f b a) 0) as [-> | ?]; simpl; [done|].
    by rewrite (proj2 (Z.eqb_neq (- f b a) 0)) by lia.
  - intros a b c Ha Hb Hc. pose proof Ft as Ft'. specialize (Ft a b c Ha Hb Hc). specialize (Gt a b c Ha Hb Hc).
    pose proof (Fs a b Ha Hb). pose proof (Fs b c Hb Hc). pose proof (Fs a c Ha Hc).
    pose proof (Ft' c b a Hc Hb Ha). pose proof (Fs b a Hb Ha). pose proof (Fs c b Hc Hb).
    pose proof (Fs c a Hc Ha).
    destruct (Z.eqb_spec (f a b) 0), (Z.eqb_spec (f b c) 0), (Z.eqb_spec (f a c) 0); try lia.
Qed.

Lemma ftnaddress_cmp_order : order_like ftnaddress_cmp.
Proof.
  assert (H : order_like (fun a b =>
    lex (o_stricmp (fa_domain a) (fa_domain b)) (lex (fa_z a - fa_z b)
      (lex (fa_net a - fa_net b) (lex (fa_node a - fa_node b) (fa_p a - fa_p b)))))).
  { repeat apply order_like_lex; [|apply order_like_sub..]. split.
    - intros a b [Ha _] [Hb _]. by apply o_stricmp_sym.
    - intros a b c [Ha _] [Hb _] [Hc _]. by apply o_stricmp_trans. }
  destruct H as [Hs Ht]. split.
  - intros a b Ha Hb. rewrite !ftnaddress_cmp_lex by done. by apply Hs.
  - intros a b c Ha Hb Hc. rewrite !ftnaddress_cmp_lex by done. by apply Ht.
Qed.

(** Same address: the domain up to case, the numbers exactly. *)
Definition fa_same (a b : FTN_ADDR) : Prop :=
  strlower (fa_domain a) = strlower (fa_domain b) /\ fa_z a = fa_z b /\ fa_net a = fa_net b /\
  fa_node a = fa_node b /\ fa_p a = fa_p b.

Lemma lex_zero i j : lex i j = 0 <-> i = 0 /\ j = 0.
Proof. unfold lex. destruct (Z.eqb_spec i 0); lia. Qed.

Lemma ftnaddress_cmp_same a b : fa_wf a -> fa_wf b -> ftnaddress_cmp a b = 0 <-> fa_same a b.
Proof.
  intros Ha Hb. rewrite ftnaddress_cmp_lex, !lex_zero by done.
  rewrite o_stricmp_eq by apply Ha || apply Hb. unfold fa_same.
  split; intros (? & ? & ? & ? & ?); repeat split; lia || done.
Qed.

(** ** Outbound names *)
Lemma hex_sep_inj a b s t :
  Forall (fun c => isxdigit c = true) a -> Forall (fun c => isxdigit c = true) b ->
  isxdigit (hd0 s) = false -> isxdigit (hd0 t) = false ->
  a ++ s = b ++ t -> a = b /\ s = t.
Proof.
  intros Ha. revert b. induction Ha as [|c a Hc Ha IH]; intros b Hb Hs Ht E.
  - destruct b as [|d b]; [done|]. simpl in E. inversion Hb; subst. simpl in Hs. congruence.
  - destruct b as [|d b]; simpl in E.
    + rewrite <- E in Ht. simpl in Ht. congruence.
    + inversion Hb; subst. injection E as -> E. destruct (IH b) as [-> ->]; done.
Qed.

(** Addresses whose numbers fit the names: zones of at most three hex digits. *)
Definition fa_outbound (fa : FTN_ADDR) : Prop :=
  0 <= fa_z fa < 0x1000 /\ 0 <= fa_net fa < 0x10000 /\ 0 <= fa_node fa < 0x10000 /\
  0 <= fa_p fa < 2 ^ 31.

(** The path before truncation to the size of the buffer. *)
Definition out_ext (fa : FTN_ADDR) (d : FTN_DOMAIN) : cstr :=
  if fa_z fa =? d_z d then [] else str "." ++ fmt_x 3 (fa_z fa).
Definition out_pnt (fa : FTN_ADDR) : cstr :=
  if fa_p fa =? 0 then [] else str ".pnt/" ++ fmt_x 8 (fa_p fa).
Definition out_path (fa : FTN_ADDR) (d : FTN_DOMAIN) : cstr :=
  (d_path d ++ str "/" ++ d_dir d) ++ out_ext fa d ++ str "/" ++
  (fmt_x 4 (fa_net fa) ++ fmt_x 4 (fa_node fa)) ++ out_pnt fa.

Lemma out_path_inj a b d : fa_outbound a -> fa_outbound b ->
  out_path a d = out_path b d ->
  fa_z a = fa_z b /\ fa_net a = fa_net b /\ fa_node a = fa_node b /\ fa_p a = fa_p b.
Proof.
  intros (Hz & Hnet & Hnode & Hp) (Hz' & Hnet' & Hnode' & Hp') E. unfold out_path in E.
  apply app_inv_head in E. unfold out_ext in E.
  assert (Hzz : fa_z a = fa_z b /\
    (fmt_x 4 (fa_net a) ++ fmt_x 4 (fa_node a)) ++ out_pnt a =
    (fmt_x 4 (fa_net b) ++ fmt_x 4 (fa_node b)) ++ out_pnt b).
  { destruct (Z.eqb_spec (fa_z a) (d_z d)), (Z.eqb_spec (fa_z b) (d_z d)); simpl in E.
    - injection E as E. split; [lia|done].
    - done.
    - done.
    - injection E as E. apply hex_sep_inj in E as [E1 E2]; [|apply fmt_x_hex..|done|done].
      apply fmt_x_inj in E1; [|lia..]. by injection E2 as E2. }
  destruct Hzz as [Hzz E2]. clear E. apply app_inj_1 in E2 as [E3 E4].
  2: { rewrite !length_app, !fmt_x_length by lia. done. }
  apply app_inj_1 in E3 as [E5 E6]; [|by rewrite !fmt_x_length by lia].
  apply fmt_x_inj in E5, E6; [|lia..]. repeat split; [done..|]. unfold out_pnt in E4.
  destruct (Z.eqb_spec (fa_p a) 0), (Z.eqb_spec (fa_p b) 0); [lia|done..|].
  apply app_inv_head in E4. apply fmt_x_inj in E4; lia.
Qed.

Lemma filename_out_path fa d doms :
  get_domain_info (fa_domain fa) doms = Some d -> fa_outbound fa ->
  ftnaddress_to_filename_ fa doms = Ok (take (MAXPATHLEN - 1) (out_path fa d)).
Proof.
  intros Hd (Hz & _). unfold ftnaddress_to_filename_, out_path. rewrite Hd, <- !app_assoc.
  change (if fa_z fa =? d_z d then [] else _) with (out_ext fa d).
  rewrite (proj2 (Nat.ltb_ge _ _)); [done|]. change ext_size with 5%nat. unfold out_ext.
  case_if; [simpl; lia|]. rewrite length_app, fmt_x_length by lia. simpl. lia.
Qed.

(** The characters an address is printed with. *)
Lemma fmt_d_Forall (P : char -> Prop) n : (forall c, digit10 c -> P c) -> P (chr "-") -> Forall P (fmt_d n).
Proof.
  intros Hd Hm. assert (Hu : forall m, 0 <= m -> Forall P (fmt_u m))
    by (intros m H; eapply Forall_impl; [by apply fmt_u_digit10|done]).
  unfold fmt_d. case_if; bools; [constructor; [done|]; apply Hu; lia|apply Hu; lia].
Qed.

Lemma addr_str_Forall (P : char -> Prop) a force :
  (forall c, digit10 c -> P c) -> (forall c, In c (str "-:/.@") -> P c) -> Forall P (fa_domain a) ->
  Forall P (xftnaddress_to_str a force).
Proof.
  intros Hd Hl Hdom. unfold xftnaddress_to_str.
  assert (Hn : forall n, Forall P (fmt_d n)) by (intros; apply fmt_d_Forall; [done|apply Hl; simpl; tauto]).
  assert (H1 : forall c, In c (str "-:/.@") -> Forall P [c]) by (intros c Hc; constructor; [by apply Hl|constructor]).
  apply Forall_app; split; [|apply Forall_app; split; [|apply Forall_app; split; [|apply Forall_app; split]]].
  - case_if; [|constructor]. apply Forall_app; split; [apply Hn|apply (H1 58); simpl; tauto].
  - case_if; [apply Hn|constructor].
  - case_if; [|constructor]. apply Forall_app; split; [apply (H1 47); simpl; tauto|apply Hn].
  - case_if; [|constructor]. apply Forall_app; split; [apply (H1 46); simpl; tauto|apply Hn].
  - destruct (fa_domain a); [constructor|]. constructor; [apply Hl; simpl; tauto|done].
Qed.

(** ** Properties *)

Lemma parse_printed fa force doms :
  fa_valid fa -> domain_spelling (fa_domain fa) doms = fa_domain fa ->
  parse_ftnaddress (xftnaddress_to_str fa force) doms = (true, fa).
Proof.
  intros Hv Hs. unfold parse_ftnaddress. pose proof (addr_tokens_length fa force) as Hl.
  rewrite (spells_gettokens _ (addr_tokens fa force)) by (by apply addr_spells || (unfold TOKENS; lia)).
  replace (TOKENS - length (addr_tokens fa force))%nat
    with (S (9 - length (addr_tokens fa force))) by (unfold TOKENS; lia).
  by apply parse_addr_tokens.
Qed.

(** C38: Printing an address and parsing it back gives the address, for every
    address the parser can return (4D, 5D, and the abbreviated forms
    [net/node], [/node], [.point]), with and without the forced point, if the
    configured domains do not rename its domain. *)
Theorem parse_ftnaddress_print fa force doms :
  fa_valid fa -> domain_spelling (fa_domain fa) doms = fa_domain fa ->
  parse_ftnaddress (xftnaddress_to_str fa force) doms = (true, fa).
Proof. apply parse_printed. Qed.

Lemma parse_ftnaddress_print_witness :
  let fa := mkFTN_ADDR (str "fidonet") 2 5047 13 1 in
  let net := mkFTN_DOMAIN (str "fidonet") (str "/var/spool") (str "outb") 2 None None in
  xftnaddress_to_str fa false = str "2:5047/13.1@fidonet" /\
  parse_ftnaddress (str "2:5047/13.1@fidonet") [net] = (true, fa).
Proof.
  split; [reflexivity|].
  apply (parse_ftnaddress_print (mkFTN_ADDR (str "fidonet") 2 5047 13 1) false); [|reflexivity].
  split; simpl; unfold known, INT_MAX; try lia. right. split; [|lia].
  split; [reflexivity|]. split; [repeat constructor | cbv; lia].
Defined.

(** [ftnaddress_cmp] is a total preorder on addresses (antisymmetric up to
    its kernel and transitive), and its kernel is equality of the address with
    the domain's case ignored; the 32-bit subtractions do not overflow for
    fields from -1 to 2^31-2. *)
Theorem ftnaddress_cmp_total a b c : fa_wf a -> fa_wf b -> fa_wf c ->
  ftnaddress_cmp a b = - ftnaddress_cmp b a /\
  (ftnaddress_cmp a b = 0 <-> fa_same a b) /\
  (ftnaddress_cmp a b <= 0 -> ftnaddress_cmp b c <= 0 ->
     ftnaddress_cmp a c <= 0 /\ (ftnaddress_cmp a c = 0 -> fa_same a b /\ fa_same b c)).
Proof.
  intros Ha Hb Hc. destruct ftnaddress_cmp_order as [Hs Ht].
  split; [by apply Hs|]. split; [by apply ftnaddress_cmp_same|].
  rewrite <- (ftnaddress_cmp_same a b), <- (ftnaddress_cmp_same b c) by done. by apply Ht.
Qed.

Lemma ftnaddress_cmp_total_witness :
  let a := mkFTN_ADDR (str "fidonet") 2 5047 13 0 in
  let b := mkFTN_ADDR (str "FidoNet") 2 5047 13 0 in
  ftnaddress_cmp a b = 0 /\ fa_same a b.
Proof.
  intros a b. split; [reflexivity|].
  assert (Hwf : fa_wf a /\ fa_wf b).
  { split; (split; [repeat constructor | cbv; repeat split; discriminate || reflexivity]). }
  destruct Hwf as [Ha Hb].
  exact (proj1 (proj1 (proj2 (ftnaddress_cmp_total a b b Ha Hb Hb))) eq_refl).
Defined.



(** A zone of four or more hex digits that is not the domain's default one
    overruns the five bytes reserved for the extension [.ext]. *)
Theorem ftnaddress_to_filename_zone_overrun fa doms d :
  get_domain_info (fa_domain fa) doms = Some d -> fa_z fa <> d_z d ->
  0x1000 <= fa_z fa < 2 ^ 31 -> ftnaddress_to_filename_ fa doms = Oob.
Proof.
  intros Hd Hne Hz. unfold ftnaddress_to_filename_. rewrite Hd, (proj2 (Z.eqb_neq _ _)) by done.
  rewrite (proj2 (Nat.ltb_lt _ _)); [done|]. change ext_size with 5%nat. rewrite length_app.
  assert (Hlen : forall n, 0x1000 <= n < 2 ^ 31 -> (4 <= length (fmt_x 3 n))%nat).
  { intros n Hn. destruct (decide (4 <= length (fmt_x 3 n))%nat) as [|Hs]; [done|].
    pose proof (hexval_fmt_x 3 n ltac:(lia)) as Hv. pose proof (hexval_bound (fmt_x 3 n)) as Hb.
    rewrite Hv in Hb. pose proof (fmt_x_hex 3 n) as Hx. specialize (Hb (fmt_x_digits 3 n)).
    pose proof (Z.pow_le_mono_r 16 (Z.of_nat (length (fmt_x 3 n))) 3 ltac:(lia) ltac:(lia)). lia. }
  specialize (Hlen _ Hz). simpl length at 1. lia.
Qed.

Lemma ftnaddress_to_filename_zone_overrun_witness :
  let d := mkFTN_DOMAIN (str "fidonet") (str "/s") (str "outb") 2 None None in
  ftnaddress_to_filename_ (mkFTN_ADDR (str "fidonet") 4096 1 1 0) [d] = Oob.
Proof.
  intros d. apply (ftnaddress_to_filename_zone_overrun _ [d] d); [reflexivity | discriminate | simpl; lia].
Defined.

(** The numbers of an address are read modulo 2^32, and compared by an [int]
    subtraction: beyond [fa_wf] the comparison is not an order.  Three addresses
    a caller may present, each below the next. *)
Lemma ftnaddress_cmp_cycle doms : exists a b c,
  parse_ftnaddress (str "2147483648:1/1") doms = (true, a) /\ parse_ftnaddress (str "2147483653:1/1") doms = (true, b) /\
  parse_ftnaddress (str "3:1/1") doms = (true, c) /\
  ftnaddress_cmp a b < 0 /\ ftnaddress_cmp b c < 0 /\ ftnaddress_cmp c a < 0.
Proof.
  exists (mkFTN_ADDR [] (-2147483648) 1 1 0), (mkFTN_ADDR [] (-2147483643) 1 1 0), (mkFTN_ADDR [] 3 1 1 0).
  by vm_compute.
Qed.
