(* ===== verification/Getw.v ===== *)
(** * getw.c: the n-th word of a line

    Words are cut at separators outside double quotes; a backslash starts an
    escape sequence and, with [GWX_SUBST], [%NAME%] is replaced by a variable
    of the environment.  The walking pointer [src] is a suffix of the line and
    its terminating NUL; stepping over the NUL, and writing past the [cap]
    bytes allocated for the result, is [Oob]. *)
From S2P Require Import Prelude CStr.

Record gwx_flags := mkflags { GWX_SUBST : bool; GWX_HASH : bool; GWX_NOESC : bool }.
Definition MAX_ENV_VAR_NAME : nat := Z.to_nat 256.
Definition DEF_FLDSEP : cstr := [32; 9; 10; 13].
Definition DEF_FLDSKIP : cstr := DEF_FLDSEP.

Definition BSLASH : char := chr "\".
Definition DQUOTE : char := 34.

(** [dest[i] = c] with [i] the length of what is written so far. *)
Definition put (acc : cstr) (cap : nat) (c : char) : mem cstr :=
  if (length acc <? cap)%nat then Ok (acc ++ [c]) else Oob.

Fixpoint skip_set (set src : list Z) : mem (list Z) :=
  match src with
  | [] => Oob
  | c :: t => if negb (c =? 0) && in_set set c then skip_set set t else Ok src
  end.

(** The digits of an escape; an octal escape stops at the first letter. *)
Fixpoint esc_digits (base ch : Z) (src : list Z) : mem (Z * list Z) :=
  match src with
  | [] => Oob
  | c :: t =>
      if isxdigit c then
        if isdigit c then esc_digits base (swrap 32 (ch * base + c - 48)) t
        else if base =? 16 then esc_digits base (swrap 32 (ch * base + tolower c - 97 + 10)) t
        else Ok (ch, src)
      else Ok (ch, src)
  end.

Definition esc_letter (c : char) : char :=
  if c =? chr "a" then 7 else if c =? chr "b" then 8 else if c =? chr "f" then 12
  else if c =? chr "n" then 10 else if c =? chr "r" then 13 else if c =? chr "t" then 9
  else if c =? chr "E" then 27 else c.

(** After the backslash: the character and what follows the sequence. *)
Definition escape (src : list Z) : mem (Z * list Z) :=
  let* c := deref src in
  if negb (isdigit c) && negb (c =? chr "x") && negb (c =? chr "X") then
    let* t := next src in Ok (esc_letter c, t)
  else if toupper c =? chr "X" then
    let* t := next src in esc_digits 16 0 t
  else esc_digits 8 0 src.

(** The name of a variable: at most [sizeof (varname)] characters, after which
    the terminator is written out of the array. *)
Fixpoint var_name (k : nat) (src : list Z) (name : cstr) : mem (cstr * list Z) :=
  match k with
  | O => Oob
  | S k' =>
      let* c := deref src in
      if isspace c || (c =? chr "%") then Ok (name, src)
      else let* t := next src in var_name k' t (name ++ [toupper c])
  end.

Section Getword.
Variable getenv : cstr -> option cstr.

(** The loop over one word: the word, its buffer's size, the rest of the line
    and whether a quote is open. *)
Fixpoint word_loop (fuel : nat) (fl : gwx_flags) (fldsep : cstr) (src : list Z)
    (quoted : bool) (acc : cstr) (cap : nat) : mem (cstr * nat * list Z * bool) :=
  match fuel with
  | O => Fuel
  | S f =>
      let* c := deref src in
      if negb (GWX_NOESC fl) && (c =? BSLASH) then
        let* s1 := next src in
        let* r := escape s1 in
        let* acc := put acc cap (uchar r.1) in
        word_loop f fl fldsep r.2 quoted acc cap
      else if (c =? 0) || (c =? 10) || (c =? 13) then Ok (acc, cap, src, quoted)
      else if c =? DQUOTE then
        let* t := next src in word_loop f fl fldsep t (negb quoted) acc cap
      else if in_set fldsep c && negb quoted then Ok (acc, cap, src, quoted)
      else if (c =? chr "%") && GWX_SUBST fl then
        let* s1 := next src in
        let* c1 := deref s1 in
        if c1 =? chr "%" then
          let* acc := put acc cap c1 in
          let* t := next s1 in word_loop f fl fldsep t quoted acc cap
        else
          let* r := var_name (S MAX_ENV_VAR_NAME) s1 [] in
          let (name, s2) := r in
          let var := default [] (getenv (c_string name)) in
          let cap := (length (c_string s2) + length var + 1)%nat in
          if (cap <? length acc + length var + 1)%nat then Oob else
          let* t := next s2 in
          word_loop f fl fldsep t quoted (acc ++ var) cap
      else
        let* acc := put acc cap c in
        let* t := next src in word_loop f fl fldsep t quoted acc cap
  end.

(** Words are counted from 1; [None] is NULL. *)
Fixpoint words_loop (n : nat) (fl : gwx_flags) (fldsep fldskip : cstr) (src : list Z)
    (quoted : bool) (cap : nat) : mem (option cstr) :=
  match n with
  | O => Fuel
  | S n' =>
      let* src := skip_set fldskip src in
      let* c := deref src in
      if (c =? 0) || (GWX_HASH fl && (c =? chr "#")) then Ok None
      else
        let* r := word_loop (S (length src)) fl fldsep src quoted [] cap in
        let '(acc, cap, src, quoted) := r in
        match n' with
        | O => let* _ := put acc cap 0 in Ok (Some (c_string acc))
        | S _ =>
            let* c := deref src in
            let* src := if negb (c =? 0) && in_set fldsep c then next src else Ok src in
            words_loop n' fl fldsep fldskip src quoted cap
        end
  end.

Definition getwordx2 (src : cstr) (n : nat) (fl : gwx_flags) (fldsep fldskip : cstr) : mem (option cstr) :=
  words_loop n fl fldsep fldskip (src ++ [0]) false (length src + 1).
Definition getwordx (src : cstr) (n : nat) (fl : gwx_flags) : mem (option cstr) :=
  getwordx2 src n fl DEF_FLDSEP DEF_FLDSKIP.
Definition getword (src : cstr) (n : nat) : mem (option cstr) :=
  getwordx src n (mkflags true true false).
End Getword.

(** The flags of the protocol's messages and of the control files. *)
Definition GWX_0 : gwx_flags := mkflags false false false.
Definition GWX_CTL : gwx_flags := mkflags false false true.
(** Neither looks at the environment. *)
Definition no_env (_ : cstr) : option cstr := None.


(** ** Words of a plain text *)

(** The maximal runs of characters outside [sep]: a reference definition. *)
Fixpoint split_words (sep : cstr) (w : cstr) (s : cstr) : list cstr :=
  match s with
  | [] => match w with [] => [] | _ => [w] end
  | c :: t =>
      if in_set sep c then match w with [] => split_words sep [] t | _ => w :: split_words sep [] t end
      else split_words sep (w ++ [c]) t
  end.
Definition words_of (s : cstr) : list cstr := split_words DEF_FLDSEP [] s.

(** No quote, no escape, no substitution or comment: any other C string. *)
Definition plain (fl : gwx_flags) (c : char) : Prop :=
  0 < c < 256 /\ c <> DQUOTE /\ (GWX_NOESC fl = true \/ c <> BSLASH).

(** ** Lemmas *)
Section Lemmas.
Variable getenv : cstr -> option cstr.
Implicit Types (fl : gwx_flags) (sep s acc : cstr).

Lemma put_ok acc cap c : (length acc < cap)%nat -> put acc cap c = Ok (acc ++ [c]).
Proof. intros H. unfold put. by rewrite (proj2 (Nat.ltb_lt _ _)). Qed.

(** Lines in which no backslash is an escape: one pass, no overrun. *)
Definition no_escape fl s : Prop := GWX_NOESC fl = true \/ ~ In BSLASH s.

Lemma no_escape_cons fl c s : no_escape fl (c :: s) ->
  negb (GWX_NOESC fl) && (c =? BSLASH) = false /\ no_escape fl s.
Proof.
  unfold no_escape. simpl. intros [-> | Hn]; [by auto|].
  rewrite (proj2 (Z.eqb_neq c BSLASH)) by tauto. rewrite andb_false_r. tauto.
Qed.

Lemma word_loop_safe fl sep s : forall fuel quoted acc cap,
  GWX_SUBST fl = false -> cstring s -> no_escape fl s ->
  (length s < fuel)%nat -> (length acc + length s < cap)%nat ->
  exists acc' rest q,
    word_loop getenv fuel fl sep (s ++ [0]) quoted acc cap = Ok (acc', cap, rest ++ [0], q) /\
    rest `suffix_of` s /\ (length acc' < cap)%nat.
Proof.
  induction s as [|c s IH]; intros [|f] quoted acc cap Hf Hs He Hfuel Hcap; try (simpl in Hfuel; lia).
  - cbn [app word_loop deref mem_bind]. rewrite andb_false_r. simpl.
    exists acc, [], quoted. simpl in *. split; [done|]. split; [done|lia].
  - apply no_escape_cons in He as [He He']. apply Forall_cons in Hs as [Hc Hs]. simpl in Hfuel, Hcap.
    cbn [app word_loop deref next mem_bind]. rewrite He, Hf, (proj2 (Z.eqb_neq c 0)) by lia. cbn [orb].
    case_if; [eexists _, (c :: s), _; split; [done|]; split; [done|lia]|].
    case_if; [|case_if; [eexists _, (c :: s), _; split; [done|]; split; [done|lia]|]].
    + destruct (IH f (negb quoted) acc cap) as (a' & r' & q' & -> & ? & ?); [done..|lia|lia|].
      exists a', r', q'. split; [done|]. split; [by apply suffix_cons_r|done].
    + rewrite andb_false_r, put_ok by lia. cbn [mem_bind].
      destruct (IH f quoted (acc ++ [c]) cap) as (a' & r' & q' & -> & ? & ?);
        [done..|lia|rewrite length_app; simpl; lia|].
      exists a', r', q'. split; [done|]. split; [by apply suffix_cons_r|done].
Qed.

Lemma skip_set_suffix set s :
  exists r, skip_set set (s ++ [0]) = Ok (r ++ [0]) /\ r `suffix_of` s /\
            (match r with c :: _ => c = 0 \/ in_set set c = false | [] => True end).
Proof.
  induction s as [|c s IH]; simpl.
  - by exists [].
  - case_if; [|].
    + destruct IH as (r & -> & Hr & Hh). exists r. split; [done|]. split; [by apply suffix_cons_r|done].
    + exists (c :: s). split; [done|]. split; [done|]. bools. destruct E as [E|E]; bools; auto.
Qed.

Lemma suffix_keeps fl r s : r `suffix_of` s -> cstring s -> no_escape fl s ->
  cstring r /\ no_escape fl r /\ (length r <= length s)%nat.
Proof.
  intros [k ->]. unfold no_escape. rewrite cstring_app, length_app.
  intros [_ ?] Hn. split; [done|]. split; [|lia]. rewrite in_app_iff in Hn. tauto.
Qed.

Lemma words_loop_safe fl sep skip n : forall s quoted cap,
  (0 < n)%nat -> GWX_SUBST fl = false -> cstring s -> no_escape fl s -> (length s < cap)%nat ->
  exists r, words_loop getenv n fl sep skip (s ++ [0]) quoted cap = Ok r.
Proof.
  induction n as [|n IH]; intros s quoted cap Hn Hf Hs He Hcap; [lia|]. cbn [words_loop].
  destruct (skip_set_suffix skip s) as (r & -> & Hr & _). cbn [mem_bind].
  destruct (suffix_keeps fl r s Hr Hs He) as (Hrs & Hre & Hrl).
  destruct r as [|c r]; [simpl; eauto|]. cbn [app deref mem_bind]. case_if; [eauto|].
  change (c :: r ++ [0]) with ((c :: r) ++ [0]).
  destruct (word_loop_safe fl sep (c :: r) (S (length ((c :: r) ++ [0]))) quoted [] cap)
    as (acc & rest & q & -> & Hsuf & Hl); [done..|rewrite length_app; lia|cbn [length] in *; lia|].
  cbn [mem_bind]. destruct (suffix_keeps fl rest _ Hsuf Hrs Hre) as (Hts & Hte & Htl).
  destruct n as [|n]; [rewrite put_ok by lia; simpl; eauto|].
  destruct rest as [|d rest].
  - cbn [app deref mem_bind negb andb Z.eqb]. apply (IH []); [lia|done|done|done|simpl; lia].
  - cbn [app deref mem_bind]. apply Forall_cons in Hts as Hts'. case_if.
    + cbn [next mem_bind]. apply (IH rest); [lia|done|by destruct Hts'|by apply (no_escape_cons fl d)|cbn [length] in *; lia].
    + apply (IH (d :: rest)); [lia|done|done|done|cbn [length] in *; lia].
Qed.

(** *** Plain lines *)
Fixpoint span_sep sep s : cstr * cstr :=
  match s with
  | c :: t => if in_set sep c then ([], s) else let (w, r) := span_sep sep t in (c :: w, r)
  | [] => ([], [])
  end.

Lemma span_sep_length sep s : (length (span_sep sep s).1 + length (span_sep sep s).2 = length s)%nat.
Proof.
  induction s as [|c s IH]; [done|]. simpl. case_if; [done|].
  destruct (span_sep sep s). simpl in *. lia.
Qed.

Lemma span_sep_forall (P : Z -> Prop) sep s : Forall P s ->
  Forall P (span_sep sep s).1 /\ Forall P (span_sep sep s).2.
Proof.
  induction 1 as [|c s Hc Hs IH]; [done|]. simpl. case_if; [by repeat constructor|].
  destruct (span_sep sep s). simpl in *. split; [constructor|]; tauto.
Qed.

Lemma split_words_span sep acc s :
  split_words sep acc s =
  let (w, r) := span_sep sep s in
  match acc ++ w with
  | [] => split_words sep [] (tl r)
  | x => x :: split_words sep [] (tl r)
  end.
Proof.
  revert acc. induction s as [|c s IH]; intros acc; simpl.
  - rewrite app_nil_r. by destruct acc.
  - case_if; [rewrite app_nil_r; by destruct acc|]. rewrite IH.
    destruct (span_sep sep s) as [w r]. by rewrite <- app_assoc.
Qed.

Lemma word_loop_plain fl s : forall fuel acc cap,
  GWX_SUBST fl = false -> Forall (plain fl) s ->
  (length s < fuel)%nat -> (length acc + length s < cap)%nat ->
  word_loop getenv fuel fl DEF_FLDSEP (s ++ [0]) false acc cap =
    let (w, r) := span_sep DEF_FLDSEP s in Ok (acc ++ w, cap, r ++ [0], false).
Proof.
  induction s as [|c s IH]; intros [|f] acc cap Hf Hs Hfuel Hcap; try (simpl in Hfuel; lia).
  - cbn [app word_loop deref mem_bind]. rewrite andb_false_r. simpl. by rewrite app_nil_r.
  - apply Forall_cons in Hs as [(Hc & Hq & He) Hs]. simpl in Hfuel, Hcap.
    cbn [app word_loop deref next mem_bind span_sep].
    replace (negb (GWX_NOESC fl) && (c =? BSLASH)) with false
      by (destruct He as [-> | He]; [done | by rewrite (proj2 (Z.eqb_neq c BSLASH)), andb_false_r]).
    rewrite (proj2 (Z.eqb_neq c 0)), (proj2 (Z.eqb_neq c DQUOTE)) by lia || done. cbn [orb].
    rewrite Hf, !andb_false_r, andb_true_r.
    destruct ((c =? 10) || (c =? 13)) eqn:Ecr.
    + replace (in_set DEF_FLDSEP c) with true; [by rewrite app_nil_r|].
      rewrite orb_true_iff, !Z.eqb_eq in Ecr. by destruct Ecr as [-> | ->].
    + case_if; [by rewrite app_nil_r|]. rewrite put_ok by lia. cbn [mem_bind].
      rewrite IH; [|done|done|lia|rewrite length_app; simpl; lia].
      destruct (span_sep DEF_FLDSEP s). by rewrite <- app_assoc.
Qed.

Lemma span_sep_rest sep s :
  match (span_sep sep s).2 with [] => True | c :: _ => in_set sep c = true end.
Proof. induction s as [|c s IH]; simpl; [done|]. destruct (in_set sep c) eqn:E; [done|]. by destruct (span_sep sep s). Qed.

Lemma words_loop_plain fl n : forall s cap,
  (0 < n)%nat -> GWX_SUBST fl = false -> GWX_HASH fl = false -> Forall (plain fl) s ->
  (length s < cap)%nat ->
  words_loop getenv n fl DEF_FLDSEP DEF_FLDSKIP (s ++ [0]) false cap =
    Ok (nth_error (words_of s) (n - 1)).
Proof.
  induction n as [|n IH]; intros s cap Hn Hf Hh Hs Hcap; [lia|].
  assert (Hskip : forall t, Forall (plain fl) t -> exists r,
    skip_set DEF_FLDSKIP (t ++ [0]) = Ok (r ++ [0]) /\ words_of t = words_of r /\ Forall (plain fl) r /\
    (length r <= length t)%nat /\ (r = [] \/ (span_sep DEF_FLDSEP r).1 <> [])).
  { induction 1 as [|c t Hc Ht IHt]; [exists []; simpl; auto 6|]. cbn [app skip_set].
    destruct Hc as [Hc0 Hc]. rewrite (proj2 (Z.eqb_neq c 0)) by lia. cbn [negb andb].
    change DEF_FLDSKIP with DEF_FLDSEP in *. destruct (in_set DEF_FLDSEP c) eqn:E.
    - destruct IHt as (r & -> & Hw & Hr & Hl & Hspan). exists r. repeat split; try done.
      + unfold words_of in *. cbn [split_words]. by rewrite E, Hw.
      + simpl; lia.
    - exists (c :: t). repeat split; [by constructor|done|]. right. cbn [span_sep]. rewrite E.
      by destruct (span_sep DEF_FLDSEP t). }
  destruct (Hskip s Hs) as (r & Er & Hw & Hr & Hl & Hspan). clear Hskip.
  cbn [words_loop]. rewrite Er, Hw. cbn [mem_bind]. destruct Hspan as [-> | Hspan].
  { simpl. by destruct (n - 0)%nat. }
  destruct r as [|c r]; [done|]. cbn [app deref mem_bind].
  apply Forall_cons in Hr as Hc. rewrite (proj2 (Z.eqb_neq c 0)), Hh by (destruct Hc as [[]]; lia). cbn [orb andb].
  change (c :: r ++ [0]) with ((c :: r) ++ [0]).
  rewrite word_loop_plain; [|done|done|rewrite length_app; lia|cbn [length] in *; lia].
  unfold words_of. rewrite split_words_span. pose proof (span_sep_length DEF_FLDSEP (c :: r)) as Hsl.
  pose proof (span_sep_forall _ DEF_FLDSEP _ Hr) as [Hfw Hfr].
  pose proof (span_sep_rest DEF_FLDSEP (c :: r)) as Hrest.
  destruct (span_sep DEF_FLDSEP (c :: r)) as [w rest]. cbn [fst snd app mem_bind] in *.
  destruct w as [|x w]; [done|]. replace (S n - 1)%nat with n by lia.
  destruct n as [|n].
  - rewrite put_ok by lia. cbn [mem_bind nth_error]. do 2 f_equal. apply c_string_id.
    eapply Forall_impl; [done|]. by intros ? [].
  - cbn [nth_error]. destruct rest as [|d rest].
    + cbn [app deref mem_bind negb andb Z.eqb tl]. rewrite (IH []); [|lia|done|done|done|cbn [length] in *; lia].
      do 2 f_equal. lia.
    + cbn [app deref mem_bind]. apply Forall_cons in Hfr as [[Hd0 _] Hfr].
      rewrite Hrest, (proj2 (Z.eqb_neq d 0)) by lia. cbn [negb andb next mem_bind tl].
      rewrite IH; [|lia|done|done|done|cbn [length] in *; lia]. unfold words_of. do 2 f_equal. lia.
Qed.

Definition plainb fl (c : char) : bool :=
  (0 <? c) && (c <? 256) && negb (c =? DQUOTE) && (GWX_NOESC fl || negb (c =? BSLASH)).
Lemma plain_forallb fl s : forallb (plainb fl) s = true -> Forall (plain fl) s.
Proof.
  rewrite forallb_forall, List.Forall_forall. intros H c Hc. specialize (H c Hc).
  unfold plainb in H. unfold plain. bools. repeat split; [lia..|].
  destruct H0 as [H0|H0]; bools; auto.
Qed.

(** ** Properties *)

Lemma getwordx_words src n fl :
  (0 < n)%nat -> GWX_SUBST fl = false -> GWX_HASH fl = false -> Forall (plain fl) src ->
  getwordx getenv src n fl = Ok (nth_error (words_of src) (n - 1)).
Proof. intros. unfold getwordx, getwordx2. apply words_loop_plain; auto; lia. Qed.

(** A word and the separator after it. *)
Lemma split_word sep0 u : forall w c t, Forall (fun d => in_set sep0 d = false) u -> in_set sep0 c = true -> w ++ u <> [] ->
  split_words sep0 w (u ++ c :: t) = (w ++ u) :: split_words sep0 [] t.
Proof.
  induction u as [|d u IH]; intros w c t Hu Hc Hne; simpl.
  - rewrite Hc, app_nil_r in *. by destruct w.
  - apply Forall_cons in Hu as [Hd Hu]. rewrite Hd, IH by (done || by rewrite <- app_assoc). by rewrite <- app_assoc.
Qed.

Lemma words_of_cons u c t : u <> [] -> Forall (fun d => in_set DEF_FLDSEP d = false) u -> in_set DEF_FLDSEP c = true ->
  words_of (u ++ c :: t) = u :: words_of t.
Proof. intros. unfold words_of. by rewrite split_word. Qed.

(** On a line without quotes, escapes, substitutions and comments
    [getwordx] returns the n-th of the maximal runs of characters between
    separators, and NULL when there are fewer; the copy it makes of the line
    is large enough for every word. *)
Theorem getwordx_plain src n fl :
  (0 < n)%nat -> GWX_SUBST fl = false -> GWX_HASH fl = false -> Forall (plain fl) src ->
  getwordx getenv src n fl = Ok (nth_error (words_of src) (n - 1)).
Proof. apply getwordx_words. Qed.

Lemma getwordx_total src n fl :
  (0 < n)%nat -> GWX_SUBST fl = false -> cstring src -> no_escape fl src ->
  exists r, getwordx getenv src n fl = Ok r.
Proof. intros. unfold getwordx, getwordx2. apply words_loop_safe; auto; lia. Qed.

(** Without substitution, a line in which no backslash counts as an escape
    (always so with [GWX_NOESC]) is read within bounds, quotes included: the
    call returns, neither reading past the terminator nor writing past the
    copy, whatever the word number. *)
Theorem getwordx_safe src n fl :
  (0 < n)%nat -> GWX_SUBST fl = false -> cstring src -> no_escape fl src ->
  exists r, getwordx getenv src n fl = Ok r.
Proof. apply getwordx_total. Qed.

(** A backslash at the end of the line makes the scan step over the
    terminating NUL and read on: the escape takes the NUL for a character. *)
Theorem getwordx_trailing_backslash w fl :
  GWX_NOESC fl = false -> GWX_SUBST fl = false -> GWX_HASH fl = false ->
  Forall (plain fl) w -> Forall (fun c => in_set DEF_FLDSEP c = false) w ->
  getwordx getenv (w ++ [BSLASH]) 1 fl = Oob.
Proof.
  intros He Hf Hh Hw Hsep. unfold getwordx, getwordx2. cbn [words_loop].
  assert (Hloop : forall s fuel acc cap, Forall (plain fl) s -> Forall (fun c => in_set DEF_FLDSEP c = false) s ->
    (length s + 1 < fuel)%nat -> (length acc + length s + 1 <= cap)%nat ->
    word_loop getenv fuel fl DEF_FLDSEP ((s ++ [BSLASH]) ++ [0]) false acc cap = Oob).
  { induction s as [|c s IH]; intros [|[|f]] acc cap Hp Hs Hl Hc; try (simpl in Hl; lia).
    - cbn [app]. cbn [word_loop deref mem_bind]. rewrite He. change (negb false && (BSLASH =? BSLASH)) with true.
      cbn [next mem_bind]. change (escape [0]) with (Ok (0, @nil Z)). cbn [mem_bind fst snd].
      rewrite put_ok by (cbn [length] in Hc; lia). reflexivity.
    - apply Forall_cons in Hp as [(Hc0 & Hq & Hb) Hp]. apply Forall_cons in Hs as [Hi Hs].
      destruct Hb as [Hb|Hb]; [congruence|]. simpl in Hl, Hc.
      remember (S f) as g. cbn [app word_loop deref next mem_bind].
      rewrite (proj2 (Z.eqb_neq c 0)), (proj2 (Z.eqb_neq c DQUOTE)), (proj2 (Z.eqb_neq c BSLASH)) by lia || done.
      rewrite Hi, Hf, !andb_false_r. cbn [orb andb].
      replace ((c =? 10) || (c =? 13)) with false.
      + cbn [mem_bind]. rewrite put_ok by lia. cbn [mem_bind].
        apply IH; [done|done|lia|rewrite length_app; simpl; lia].
      + symmetry. apply orb_false_iff. rewrite !Z.eqb_neq. split; intros ->; done. }
  destruct w as [|c w].
  - change (skip_set DEF_FLDSKIP (([] ++ [BSLASH]) ++ [0])) with (Ok (([] ++ [BSLASH]) ++ [0])).
    cbn [mem_bind]. change (deref (([] ++ [BSLASH]) ++ [0])) with (Ok BSLASH). cbn [mem_bind].
    rewrite Hh. change ((BSLASH =? 0) || (false && (BSLASH =? chr "#"))) with false.
    cbv iota. rewrite (Hloop []); [done|constructor..|cbn; lia|cbn; lia].
  - cbn [app skip_set]. apply Forall_cons in Hsep as Hi. apply Forall_cons in Hw as Hp.
    destruct Hi as [Hi _]. destruct Hp as [[Hc0 _] _].
    change DEF_FLDSKIP with DEF_FLDSEP. rewrite Hi, andb_false_r. cbn [mem_bind deref].
    rewrite (proj2 (Z.eqb_neq c 0)), Hh by lia. cbn [orb andb].
    change (c :: (w ++ [BSLASH]) ++ [0]) with (((c :: w) ++ [BSLASH]) ++ [0]).
    rewrite (Hloop (c :: w)); [done|done|done|autorewrite with len; simpl; lia|cbn [length]; autorewrite with len; simpl; lia].
Qed.

(** Splitting a line ends: every step of the splitter takes a character. *)
Lemma esc_digits_shorter base ch src : outcome (fun r => length r.2 <= length src)%nat True (esc_digits base ch src).
Proof.
  revert ch. induction src as [|c t IH]; intros ch; [done|]. cbn [esc_digits].
  repeat case_if; try (simpl; lia); (eapply outcome_weaken; [apply IH| |done]; simpl; lia).
Qed.
Lemma escape_shorter src : outcome (fun r => length r.2 < S (length src))%nat True (escape src).
Proof.
  destruct src as [|c t]; [done|]. unfold escape. cbn [deref next mem_bind].
  repeat case_if; [simpl; lia| |];
    (eapply outcome_weaken; [apply esc_digits_shorter| |done]; simpl; lia).
Qed.
Lemma var_name_shorter k : forall src name, outcome (fun r => length r.2 <= length src)%nat True (var_name k src name).
Proof.
  induction k as [|k IH]; intros [|c t] name; [done..|]. cbn [var_name deref next mem_bind].
  case_if; [simpl; lia|]. eapply outcome_weaken; [apply IH| |done]. simpl. lia.
Qed.
Lemma put_ends acc cap c : outcome (fun _ => True) True (put acc cap c).
Proof. unfold put. by case_if. Qed.
Lemma word_loop_ends fl sep : forall fuel src quoted acc cap, (length src < fuel)%nat ->
  outcome (fun _ => True) True (word_loop getenv fuel fl sep src quoted acc cap).
Proof.
  induction fuel as [|fuel IH]; intros src quoted acc cap Hf; [lia|]. cbn [word_loop].
  destruct src as [|c t]; [done|]. cbn [deref next mem_bind]. simpl in Hf.
  case_if; [|case_if; [done|case_if; [apply IH; lia|case_if; [done|case_if]]]].
  - eapply outcome_bind; [apply escape_shorter|]. intros [ch r] Hr. simpl in Hr.
    eapply outcome_bind; [apply put_ends|]. intros acc' _. apply IH. simpl. lia.
  - destruct t as [|c1 t]; [done|]. cbn [deref mem_bind]. simpl in Hf. case_if.
    + eapply outcome_bind; [apply put_ends|]. intros acc' _. cbn [next mem_bind]. apply IH. lia.
    + eapply outcome_bind; [apply var_name_shorter|]. intros [name r] Hr. simpl in Hr. case_if; [done|].
      destruct r as [|c2 r]; [done|]. cbn [next mem_bind]. apply IH. simpl in Hr. lia.
  - eapply outcome_bind; [apply put_ends|]. intros acc' _. apply IH. lia.
Qed.
Lemma skip_set_ends set src : outcome (fun _ => True) True (skip_set set src).
Proof. induction src as [|c t IH]; simpl; [done|]. by case_if. Qed.
Lemma words_loop_ends fl sep skip n : forall src quoted cap, (0 < n)%nat ->
  outcome (fun _ => True) True (words_loop getenv n fl sep skip src quoted cap).
Proof.
  induction n as [|n IH]; intros src quoted cap Hn; [lia|]. cbn [words_loop].
  eapply outcome_bind; [apply skip_set_ends|]. intros [|c r] _; [done|]. cbn [deref mem_bind]. case_if; [done|].
  eapply outcome_bind; [apply word_loop_ends; lia|]. intros [[[acc cap'] src'] q'] _. destruct n as [|n].
  - eapply outcome_bind; [apply put_ends|]. done.
  - destruct src' as [|c' r']; [done|]. cbn [deref mem_bind]. case_if; cbn [next mem_bind]; apply IH; lia.
Qed.
End Lemmas.

Lemma getwordx_plain_witness :
  getwordx no_env (str "2:5047/13 2:5047/13.1@fidonet") 2 GWX_0 = Ok (Some (str "2:5047/13.1@fidonet")).
Proof.
  apply (getwordx_plain no_env (str "2:5047/13 2:5047/13.1@fidonet") 2 GWX_0); [lia|reflexivity..|].
  apply plain_forallb. reflexivity.
Defined.

Lemma getwordx_safe_witness : exists r, getwordx no_env (str "C:\in\x.pkt 0") 1 GWX_CTL = Ok r.
Proof.
  apply getwordx_safe; [lia | reflexivity | vm_compute; repeat constructor | left; reflexivity].
Defined.

Lemma getwordx_trailing_backslash_witness : getwordx no_env (str "2:5047/13\") 1 GWX_0 = Oob.
Proof.
  apply (getwordx_trailing_backslash no_env (str "2:5047/13") GWX_0); [reflexivity..| |].
  - apply plain_forallb. reflexivity.
  - vm_compute. repeat constructor.
Defined.
