(* ===== verification/Pkt.v ===== *)
(** * tools.c: the addresses in a packet header

    A .pkt header holds origin and destination at fixed offsets that depend on
    the packet's flavour.  [raw] is the first block of the file; the code only
    looks at it when it has at least 60 bytes. *)
From S2P Require Import Prelude CStr.

Definition byte_at (raw : list Z) (i : nat) : Z := nth i raw 0.
Definition GET_BYTE2 (raw : list Z) (x : nat) : Z :=
  byte_at raw x + byte_at raw (x + 1)%nat * 0x100.
Definition SET_BYTE2 (raw : list Z) (x : nat) (v : Z) : list Z :=
  <[(x + 1)%nat := uchar (Z.land (Z.quot v 0x100) 0xff)]> (<[x := uchar (Z.land v 0xff)]> raw).

(** The addresses read: [-1] is unknown. *)
Record PKTADDR := mkPKTADDR {
  oz : Z; onet : Z; onode : Z; op : Z; dz : Z; dnet : Z; dnode : Z; dp : Z
}.
#[export] Instance eta_PKTADDR : Eta PKTADDR :=
  fun a => mkPKTADDR (oz a) (onet a) (onode a) (op a) (dz a) (dnet a) (dnode a) (dp a).
#[export] Instance PKTADDR_eq_dec : EqDecision PKTADDR.
Proof. solve_decision. Defined.
Definition NO_PKTADDR : PKTADDR := mkPKTADDR (-1) (-1) (-1) (-1) (-1) (-1) (-1) (-1).

Definition short (v : Z) : Z := swrap 16 v.

(** QMail and ZMail headers have zones only; type 2.x ones have points too. *)
Definition is_zmail (raw : list Z) : bool := (byte_at raw 24 =? 0x29) || (byte_at raw 24 =? 0x35).
Definition is_type2x (raw : list Z) : bool := negb (Z.land (byte_at raw 44) 1 =? 0).
Definition is_type2plus (raw : list Z) : bool :=
  (byte_at raw 44 =? byte_at raw 41) && (byte_at raw 45 =? byte_at raw 40).

Definition pkt_getaddr (raw : list Z) : bool * PKTADDR :=
  if negb (GET_BYTE2 raw 18 =? 2) then (false, NO_PKTADDR) else
  let a := NO_PKTADDR <| onode := short (GET_BYTE2 raw 0) |> <| onet := short (GET_BYTE2 raw 20) |>
                      <| dnode := short (GET_BYTE2 raw 2) |> <| dnet := short (GET_BYTE2 raw 22) |> in
  let a :=
    if is_zmail raw then
      a <| oz := short (GET_BYTE2 raw 34) |> <| dz := short (GET_BYTE2 raw 36) |>
    else if is_type2x raw then
      let a := a <| oz := short (GET_BYTE2 raw 46) |> <| op := short (GET_BYTE2 raw 50) |>
                 <| dz := short (GET_BYTE2 raw 48) |> <| dp := short (GET_BYTE2 raw 52) |> in
      if is_type2plus raw && negb (GET_BYTE2 raw 50 =? 0) && (onet a =? -1)
      then a <| onet := short (GET_BYTE2 raw 38) |> else a
    else a in
  (true, a).

Definition set_if (v : Z) (x : nat) (raw : list Z) : list Z :=
  if 0 <=? v then SET_BYTE2 raw x v else raw.

Definition pkt_setaddr (raw : list Z) (a : PKTADDR) : bool * list Z :=
  if negb (GET_BYTE2 raw 18 =? 2) then (false, raw) else
  let raw := set_if (onode a) 0 raw in
  let raw := set_if (onet a) 20 raw in
  let raw := set_if (dnode a) 2 raw in
  let raw := set_if (dnet a) 22 raw in
  let raw :=
    if is_zmail raw then set_if (dz a) 36 (set_if (oz a) 34 raw)
    else if is_type2x raw then
      let raw := set_if (dp a) 52 (set_if (dz a) 48 (set_if (op a) 50 (set_if (oz a) 46 raw))) in
      if is_type2plus raw && negb (GET_BYTE2 raw 50 =? 0) then
        <[21%nat := 0xff]> (<[20%nat := 0xff]> (<[39%nat := byte_at raw 21]> (<[38%nat := byte_at raw 20]> raw)))
      else raw
    else raw in
  (true, raw).

(** ** Lemmas *)
Definition is_short (v : Z) : Prop := 0 <= v < 2 ^ 15.

Lemma nth_insert_eq (raw : list Z) i v : (i < length raw)%nat -> nth i (<[i := v]> raw) 0 = v.
Proof. intros. rewrite nth_lookup, list_lookup_insert_eq by done. done. Qed.
Lemma nth_insert_ne (raw : list Z) i j v : i <> j -> nth i (<[j := v]> raw) 0 = nth i raw 0.
Proof. intros. by rewrite !nth_lookup, list_lookup_insert_ne by done. Qed.

Lemma get_set (raw : list Z) x v : (x + 1 < length raw)%nat -> is_short v ->
  GET_BYTE2 (SET_BYTE2 raw x v) x = v.
Proof.
  intros Hx Hv. unfold GET_BYTE2, SET_BYTE2, byte_at, is_short in *.
  rewrite nth_insert_eq by (rewrite length_insert; lia).
  rewrite nth_insert_ne by lia. rewrite nth_insert_eq by lia. unfold uchar.
  change 0xff with (Z.ones 8). rewrite !Z.land_ones by lia.
  rewrite Z.quot_div_nonneg by lia. rewrite !Zmod_mod.
  pose proof (Z.div_mod v 256 ltac:(lia)). change (2 ^ 8) with 256.
  rewrite (Z.mod_small (v / 256)); [lia|]. split; [apply Z.div_pos; lia|apply Z.div_lt_upper_bound; lia].
Qed.

Lemma set_if_length v x raw : length (set_if v x raw) = length raw.
Proof. unfold set_if, SET_BYTE2. case_if; [by rewrite !length_insert|done]. Qed.

Lemma byte_set_if v x raw i : i <> x -> i <> (x + 1)%nat -> byte_at (set_if v x raw) i = byte_at raw i.
Proof. intros. unfold set_if, SET_BYTE2, byte_at. case_if; [|done]. by rewrite !nth_insert_ne. Qed.

Lemma get_set_if_same v x raw : (x + 1 < length raw)%nat -> is_short v ->
  GET_BYTE2 (set_if v x raw) x = v.
Proof. intros Hx Hv. unfold set_if. rewrite (proj2 (Z.leb_le _ _)) by (unfold is_short in Hv; lia). by apply get_set. Qed.

Lemma get_set_if_other v x raw i :
  i <> x -> i <> (x + 1)%nat -> (i + 1)%nat <> x -> GET_BYTE2 (set_if v x raw) i = GET_BYTE2 raw i.
Proof. intros. unfold GET_BYTE2. rewrite !byte_set_if by lia. done. Qed.

Lemma short_id v : is_short v -> short v = v.
Proof. intros H. unfold is_short in H. apply swrap_id; lia. Qed.

Lemma set_if_none x raw : set_if (-1) x raw = raw.
Proof. done. Qed.

(** The arguments that replace the destination only. *)
Definition dest_only (z net node p : Z) : PKTADDR := mkPKTADDR (-1) (-1) (-1) (-1) z net node p.

(** The point's net is kept in the auxiliary field of a type 2+ header. *)
Definition point_origin (raw : list Z) : bool :=
  negb (is_zmail raw) && is_type2x raw && is_type2plus raw && negb (GET_BYTE2 raw 50 =? 0).

(** The header bytes the functions branch on are not addresses. *)
Ltac pkt_flags :=
  unfold is_zmail, is_type2x, is_type2plus in *; repeat rewrite byte_set_if by lia;
  repeat rewrite get_set_if_other by lia.

Ltac get_if :=
  repeat match goal with
  | |- context [GET_BYTE2 (set_if ?v ?x ?r) ?i] =>
      first [ rewrite (get_set_if_other v x r i) by lia
            | rewrite (get_set_if_same v x r) by (rewrite ?set_if_length; (done || lia)) ]
  end.

(** What replacing the destination writes, apart from the auxiliary net. *)
Definition put_dest (raw : list Z) (z net node p : Z) : list Z :=
  let raw := set_if net 22 (set_if node 2 raw) in
  if is_zmail raw then set_if z 36 raw
  else if is_type2x raw then set_if p 52 (set_if z 48 raw) else raw.

Lemma pkt_setaddr_dest raw z net node p :
  GET_BYTE2 raw 18 = 2 -> point_origin raw = false ->
  pkt_setaddr raw (dest_only z net node p) = (true, put_dest raw z net node p).
Proof.
  intros Hv Hp. unfold pkt_setaddr, put_dest, dest_only. rewrite Hv.
  cbn [onode onet dnode dnet oz op dz dp negb Z.eqb Pos.eqb]. rewrite !set_if_none.
  set (raw1 := set_if net 22 (set_if node 2 raw)).
  destruct (is_zmail raw1) eqn:Ez; [done|]. destruct (is_type2x raw1) eqn:Ex; [|done].
  unfold point_origin in Hp. replace (is_zmail raw) with false in Hp
    by (rewrite <- Ez; subst raw1; by pkt_flags).
  replace (is_type2x raw) with true in Hp by (rewrite <- Ex; subst raw1; by pkt_flags).
  replace (is_type2plus _ && _) with false; [done|]. rewrite <- Hp. subst raw1. by pkt_flags.
Qed.

(** ** Properties *)

(** Replacing the destination in a packet header is read back, within the
    flavour's means (zones for QMail/ZMail, zones and points for type 2.x), and
    leaves version, flavour and origin as they were, unless the header keeps
    the origin net of a point in the auxiliary field. *)
Theorem pkt_getaddr_setaddr raw z net node p :
  (58 <= length raw)%nat -> GET_BYTE2 raw 18 = 2 -> point_origin raw = false ->
  is_short z -> is_short net -> is_short node -> is_short p ->
  exists raw', pkt_setaddr raw (dest_only z net node p) = (true, raw') /\
    length raw' = length raw /\
    pkt_getaddr raw' =
      (true, let a := (pkt_getaddr raw).2 in
             let a := a <| dnet := net |> <| dnode := node |> in
             if is_zmail raw then a <| dz := z |>
             else if is_type2x raw then a <| dz := z |> <| dp := p |> else a).
Proof.
  intros Hl Hv Hp Hz Hnet Hnode Hpt. eexists. split; [by apply pkt_setaddr_dest|].
  unfold put_dest. set (raw1 := set_if net 22 (set_if node 2 raw)).
  assert (Hl1 : length raw1 = length raw) by (subst raw1; by rewrite !set_if_length).
  assert (Ez : is_zmail raw1 = is_zmail raw) by (subst raw1; by pkt_flags).
  assert (Ex : is_type2x raw1 = is_type2x raw) by (subst raw1; by pkt_flags).
  rewrite Ez, Ex. unfold point_origin in Hp. unfold pkt_getaddr.
  destruct (is_zmail raw) eqn:Ezr; [|destruct (is_type2x raw) eqn:Exr]; cbn [negb andb] in Hp;
    (split; [by rewrite ?set_if_length|]).
  all: rewrite Hv; cbn [negb Z.eqb Pos.eqb].
  all: replace (is_zmail _) with (is_zmail raw) by (subst raw1; by pkt_flags); rewrite ?Ezr.
  all: try (replace (is_type2x _) with (is_type2x raw) by (subst raw1; by pkt_flags); rewrite ?Exr).
  all: try (replace (is_type2plus _) with (is_type2plus raw) by (subst raw1; by pkt_flags)).
  all: subst raw1; repeat (rewrite (get_set_if_other _ _ _ 18) by lia); rewrite Hv; cbn [negb Z.eqb Pos.eqb].
  all: get_if.
  all: rewrite ?(short_id z), ?(short_id net), ?(short_id node), ?(short_id p) by done.
  all: try reflexivity.
  by rewrite Hp.
Qed.

Definition pkt_example (aux : bool) : list Z :=
  let raw := replicate 58 0 in
  let raw := SET_BYTE2 raw 18 2 in
  let raw := SET_BYTE2 (SET_BYTE2 raw 0 77) 20 (if aux then 0xffff else 5020) in
  let raw := SET_BYTE2 (SET_BYTE2 raw 46 2) 50 (if aux then 12 else 0) in
  let raw := SET_BYTE2 raw 38 5020 in
  SET_BYTE2 (SET_BYTE2 raw 44 1) 40 0x100.

Lemma pkt_getaddr_setaddr_witness :
  exists raw', pkt_setaddr (pkt_example false) (dest_only 2 5047 13 1) = (true, raw') /\
    length raw' = 58%nat /\ pkt_getaddr raw' = (true, mkPKTADDR 2 5020 77 0 2 5047 13 1).
Proof.
  apply (pkt_getaddr_setaddr (pkt_example false) 2 5047 13 1);
    try reflexivity; try (vm_compute; lia); split; vm_compute; discriminate || reflexivity.
Defined.

(** A packet from a point loses its origin net when its destination is
    replaced: with the net already in the auxiliary field (0xffff in the FTS-1
    one) that field is overwritten too, and the net is unknown afterwards. *)
Theorem pkt_setaddr_point_net_lost raw z net node p :
  (58 <= length raw)%nat -> GET_BYTE2 raw 18 = 2 -> point_origin raw = true ->
  byte_at raw 20 = 0xff -> byte_at raw 21 = 0xff ->
  exists raw', pkt_setaddr raw (dest_only z net node p) = (true, raw') /\
    onet (pkt_getaddr raw').2 = -1.
Proof.
  intros Hl Hv Hp H20 H21. unfold point_origin in Hp. bools.
  unfold pkt_setaddr, dest_only. rewrite Hv.
  cbn [onode onet dnode dnet oz op dz dp negb Z.eqb Pos.eqb]. rewrite !set_if_none.
  set (raw1 := set_if net 22 (set_if node 2 raw)).
  assert (Ez : is_zmail raw1 = false) by (subst raw1; by pkt_flags).
  assert (Ex : is_type2x raw1 = true) by (subst raw1; by pkt_flags).
  rewrite Ez, Ex. set (raw2 := set_if p 52 (set_if z 48 raw1)).
  assert (Hl2 : length raw2 = length raw) by (subst raw2 raw1; by rewrite !set_if_length).
  assert (E2 : is_type2plus raw2 && negb (GET_BYTE2 raw2 50 =? 0) = true).
  { subst raw2 raw1. pkt_flags. apply andb_true_iff. split; [done|].
    by apply negb_true_iff, Z.eqb_neq. }
  rewrite E2. eexists. split; [reflexivity|].
  assert (Hb : byte_at raw2 20 = 0xff /\ byte_at raw2 21 = 0xff)
    by (subst raw2 raw1; by rewrite !byte_set_if by lia).
  destruct Hb as [Hb20 Hb21]. rewrite Hb20, Hb21.
  assert (Hfar : forall i, i <> 20%nat -> i <> 21%nat -> i <> 38%nat -> i <> 39%nat ->
    byte_at (<[21%nat:=255]> (<[20%nat:=255]> (<[39%nat:=255]> (<[38%nat:=255]> raw2)))) i = byte_at raw2 i).
  { intros i ????. unfold byte_at. by rewrite !nth_insert_ne. }
  assert (H38 : GET_BYTE2 (<[21%nat:=255]> (<[20%nat:=255]> (<[39%nat:=255]> (<[38%nat:=255]> raw2)))) 38 = 0xffff).
  { unfold GET_BYTE2, byte_at. rewrite !nth_insert_ne, nth_insert_eq by lia.
    rewrite !nth_insert_ne by lia. rewrite nth_insert_eq by (rewrite length_insert; lia). done. }
  assert (H20' : GET_BYTE2 (<[21%nat:=255]> (<[20%nat:=255]> (<[39%nat:=255]> (<[38%nat:=255]> raw2)))) 20 = 0xffff).
  { unfold GET_BYTE2, byte_at. rewrite (nth_insert_ne _ 20 21) by lia.
    rewrite !nth_insert_eq by (rewrite ?length_insert; lia). done. }
  set (raw3 := <[21%nat:=255]> _) in *. unfold pkt_getaddr.
  assert (Hv3 : GET_BYTE2 raw3 18 = 2).
  { unfold GET_BYTE2. rewrite !Hfar by lia. subst raw2 raw1. rewrite !byte_set_if by lia. apply Hv. }
  rewrite Hv3, H20', H38. cbn [negb Z.eqb Pos.eqb].
  replace (is_zmail raw3) with false; cycle 1.
  { unfold is_zmail. rewrite Hfar by lia. symmetry. subst raw2. pkt_flags. apply Ez. }
  replace (is_type2x raw3) with true; cycle 1.
  { unfold is_type2x. rewrite Hfar by lia. symmetry. subst raw2. pkt_flags. apply Ex. }
  assert (Hs : short 0xffff = -1) by reflexivity. rewrite !Hs. clearbody raw3.
  cbn [snd]. match goal with |- context [if ?b then _ else _] => destruct b end; reflexivity.
Qed.

Lemma pkt_setaddr_point_net_lost_witness :
  onet (pkt_getaddr (pkt_example true)).2 = 5020 /\
  exists raw', pkt_setaddr (pkt_example true) (dest_only 2 5047 13 1) = (true, raw') /\
    onet (pkt_getaddr raw').2 = -1.
Proof.
  split; [reflexivity|].
  apply (pkt_setaddr_point_net_lost (pkt_example true) 2 5047 13 1);
    try reflexivity; vm_compute; lia.
Defined.

Lemma pkt_setaddr_length raw a : length (pkt_setaddr raw a).2 = length raw.
Proof.
  unfold pkt_setaddr. case_if; [done|]. cbn [snd]. repeat (case_if || cbv zeta); by rewrite ?length_insert, ?set_if_length.
Qed.
