(* ===== verification/Sys.v ===== *)
(** * The operating system as the sources use it

    Files, directories, the clock and the random generator, with the calls of
    tools.c and unix/rename.c that change them.  A path is a C string; [deny]
    tells which paths the process may not create, write or remove, so that the
    error branches of the callers are reached.  Nothing else runs in between:
    the model is of one process's sequence of calls. *)
From S2P Require Import Prelude CStr Tools FtnAddr.

Record FILE_ := mkFILE_ { f_data : list Z; f_mtime : Z }.
#[export] Instance FILE_eq_dec : EqDecision FILE_.
Proof. solve_decision. Defined.

Record SYS := mkSYS {
  fs : gmap cstr FILE_;
  dirs : gset cstr;
  clock : Z;
  deny : cstr -> bool;
  rand_ : nat -> Z;
  nrand : nat;
  pid : Z
}.
#[export] Instance eta_SYS : Eta SYS :=
  fun s => mkSYS (fs s) (dirs s) (clock s) (deny s) (rand_ s) (nrand s) (pid s).

Definition is_file (s : SYS) (p : cstr) : bool := bool_decide (is_Some (fs s !! p)).
Definition is_dir (s : SYS) (p : cstr) : bool := bool_decide (p ∈ dirs s).
(** [access (p, F_OK) == 0], also [stat (p) == 0]. *)
Definition exists_ (s : SYS) (p : cstr) : bool := is_file s p || is_dir s p.

(** The directory a path lies in; the root and the current one always exist. *)
Definition parent (p : cstr) : option cstr := (fun i => take i p) <$> last_slash p.
Definition parent_ok (s : SYS) (p : cstr) : bool :=
  match parent p with None | Some [] => true | Some d => is_dir s d end.
Definition may_create (s : SYS) (p : cstr) : bool :=
  negb (exists_ s p) && negb (deny s p) && parent_ok s p.

Definition put_file (s : SYS) (p : cstr) (d : list Z) : SYS :=
  s <| fs := <[p := mkFILE_ d (clock s)]> (fs s) |>.

(** ** unlink, rmdir, mkdir: the return value and the new state *)
Definition unlink (s : SYS) (p : cstr) : Z * SYS :=
  if is_file s p && negb (deny s p) then (0, s <| fs := delete p (fs s) |>) else (-1, s).

Definition inside (d p : cstr) : bool := is_prefix (d ++ str "/") p.
Definition dir_empty (s : SYS) (d : cstr) : bool :=
  forallb (fun x => negb (inside d x.1)) (map_to_list (fs s)) &&
  forallb (fun x => negb (inside d x)) (elements (dirs s)).
Definition rmdir (s : SYS) (p : cstr) : Z * SYS :=
  if is_dir s p && dir_empty s p && negb (deny s p)
  then (0, s <| dirs := dirs s ∖ {[p]} |>) else (-1, s).
Definition MKDIR (s : SYS) (p : cstr) : Z * SYS :=
  if may_create s p then (0, s <| dirs := {[p]} ∪ dirs s |>) else (-1, s).

(** ** tools.c *)
Definition delete_ (s : SYS) (path : cstr) : Z * SYS := unlink s path.
Definition trunc_file (s : SYS) (path : cstr) : Z * SYS :=
  if is_file s path && negb (deny s path) then (0, put_file s path []) else (-1, s).

Definition touch (s : SYS) (file : cstr) (t : Z) : Z * SYS :=
  match fs s !! file with
  | Some f => if deny s file then (-1, s)
              else (0, s <| fs := <[file := mkFILE_ (f_data f) t]> (fs s) |>)
  | None => (-1, s)
  end.

(** Exclusive creation: 1 is created, 0 is already there (or impossible). *)
Definition create_empty_sem_file (s : SYS) (name : cstr) : bool * SYS :=
  if may_create s name then (true, put_file s name []) else (false, s).
Definition create_sem_file (s : SYS) (name : cstr) : bool * SYS :=
  if may_create s name then (true, put_file s name (fmt_u (pid s) ++ [10])) else (false, s).

(** The recursion of [mkpath0] shortens the path at each level. *)
Fixpoint mkpath0 (fuel : nat) (s : SYS) (path0 : cstr) : Z * SYS :=
  match fuel with
  | O => (-1, s)
  | S f =>
      if is_dir s path0 then (0, s)
      else if is_file s path0 then (-1, s)
      else
        let '(r, s) :=
          match last_slash path0 with
          | Some i => match take i path0 with
                      | [] => (0, s)
                      | path => mkpath0 f s path
                      end
          | None => (0, s)
          end in
        if r =? -1 then (-1, s)
        else if hd0 (rev path0) =? chr ":" then (0, s)
        else MKDIR s path0
  end.

Definition mkpath (s : SYS) (p : cstr) : Z * SYS :=
  let path := strnzcpy p MAXPATHLEN in
  match last_slash path with
  | None => (0, s)
  | Some i => mkpath0 (S i) s (take i path)
  end.

Definition safe_time (s : SYS) : Z := clock s.
Definition rnd (s : SYS) : Z * SYS :=
  (Z.land (clock s + rand_ s (nrand s)) 0xFFFFFFFF, s <| nrand ::= S |>).

(** ** unix/rename.c: a rename that never replaces a file.  [link] fails if the
    target exists; on success the old name is removed. *)
Inductive errno := EEXIST | EACCES | ENOENT.
Definition o_rename (s : SYS) (from to : cstr) : option errno * SYS :=
  match fs s !! from with
  | None => (Some ENOENT, s)
  | Some f =>
      if exists_ s to then (Some EEXIST, s)
      else if negb (parent_ok s to) then (Some ENOENT, s)
      else if deny s to then (Some EACCES, s)
      else (None, (unlink (s <| fs := <[to := f]> (fs s) |>) from).2)
  end.

(** ** stdio: whole-file writes, and the names in a directory *)
Definition fopen_w (s : SYS) (p : cstr) : bool :=
  negb (deny s p) && negb (is_dir s p) && (is_file s p || parent_ok s p).
Definition fopen_r (s : SYS) (p : cstr) : option (list Z) := f_data <$> fs s !! p.

(** [fgets (buf, n, f)]: up to [n-1] characters, through the newline. *)
Fixpoint fgets (n : nat) (f : list Z) : list Z * list Z :=
  match n, f with
  | O, _ | _, [] => ([], f)
  | S n', c :: t => if c =? 10 then ([c], t) else let (l, r) := fgets n' t in (c :: l, r)
  end.

Definition entry_of (d p : cstr) : option cstr :=
  if inside d p then
    let n := drop (length d + 1) p in
    if in_set n (chr "/") then None else match n with [] => None | _ => Some n end
  else None.
(** What [readdir] enumerates, in some order. *)
Definition readdir (s : SYS) (d : cstr) : list cstr :=
  omap (entry_of d) ((map_to_list (fs s)).*1 ++ elements (dirs s)).
