(* ===== verification/Types.v ===== *)
(** * The data of btypes.h, readcfg.h and protoco2.h

    Nodes, queue entries, files in transfer, the configuration and the state of
    a session.  The build is the Unix one without Perl, compression and rate
    limits, so their fields are absent.  A pointer to a heap object is an
    [option]; arrays that only grow at the end are lists. *)
From S2P Require Import Prelude CStr Crypt Tools FtnAddr Sys.

(** ** Constants *)
Definition MAXPWDLEN : nat := 40.
Definition MAX_NETNAME : nat := Z.to_nat 255.
Definition MAXSYSTEMNAME : nat := 120.
Definition MAXSYSOPNAME : nat := 120.
Definition MAXLOCATIONNAME : nat := 120.
Definition MAX_INB_RENAME : Z := 10000.
Definition MAX_BLKSIZE : Z := 0x7fff.
Definition BLK_HDR_SIZE : Z := 2.

Definition NR_ON := 1.
Definition ND_ON := 1.
Definition HC_ON := 1.
Definition HC_OFF := -1.
Definition MD_USE_OLD := 0.
Definition USE_OLD := -1.
Definition RIP_OFF := 0.
Definition NL_NODE := 1.
Definition RESOLVE_TTL := 3600.

(** ** btypes.h *)
Record FTN_NODE := mkFTN_NODE {
  n_listed : Z;
  n_hosts : option cstr;
  n_fa : FTN_ADDR;
  n_pwd : cstr;
  n_pkt_pwd : option cstr;
  n_out_pwd : option cstr;
  n_obox_flvr : char;
  n_obox : option cstr;
  n_ibox : option cstr;
  n_pipe : option cstr;
  n_NR_flag : Z;
  n_ND_flag : Z;
  n_MD_flag : Z;
  n_HC_flag : Z;
  n_restrictIP : Z;
  n_NP_flag : Z;
  n_NC_flag : Z;
  n_hold_until : Z;
  n_busy : char;
  n_mail_flvr : char;
  n_files_flvr : char;
  n_IP_afamily : Z;
  n_recheck : Z
}.
#[export] Instance eta_FTN_NODE : Eta FTN_NODE := fun n =>
  mkFTN_NODE (n_listed n) (n_hosts n) (n_fa n) (n_pwd n) (n_pkt_pwd n) (n_out_pwd n)
    (n_obox_flvr n) (n_obox n) (n_ibox n) (n_pipe n) (n_NR_flag n) (n_ND_flag n) (n_MD_flag n)
    (n_HC_flag n) (n_restrictIP n) (n_NP_flag n) (n_NC_flag n) (n_hold_until n) (n_busy n)
    (n_mail_flvr n) (n_files_flvr n) (n_IP_afamily n) (n_recheck n).

(** An element of the outbound queue; the queue is the list of them. *)
Record FTNQ := mkFTNQ {
  q_fa : FTN_ADDR;
  q_flvr : char;
  q_action : char;
  q_type : char;
  q_path : cstr;
  q_size : Z;
  q_time : Z;
  q_sent : bool
}.
#[export] Instance eta_FTNQ : Eta FTNQ := fun q =>
  mkFTNQ (q_fa q) (q_flvr q) (q_action q) (q_type q) (q_path q) (q_size q) (q_time q) (q_sent q).
#[export] Instance FTNQ_eq_dec : EqDecision FTNQ.
Proof. solve_decision. Defined.

(** An open file: its path and the position in it. *)
Record HANDLE := mkHANDLE { h_path : cstr; h_pos : Z }.
#[export] Instance eta_HANDLE : Eta HANDLE := fun h => mkHANDLE (h_path h) (h_pos h).
#[export] Instance HANDLE_eq_dec : EqDecision HANDLE.
Proof. solve_decision. Defined.

(** A file in transfer; [TF_ZERO] fills it with zero bytes. *)
Record TFILE := mkTFILE {
  t_path : cstr;
  t_flo : cstr;
  t_netname : cstr;
  t_action : char;
  t_type : char;
  t_size : Z;
  t_start : Z;
  t_time : Z;
  t_f : option HANDLE;
  t_fa : FTN_ADDR
}.
#[export] Instance eta_TFILE : Eta TFILE := fun t =>
  mkTFILE (t_path t) (t_flo t) (t_netname t) (t_action t) (t_type t) (t_size t) (t_start t)
    (t_time t) (t_f t) (t_fa t).
#[export] Instance TFILE_eq_dec : EqDecision TFILE.
Proof. solve_decision. Defined.
Definition TF_ZERO : TFILE :=
  mkTFILE [] [] [] 0 0 0 0 0 None (mkFTN_ADDR [] 0 0 0 0).

Record KILLLIST := mkKILLLIST { k_name : cstr; k_cond : char }.
Record EVTQ := mkEVTQ { e_path : cstr; e_type : char }.
#[export] Instance EVTQ_eq_dec : EqDecision EVTQ.
Proof. solve_decision. Defined.

Inductive dontsendemptytype := EMPTY_NO | EMPTY_ARCMAIL | EMPTY_ALL.
Inductive renamestyletype := RENAME_POSTFIX | RENAME_EXTENSION | RENAME_BODY.
#[export] Instance renamestyle_eq_dec : EqDecision renamestyletype.
Proof. solve_decision. Defined.

(** ** readcfg.h, readflo.h, srif.h, ftnaddr.h: lists of the configuration *)
Definition A_LST : Z := 1.
Definition A_UNLST : Z := 2.
Definition A_PROT : Z := 4.
Definition A_UNPROT : Z := 8.
Record skipchain := mkskipchain { sk_mask : cstr; sk_atype : Z; sk_size : Z; sk_destr : bool }.
Definition ACT_HIDE : Z := 1.
Definition ACT_PRESENT : Z := 2.
Record akachain := mkakachain { ak_fa : FTN_ADDR; ak_mask : cstr; ak_type : Z }.
Record RF_RULE := mkRF_RULE { rf_from : cstr; rf_to : cstr }.
Record EVT_FLAG := mkEVT_FLAG {
  ev_path : option cstr; ev_command : option cstr; ev_pattern : cstr; ev_imm : bool
}.
Record listenchain := mklistenchain { l_addr : cstr; l_port : cstr }.
#[export] Instance eta_listenchain : Eta listenchain := fun l => mklistenchain (l_addr l) (l_port l).
Record conflist_type := mkconflist_type { cf_path : cstr; cf_mtime : Z }.
#[export] Instance eta_conflist_type : Eta conflist_type := fun c => mkconflist_type (cf_path c) (cf_mtime c).
Record SHARED_CHAIN := mkSHARED_CHAIN { sha : FTN_ADDR; sfa : list FTN_ADDR }.

Record BINKD_CONFIG := mkBINKD_CONFIG {
  pAddr : list FTN_ADDR;
  pDomains : list FTN_DOMAIN;
  oblksize : Z;
  kill_dup_partial_files : bool;
  kill_old_partial_files : Z;
  kill_old_bsy : Z;
  minfree : Z;
  minfree_nonsecure : Z;
  tries : Z;
  hold : Z;
  hold_skipped : Z;
  send_if_pwd : bool;
  remove_try_files : bool;
  prescan : bool;
  inboundcase : inbcasetype;
  deletedirs : bool;
  havedefnode : bool;
  dontsendempty : dontsendemptytype;
  renamestyle : renamestyletype;
  pkthdr_type : Z;
  pkthdr_bad : option cstr;
  overwrite : list cstr;
  skipmask : list skipchain;
  rf_rules : list RF_RULE;
  evt_flags : list EVT_FLAG;
  akamask : list akachain;
  shares : list SHARED_CHAIN;
  root_domain : cstr;
  c_sysname : cstr;
  c_sysop : cstr;
  c_location : cstr;
  c_nodeinfo : cstr;
  c_inbound : cstr;
  inbound_nonsecure : cstr;
  temp_inbound : cstr;
  tfilebox : cstr;
  bfilebox : cstr;
  deleteablebox : bool;
  oport : cstr;
  no_MD5 : bool;
  no_crypt : bool;
  tzoff : Z;
  max_servers : Z;
  max_clients : Z;
  iport : cstr;
  nettimeout : Z;
  connect_timeout : Z;
  call_delay : Z;
  no_call_delay : bool;
  rescan_delay : Z;
  backresolv : bool;
  loglevel : Z;
  conlog : Z;
  printq : bool;
  percents : bool;
  config_list : list conflist_type;
  nolog : list cstr;
  listen_ : list listenchain;
  bindaddr : cstr;
  logpath : cstr;
  binlogpath : cstr;
  fdinhist : cstr;
  fdouthist : cstr;
  pid_file : cstr;
  c_passwords : cstr;
  usageCount : Z;
  q_present : bool
}.
#[export] Instance eta_BINKD_CONFIG : Eta BINKD_CONFIG := fun c =>
  mkBINKD_CONFIG (pAddr c) (pDomains c) (oblksize c) (kill_dup_partial_files c)
    (kill_old_partial_files c) (kill_old_bsy c) (minfree c) (minfree_nonsecure c) (tries c) (hold c)
    (hold_skipped c) (send_if_pwd c) (remove_try_files c) (prescan c) (inboundcase c) (deletedirs c)
    (havedefnode c) (dontsendempty c) (renamestyle c) (pkthdr_type c) (pkthdr_bad c) (overwrite c)
    (skipmask c) (rf_rules c) (evt_flags c) (akamask c) (shares c) (root_domain c) (c_sysname c)
    (c_sysop c) (c_location c) (c_nodeinfo c) (c_inbound c) (inbound_nonsecure c) (temp_inbound c)
    (tfilebox c) (bfilebox c) (deleteablebox c) (oport c) (no_MD5 c) (no_crypt c) (tzoff c)
    (max_servers c) (max_clients c) (iport c) (nettimeout c) (connect_timeout c) (call_delay c)
    (no_call_delay c) (rescan_delay c) (backresolv c) (loglevel c) (conlog c) (printq c) (percents c)
    (config_list c) (nolog c) (listen_ c) (bindaddr c) (logpath c) (binlogpath c) (fdinhist c)
    (fdouthist c) (pid_file c) (c_passwords c) (usageCount c) (q_present c).

(** ** The process: the system, the node table and the busy list *)
Record BSY_ADDR := mkBSY_ADDR { b_fa : FTN_ADDR; b_bt : char }.
#[export] Instance BSY_ADDR_eq_dec : EqDecision BSY_ADDR.
Proof. solve_decision. Defined.

Record WORLD := mkWORLD {
  sys : SYS;
  pNodArray : list FTN_NODE;
  nNodSorted : bool;
  bsy_list : list BSY_ADDR;
  last_touch : Z
}.
#[export] Instance eta_WORLD : Eta WORLD := fun w =>
  mkWORLD (sys w) (pNodArray w) (nNodSorted w) (bsy_list w) (last_touch w).

(** A call on the system inside the process. *)
Definition on_sys {A} (w : WORLD) (r : A * SYS) : A * WORLD := (r.1, w <| sys := r.2 |>).

(** ** protoco2.h: the state of a session *)
Inductive t_state := P_NULL | P_NONSECURE | P_SECURE.
#[export] Instance t_state_eq_dec : EqDecision t_state.
Proof. solve_decision. Defined.
Inductive t_state_ext := P_NA | P_WE_NONSECURE | P_REMOTE_NONSECURE.

Definition M_NUL := 0.
Definition M_ADR := 1.
Definition M_PWD := 2.
Definition M_FILE := 3.
Definition M_OK := 4.
Definition M_EOB := 5.
Definition M_GOT := 6.
Definition M_ERR := 7.
Definition M_BSY := 8.
Definition M_GET := 9.
Definition M_SKIP := 10.
Definition M_MAX := 10.

(** [NR_flag], [ND_flag] and [crypt_flag] are sets of these bits. *)
Definition NO_NR := 0.
Definition WANT_NR := 1.
Definition WE_NR := 2.
Definition THEY_NR := 4.
Definition NO_ND := 0.
Definition WE_ND := 1.
Definition THEY_ND := 2.
Definition CAN_NDA := 4.
Definition NO_CRYPT := 0.
Definition WE_CRYPT := 1.
Definition THEY_CRYPT := 2.
Definition YES_CRYPT := 4.
Definition has (flags bit : Z) : bool := negb (Z.land flags bit =? 0).

(** A queued message: its frame, encrypted if need be; sent ones are [None]. *)
Record BMSG := mkBMSG { m_t : Z; m_sz : Z; m_s : option (list Z) }.
#[export] Instance eta_BMSG : Eta BMSG := fun m => mkBMSG (m_t m) (m_sz m) (m_s m).

Record STATE := mkSTATE {
  to : option FTN_NODE;              (* the node called, on an outgoing session *)
  expected_pwd : cstr;
  obuf : list Z;                     (* what is left to send of the output buffer *)
  ibuf : list Z;                     (* the bytes read of the current block *)
  isize : Z;                         (* -1: expecting a block header *)
  imsg : bool;
  msgs : list BMSG;
  in_ : TFILE;
  out : TFILE;
  flo : TFILE;
  sent_fls : list TFILE;
  q : list FTNQ;                     (* empty is NULL *)
  fa : list FTN_ADDR;                (* all AKAs; the first [nfa] are locked by us *)
  nfa : nat;
  remote_fa : option FTN_ADDR;
  st_pAddr : option (list FTN_ADDR);
  maxflvr : char;
  skip_all_flag : bool;
  r_skipped_flag : bool;
  listed_flag : Z;
  inbound : cstr;
  peer_name : cstr;
  ipaddr : cstr;
  io_error : bool;
  msgs_in_batch : Z;
  minor : Z;
  major : Z;
  killlist : list KILLLIST;
  rcvdlist : list cstr;
  nosendlist : list cstr;
  files_sent : Z;
  files_rcvd : Z;
  bytes_sent : Z;
  bytes_rcvd : Z;
  sysname : cstr;
  sysop : cstr;
  location : cstr;
  local_EOB : bool;
  remote_EOB : bool;
  GET_FILE_balance : Z;
  off_req_sent : bool;
  state : t_state;
  state_ext : t_state_ext;
  NR_flag : Z;
  ND_flag : Z;
  MD_flag : Z;
  MD_challenge : option (list Z);
  waiting_for_GOT : bool;
  send_eof : bool;
  in_complete : TFILE;
  ND_addr : FTN_ADDR;
  crypt_flag : Z;
  keys_out : KEYS;
  keys_in : KEYS;
  evt_queue : list EVTQ;
  delay_ADR : bool;
  delay_EOB : Z;
  extcmd : bool;
  buggy_NR : bool
}.
#[export] Instance eta_STATE : Eta STATE := fun s =>
  mkSTATE (to s) (expected_pwd s) (obuf s) (ibuf s) (isize s) (imsg s) (msgs s) (in_ s)
    (out s) (flo s) (sent_fls s) (q s) (fa s) (nfa s) (remote_fa s) (st_pAddr s)
    (maxflvr s) (skip_all_flag s) (r_skipped_flag s) (listed_flag s) (inbound s)
    (peer_name s) (ipaddr s) (io_error s) (msgs_in_batch s) (minor s) (major s)
    (killlist s) (rcvdlist s) (nosendlist s) (files_sent s) (files_rcvd s)
    (bytes_sent s) (bytes_rcvd s) (sysname s) (sysop s) (location s) (local_EOB s)
    (remote_EOB s) (GET_FILE_balance s) (off_req_sent s) (state s) (state_ext s)
    (NR_flag s) (ND_flag s) (MD_flag s) (MD_challenge s) (waiting_for_GOT s)
    (send_eof s) (in_complete s) (ND_addr s) (crypt_flag s) (keys_out s) (keys_in s)
    (evt_queue s) (delay_ADR s) (delay_EOB s) (extcmd s) (buggy_NR s).

(** ** A small configuration, for the concrete instances of the theorems *)
Definition example_domain : FTN_DOMAIN :=
  mkFTN_DOMAIN (str "fidonet") (str "/s") (str "outb") 2 None None.
Definition example_addr (node : Z) : FTN_ADDR := mkFTN_ADDR (str "fidonet") 2 5047 node 0.
Definition example_config : BINKD_CONFIG :=
  mkBINKD_CONFIG [example_addr 1] [example_domain] 4096 false 0 0 (-1) (-1) 0 3600 0 false false false
    INB_SAVE false false EMPTY_NO RENAME_POSTFIX 0 None [] [] [] [] [] []
    (str "binkp.net") (str "Example") (str "Sysop") (str "Here") (str "Info")
    (str "/in") (str "/ins") [] [] [] false (str "24554") false false (-1) 100
    100 (str "24554") 300 0 60 false 60 false 4 1 false false [] [] [mklistenchain [] (str "24554")] [] [] [] [] [] [] [] 1 false.
Definition example_sys : SYS :=
  mkSYS ∅ {[str "/s"; str "/s/outb"; str "/in"; str "/ins"]} 1000 (fun _ => false) (fun n => Z.of_nat n) 0 77.
Definition example_node (fa : FTN_ADDR) (pwd : cstr) : FTN_NODE :=
  mkFTN_NODE 1 (Some (str "*")) fa pwd None (Some pwd) (chr "f") None None None
    0 0 0 0 0 0 0 0 0 0 0 0 0.
Definition example_world : WORLD :=
  mkWORLD example_sys [example_node (example_addr 13) (str "secret")] true [] 0.
(** An answering session at its start. *)
Definition example_state : STATE :=
  {| to := None; expected_pwd := str "-"; obuf := []; ibuf := []; isize := -1; imsg := false; msgs := [];
     in_ := TF_ZERO; out := TF_ZERO; flo := TF_ZERO; sent_fls := []; q := []; fa := []; nfa := 0;
     remote_fa := None; st_pAddr := None; maxflvr := chr "h"; skip_all_flag := false; r_skipped_flag := false;
     listed_flag := 0; inbound := str "/in"; peer_name := str "peer"; ipaddr := str "10.0.0.1"; io_error := false;
     msgs_in_batch := 0; minor := 0; major := 1; killlist := []; rcvdlist := []; nosendlist := [];
     files_sent := 0; files_rcvd := 0; bytes_sent := 0; bytes_rcvd := 0; sysname := []; sysop := []; location := [];
     local_EOB := false; remote_EOB := false; GET_FILE_balance := 0; off_req_sent := false; state := P_NULL;
     state_ext := P_NA; NR_flag := NO_NR; ND_flag := NO_ND; MD_flag := 0; MD_challenge := None;
     waiting_for_GOT := false; send_eof := false; in_complete := TF_ZERO; ND_addr := mkFTN_ADDR [] (-1) 0 0 0;
     crypt_flag := NO_CRYPT; keys_out := init_keys 64 (str "secret"); keys_in := init_keys 64 (str "secret");
     evt_queue := []; delay_ADR := false; delay_EOB := 0; extcmd := false; buggy_NR := false |}.
