(* ===== verification/Bsy.v ===== *)
(** * bsy.c: busy files

    A node is locked by creating [<outbound name>.bsy] (or .csy) exclusively;
    the process remembers its own locks in [bsy_list], whose cells are reused
    when the address in them has been cleared. *)
From S2P Require Import Prelude CStr Tools FtnAddr Sys Types.

Definition F_BSY : char := chr "b".
Definition F_CSY : char := chr "c".
Definition BSY_TOUCH_DELAY : Z := 60.

(** Size of the buffer a file name is built in. *)
Definition path_size : nat := MAXPATHLEN + 1.
Definition bsy_ext (bt : char) : cstr := if bt =? F_CSY then str ".csy" else str ".bsy".

(** The lock file of an address; empty if its domain is unknown. *)
Definition bsy_name (fa0 : FTN_ADDR) (bt : char) (config : BINKD_CONFIG) : mem cstr :=
  let* buf := ftnaddress_to_filename_ fa0 (pDomains config) in
  Ok (match buf with [] => [] | _ => strnzcat buf (bsy_ext bt) path_size end).

(** [bsy_get_free_cell] and the assignments to the cell. *)
Fixpoint bsy_put (lst : list BSY_ADDR) (new : BSY_ADDR) : option (list BSY_ADDR) :=
  match lst with
  | [] => None
  | c :: t => if FA_ISNULL (b_fa c) then Some (new :: t) else cons c <$> bsy_put t new
  end.
Definition bsy_store (lst : list BSY_ADDR) (new : BSY_ADDR) : list BSY_ADDR :=
  match bsy_put lst new with Some l => l | None => new :: lst end.

Definition bsy_add (w : WORLD) (fa0 : FTN_ADDR) (bt : char) (config : BINKD_CONFIG) : mem (bool * WORLD) :=
  let* buf := bsy_name fa0 bt config in
  match buf with
  | [] => Ok (false, w)
  | _ =>
      let w := (on_sys w (mkpath (sys w) buf)).2 in
      let (ok, w) := on_sys w (create_sem_file (sys w) buf) in
      if ok then Ok (true, w <| bsy_list := bsy_store (bsy_list w) (mkBSY_ADDR fa0 bt) |>)
      else Ok (false, w)
  end.

(** True is free. *)
Definition bsy_test (w : WORLD) (fa0 : FTN_ADDR) (bt : char) (config : BINKD_CONFIG) : mem (bool * WORLD) :=
  let* buf := bsy_name fa0 bt config in
  match buf with
  | [] => Ok (false, w)
  | _ =>
      let w := (on_sys w (mkpath (sys w) buf)).2 in
      Ok (negb (exists_ (sys w) buf), w)
  end.

(** Cutting a path at its last slash and removing the directory left. *)
Definition rmdir_parent (s : SYS) (buf : cstr) : cstr * SYS :=
  match last_slash buf with
  | Some i => (take i buf, (rmdir s (take i buf)).2)
  | None => (buf, s)
  end.

Definition bsy_unlock (s : SYS) (buf : cstr) (fa0 : FTN_ADDR) (config : BINKD_CONFIG) : SYS :=
  let s := (delete_ s buf).2 in
  if deletedirs config then
    let '(buf, s) := if fa_p fa0 =? 0 then (buf, s) else rmdir_parent s buf in
    match get_domain_info (fa_domain fa0) (pDomains config) with
    | Some d => if fa_z fa0 =? d_z d then s else (rmdir_parent s buf).2
    | None => s
    end
  else s.

(** The first of our cells with this address and type is cleared. *)
Fixpoint bsy_clear (lst : list BSY_ADDR) (fa0 : FTN_ADDR) (bt : char) : option (list BSY_ADDR) :=
  match lst with
  | [] => None
  | c :: t =>
      if (ftnaddress_cmp (b_fa c) fa0 =? 0) && (b_bt c =? bt)
      then Some (mkBSY_ADDR FA_ZERO (b_bt c) :: t) else cons c <$> bsy_clear t fa0 bt
  end.

Definition bsy_remove (w : WORLD) (fa0 : FTN_ADDR) (bt : char) (config : BINKD_CONFIG) : mem WORLD :=
  let* buf := bsy_name fa0 bt config in
  match buf, bsy_clear (bsy_list w) fa0 bt with
  | [], _ | _, None => Ok w
  | _, Some l => Ok (w <| sys ::= fun s => bsy_unlock s buf fa0 config |> <| bsy_list := l |>)
  end.

(** At exit: only the point directory is removed here. *)
Fixpoint bsy_remove_cells (s : SYS) (lst : list BSY_ADDR) (config : BINKD_CONFIG) : mem (SYS * list BSY_ADDR) :=
  match lst with
  | [] => Ok (s, [])
  | c :: t =>
      let* r :=
        if FA_ISNULL (b_fa c) then Ok (s, c) else
        let* buf := bsy_name (b_fa c) (b_bt c) config in
        match buf with
        | [] => Ok (s, c)
        | _ =>
            let s := (delete_ s buf).2 in
            let s := if deletedirs config && negb (fa_p (b_fa c) =? 0) then (rmdir_parent s buf).2 else s in
            Ok (s, mkBSY_ADDR FA_ZERO (b_bt c))
        end in
      let* r' := bsy_remove_cells r.1 t config in
      Ok (r'.1, r.2 :: r'.2)
  end.
Definition bsy_remove_all (w : WORLD) (config : BINKD_CONFIG) : mem WORLD :=
  let* r := bsy_remove_cells (sys w) (bsy_list w) config in
  Ok (w <| sys := r.1 |> <| bsy_list := r.2 |>).

Fixpoint bsy_touch_cells (s : SYS) (lst : list BSY_ADDR) (config : BINKD_CONFIG) : mem SYS :=
  match lst with
  | [] => Ok s
  | c :: t =>
      let* buf := bsy_name (b_fa c) (b_bt c) config in
      bsy_touch_cells (match buf with [] => s | _ => (touch s buf (clock s)).2 end) t config
  end.
Definition bsy_touch (w : WORLD) (config : BINKD_CONFIG) : mem WORLD :=
  if BSY_TOUCH_DELAY <? clock (sys w) - last_touch w then
    let* s := bsy_touch_cells (sys w) (bsy_list w) config in
    Ok (w <| sys := s |> <| last_touch := clock (sys w) |>)
  else Ok w.

(** ** Lemmas: what the system calls keep *)
Lemma is_file_put s p d x : is_file (put_file s p d) x = bool_decide (p = x) || is_file s x.
Proof.
  unfold is_file, put_file. simpl. destruct (decide (p = x)) as [-> | Hne].
  - rewrite lookup_insert_eq, (bool_decide_eq_true_2 (x = x)) by done.
    by rewrite bool_decide_eq_true_2 by eauto.
  - by rewrite lookup_insert_ne, (bool_decide_eq_false_2 (p = x)).
Qed.

Lemma MKDIR_files s p x : is_file (MKDIR s p).2 x = is_file s x.
Proof. unfold MKDIR. by case_if. Qed.

Lemma mkpath0_files fuel : forall s p x, is_file (mkpath0 fuel s p).2 x = is_file s x.
Proof.
  induction fuel as [|f IH]; intros s p x; [done|]. cbn [mkpath0].
  case_if; [done|]. case_if; [done|].
  destruct (last_slash p) as [i|]; [|by repeat case_if; rewrite ?MKDIR_files].
  destruct (take i p) as [|c t] eqn:Et; [by repeat case_if; rewrite ?MKDIR_files|].
  specialize (IH s (c :: t) x). destruct (mkpath0 f s (c :: t)) as [r s']. simpl in IH.
  repeat case_if; rewrite ?MKDIR_files; done.
Qed.

Lemma mkpath_files s p x : is_file (mkpath s p).2 x = is_file s x.
Proof. unfold mkpath. destruct (last_slash _); [apply mkpath0_files|done]. Qed.

Lemma rmdir_files s p x : is_file (rmdir s p).2 x = is_file s x.
Proof. unfold rmdir. by case_if. Qed.

Lemma rmdir_parent_files s b x : is_file (rmdir_parent s b).2 x = is_file s x.
Proof. unfold rmdir_parent. destruct (last_slash b); [apply rmdir_files|done]. Qed.

Lemma unlink_files s p x : x <> p -> is_file (unlink s p).2 x = is_file s x.
Proof.
  intros Hne. unfold unlink. case_if; [|done]. unfold is_file. simpl.
  by rewrite lookup_delete_ne.
Qed.

Lemma bsy_unlock_files s buf fa0 config x : x <> buf -> is_file (bsy_unlock s buf fa0 config) x = is_file s x.
Proof.
  intros Hne. unfold bsy_unlock, delete_. case_if; [|by apply unlink_files].
  destruct (fa_p fa0 =? 0).
  - destruct (get_domain_info _ _); [case_if|]; rewrite ?rmdir_parent_files; by apply unlink_files.
  - pose proof (rmdir_parent_files (unlink s buf).2 buf x) as Hp.
    destruct (rmdir_parent (unlink s buf).2 buf) as [b s']. simpl in Hp.
    destruct (get_domain_info _ _); [case_if|]; rewrite ?rmdir_parent_files, Hp; by apply unlink_files.
Qed.

(** Equal addresses have the same lock. *)
Lemma get_domain_info_case d1 d2 doms :
  cstring d1 -> cstring d2 -> Forall (fun d => cstring (d_name d)) doms ->
  strlower d1 = strlower d2 -> get_domain_info d1 doms = get_domain_info d2 doms.
Proof.
  intros H1 H2 Hd E. induction Hd as [|d doms Hd _ IH]; [done|]. simpl.
  destruct (Z.eqb_spec (o_stricmp (d_name d) d1) 0) as [E1|E1], (Z.eqb_spec (o_stricmp (d_name d) d2) 0) as [E2|E2];
    rewrite ?o_stricmp_eq in E1, E2 by done; congruence.
Qed.

Section Exclusion.
Variable config : BINKD_CONFIG.
Hypothesis Hdomains : Forall (fun d => cstring (d_name d)) (pDomains config).

Lemma bsy_name_same a b bt : fa_wf a -> fa_wf b -> fa_same a b -> bsy_name a bt config = bsy_name b bt config.
Proof.
  intros [Ha _] [Hb _] (Hd & Hz & Hnet & Hnode & Hp). unfold bsy_name, ftnaddress_to_filename_.
  rewrite (get_domain_info_case _ (fa_domain b)) by done. by rewrite Hz, Hnet, Hnode, Hp.
Qed.

(** The lock a cell stands for; a cleared cell stands for none. *)
Definition cell_lock (c : BSY_ADDR) : option cstr :=
  if FA_ISNULL (b_fa c) then None
  else match bsy_name (b_fa c) (b_bt c) config with Ok (x :: n) => Some (x :: n) | _ => None end.
Definition locks (l : list BSY_ADDR) : list cstr := omap cell_lock l.

Lemma locks_cons c l : locks (c :: l) = match cell_lock c with Some n => n :: locks l | None => locks l end.
Proof. done. Qed.

Lemma cell_lock_null bt : cell_lock (mkBSY_ADDR FA_ZERO bt) = None.
Proof. done. Qed.

Lemma bsy_store_locks l new n : cell_lock new = Some n -> locks (bsy_store l new) ≡ₚ n :: locks l.
Proof.
  intros Hn. unfold bsy_store.
  assert (Hput : forall l', bsy_put l new = Some l' -> locks l' ≡ₚ n :: locks l).
  { induction l as [|c l IH]; intros l' E; [done|]. cbn [bsy_put] in E.
    destruct (FA_ISNULL (b_fa c)) eqn:Ec.
    - injection E as <-. rewrite !locks_cons, Hn. unfold cell_lock at 1. by rewrite Ec.
    - destruct (bsy_put l new) as [l''|]; [|done]. injection E as <-.
      rewrite !locks_cons. destruct (cell_lock c); [|by apply IH].
      rewrite (IH l'') by done. apply Permutation_swap. }
  destruct (bsy_put l new); [by apply Hput|]. by rewrite locks_cons, Hn.
Qed.

Definition cell_wf (c : BSY_ADDR) : Prop := fa_wf (b_fa c).

(** Clearing the cell of [fa0] gives its lock up and no other. *)
Lemma bsy_clear_locks l fa0 bt l' n :
  Forall cell_wf l -> fa_wf fa0 -> FA_ISNULL fa0 = false ->
  bsy_name fa0 bt config = Ok n -> n <> [] ->
  bsy_clear l fa0 bt = Some l' -> locks l ≡ₚ n :: locks l'.
Proof.
  intros Hl Hfa Hnull Hn Hne. revert l'. induction Hl as [|c l Hc Hl IH]; intros l' E; [done|].
  cbn [bsy_clear] in E. destruct (_ && _) eqn:Ec.
  - injection E as <-. bools. apply ftnaddress_cmp_same in H; [|done..].
    rewrite !locks_cons, cell_lock_null. unfold cell_lock.
    rewrite H0, (bsy_name_same _ fa0), Hn by done.
    replace (FA_ISNULL (b_fa c)) with false; [by destruct n|].
    destruct H as (Hd & Hz & Hnet & Hnode & Hp). rewrite <- Hnull. unfold FA_ISNULL.
    rewrite Hz, Hnet, Hnode, Hp. destruct (fa_domain fa0), (fa_domain (b_fa c)); done.
  - destruct (bsy_clear l fa0 bt) as [l''|]; [|done]. injection E as <-.
    rewrite !locks_cons. destruct (cell_lock c); [|by apply IH].
    rewrite (IH l'') by done. apply Permutation_swap.
Qed.
End Exclusion.

(** ** Several processes on one outbound

    Each process has its own busy list; the files are shared.  Whatever else
    the processes do leaves the lock files of the others alone. *)
Section Processes.
Variable config : BINKD_CONFIG.
Hypothesis Hdomains : Forall (fun d => cstring (d_name d)) (pDomains config).

Definition as_world (s : SYS) (l : list BSY_ADDR) : WORLD := mkWORLD s [] true l 0.
Definition all_locks (procs : list (list BSY_ADDR)) : list cstr := concat (map (locks config) procs).

Inductive bsy_step : SYS * list (list BSY_ADDR) -> SYS * list (list BSY_ADDR) -> Prop :=
| step_add s procs i l fa0 bt r w :
    procs !! i = Some l -> fa_wf fa0 -> FA_ISNULL fa0 = false ->
    bsy_add (as_world s l) fa0 bt config = Ok (r, w) ->
    bsy_step (s, procs) (sys w, <[i := bsy_list w]> procs)
| step_remove s procs i l fa0 bt w :
    procs !! i = Some l -> fa_wf fa0 -> FA_ISNULL fa0 = false ->
    bsy_remove (as_world s l) fa0 bt config = Ok w ->
    bsy_step (s, procs) (sys w, <[i := bsy_list w]> procs)
| step_other s procs s' :
    (forall n, n ∈ all_locks procs -> is_file s n = true -> is_file s' n = true) ->
    bsy_step (s, procs) (s', procs).

(** A cell is clear or stands for a lock. *)
Definition cell_ok (c : BSY_ADDR) : Prop :=
  fa_wf (b_fa c) /\ (FA_ISNULL (b_fa c) = true \/ is_Some (cell_lock config c)).

Record bsy_inv (st : SYS * list (list BSY_ADDR)) : Prop := {
  inv_nodup : NoDup (all_locks st.2);
  inv_files : forall n, n ∈ all_locks st.2 -> is_file st.1 n = true;
  inv_cells : Forall (Forall cell_ok) st.2
}.

Lemma all_locks_at procs i l : procs !! i = Some l ->
  exists rest, all_locks procs ≡ₚ locks config l ++ rest /\
    forall l', all_locks (<[i := l']> procs) ≡ₚ locks config l' ++ rest.
Proof.
  intros Hi. apply list_elem_of_split_length in Hi as (a & b & -> & ->).
  exists (all_locks a ++ all_locks b). unfold all_locks. split.
  - rewrite map_app, concat_app. simpl. solve_Permutation.
  - intros l'. rewrite insert_app_r_alt, Nat.sub_diag by lia. simpl.
    rewrite map_app, concat_app. simpl. solve_Permutation.
Qed.

Lemma bsy_name_ext fa0 bt buf : bsy_name fa0 bt config = Ok buf -> buf <> [] ->
  cell_lock config (mkBSY_ADDR fa0 bt) = if FA_ISNULL fa0 then None else Some buf.
Proof. intros E Hb. unfold cell_lock. simpl. rewrite E. by destruct buf. Qed.

Lemma bsy_put_cells P l new l' : Forall P l -> P new -> bsy_put l new = Some l' -> Forall P l'.
Proof.
  intros Hl Hn. revert l'. induction Hl as [|c l Hc Hl IH]; intros l' E; [done|]. cbn [bsy_put] in E.
  destruct (FA_ISNULL (b_fa c)); [injection E as <-; by constructor|].
  destruct (bsy_put l new); [|done]. injection E as <-. constructor; [done|]. by apply IH.
Qed.

Lemma bsy_store_cells P l new : Forall P l -> P new -> Forall P (bsy_store l new).
Proof.
  intros Hl Hn. unfold bsy_store. destruct (bsy_put l new) eqn:E; [by eapply bsy_put_cells|by constructor].
Qed.

Lemma FA_ZERO_wf : fa_wf FA_ZERO.
Proof. unfold fa_wf, INT_MAX. simpl. split; [constructor|lia]. Qed.

Lemma bsy_clear_cells l fa0 bt l' : Forall cell_ok l -> bsy_clear l fa0 bt = Some l' -> Forall cell_ok l'.
Proof.
  intros Hl. revert l'. induction Hl as [|c l Hc Hl IH]; intros l' E; [done|]. cbn [bsy_clear] in E.
  destruct (_ && _); [injection E as <-; constructor; [|done]; split; [apply FA_ZERO_wf|by left]|].
  destruct (bsy_clear l fa0 bt); [|done]. injection E as <-. constructor; [done|]. by apply IH.
Qed.

Lemma bsy_add_cases s l fa0 bt r w :
  bsy_add (as_world s l) fa0 bt config = Ok (r, w) ->
  (r = false /\ bsy_list w = l /\ forall x, is_file (sys w) x = is_file s x) \/
  (r = true /\ exists n, bsy_name fa0 bt config = Ok n /\ n <> [] /\ is_file s n = false /\
     bsy_list w = bsy_store l (mkBSY_ADDR fa0 bt) /\
     forall x, is_file (sys w) x = bool_decide (n = x) || is_file s x).
Proof.
  intros E. unfold bsy_add in E. apply mem_bind_ok in E as (buf & Hn & E).
  destruct buf as [|c buf]; [injection E as <- <-; by left|].
  revert E. unfold on_sys, create_sem_file. cbn [fst snd sys as_world set_field].
  set (s1 := (mkpath s (c :: buf)).2). intros E.
  assert (Hf : forall x, is_file s1 x = is_file s x) by (intros; apply mkpath_files).
  destruct (may_create s1 (c :: buf)) eqn:Em; cbn [fst snd] in E; injection E as <- <-.
  - right. split; [done|]. exists (c :: buf). split_and!; [done|done| |done|].
    + unfold may_create, exists_ in Em. bools. by rewrite <- Hf.
    + intros x. simpl. by rewrite is_file_put, Hf.
  - left. repeat split. intros x. simpl. apply Hf.
Qed.

Lemma bsy_remove_cases s l fa0 bt w :
  bsy_remove (as_world s l) fa0 bt config = Ok w ->
  (bsy_list w = l /\ sys w = s) \/
  (exists n, bsy_name fa0 bt config = Ok n /\ n <> [] /\ bsy_clear l fa0 bt = Some (bsy_list w) /\
     forall x, x <> n -> is_file (sys w) x = is_file s x).
Proof.
  intros E. unfold bsy_remove in E. apply mem_bind_ok in E as (buf & Hn & E).
  cbn [as_world bsy_list] in E. destruct buf as [|c buf]; [injection E as <-; by left|].
  destruct (bsy_clear l fa0 bt) as [l'|] eqn:Ec; injection E as <-; [|by left].
  right. exists (c :: buf). split_and!; [done|done|done|]. intros x Hx. simpl. by apply bsy_unlock_files.
Qed.

Lemma bsy_step_inv st st' : bsy_inv st -> bsy_step st st' -> bsy_inv st'.
Proof.
  intros [Hnd Hf Hc] Hs. destruct Hs as [s procs i l fa0 bt r w Hi Hwf Hnull E
    | s procs i l fa0 bt w Hi Hwf Hnull E | s procs s' Hs]; cbn [fst snd] in *.
  - destruct (all_locks_at _ _ _ Hi) as (rest & Hall & Hupd). rewrite Hall in Hnd.
    pose proof (Forall_lookup_1 _ _ _ _ Hc Hi) as Hl.
    apply bsy_add_cases in E as [(_ & -> & Hfs) | (_ & n & Hn & Hne & Hfree & -> & Hfs)].
    + rewrite list_insert_id by done. constructor; [by rewrite Hall| |done].
      intros x Hx. rewrite Hfs. by apply Hf.
    + assert (Hlock : cell_lock config (mkBSY_ADDR fa0 bt) = Some n)
        by (rewrite (bsy_name_ext _ _ n) by done; by rewrite Hnull).
      assert (Hperm : all_locks (<[i:=bsy_store l (mkBSY_ADDR fa0 bt)]> procs) ≡ₚ n :: locks config l ++ rest)
        by (by rewrite Hupd, (bsy_store_locks config l _ n)).
      assert (Hnew : n ∉ locks config l ++ rest).
      { intros Hin. rewrite <- Hall in Hin. apply Hf in Hin. congruence. }
      constructor; cbn [fst snd].
      * rewrite Hperm. by constructor.
      * intros x Hx. rewrite Hperm in Hx. apply elem_of_cons in Hx as [-> | Hx]; rewrite Hfs.
        -- by rewrite bool_decide_eq_true_2.
        -- rewrite <- Hall in Hx. rewrite (Hf x Hx). apply orb_true_r.
      * apply Forall_insert; [done|]. apply bsy_store_cells; [done|]. split; [done|]. right. by rewrite Hlock.
  - destruct (all_locks_at _ _ _ Hi) as (rest & Hall & Hupd).
    pose proof (Forall_lookup_1 _ _ _ _ Hc Hi) as Hl.
    apply bsy_remove_cases in E as [(-> & ->) | (n & Hn & Hne & Hclear & Hfs)].
    + rewrite list_insert_id by done. by constructor.
    + assert (Hperm : locks config l ≡ₚ n :: locks config (bsy_list w)).
      { eapply bsy_clear_locks; [done| |done..]. eapply Forall_impl; [done|]. by intros ? []. }
      rewrite Hall, Hperm in Hnd. apply NoDup_cons in Hnd as [Hnin Hnd].
      constructor; cbn [fst snd].
      * by rewrite Hupd.
      * intros x Hx. rewrite Hupd in Hx. rewrite Hfs by (intros ->; done).
        apply Hf. rewrite Hall, Hperm. by apply elem_of_cons; right.
      * apply Forall_insert; [done|]. by eapply bsy_clear_cells.
  - constructor; cbn [fst snd]; [done| |done]. intros n Hin. apply Hs; [done|]. by apply Hf.
Qed.

Lemma bsy_reachable_inv s k st :
  rtc bsy_step (s, replicate k []) st -> bsy_inv st.
Proof.
  intros H. remember (s, replicate k []) as st0 eqn:E0.
  assert (Hi : bsy_inv st0).
  { assert (Hnone : all_locks (replicate k []) = []) by (clear; by induction k).
    subst. constructor; cbn [fst snd].
    - rewrite Hnone. apply NoDup_nil_2.
    - intros n. rewrite Hnone. by intros ?%not_elem_of_nil.
    - by apply Forall_replicate. }
  clear E0. induction H as [|a b c Hab _ IH]; [done|]. apply IH. by eapply bsy_step_inv.
Qed.

(** C15: Mutual exclusion: of the processes that share an outbound, at most one
    holds the lock of a node, in every state reachable by locking, unlocking
    and anything else that leaves lock files alone; and every lock held is
    backed by its file, so that a further [bsy_add] of that node fails. *)
Theorem bsy_mutual_exclusion s k st i j l1 l2 c1 c2 :
  rtc bsy_step (s, replicate k []) st ->
  st.2 !! i = Some l1 -> st.2 !! j = Some l2 -> i <> j -> c1 ∈ l1 -> c2 ∈ l2 ->
  FA_ISNULL (b_fa c1) = false ->
  ~ (fa_same (b_fa c1) (b_fa c2) /\ b_bt c1 = b_bt c2) /\
  exists n, bsy_name (b_fa c1) (b_bt c1) config = Ok n /\ is_file st.1 n = true.
Proof.
  intros Hr Hi Hj Hne Hc1 Hc2 Hnull. destruct (bsy_reachable_inv _ _ _ Hr) as [Hnd Hf Hcells].
  assert (Hok : forall m l c, st.2 !! m = Some l -> c ∈ l -> cell_ok c).
  { intros m l c Hm Hc. pose proof (Forall_lookup_1 _ _ _ _ Hcells Hm) as Hl.
    rewrite Forall_forall in Hl. by apply Hl. }
  destruct (Hok _ _ _ Hi Hc1) as [Hwf1 [?|[n Hn]]]; [congruence|].
  assert (Hin : forall m l c x, st.2 !! m = Some l -> c ∈ l -> cell_lock config c = Some x -> x ∈ locks config l).
  { intros m l c x _ Hc Hx. apply list_elem_of_omap. eauto. }
  pose proof Hn as Hname. unfold cell_lock in Hname. rewrite Hnull in Hname.
  destruct (bsy_name (b_fa c1) (b_bt c1) config) as [[|x b]| |] eqn:En; try done. injection Hname as <-.
  split.
  - intros [Hsame Hbt]. destruct (Hok _ _ _ Hj Hc2) as [Hwf2 _].
    assert (Hn2 : cell_lock config c2 = Some (x :: b)).
    { unfold cell_lock. rewrite <- Hbt, <- (bsy_name_same config Hdomains (b_fa c1)), En by done.
      replace (FA_ISNULL (b_fa c2)) with false; [done|]. rewrite <- Hnull.
      destruct Hsame as (Hd & Hz & Hnet & Hnode & Hp). unfold FA_ISNULL.
      rewrite Hz, Hnet, Hnode, Hp. destruct (fa_domain (b_fa c1)), (fa_domain (b_fa c2)); done. }
    destruct (all_locks_at _ _ _ Hi) as (rest & Hall & Hupd). rewrite Hall in Hnd.
    apply NoDup_app in Hnd as (_ & Hdisj & _). apply (Hdisj (x :: b)); [by eapply Hin|].
    assert (Hj' : <[i:=[]]> st.2 !! j = Some l2) by (by rewrite list_lookup_insert_ne).
    destruct (all_locks_at _ _ _ Hj') as (rest' & Hall' & _).
    specialize (Hupd []). simpl in Hupd. rewrite <- Hupd, Hall'. apply elem_of_app. left. by eapply Hin.
  - exists (x :: b). split; [done|]. apply Hf. destruct (all_locks_at _ _ _ Hi) as (rest & Hall & _).
    rewrite Hall. apply elem_of_app. left. by eapply Hin.
Qed.
End Processes.

(** Two processes lock two nodes. *)
Definition lock_by (i : nat) (a : FTN_ADDR) (st : SYS * list (list BSY_ADDR)) : SYS * list (list BSY_ADDR) :=
  let w := (from_ok (false, as_world st.1 []) (bsy_add (as_world st.1 (nth i st.2 [])) a F_BSY example_config)).2 in
  (sys w, <[i := bsy_list w]> st.2).
Definition bsy_demo : SYS * list (list BSY_ADDR) :=
  lock_by 1 (example_addr 14) (lock_by 0 (example_addr 13) (example_sys, replicate 2 [])).

Lemma bsy_mutual_exclusion_witness :
  bsy_demo.2 = [[mkBSY_ADDR (example_addr 13) F_BSY]; [mkBSY_ADDR (example_addr 14) F_BSY]] /\
  ~ (fa_same (example_addr 13) (example_addr 14) /\ F_BSY = F_BSY) /\
  exists n, bsy_name (example_addr 13) F_BSY example_config = Ok n /\ is_file bsy_demo.1 n = true.
Proof.
  split; [vm_compute; reflexivity|].
  apply (bsy_mutual_exclusion example_config ltac:(repeat constructor) example_sys 2 bsy_demo 0 1
    [mkBSY_ADDR (example_addr 13) F_BSY] [mkBSY_ADDR (example_addr 14) F_BSY]
    (mkBSY_ADDR (example_addr 13) F_BSY) (mkBSY_ADDR (example_addr 14) F_BSY)).
  - assert (Hwf : forall n, 0 <= n < 100 -> fa_wf (example_addr n)).
    { intros n Hn. unfold fa_wf, INT_MAX. simpl. split; [repeat constructor|lia]. }
    eapply rtc_l; [|eapply rtc_once].
    + apply (step_add example_config example_sys _ 0 [] (example_addr 13) F_BSY true
        (from_ok (false, as_world example_sys []) (bsy_add (as_world example_sys []) (example_addr 13) F_BSY example_config)).2);
        [reflexivity|apply Hwf; lia|reflexivity|]. vm_compute. reflexivity.
    + apply (step_add example_config (lock_by 0 (example_addr 13) (example_sys, replicate 2 [])).1 _ 1 [] (example_addr 14) F_BSY true
        (from_ok (false, as_world (lock_by 0 (example_addr 13) (example_sys, replicate 2 [])).1 [])
          (bsy_add (as_world (lock_by 0 (example_addr 13) (example_sys, replicate 2 [])).1 []) (example_addr 14) F_BSY example_config)).2);
        [reflexivity|apply Hwf; lia|reflexivity|]. vm_compute. reflexivity.
  - vm_compute. reflexivity.
  - vm_compute. reflexivity.
  - lia.
  - constructor.
  - constructor.
  - reflexivity.
Defined.
