(* ===== verification/FtnNode.v ===== *)
(** * ftnnode.c: the table of links

    [pNodArray] holds one entry per address; [qsort] orders it by
    [ftnaddress_cmp] before the binary search.  Entries come from the
    configuration, from the password file and, for unknown addresses, from the
    [defnode] entry.  The name resolver is not modelled: [get_defnode_info]
    probes the hosts of [defnode] and then uses the host list itself. *)
From Stdlib Require Import Sorted.
From S2P Require Import Prelude CStr Tools FtnAddr Sys Types.


(** [memset (pn, 0, ...)] and the defaults. *)
Definition new_node (fa0 : FTN_ADDR) : FTN_NODE :=
  mkFTN_NODE 0 None fa0 (str "-") None None (chr "f") None None None
    0 0 MD_USE_OLD 0 RIP_OFF 0 0 0 0 0 0 0 0.

(** The arguments of [add_node] after the address. *)
Record NODE_ARGS := mkNODE_ARGS {
  a_hosts : option cstr;
  a_pwd : option cstr;
  a_pkt_pwd : option cstr;
  a_out_pwd : option cstr;
  a_obox_flvr : char;
  a_obox : option cstr;
  a_ibox : option cstr;
  a_NR_flag : Z;
  a_ND_flag : Z;
  a_MD_flag : Z;
  a_restrictIP : Z;
  a_HC_flag : Z;
  a_NP_flag : Z;
  a_NC_flag : Z;
  a_pipe : option cstr;
  a_IP_afamily : Z
}.

Definition no_pwd (p : cstr) : bool := strcmp p (str "-") =? 0.
Definition no_pwd_opt (p : option cstr) : bool :=
  match p with None => true | Some p => no_pwd p end.

(** [NULL] follows the session password, "-" is no password. *)
Definition pwd_arg (a : option cstr) (pwd : cstr) : option cstr :=
  match a with
  | None => Some pwd
  | Some p => if no_pwd p then None else Some p
  end.

Definition set_passwords (pn : FTN_NODE) (a : NODE_ARGS) : FTN_NODE :=
  match a_pwd a with
  | Some pwd =>
      if negb (no_pwd pwd) && no_pwd (n_pwd pn) && no_pwd_opt (n_pkt_pwd pn) && no_pwd_opt (n_out_pwd pn)
      then
        let p := strnzcpy pwd (MAXPWDLEN + 1) in
        pn <| n_pwd := p |> <| n_pkt_pwd := pwd_arg (a_pkt_pwd a) p |> <| n_out_pwd := pwd_arg (a_out_pwd a) p |>
      else pn
  | None => pn
  end.

Definition use_old (old new : Z) (mark : Z) : Z := if new =? mark then old else new.
Definition keep_null (old new : option cstr) : option cstr :=
  match new with None => old | Some s => Some s end.

Definition edit_options (now : Z) (pn : FTN_NODE) (a : NODE_ARGS) : FTN_NODE :=
  pn <| n_recheck := now + RESOLVE_TTL |>
    <| n_MD_flag ::= fun o => use_old o (a_MD_flag a) MD_USE_OLD |>
    <| n_restrictIP ::= fun o => use_old o (a_restrictIP a) USE_OLD |>
    <| n_NR_flag ::= fun o => use_old o (a_NR_flag a) USE_OLD |>
    <| n_ND_flag ::= fun o => use_old o (a_ND_flag a) USE_OLD |>
    <| n_NP_flag ::= fun o => use_old o (a_NP_flag a) USE_OLD |>
    <| n_NC_flag ::= fun o => use_old o (a_NC_flag a) USE_OLD |>
    <| n_HC_flag ::= fun o => use_old o (a_HC_flag a) MD_USE_OLD |>
    <| n_IP_afamily ::= fun o => use_old o (a_IP_afamily a) USE_OLD |>
    <| n_pipe ::= fun o => keep_null o (a_pipe a) |>
    <| n_hosts ::= fun o => match a_hosts a with Some (c :: h) => Some (c :: h) | _ => o end |>.
Definition edit_boxes (pn : FTN_NODE) (a : NODE_ARGS) : FTN_NODE :=
  pn <| n_obox_flvr ::= fun o => if a_obox_flvr a =? chr "-" then o else a_obox_flvr a |>
     <| n_obox ::= fun o => keep_null o (a_obox a) |>
     <| n_ibox ::= fun o => keep_null o (a_ibox a) |>.
Definition edit_node (now : Z) (pn : FTN_NODE) (a : NODE_ARGS) : FTN_NODE :=
  edit_boxes (set_passwords (edit_options now pn a) a) a.

(** The first entry with this address is edited, or a new one appended. *)
Fixpoint find_node (l : list FTN_NODE) (fa0 : FTN_ADDR) : option nat :=
  match l with
  | [] => None
  | pn :: t => if ftnaddress_cmp (n_fa pn) fa0 =? 0 then Some 0%nat else S <$> find_node t fa0
  end.

Definition add_node_nolock (w : WORLD) (fa0 : FTN_ADDR) (a : NODE_ARGS) : WORLD :=
  let now := safe_time (sys w) in
  match find_node (pNodArray w) fa0 with
  | Some i => w <| pNodArray ::= alter (fun pn => edit_node now pn a) i |>
  | None => w <| pNodArray ::= fun l => l ++ [edit_node now (new_node fa0) a] |> <| nNodSorted := false |>
  end.

(** [qsort]: any sorting algorithm gives the same array when no two entries
    compare equal, which [table_ok] guarantees. *)
Fixpoint insert_node (n : FTN_NODE) (l : list FTN_NODE) : list FTN_NODE :=
  match l with
  | [] => [n]
  | x :: t => if ftnaddress_cmp (n_fa n) (n_fa x) <=? 0 then n :: l else x :: insert_node n t
  end.
Definition sort_nodes (w : WORLD) : WORLD :=
  w <| pNodArray ::= fold_right insert_node [] |> <| nNodSorted := true |>.

(** [bsearch]: the half-open interval [lo, hi) shrinks at each probe. *)
Fixpoint bsearch (fuel : nat) (l : list FTN_NODE) (key : FTN_ADDR) (lo hi : nat) : option nat :=
  match fuel with
  | O => None
  | S f =>
      if (hi <=? lo)%nat then None else
      let idx := ((lo + hi) / 2)%nat in
      match l !! idx with
      | None => None
      | Some pn =>
          let c := ftnaddress_cmp key (n_fa pn) in
          if c <? 0 then bsearch f l key lo idx
          else if 0 <? c then bsearch f l key (S idx) hi
          else Some idx
      end
  end.
Definition search_for_node (w : WORLD) (key : FTN_ADDR) : option nat :=
  bsearch (S (length (pNodArray w))) (pNodArray w) key 0 (length (pNodArray w)).

Definition defnode_addr : FTN_ADDR := mkFTN_ADDR (str "defnode") 0 0 0 0.

(** The arguments [get_defnode_info] passes on: no password. *)
Definition defnode_args (np : FTN_NODE) : NODE_ARGS :=
  mkNODE_ARGS (n_hosts np) None None None (n_obox_flvr np) (n_obox np) (n_ibox np) (n_NR_flag np)
    (n_ND_flag np) (n_MD_flag np) (n_restrictIP np) (n_HC_flag np) (n_NP_flag np) (n_NC_flag np)
    (n_pipe np) (n_IP_afamily np).

(** [xstrdup] of a null host list would crash; a listed [defnode] has hosts. *)
Definition copy_defnode (np on : FTN_NODE) : FTN_NODE :=
  on <| n_hosts := n_hosts np |> <| n_NR_flag := n_NR_flag np |> <| n_ND_flag := n_ND_flag np |>
     <| n_MD_flag := n_MD_flag np |> <| n_NP_flag := n_NP_flag np |> <| n_NC_flag := n_NC_flag np |>
     <| n_HC_flag := n_HC_flag np |> <| n_restrictIP := n_restrictIP np |> <| n_pipe := n_pipe np |>
     <| n_IP_afamily := n_IP_afamily np |>.

Definition get_defnode_info (w : WORLD) (fa0 : FTN_ADDR) (on : option nat) : option nat * WORLD :=
  match search_for_node w defnode_addr ≫= fun i => pNodArray w !! i with
  | None => (on, w)
  | Some np =>
      match on with
      | Some i => (Some i, w <| pNodArray ::= alter (copy_defnode np) i |>)
      | None =>
          let w := sort_nodes (add_node_nolock w fa0 (defnode_args np)) in
          (search_for_node w fa0, w)
      end
  end.

(** The position of the entry, and the table it is in. *)
Definition get_node_index (w : WORLD) (fa0 : FTN_ADDR) (config : BINKD_CONFIG) : option nat * WORLD :=
  let w := if nNodSorted w then w else sort_nodes w in
  let np := search_for_node w fa0 in
  let stale :=
    match np ≫= fun i => pNodArray w !! i with
    | None => true
    | Some n => negb (n_listed n =? NL_NODE) && (n_recheck n <? safe_time (sys w))
    end in
  let '(np, w) := if stale && havedefnode config then get_defnode_info w fa0 np else (np, w) in
  match np with
  | Some i =>
      (np, w <| pNodArray ::= alter (fun n => match n_hosts n with
                                               | None => n <| n_hosts := Some (str "-") |>
                                               | Some _ => n end) i |>)
  | None => (None, w)
  end.

Definition get_node_info (w : WORLD) (fa0 : FTN_ADDR) (config : BINKD_CONFIG) : option FTN_NODE * WORLD :=
  let '(np, w) := get_node_index w fa0 config in (np ≫= fun i => pNodArray w !! i, w).

(** A field of the entry [get_node_info] points at is assigned. *)
Definition edit_info (w : WORLD) (fa0 : FTN_ADDR) (config : BINKD_CONFIG) (f : FTN_NODE -> FTN_NODE) : WORLD :=
  let '(np, w) := get_node_index w fa0 config in
  match np with Some i => w <| pNodArray ::= alter f i |> | None => w end.

(** The same through a pointer to the entry of an address. *)
Definition update_node (w : WORLD) (fa0 : FTN_ADDR) (f : FTN_NODE -> FTN_NODE) : WORLD :=
  match find_node (pNodArray w) fa0 with
  | Some i => w <| pNodArray ::= alter f i |>
  | None => w
  end.

(** [foreach_node] walks a copy of the array of pointers: [func] gets the
    address of the entry and the state, and stops the walk by returning true. *)
Section Foreach.
Context {A : Type} (config : BINKD_CONFIG) (func : FTN_NODE -> A -> WORLD -> mem (bool * A * WORLD)).
(** The entry the copied pointer designates now. *)
Definition entry_now (w : WORLD) (n : FTN_NODE) : FTN_NODE :=
  default n (find_node (pNodArray w) (n_fa n) ≫= fun i => pNodArray w !! i).
Fixpoint foreach_loop (l : list FTN_NODE) (arg : A) (w : WORLD) : mem (bool * A * WORLD) :=
  match l with
  | [] => Ok (false, arg, w)
  | n :: t =>
      let n := entry_now w n in
      let '(n, w) := match n_hosts n with
                     | None => let '(r, w) := get_node_info w (n_fa n) config in (default n r, w)
                     | Some _ => (n, w)
                     end in
      let* r := func n arg w in
      let '(stop, arg, w) := r in
      if (stop : bool) then Ok (true, arg, w) else foreach_loop t arg w
  end.
Definition foreach_node (arg : A) (w : WORLD) : mem (bool * A * WORLD) :=
  let w := if nNodSorted w then w else sort_nodes w in
  foreach_loop (pNodArray w) arg w.
End Foreach.

(** ** The table as a map from addresses *)
Definition addr_key (a : FTN_ADDR) : cstr * Z * Z * Z * Z :=
  (strlower (fa_domain a), fa_z a, fa_net a, fa_node a, fa_p a).
Definition node_key (n : FTN_NODE) := addr_key (n_fa n).
Definition node_wf (n : FTN_NODE) : Prop := fa_wf (n_fa n).
Definition node_lt (x y : FTN_NODE) : Prop := ftnaddress_cmp (n_fa x) (n_fa y) < 0.

(** One entry per address, in order when the flag says so. *)
Record table_ok (w : WORLD) : Prop := {
  tb_wf : Forall node_wf (pNodArray w);
  tb_nodup : NoDup (node_key <$> pNodArray w);
  tb_sorted : nNodSorted w = true -> StronglySorted node_lt (pNodArray w)
}.

Lemma cmp_key a b : fa_wf a -> fa_wf b -> ftnaddress_cmp a b = 0 <-> addr_key a = addr_key b.
Proof.
  intros Ha Hb. rewrite ftnaddress_cmp_same by done. unfold fa_same, addr_key.
  split; [by intros (-> & -> & -> & -> & ->) | by intros [= -> -> -> -> ->]].
Qed.

Lemma cmp_antisym a b : fa_wf a -> fa_wf b -> ftnaddress_cmp a b = - ftnaddress_cmp b a.
Proof. apply ftnaddress_cmp_order. Qed.

Lemma cmp_lt_trans a b c : fa_wf a -> fa_wf b -> fa_wf c ->
  ftnaddress_cmp a b < 0 -> ftnaddress_cmp b c <= 0 -> ftnaddress_cmp a c < 0.
Proof.
  intros Ha Hb Hc H1 H2. destruct (proj2 ftnaddress_cmp_order a b c) as [H3 H4]; [done..|lia|done|].
  destruct (decide (ftnaddress_cmp a c = 0)); [|lia]. lia.
Qed.

Lemma insert_node_perm n l : insert_node n l ≡ₚ n :: l.
Proof.
  induction l as [|x l IH]; simpl; [done|]. case_if; [done|]. rewrite IH. apply Permutation_swap.
Qed.

Lemma sort_perm l : fold_right insert_node [] l ≡ₚ l.
Proof. induction l as [|x l IH]; simpl; [done|]. by rewrite insert_node_perm, IH. Qed.

Lemma insert_node_sorted n l :
  node_wf n -> Forall node_wf l -> Forall (fun x => node_key n <> node_key x) l ->
  StronglySorted node_lt l -> StronglySorted node_lt (insert_node n l).
Proof.
  intros Hn Hl Hne Hs. induction Hs as [|x l Hs IH Hx]; simpl; [repeat constructor|].
  apply Forall_cons in Hl as [Hwx Hl]. apply Forall_cons in Hne as [Hnx Hne].
  case_if; bools.
  - assert (ftnaddress_cmp (n_fa n) (n_fa x) <> 0) by (rewrite cmp_key by done; done).
    constructor; [by constructor|]. constructor; [unfold node_lt; lia|].
    rewrite Forall_forall in Hx, Hl |- *. intros y Hy. specialize (Hx y Hy). unfold node_lt in *.
    eapply (cmp_lt_trans _ (n_fa x)); [done..|by apply Hl|lia|lia].
  - constructor; [by apply IH|]. rewrite insert_node_perm. constructor; [|done].
    unfold node_lt. rewrite cmp_antisym by done. lia.
Qed.

Lemma sort_sorted l : Forall node_wf l -> NoDup (node_key <$> l) ->
  StronglySorted node_lt (fold_right insert_node [] l).
Proof.
  intros Hl Hnd. induction Hl as [|x l Hx Hl IH]; simpl; [constructor|].
  apply NoDup_cons in Hnd as [Hnin Hnd]. apply insert_node_sorted; [done|by rewrite sort_perm| |by apply IH].
  rewrite sort_perm. rewrite Forall_forall. intros y Hy E. apply Hnin. rewrite E. by apply list_elem_of_fmap_2.
Qed.

Lemma sort_nodes_ok w : table_ok w -> table_ok (sort_nodes w) /\ pNodArray (sort_nodes w) ≡ₚ pNodArray w.
Proof.
  intros [Hwf Hnd _]. unfold sort_nodes. simpl. split; [|apply sort_perm]. constructor; simpl.
  - by rewrite sort_perm.
  - by rewrite sort_perm.
  - intros _. by apply sort_sorted.
Qed.

(** ** The binary search *)
Lemma sorted_lookup l i j x y : StronglySorted node_lt l -> l !! i = Some x -> l !! j = Some y ->
  (i < j)%nat -> node_lt x y.
Proof.
  intros Hs. revert i j. induction Hs as [|z l Hs IH Hz]; intros i j Hi Hj Hij; [done|].
  destruct j as [|j]; [lia|]. simpl in Hj. destruct i as [|i]; simpl in Hi.
  - injection Hi as <-. rewrite Forall_forall in Hz. apply Hz. by eapply list_elem_of_lookup_2.
  - eapply IH; [done..|lia].
Qed.

Lemma bsearch_spec fuel l key lo hi :
  fa_wf key -> Forall node_wf l -> StronglySorted node_lt l -> (hi <= length l)%nat -> (hi - lo < fuel)%nat ->
  match bsearch fuel l key lo hi with
  | Some i => exists n, l !! i = Some n /\ node_key n = addr_key key
  | None => forall i n, l !! i = Some n -> (lo <= i < hi)%nat -> node_key n <> addr_key key
  end.
Proof.
  intros Hk Hl Hs. revert lo hi. induction fuel as [|f IH]; intros lo hi Hhi Hf; [lia|]. cbn [bsearch].
  destruct (Nat.leb_spec hi lo); [intros; lia|].
  assert (Hidx : (lo <= (lo + hi) / 2 < hi)%nat)
    by (split; [apply Nat.div_le_lower_bound; lia | apply Nat.Div0.div_lt_upper_bound; lia]).
  set (idx := ((lo + hi) / 2)%nat) in *. clearbody idx.
  destruct (lookup_lt_is_Some_2 l idx) as [pn Hpn]; [lia|]. rewrite Hpn.
  assert (Hwp : node_wf pn) by (by eapply Forall_lookup_1).
  destruct (ftnaddress_cmp key (n_fa pn) <? 0) eqn:E1; [|destruct (0 <? ftnaddress_cmp key (n_fa pn)) eqn:E2].
  - bools. specialize (IH lo idx ltac:(lia) ltac:(lia)). destruct (bsearch f l key lo idx); [done|].
    intros i n Hn Hi. destruct (decide (i < idx)%nat); [apply (IH i); [done|lia]|].
    assert (Hwn : node_wf n) by (by eapply Forall_lookup_1).
    intros E. apply (cmp_key (n_fa n) key) in E; [|done..]. rewrite cmp_antisym in E by done.
    destruct (decide (i = idx)) as [->|]; [simplify_eq; lia|].
    assert (Hlt : node_lt pn n) by (eapply sorted_lookup; [done..|lia]). unfold node_lt in Hlt.
    assert (ftnaddress_cmp key (n_fa n) < 0) by (eapply (cmp_lt_trans _ (n_fa pn)); [done..|lia]). lia.
  - bools. specialize (IH (S idx) hi ltac:(lia) ltac:(lia)). destruct (bsearch f l key (S idx) hi); [done|].
    intros i n Hn Hi. destruct (decide (idx < i)%nat); [apply (IH i); [done|lia]|].
    assert (Hwn : node_wf n) by (by eapply Forall_lookup_1).
    intros E. apply (cmp_key (n_fa n) key) in E; [|done..].
    rewrite cmp_antisym in E2 by done.
    destruct (decide (i = idx)) as [->|]; [simplify_eq; rewrite cmp_antisym in E by done; rewrite (cmp_antisym key) in E by done; lia|].
    assert (Hlt : node_lt n pn) by (eapply sorted_lookup; [done..|lia]). unfold node_lt in Hlt.
    assert (ftnaddress_cmp (n_fa n) key < 0) by (eapply (cmp_lt_trans _ (n_fa pn)); [done..|lia]). lia.
  - bools. exists pn. split; [done|]. symmetry. apply cmp_key; [done..|lia].
Qed.

Lemma search_spec w key : table_ok w -> nNodSorted w = true -> fa_wf key ->
  match search_for_node w key with
  | Some i => exists n, pNodArray w !! i = Some n /\ node_key n = addr_key key
  | None => Forall (fun n => node_key n <> addr_key key) (pNodArray w)
  end.
Proof.
  intros [Hwf Hnd Hs] Hf Hk. unfold search_for_node.
  pose proof (bsearch_spec (S (length (pNodArray w))) (pNodArray w) key 0 (length (pNodArray w)) Hk Hwf (Hs Hf)
    ltac:(lia) ltac:(lia)) as H.
  destruct (bsearch _ _ _ _ _); [done|]. apply Forall_lookup_2. intros i n Hn.
  apply (H i); [done|]. apply lookup_lt_Some in Hn. lia.
Qed.

(** ** Operations keep the table *)
Lemma table_ok_fas w l : table_ok w -> n_fa <$> l = n_fa <$> pNodArray w ->
  table_ok (w <| pNodArray := l |>).
Proof.
  intros [Hwf Hnd Hs] E. constructor; simpl.
  - change (Forall (fa_wf ∘ n_fa) l). rewrite <- Forall_fmap, E, Forall_fmap. done.
  - rewrite (list_fmap_compose n_fa addr_key) in Hnd. rewrite (list_fmap_compose n_fa addr_key). by rewrite E.
  - intros Hf. specialize (Hs Hf). clear -E Hs. revert l E. induction Hs as [|x t Hs IH Hx]; intros [|y l] E; try done; [constructor|].
    simpl in E. injection E as Ey E. constructor; [by apply IH|]. clear -Hx Ey E.
    revert l E. induction Hx as [|z t Hz _ IH]; intros [|u l] E; try done. simpl in E. injection E as Eu E.
    constructor; [unfold node_lt in *; congruence|by apply IH].
Qed.

Lemma alter_fas (f : FTN_NODE -> FTN_NODE) (i : nat) (l : list FTN_NODE) :
  (forall n, n_fa (f n) = n_fa n) -> n_fa <$> alter f i l = n_fa <$> l.
Proof.
  intros Hf. revert i. induction l as [|x l IH]; intros [|i]; simpl; [done|done| |].
  - by rewrite Hf.
  - f_equal. apply IH.
Qed.

Lemma edit_ok w f i : (forall n, n_fa (f n) = n_fa n) -> table_ok w -> table_ok (w <| pNodArray ::= alter f i |>).
Proof. intros Hf Hw. apply (table_ok_fas w); [done|]. by apply alter_fas. Qed.

Lemma set_passwords_fa pn a : n_fa (set_passwords pn a) = n_fa pn.
Proof. unfold set_passwords. destruct (a_pwd a); [|done]. by case_if. Qed.

Lemma edit_node_fa now pn a : n_fa (edit_node now pn a) = n_fa pn.
Proof.
  change (n_fa (set_passwords (edit_options now pn a) a) = n_fa (edit_options now pn a)). apply set_passwords_fa.
Qed.

Lemma find_node_spec l fa0 : fa_wf fa0 -> Forall node_wf l ->
  match find_node l fa0 with
  | Some i => exists n, l !! i = Some n /\ node_key n = addr_key fa0
  | None => Forall (fun n => node_key n <> addr_key fa0) l
  end.
Proof.
  intros Hf Hl. induction Hl as [|x l Hx Hl IH]; cbn [find_node]; [constructor|]. case_if; bools.
  - exists x. split; [done|]. by apply cmp_key.
  - destruct (find_node l fa0) as [i|]; simpl; [done|].
    constructor; [|done]. intros E'. apply E. by apply (cmp_key (n_fa x)).
Qed.

Lemma add_node_ok w fa0 a : fa_wf fa0 -> table_ok w -> table_ok (add_node_nolock w fa0 a).
Proof.
  intros Hf Hw. unfold add_node_nolock. pose proof (find_node_spec (pNodArray w) fa0 Hf (tb_wf w Hw)) as H.
  destruct (find_node _ _) as [i|]; [apply edit_ok; [intros; apply edit_node_fa|done]|].
  destruct Hw as [Hwf Hnd _]. constructor; simpl; [| |done].
  - apply Forall_app. split; [done|]. constructor; [|done]. unfold node_wf. by rewrite edit_node_fa.
  - rewrite fmap_app. apply NoDup_app. split_and!; [done| |apply NoDup_singleton].
    intros k Hk. simpl. rewrite list_elem_of_singleton. intros ->. apply list_elem_of_fmap in Hk as (n & E & Hn).
    rewrite Forall_forall in H. apply (H n Hn). unfold node_key in *. by rewrite <- E, edit_node_fa.
Qed.

(** ** Passwords *)
Definition passwords (n : FTN_NODE) := (n_pwd n, n_pkt_pwd n, n_out_pwd n).
Definition no_passwords := (str "-", @None cstr, @None cstr).
Definition protected (n : FTN_NODE) : Prop :=
  no_pwd (n_pwd n) = false \/ no_pwd_opt (n_pkt_pwd n) = false \/ no_pwd_opt (n_out_pwd n) = false.

(** [w'] has the entries of [w], with the passwords [P] wants to keep. *)
Definition keeps (P : FTN_NODE -> Prop) (w w' : WORLD) : Prop :=
  forall n, n ∈ pNodArray w -> exists n', n' ∈ pNodArray w' /\ n_fa n' = n_fa n /\ (P n -> passwords n' = passwords n).

Lemma keeps_refl P w : keeps P w w.
Proof. intros n Hn. eauto. Qed.
Lemma keeps_perm P w w' : pNodArray w' ≡ₚ pNodArray w -> keeps P w w'.
Proof. intros Hp n Hn. exists n. by rewrite Hp. Qed.

Lemma keeps_trans (P : FTN_NODE -> Prop) w1 w2 w3 :
  (forall n n', n_fa n' = n_fa n -> passwords n' = passwords n -> P n -> P n') ->
  keeps P w1 w2 -> keeps P w2 w3 -> keeps P w1 w3.
Proof.
  intros HP H1 H2 n Hn. destruct (H1 n Hn) as (n2 & Hn2 & E2 & Hp2). destruct (H2 n2 Hn2) as (n3 & Hn3 & E3 & Hp3).
  exists n3. split_and!; [done|congruence|]. intros Hp. rewrite Hp3, Hp2 by eauto. done.
Qed.

Lemma protected_passwords n n' : n_fa n' = n_fa n -> passwords n' = passwords n -> protected n -> protected n'.
Proof. unfold passwords, protected. intros _ [= -> -> ->]. done. Qed.

Lemma keeps_alter (P : FTN_NODE -> Prop) w f i : (forall n, n_fa (f n) = n_fa n) ->
  (forall n, P n -> passwords (f n) = passwords n) -> keeps P w (w <| pNodArray ::= alter f i |>).
Proof.
  intros Hfa Hp n Hn. apply list_elem_of_lookup in Hn as [j Hj]. simpl.
  destruct (decide (i = j)) as [->|Hij].
  - exists (f n). split_and!; [|done|by apply Hp]. eapply list_elem_of_lookup_2.
    by rewrite list_lookup_alter_eq, Hj.
  - exists n. split_and!; [|done|done]. eapply list_elem_of_lookup_2. by rewrite list_lookup_alter_ne.
Qed.

Lemma edit_options_passwords now n a : passwords (edit_options now n a) = passwords n.
Proof. by destruct n. Qed.
Lemma edit_boxes_passwords n a : passwords (edit_boxes n a) = passwords n.
Proof. by destruct n. Qed.

Lemma set_passwords_protected n a : protected n -> set_passwords n a = n.
Proof.
  unfold protected, set_passwords. intros Hp. destruct (a_pwd a) as [pwd|]; [|done]. case_if; [|done].
  bools. exfalso. destruct Hp as [H3|[H3|H3]]; congruence.
Qed.
Lemma set_passwords_none n a : a_pwd a = None -> set_passwords n a = n.
Proof. unfold set_passwords. by intros ->. Qed.

Lemma edit_node_protected now n a : protected n -> passwords (edit_node now n a) = passwords n.
Proof.
  intros Hp. unfold edit_node. rewrite edit_boxes_passwords, set_passwords_protected; [apply edit_options_passwords|].
  eapply protected_passwords; [|apply edit_options_passwords|done]. by destruct n.
Qed.

Lemma edit_node_nopwd now n a : a_pwd a = None -> passwords (edit_node now n a) = passwords n.
Proof.
  intros Ha. unfold edit_node. rewrite edit_boxes_passwords, set_passwords_none by done. apply edit_options_passwords.
Qed.

Lemma keeps_add (P : FTN_NODE -> Prop) w fa0 a :
  (forall now n, P n -> passwords (edit_node now n a) = passwords n) -> keeps P w (add_node_nolock w fa0 a).
Proof.
  intros HP. unfold add_node_nolock. destruct (find_node _ _) as [i|].
  - apply keeps_alter; [intros; apply edit_node_fa|by apply HP].
  - intros n Hn. exists n. split_and!; [|done|done]. simpl. apply elem_of_app. by left.
Qed.

(** ** Lookup *)
Definition absent (w : WORLD) (fa0 : FTN_ADDR) : Prop :=
  Forall (fun n => node_key n <> addr_key fa0) (pNodArray w).

(** What a lookup finds at position [np] of [w']; [w] is the table before. *)
Definition lookup_result (config : BINKD_CONFIG) (w : WORLD) (fa0 : FTN_ADDR) (np : option nat) (w' : WORLD) : Prop :=
  match np with
  | Some i => exists n, pNodArray w' !! i = Some n /\ node_key n = addr_key fa0 /\
                        (absent w fa0 -> passwords n = no_passwords)
  | None => absent w' fa0 /\ (havedefnode config = true -> absent w defnode_addr)
  end.

Lemma absent_perm w w' fa0 : pNodArray w' ≡ₚ pNodArray w -> absent w fa0 -> absent w' fa0.
Proof. unfold absent. by intros ->. Qed.

Lemma defnode_wf : fa_wf defnode_addr.
Proof. unfold fa_wf, INT_MAX. simpl. split; [repeat constructor|lia]. Qed.

Lemma entry_absent w fa0 i n : absent w fa0 -> pNodArray w !! i = Some n -> node_key n <> addr_key fa0.
Proof. intros Ha Hi. apply (Forall_lookup_1 _ _ _ _ Ha Hi). Qed.

Lemma add_new_entry w fa0 a : fa_wf fa0 -> table_ok w -> absent w fa0 ->
  pNodArray (add_node_nolock w fa0 a) = pNodArray w ++ [edit_node (safe_time (sys w)) (new_node fa0) a].
Proof.
  intros Hf Hw Ha. unfold add_node_nolock.
  pose proof (find_node_spec (pNodArray w) fa0 Hf (tb_wf w Hw)) as H.
  destruct (find_node _ _) as [i|]; [|done]. destruct H as (n & Hn & E).
  by apply (entry_absent _ _ _ _ Ha) in Hn.
Qed.

Lemma get_defnode_info_spec config w fa0 on np w' :
  table_ok w -> nNodSorted w = true -> fa_wf fa0 -> search_for_node w fa0 = on ->
  get_defnode_info w fa0 on = (np, w') ->
  table_ok w' /\ keeps (fun _ => True) w w' /\ lookup_result config w fa0 np w'.
Proof.
  intros Hw Hs Hf Hon E. unfold get_defnode_info in E.
  pose proof (search_spec w fa0 Hw Hs Hf) as Hfa. rewrite Hon in Hfa.
  pose proof (search_spec w defnode_addr Hw Hs defnode_wf) as Hd.
  destruct (search_for_node w defnode_addr) as [d|]; simpl in E.
  - destruct Hd as (np0 & Hd & _). rewrite Hd in E. destruct on as [i|]; injection E as <- <-.
    + destruct Hfa as (n & Hn & Hkey). split_and!.
      * by apply edit_ok.
      * by apply keeps_alter.
      * exists (copy_defnode np0 n). simpl. rewrite list_lookup_alter_eq, Hn. split_and!; [done|done|].
        intros Ha. by apply (entry_absent _ _ _ _ Ha) in Hn.
    + set (w1 := add_node_nolock w fa0 (defnode_args np0)).
      assert (Hw1 : table_ok w1) by (by apply add_node_ok).
      pose proof (add_new_entry w fa0 (defnode_args np0) Hf Hw Hfa) as Hnew. fold w1 in Hnew.
      destruct (sort_nodes_ok w1 Hw1) as [Hw2 Hperm]. split_and!; [done| |].
      * apply (keeps_trans _ _ w1); [done| |by apply keeps_perm]. apply keeps_add. intros. by apply edit_node_nopwd.
      * pose proof (search_spec (sort_nodes w1) fa0 Hw2 eq_refl Hf) as Hs2.
        assert (Hin : edit_node (safe_time (sys w)) (new_node fa0) (defnode_args np0) ∈ pNodArray (sort_nodes w1)).
        { rewrite Hperm, Hnew. apply elem_of_app. right. by apply list_elem_of_singleton. }
        assert (Hk : node_key (edit_node (safe_time (sys w)) (new_node fa0) (defnode_args np0)) = addr_key fa0)
          by (unfold node_key; by rewrite edit_node_fa).
        destruct (search_for_node (sort_nodes w1) fa0) as [i|]; simpl.
        -- destruct Hs2 as (n & Hn & Hkn). exists n. split_and!; [done|done|]. intros _.
           apply list_elem_of_lookup_2 in Hn. rewrite Hperm, Hnew in Hn.
           apply elem_of_app in Hn as [Hn | Hn%list_elem_of_singleton].
           ++ unfold absent in Hfa. rewrite Forall_forall in Hfa. by apply Hfa in Hn.
           ++ subst n. by rewrite edit_node_nopwd.
        -- rewrite Forall_forall in Hs2. by apply Hs2 in Hin.
  - injection E as <- <-. split_and!; [done|apply keeps_refl|]. destruct on as [i|]; simpl.
    + destruct Hfa as (n & Hn & Hkey). exists n. split_and!; [done|done|].
      intros Ha. by apply (entry_absent _ _ _ _ Ha) in Hn.
    + done.
Qed.

Lemma get_node_index_spec config w fa0 np w' :
  table_ok w -> fa_wf fa0 -> get_node_index w fa0 config = (np, w') ->
  table_ok w' /\ keeps (fun _ => True) w w' /\ lookup_result config w fa0 np w'.
Proof.
  intros Hw Hf E. unfold get_node_index in E. remember (if nNodSorted w then w else sort_nodes w) as w1 eqn:E1.
  assert (H1 : table_ok w1 /\ pNodArray w1 ≡ₚ pNodArray w /\ nNodSorted w1 = true).
  { subst w1. destruct (nNodSorted w) eqn:?; [by split_and!|].
    destruct (sort_nodes_ok w Hw). by split_and!. }
  clear E1. destruct H1 as (Hw1 & Hperm & Hs1).
  assert (Habs : forall a, absent w a -> absent w1 a) by (intros a; by apply absent_perm).
  assert (Habs' : forall a, absent w1 a -> absent w a) by (intros a; by apply absent_perm).
  pose proof (search_spec w1 fa0 Hw1 Hs1 Hf) as Hsearch.
  match type of E with (let '(_, _) := ?x in _) = _ => destruct x as [np1 w2] eqn:E2 end.
  assert (H2 : table_ok w2 /\ keeps (fun _ => True) w1 w2 /\ lookup_result config w1 fa0 np1 w2).
  { match type of E2 with (if ?b then _ else _) = _ => destruct b eqn:Eb end;
      [by eapply get_defnode_info_spec|].
    injection E2 as <- <-. split_and!; [done|apply keeps_refl|].
    destruct (search_for_node w1 fa0) as [i|]; simpl in *.
    - destruct Hsearch as (n & Hn & Hkey). exists n. split_and!; [done|done|].
      intros Ha. by apply (entry_absent _ _ _ _ Ha) in Hn.
    - split; [done|]. intros Hd. by rewrite Hd in Eb. }
  destruct H2 as (Hw2 & Hk2 & Hr).
  assert (Hk : keeps (fun _ => True) w w2) by (apply (keeps_trans _ _ w1); [done|by apply keeps_perm|done]).
  destruct np1 as [i|]; injection E as <- <-.
  - set (g := fun n : FTN_NODE => match n_hosts n with None => _ | Some _ => n end).
    assert (Hg : forall n, n_fa (g n) = n_fa n /\ passwords (g n) = passwords n)
      by (intros n; unfold g; by destruct (n_hosts n)).
    split_and!.
    + apply edit_ok; [|done]. apply Hg.
    + apply (keeps_trans _ _ w2); [done|done|]. apply keeps_alter; intros; apply Hg.
    + destruct Hr as (n & Hn & Hkey & Hp). exists (g n). simpl. rewrite list_lookup_alter_eq, Hn. split_and!; [done| |].
      * unfold node_key. by rewrite (proj1 (Hg n)).
      * rewrite (proj2 (Hg n)). auto.
  - split_and!; [done|done|]. destruct Hr as [Ha Hd]. split; [done|]. auto.
Qed.

(** ** Any sequence of the operations *)
Section History.
Context (config : BINKD_CONFIG).

(** Adding a node, looking one up, assigning fields other than the address and
    the passwords of the node looked up, and everything that does not touch
    the table. *)
Inductive node_step : WORLD -> WORLD -> Prop :=
| ns_add w fa0 a : fa_wf fa0 -> node_step w (add_node_nolock w fa0 a)
| ns_get w fa0 : fa_wf fa0 -> node_step w (get_node_info w fa0 config).2
| ns_edit w fa0 f : fa_wf fa0 -> (forall n, n_fa (f n) = n_fa n /\ passwords (f n) = passwords n) ->
    node_step w (edit_info w fa0 config f)
| ns_other w w' : pNodArray w' = pNodArray w -> nNodSorted w' = nNodSorted w -> node_step w w'.

Lemma get_node_info_world w fa0 : exists np, get_node_index w fa0 config = (np, (get_node_info w fa0 config).2) /\
  (get_node_info w fa0 config).1 = np ≫= fun i => pNodArray (get_node_info w fa0 config).2 !! i.
Proof. unfold get_node_info. destruct (get_node_index w fa0 config) as [np w']. by exists np. Qed.

Lemma node_step_keeps w w' : node_step w w' -> table_ok w -> table_ok w' /\ keeps protected w w'.
Proof.
  assert (Hweak : forall w1 w2, keeps (fun _ => True) w1 w2 -> keeps protected w1 w2).
  { intros w1 w2 H n Hn. destruct (H n Hn) as (n' & ? & ? & ?). exists n'. auto. }
  intros Hs Hw. destruct Hs as [w fa0 a Hf | w fa0 Hf | w fa0 f Hf Hg | w w' E1 E2].
  - split; [by apply add_node_ok|]. apply keeps_add. intros. by apply edit_node_protected.
  - destruct (get_node_info_world w fa0) as (np & E & _).
    destruct (get_node_index_spec config _ _ _ _ Hw Hf E) as (? & ? & _). auto.
  - unfold edit_info. destruct (get_node_index w fa0 config) as [np w'] eqn:E.
    destruct (get_node_index_spec config _ _ _ _ Hw Hf E) as (Hw' & Hk & _).
    destruct np as [i|]; [|auto]. split; [apply edit_ok; [apply Hg|done]|].
    apply (keeps_trans _ _ w'); [apply protected_passwords|auto|]. apply keeps_alter; intros; apply Hg.
  - destruct Hw as [H1 H2 H3]. split; [constructor; rewrite ?E1, ?E2; done|].
    apply keeps_perm. by rewrite E1.
Qed.

Lemma node_steps_keeps w w' : rtc node_step w w' -> table_ok w -> table_ok w' /\ keeps protected w w'.
Proof.
  induction 1 as [w|w1 w2 w3 H _ IH]; intros Hw; [split; [done|apply keeps_refl]|].
  destruct (node_step_keeps _ _ H Hw) as [H2 Hk]. destruct (IH H2) as [H3 Hk']. split; [done|].
  eapply keeps_trans; [apply protected_passwords|done|done].
Qed.

Lemma empty_table_ok w : pNodArray w = [] -> table_ok w.
Proof. intros E. constructor; rewrite E; [done|apply NoDup_nil_2|constructor]. Qed.

Lemma table_unique w x y : table_ok w -> x ∈ pNodArray w -> y ∈ pNodArray w -> node_key x = node_key y -> x = y.
Proof.
  intros [_ Hnd _] [i Hi]%list_elem_of_lookup [j Hj]%list_elem_of_lookup E.
  assert (i = j); [|by simplify_eq]. apply (NoDup_lookup _ i j (node_key x) Hnd).
  - by rewrite list_lookup_fmap, Hi.
  - rewrite list_lookup_fmap, Hj. simpl. by rewrite E.
Qed.

Lemma key_same n fa0 : node_key n = addr_key fa0 <-> fa_same (n_fa n) fa0.
Proof.
  unfold node_key, addr_key, fa_same. split; [by intros [= -> -> -> -> ->] | by intros (-> & -> & -> & -> & ->)].
Qed.


(** C22: Once a node has a password, nothing the process does with the table
    changes the session, packet or outgoing password that later lookups of the
    address return: not the password file, not [defnode], not another
    configuration line for the same node. *)
Theorem passwords_are_kept w0 w w' n fa0 r w'' :
  pNodArray w0 = [] -> rtc node_step w0 w -> n ∈ pNodArray w -> protected n ->
  rtc node_step w w' -> fa_wf fa0 -> fa_same (n_fa n) fa0 -> get_node_info w' fa0 config = (r, w'') ->
  exists m, r = Some m /\ passwords m = passwords n.
Proof.
  intros E0 Hs Hn Hp Hs' Hf Hsame E. destruct (node_steps_keeps _ _ Hs (empty_table_ok _ E0)) as [Hw _].
  destruct (node_steps_keeps _ _ Hs' Hw) as [Hw' Hk]. destruct (Hk n Hn) as (n' & Hn' & Hfa & Hpw).
  destruct (get_node_info_world w' fa0) as (np & Ei & Er). rewrite E in Ei, Er. simpl in Ei, Er.
  destruct (get_node_index_spec config _ _ _ _ Hw' Hf Ei) as (Hw2 & Hk2 & Hl).
  destruct (Hk2 n' Hn') as (n2 & Hn2 & Hfa2 & Hpw2). destruct np as [i|]; simpl in *.
  - destruct Hl as (m & Hm & Hkey & _). exists m. rewrite Er, Hm. split; [done|].
    assert (m = n2) as ->.
    { eapply table_unique; [done|by eapply list_elem_of_lookup_2|done|].
      rewrite Hkey. unfold node_key. rewrite Hfa2, Hfa. symmetry. by apply key_same. }
    rewrite Hpw2 by done. auto.
  - destruct Hl as [Ha _]. unfold absent in Ha. rewrite Forall_forall in Ha. exfalso. apply (Ha n2 Hn2).
    unfold node_key. rewrite Hfa2, Hfa. by apply key_same.
Qed.
End History.

(** A configured node, a second line for it, and a lookup in another case. *)
Definition empty_world : WORLD := mkWORLD example_sys [] true [] 0.
Definition pwd_args (pwd : cstr) : NODE_ARGS :=
  mkNODE_ARGS (Some (str "host")) (Some pwd) None None (chr "-") None None
    USE_OLD USE_OLD MD_USE_OLD USE_OLD HC_OFF USE_OLD USE_OLD None USE_OLD.
Definition upper_addr : FTN_ADDR := mkFTN_ADDR (str "FidoNet") 2 5047 13 0.
Definition two_nodes : WORLD :=
  add_node_nolock (add_node_nolock empty_world (example_addr 13) (pwd_args (str "one")))
    (example_addr 12) (pwd_args (str "two")).
Definition relisted : WORLD := add_node_nolock two_nodes upper_addr (pwd_args (str "three")).
Definition the_node (w : WORLD) : FTN_NODE := default (new_node FA_ZERO) (get_node_info w upper_addr example_config).1.

Lemma example_addr_wf n : 0 <= n < 100 -> fa_wf (example_addr n).
Proof. intros Hn. unfold fa_wf, INT_MAX. simpl. split; [repeat constructor|lia]. Qed.
Lemma upper_addr_wf : fa_wf upper_addr.
Proof. unfold fa_wf, INT_MAX. simpl. split; [repeat constructor|lia]. Qed.
Lemma two_nodes_reachable : rtc (node_step example_config) empty_world two_nodes.
Proof. eapply rtc_l; [|eapply rtc_once]; constructor; apply example_addr_wf; lia. Qed.


Lemma passwords_are_kept_witness : exists m,
  Some (the_node relisted) = Some m /\ passwords m = (str "one", Some (str "one"), Some (str "one")).
Proof.
  apply (passwords_are_kept example_config empty_world two_nodes relisted
    (edit_node 1000 (new_node (example_addr 13)) (pwd_args (str "one"))) upper_addr _
    (get_node_info relisted upper_addr example_config).2).
  - reflexivity.
  - apply two_nodes_reachable.
  - replace (pNodArray two_nodes) with [edit_node 1000 (new_node (example_addr 13)) (pwd_args (str "one"));
      edit_node 1000 (new_node (example_addr 12)) (pwd_args (str "two"))] by (vm_compute; reflexivity). left.
  - left. vm_compute. reflexivity.
  - eapply rtc_once. constructor. apply upper_addr_wf.
  - apply upper_addr_wf.
  - repeat split.
  - vm_compute. reflexivity.
Defined.

(** ** What holds of every session password *)
Section Passwords.
Context (config : BINKD_CONFIG) (P : cstr -> Prop).
Hypothesis HP : P (str "-").
Definition all_pwds (w : WORLD) : Prop := Forall (fun n => P (n_pwd n)) (pNodArray w).

Lemma alter_pwds f i l : (forall n, n_pwd (f n) = n_pwd n) ->
  Forall (fun n => P (n_pwd n)) l -> Forall (fun n => P (n_pwd n)) (alter f i l).
Proof. intros Hf H. apply Forall_alter; [done|]. intros x _ Hx. by rewrite Hf. Qed.
Lemma sort_pwds w : all_pwds w -> all_pwds (sort_nodes w).
Proof. unfold all_pwds. simpl. by rewrite sort_perm. Qed.
Lemma edit_node_pwd now n a : a_pwd a = None -> n_pwd (edit_node now n a) = n_pwd n.
Proof. intros Ha. pose proof (edit_node_nopwd now n a Ha) as E. unfold passwords in E. by injection E. Qed.
Lemma add_pwds w fa0 a : a_pwd a = None -> all_pwds w -> all_pwds (add_node_nolock w fa0 a).
Proof.
  unfold all_pwds, add_node_nolock. intros Ha Hw. destruct (find_node _ _) as [i|]; simpl.
  - apply alter_pwds; [|done]. intros n. by apply edit_node_pwd.
  - apply Forall_app. split; [done|]. constructor; [|done]. by rewrite edit_node_pwd.
Qed.

(** A lookup makes no password. *)
Lemma get_node_info_pwds w fa0 : all_pwds w -> all_pwds (get_node_info w fa0 config).2.
Proof.
  intros Hw. unfold get_node_info. destruct (get_node_index w fa0 config) as [np w'] eqn:E. simpl.
  unfold get_node_index in E. remember (if nNodSorted w then w else sort_nodes w) as w1 eqn:E1.
  assert (H1 : all_pwds w1) by (subst w1; destruct (nNodSorted w); [done|by apply sort_pwds]). clear E1.
  match type of E with (let '(_, _) := ?x in _) = _ => destruct x as [np1 w2] eqn:E2 end.
  assert (H2 : all_pwds w2).
  { match type of E2 with (if ?b then _ else _) = _ => destruct b end; [|by injection E2 as _ <-].
    unfold get_defnode_info in E2. destruct (_ ≫= _) as [d|]; [|by injection E2 as _ <-].
    destruct (search_for_node w1 fa0); injection E2 as _ <-; [by apply alter_pwds|].
    by apply sort_pwds, add_pwds. }
  destruct np1 as [i|]; injection E as _ <-; [|done]. apply alter_pwds; [|done].
  intros n. by destruct (n_hosts n).
Qed.

(** The entry that is found holds the password the table always had. *)
Definition entry (w : WORLD) (a : FTN_ADDR) (p : cstr) : Prop :=
  exists n, n ∈ pNodArray w /\ node_key n = addr_key a /\ n_pwd n = p.
Lemma get_node_info_entry w0 w a p : table_ok w -> keeps (fun _ => True) w0 w -> fa_wf a -> entry w0 a p ->
  exists n, (get_node_info w a config).1 = Some n /\ n_pwd n = p.
Proof.
  intros Hw Hk Hf (n0 & Hn0 & Hkey & Hp). destruct (get_node_info_world config w a) as (np & Ei & Er).
  destruct (get_node_index_spec config _ _ _ _ Hw Hf Ei) as (Hw2 & Hk2 & Hl).
  destruct (Hk n0 Hn0) as (n1 & Hn1 & Hfa1 & Hpw1). destruct (Hk2 n1 Hn1) as (n2 & Hn2 & Hfa2 & Hpw2).
  specialize (Hpw1 I). specialize (Hpw2 I). unfold passwords in Hpw1, Hpw2.
  assert (Hk0 : node_key n2 = addr_key a) by (unfold node_key; rewrite Hfa2, Hfa1; exact Hkey).
  rewrite Er. destruct np as [i|]; simpl in *.
  - destruct Hl as (m & Hm & Hmk & _). exists m. split; [done|].
    assert (m = n2) as -> by (eapply table_unique; [done|by eapply list_elem_of_lookup_2|done|congruence]).
    congruence.
  - destruct Hl as [Ha _]. unfold absent in Ha. rewrite Forall_forall in Ha. by apply Ha in Hn2.
Qed.
Lemma get_node_info_table w0 w a : table_ok w -> keeps (fun _ => True) w0 w -> fa_wf a ->
  table_ok (get_node_info w a config).2 /\ keeps (fun _ => True) w0 (get_node_info w a config).2.
Proof.
  intros Hw Hk Hf. destruct (get_node_info_world config w a) as (np & Ei & _).
  destruct (get_node_index_spec config _ _ _ _ Hw Hf Ei) as (Hw2 & Hk2 & _). split; [done|]. by eapply keeps_trans.
Qed.
End Passwords.
