(* ===== verification/ReadFlo.v ===== *)
(** * readflo.c: file-list (.?lo) files

    Each line names a file to send: [^] deletes it afterwards, [#] truncates
    it, [~] marks a line already done.  The stream is the list of the bytes not
    read yet. *)
From S2P Require Import Prelude CStr Tools FtnAddr Sys Types.

(** The blanks at the end of the line are erased. *)
Definition trim_right (s : cstr) : cstr := rev (skip_spaces (rev s)).

(** The loop ends because [fgets] consumes at least a character; [None] is the
    end of the file. *)
Fixpoint read_flo_loop (fuel : nat) (flo : list Z) : mem (option (cstr * char * list Z)) :=
  match fuel with
  | O => Fuel
  | S f =>
      match fgets (MAXPATHLEN - 1) flo with
      | ([], _) => Ok None
      | (line, flo) =>
          match trim_right (c_string line) with
          | [] => read_flo_loop f flo
          | c :: dst =>
              if c =? chr "~" then read_flo_loop f flo
              else if c =? chr "^" then Ok (Some (dst, chr "d", flo))
              else if c =? chr "#" then Ok (Some (dst, chr "t", flo))
              else Ok (Some (c :: dst, 0, flo))
          end
      end
  end.
Definition read_flo_line (flo : list Z) : mem (option (cstr * char * list Z)) :=
  read_flo_loop (S (length flo)) flo.

(** The root-file rules of the configuration, applied one after the other. *)
Fixpoint trans_flo_loop (buf : cstr) (rf_rules : list RF_RULE) : mem cstr :=
  match rf_rules with
  | [] => Ok buf
  | curr :: t =>
      let* r := ed buf (rf_from curr) (rf_to curr) None in
      trans_flo_loop (strnzcpy r.1 MAXPATHLEN) t
  end.
Definition trans_flo_line (s : cstr) (rf_rules : list RF_RULE) : mem (option cstr) :=
  match rf_rules with
  | [] => Ok None
  | _ => let* buf := trans_flo_loop (strnzcpy s MAXPATHLEN) rf_rules in Ok (Some buf)
  end.

(** ** Properties *)
Lemma fgets_split n f : (fgets n f).1 ++ (fgets n f).2 = f.
Proof.
  revert f. induction n as [|n IH]; intros [|c f]; simpl; [done..|]. case_if; [done|].
  specialize (IH f). destruct (fgets n f). simpl in *. by rewrite IH.
Qed.

Lemma fgets_line n l f : (length l < n)%nat -> ~ In 10 l -> fgets n (l ++ 10 :: f) = (l ++ [10], f).
Proof.
  revert n. induction l as [|c l IH]; intros [|n] Hn Hin; simpl in *; [lia|done|lia|].
  case_if; bools; [tauto|]. rewrite IH by (lia || tauto). done.
Qed.

Lemma fgets_progress n f line rest : fgets (S n) f = (line, rest) -> line = [] -> f = [].
Proof.
  destruct f as [|c f]; [done|]. simpl. case_if; [by intros [= <- _]|].
  destruct (fgets n f). by intros [= <- _].
Qed.

(** A line of a file list, and what is written for it. *)
Inductive FLO_LINE := FL_done (s : cstr) | FL_file (action : char) (s : cstr).
Definition flo_prefix (action : char) : cstr :=
  if action =? chr "d" then str "^" else if action =? chr "t" then str "#" else [].
Definition print_flo_line (l : FLO_LINE) : cstr :=
  match l with
  | FL_done s => str "~" ++ s ++ [10]
  | FL_file action s => flo_prefix action ++ s ++ [10]
  end.
Definition print_flo (ls : list FLO_LINE) : list Z := concat (map print_flo_line ls).

(** A name a line can carry: no control character that ends the line, no blank
    at its end, no mark at its beginning, and room for it in the buffer. *)
Definition flo_name (s : cstr) : Prop :=
  s <> [] /\ Forall (fun c => 0 < c < 256 /\ c <> 10) s /\ isspace (hd0 (rev s)) = false /\
  ~ In (hd0 s) (str "~^#") /\ (length s + 2 < MAXPATHLEN)%nat.
Definition flo_line_wf (l : FLO_LINE) : Prop :=
  match l with
  | FL_done s => Forall (fun c => 0 < c < 256 /\ c <> 10) s /\ (length s + 2 < MAXPATHLEN)%nat
  | FL_file action s => In action [0; chr "d"; chr "t"] /\ flo_name s
  end.
Fixpoint flo_todo (ls : list FLO_LINE) : list (cstr * char) :=
  match ls with
  | [] => []
  | FL_done _ :: t => flo_todo t
  | FL_file a s :: t => (s, a) :: flo_todo t
  end.

Lemma trim_right_nl s : isspace (hd0 (rev s)) = false -> trim_right (s ++ [10]) = s.
Proof.
  intros H. unfold trim_right. rewrite rev_app_distr. simpl. destruct (rev s) as [|c t] eqn:E; simpl in *.
  - by rewrite <- (rev_involutive s), E.
  - rewrite H. change (rev (c :: t) = s). by rewrite <- E, rev_involutive.
Qed.

Lemma skip_spaces_nospace s : isspace (hd0 s) = false -> skip_spaces s = s.
Proof. destruct s as [|c s]; simpl; [done|]. by intros ->. Qed.

Lemma skip_spaces_snoc l c : isspace c = false -> exists u, skip_spaces (l ++ [c]) = u ++ [c].
Proof.
  intros Hc. induction l as [|x l IH]; simpl; [rewrite Hc; by exists []|].
  case_if; [done|]. by exists (x :: l).
Qed.

Lemma trim_right_head c s : isspace c = false -> exists t, trim_right (c :: s) = c :: t.
Proof.
  intros Hc. unfold trim_right. simpl. destruct (skip_spaces_snoc (rev s) c Hc) as [u ->].
  exists (rev u). by rewrite rev_app_distr.
Qed.

Lemma c_string_line s : Forall (fun c => 0 < c < 256 /\ c <> 10) s -> c_string (s ++ [10]) = s ++ [10].
Proof.
  intros H. apply c_string_id. apply cstring_app. split; [|by repeat constructor].
  eapply Forall_impl; [done|]. simpl. lia.
Qed.

Lemma no_newline s : Forall (fun c => 0 < c < 256 /\ c <> 10) s -> ~ In 10 s.
Proof. intros H Hin. rewrite Forall_forall in H. apply list_elem_of_In in Hin. apply H in Hin. lia. Qed.

Lemma read_flo_done f s rest : flo_line_wf (FL_done s) ->
  read_flo_loop (S f) (print_flo_line (FL_done s) ++ rest) = read_flo_loop f rest.
Proof.
  intros [Hs Hlen]. cbn [read_flo_loop].
  assert (Hs' : Forall (fun c => 0 < c < 256 /\ c <> 10) (126 :: s)) by (constructor; [lia|done]).
  replace (print_flo_line (FL_done s) ++ rest) with ((126 :: s) ++ 10 :: rest)
    by (cbn [print_flo_line]; by rewrite <- !app_assoc).
  rewrite fgets_line; [|cbn [length]; lia|by apply no_newline].
  destruct ((126 :: s) ++ [10]) as [|x l] eqn:E; [done|]. rewrite <- E, c_string_line by done.
  destruct (trim_right_head 126 (s ++ [10]) eq_refl) as [t Ht]. simpl app. by rewrite Ht.
Qed.

Lemma flo_prefix_wf a s : Forall (fun c => 0 < c < 256 /\ c <> 10) s ->
  Forall (fun c => 0 < c < 256 /\ c <> 10) (flo_prefix a ++ s) /\ (length (flo_prefix a) <= 1)%nat.
Proof.
  intros Hs. split; [apply Forall_app; split; [|done]|]; unfold flo_prefix; repeat case_if; simpl;
    try lia; repeat constructor; lia || done.
Qed.

Lemma read_flo_file f a s rest : flo_line_wf (FL_file a s) ->
  read_flo_loop (S f) (print_flo_line (FL_file a s) ++ rest) = Ok (Some (s, a, rest)).
Proof.
  intros [Ha (Hne & Hs & Hend & Hmark & Hlen)]. cbn [read_flo_loop].
  destruct (flo_prefix_wf a s Hs) as [Hp Hl].
  replace (print_flo_line (FL_file a s) ++ rest) with ((flo_prefix a ++ s) ++ 10 :: rest)
    by (cbn [print_flo_line]; by rewrite <- !app_assoc).
  rewrite fgets_line; [|rewrite length_app; lia|by apply no_newline].
  assert (Hend' : isspace (hd0 (rev (flo_prefix a ++ s))) = false).
  { rewrite rev_app_distr. destruct (rev s) eqn:Er; [|done]. apply (f_equal (@rev Z)) in Er.
    by rewrite rev_involutive in Er. }
  destruct ((flo_prefix a ++ s) ++ [10]) as [|x l] eqn:E; [by destruct (flo_prefix a), s|].
  rewrite <- E, c_string_line, trim_right_nl by done. clear E Hend' Hp.
  destruct s as [|c s]; [done|]. cbn [hd0] in Hmark.
  change (~ (126 = c \/ 94 = c \/ 35 = c \/ False)) in Hmark.
  destruct Ha as [<-|[<-|[<-|[]]]]; simpl; [|done|done].
  change (chr "~") with 126. change (chr "^") with 94. change (chr "#") with 35.
  rewrite !(proj2 (Z.eqb_neq c _)) by (intros ->; tauto). done.
Qed.

(** Reading a whole list. *)
Fixpoint read_flo_all (fuel : nat) (flo : list Z) : mem (list (cstr * char)) :=
  match fuel with
  | O => Fuel
  | S f =>
      let* r := read_flo_line flo in
      match r with
      | None => Ok []
      | Some (s, a, flo) => let* t := read_flo_all f flo in Ok ((s, a) :: t)
      end
  end.

Lemma print_flo_length ls : (length ls <= length (print_flo ls))%nat.
Proof.
  unfold print_flo. induction ls as [|l ls IH]; simpl; [lia|]. rewrite length_app.
  assert (0 < length (print_flo_line l))%nat
    by (destruct l; simpl; rewrite ?length_app; simpl; lia). lia.
Qed.

(** The next file of the list is the first line not done, and what is left of
    the stream is the rest of the list. *)
Lemma read_flo_next f ls : Forall flo_line_wf ls -> (length ls < f)%nat ->
  (flo_todo ls = [] /\ read_flo_loop f (print_flo ls) = Ok None) \/
  (exists s a ls', flo_todo ls = (s, a) :: flo_todo ls' /\ Forall flo_line_wf ls' /\
     (length ls' < length ls)%nat /\ read_flo_loop f (print_flo ls) = Ok (Some (s, a, print_flo ls'))).
Proof.
  intros Hls. revert f. induction Hls as [|l ls Hl Hls IH]; intros f Hf.
  - left. split; [done|]. by destruct f; [lia|].
  - destruct f as [|f]; [simpl in Hf; lia|]. cbn [length] in Hf.
    change (print_flo (l :: ls)) with (print_flo_line l ++ print_flo ls). destruct l as [s|a s].
    + rewrite read_flo_done by done. cbn [flo_todo length].
      destruct (IH f ltac:(lia)) as [?|(s' & a & ls' & ? & ? & ? & ?)]; [by left|].
      right. exists s', a, ls'. split_and!; [done|done|lia|done].
    + right. exists s, a, ls. split_and!; [done|done|cbn [length]; lia|]. by apply read_flo_file.
Qed.

(** A file list that was written line by line is read back as the files
    still to send, in order and with their actions: lines marked [~] are
    skipped, and every other line gives its name and whether the file is to be
    deleted, truncated or left alone. *)
Theorem read_flo_roundtrip ls : Forall flo_line_wf ls ->
  read_flo_all (S (length ls)) (print_flo ls) = Ok (flo_todo ls).
Proof.
  intros Hls. assert (Hgen : forall n ls, Forall flo_line_wf ls -> (length ls < n)%nat ->
    read_flo_all n (print_flo ls) = Ok (flo_todo ls)); [|by apply Hgen; [|lia]].
  clear. induction n as [|n IH]; intros ls Hls Hn; [lia|]. cbn [read_flo_all]. unfold read_flo_line.
  pose proof (print_flo_length ls) as Hlen.
  destruct (read_flo_next (S (length (print_flo ls))) ls Hls ltac:(lia))
    as [[-> ->]|(s & a & ls' & -> & Hls' & Hl & ->)]; simpl; [done|].
  by rewrite IH by (done || lia).
Qed.

Definition example_flo : list FLO_LINE :=
  [FL_done (str "/out/old.pkt"); FL_file (chr "d") (str "/out/a.pkt"); FL_file 0 (str "/files/b c.zip")].
Lemma read_flo_roundtrip_witness :
  print_flo example_flo = str "~/out/old.pkt" ++ [10] ++ str "^/out/a.pkt" ++ [10] ++ str "/files/b c.zip" ++ [10] /\
  read_flo_all 4 (print_flo example_flo) = Ok [(str "/out/a.pkt", chr "d"); (str "/files/b c.zip", 0)].
Proof.
  split; [reflexivity|]. apply (read_flo_roundtrip example_flo).
  assert (H : forallb (fun c => (0 <? c) && (c <? 256) && negb (c =? 10))
    (str "/out/old.pkt" ++ str "/out/a.pkt" ++ str "/files/b c.zip") = true) by (vm_compute; reflexivity).
  assert (Hall : Forall (fun c => 0 < c < 256 /\ c <> 10)
    (str "/out/old.pkt" ++ str "/out/a.pkt" ++ str "/files/b c.zip")).
  { rewrite forallb_forall in H. apply Forall_forall. intros c Hc. specialize (H c (proj1 (list_elem_of_In _ _) Hc)).
    bools. lia. }
  apply Forall_app in Hall as [H1 [H2 H3]%Forall_app].
  assert (Hm : forall n, (n < 20)%nat -> (n + 2 < MAXPATHLEN)%nat)
    by (intros n Hn; unfold MAXPATHLEN; change 4096 with (Z.of_nat 20 + 4076); rewrite Z2Nat.inj_add, Nat2Z.id by lia; lia).
  unfold example_flo, flo_name. apply Forall_cons; split; [|apply Forall_cons; split; [|apply Forall_cons; split; [|done]]].
  - split; [done|]. apply Hm. apply Nat.ltb_lt. vm_compute. reflexivity.
  - split; [cbn [In]; tauto|]. split_and!; [done|done|done| |apply Hm; apply Nat.ltb_lt; vm_compute; reflexivity].
    vm_compute. intros [?|[?|[?|?]]]; done.
  - split; [cbn [In]; tauto|]. split_and!; [done|done|done| |apply Hm; apply Nat.ltb_lt; vm_compute; reflexivity].
    vm_compute. intros [?|[?|[?|?]]]; done.
Defined.

(** ** The loops over a list end *)
Lemma fgets_consume n f line rest : (0 < n)%nat -> fgets n f = (line, rest) ->
  (line = [] -> f = []) /\ (length line + length rest = length f)%nat.
Proof.
  intros Hn E. split.
  - destruct n as [|n]; [lia|]. exact (fgets_progress n f line rest E).
  - pose proof (fgets_split n f) as H. rewrite E in H. rewrite <- H, length_app. done.
Qed.
Lemma line_size : (0 < MAXPATHLEN - 1)%nat.
Proof. apply Nat.ltb_lt. by vm_compute. Qed.
#[local] Opaque MAXPATHLEN.

(** A line that is found is cut off the list. *)
Lemma read_flo_ends flo : outcome (fun r => match r with Some (_, _, rest) => (length rest < length flo)%nat | None => True end)
  False (read_flo_line flo).
Proof.
  unfold read_flo_line. assert (Hg : forall fuel l, (length l < fuel)%nat ->
    outcome (fun r => match r with Some (_, _, rest) => (length rest < length l)%nat | None => True end) False (read_flo_loop fuel l)).
  { induction fuel as [|f IH]; intros l Hl; [lia|]. cbn [read_flo_loop].
    destruct (fgets (MAXPATHLEN - 1) l) as [line rest] eqn:E.
    destruct (fgets_consume _ _ _ _ line_size E) as [_ Hlen]. destruct line as [|c0 line]; [done|]. simpl in Hlen.
    assert (Hrec : outcome (fun r => match r with Some (_, _, rest) => (length rest < length l)%nat | None => True end) False (read_flo_loop f rest)).
    { eapply outcome_weaken; [apply IH; lia| |done]. intros [[[p a] r]|]; [lia|done]. }
    destruct (trim_right _) as [|c dst]; [done|]. repeat (case_if; [first [done|simpl; lia]|]). simpl. lia. }
  apply Hg. lia.
Qed.

Lemma ed_ok s a b : exists r, ed s a b None = Ok r.
Proof.
  destruct (decide (a = [])) as [->|Ha]; [by eexists|].
  destruct (ed_replaces s a b None ltac:(unfold strlen; simpl; lia) Ha) as (sz & E & _). by rewrite E; eexists.
Qed.
Lemma trans_flo_ok s rules : exists r, trans_flo_line s rules = Ok r.
Proof.
  unfold trans_flo_line. destruct rules as [|r rules]; [by eexists|].
  assert (Hl : forall l buf, exists x, trans_flo_loop buf l = Ok x).
  { induction l as [|x l IH]; intros buf; [by eexists|]. cbn [trans_flo_loop].
    destruct (ed_ok buf (rf_from x) (rf_to x)) as [y ->]. simpl. apply IH. }
  destruct (Hl (r :: rules) (strnzcpy s MAXPATHLEN)) as [x ->]. by eexists.
Qed.
