(* ===== verification/Prothlp.v ===== *)
(** * prothlp.c: comparing offers, lists of files, names on the wire *)
From S2P Require Import Prelude CStr Tools FtnAddr Sys Types.

(** 0 if the file is the one the other side names; names compare unquoted.
    The [time_t] difference is returned as an [int]. *)
Definition tfile_cmp (a : TFILE) (netname : cstr) (size time : Z) : Z :=
  let rc := strcmp (strdequote (t_netname a)) (strdequote netname) in
  if negb (rc =? 0) then rc
  else
    let sizediff := swrap 64 (t_size a - size) in
    if negb (sizediff =? 0) then (if 0 <? sizediff then 1 else -1)
    else if negb (t_time a =? time) then swrap 32 (t_time a - time)
    else 0.

(** ** The kill list and the list of received files *)
Definition add_to_killlist (l : list KILLLIST) (name : cstr) (cond : char) : list KILLLIST :=
  l ++ [mkKILLLIST (strnzcpy name MAXPATHLEN) cond].

Fixpoint q_to_killlist (l : list KILLLIST) (q : list FTNQ) : list KILLLIST * list FTNQ :=
  match q with
  | [] => (l, [])
  | curr :: t =>
      if q_action curr =? chr "a" then
        let '(l, t) := q_to_killlist (add_to_killlist l (q_path curr) 0) t in
        (l, curr <| q_action := 0 |> :: t)
      else let '(l, t) := q_to_killlist l t in (l, curr :: t)
  end.

Fixpoint process_killlist (s : SYS) (l : list KILLLIST) (flag : char) : SYS :=
  match l with
  | [] => s
  | k :: t =>
      let s := if negb (k_cond k =? chr "s") || ((flag =? chr "s") && (k_cond k =? chr "s"))
               then (delete_ s (k_name k)).2 else s in
      process_killlist s t flag
  end.

Definition add_to_rcvdlist (l : list cstr) (name : cstr) : list cstr := l ++ [strnzcpy name MAXPATHLEN].

(** ** The name a file gets on the wire *)
Definition weekext (d : char) : cstr :=
  match d - 48 with
  | 0 => str "su" | 1 => str "mo" | 2 => str "tu" | 3 => str "we"
  | 4 => str "th" | 5 => str "fr" | _ => str "sa"
  end.

(** ArcMail extensions with a '#' get the week day back. *)
Definition arcshield (s : cstr) : cstr :=
  match strrchr s (chr ".") with
  | Some i =>
      let z := drop (S i) s in
      if (length z =? 3)%nat && (48 <=? schar (hd0 z)) && (schar (hd0 z) <? 55) && (hd0 (drop 1 z) =? chr "#")
      then take (S i) s ++ weekext (hd0 z) ++ drop 2 z
      else s
  | None => s
  end.

Definition netname_ (sys : SYS) (q : TFILE) : cstr * SYS :=
  if t_type q =? chr "m" then let '(r, sys) := rnd sys in (fmt_x 8 r ++ str ".pkt", sys)
  else if t_type q =? chr "r" then let '(r, sys) := rnd sys in (fmt_x 8 r ++ str ".req", sys)
  else
    let s := arcshield (strnzcpy (extract_filename (t_path q)) MAX_NETNAME) in
    (strnzcpy (strquote s (Z.lor SQ_CNTRL SQ_SPACE)) MAX_NETNAME, sys).

(** ** Properties *)

(** The characters [strquote] leaves in a name with these flags. *)
Definition wire_char (c : char) : Prop := 32 < c < 256 /\ isspace c = false.

Lemma fmt_x_wire w n : Forall wire_char (fmt_x w n).
Proof.
  eapply Forall_impl; [apply fmt_x_hex|]. intros c Hc. apply xdigit_range in Hc as (? & _).
  unfold wire_char, isspace. split; [lia|]. rewrite orb_false_iff, andb_false_iff. lia.
Qed.

Lemma quote_char_space c : 0 < c < 256 -> quote_char (Z.lor SQ_CNTRL SQ_SPACE) c = false -> wire_char c.
Proof.
  intros Hc H. unfold quote_char in H. change (negb (Z.land (Z.lor SQ_CNTRL SQ_SPACE) SQ_CNTRL =? 0)) with true in H.
  change (negb (Z.land (Z.lor SQ_CNTRL SQ_SPACE) SQ_SPACE =? 0)) with true in H. cbn [andb] in H. bools.
  split; [|done]. unfold iscntrl in *. unfold isspace in *. bools. lia.
Qed.

Lemma digit_char_wire d : 0 <= d < 16 -> wire_char (digit_char d).
Proof.
  intros Hd. unfold digit_char, wire_char, isspace. case_if; bools; (split; [lia|]);
    rewrite orb_false_iff, andb_false_iff; lia.
Qed.

Lemma strquote_wire s : cstring s -> Forall wire_char (strquote s (Z.lor SQ_CNTRL SQ_SPACE)).
Proof.
  induction 1 as [|c s Hc Hs IH]; cbn [strquote]; [constructor|]. case_if.
  - constructor; [by vm_compute|]. constructor; [by vm_compute|]. constructor; [|constructor; [|done]].
    + apply digit_char_wire. split; [apply Z.div_pos; lia|apply Z.div_lt_upper_bound; lia].
    + apply digit_char_wire. apply Z.mod_pos_bound. lia.
  - constructor; [by apply quote_char_space|done].
Qed.

Lemma last_slash_name s : exists n, extract_filename s = drop n s.
Proof. unfold extract_filename. destruct (ptr_max _ _) as [i|]; [by exists (S i)|by exists 0%nat]. Qed.

Lemma cstring_take n s : cstring s -> cstring (take n s).
Proof. apply Forall_take. Qed.
Lemma cstring_drop n s : cstring s -> cstring (drop n s).
Proof. apply Forall_drop. Qed.

Lemma arcshield_cstring s : cstring s -> cstring (arcshield s).
Proof.
  intros Hs. unfold arcshield. destruct (strrchr s _); [|done]. case_if; [|done].
  apply cstring_app. split; [by apply cstring_take|]. apply cstring_app. split; [|by do 2 apply cstring_drop].
  unfold weekext. do 7 (case_match; try (repeat constructor; done)).
Qed.

Lemma netname_wire s q : cstring (t_path q) -> Forall wire_char (netname_ s q).1.
Proof.
  intros Hq. unfold netname_. case_if; [|case_if].
  - unfold rnd. simpl. apply Forall_app. split; [apply fmt_x_wire|]. repeat constructor; done.
  - unfold rnd. simpl. apply Forall_app. split; [apply fmt_x_wire|]. repeat constructor; done.
  - simpl. apply Forall_take. apply strquote_wire. apply arcshield_cstring. apply cstring_take.
    destruct (last_slash_name (t_path q)) as [n ->]. by apply cstring_drop.
Qed.

Lemma netname_length s q : (length (netname_ s q).1 < MAX_NETNAME)%nat.
Proof.
  assert (Hx : forall n ext, length ext = 4%nat -> (length (fmt_x 8 (Z.land n 0xFFFFFFFF) ++ ext) < MAX_NETNAME)%nat).
  { intros n ext He. change 0xFFFFFFFF with (Z.ones 32). rewrite Z.land_ones by lia.
    pose proof (Z.mod_pos_bound n (2 ^ 32) ltac:(lia)) as Hn. rewrite length_app, He, fmt_x_length by (simpl; lia).
    apply Nat.ltb_lt. by vm_compute. }
  unfold netname_. case_if; [by apply Hx|]. case_if; [by apply Hx|]. apply strnzcpy_length.
  apply Nat.ltb_lt. by vm_compute.
Qed.

(** *** An offer and the answer to it *)
Lemma fmt_u_word n : 0 <= n -> word (fmt_u n).
Proof.
  intros Hn. split.
  - destruct (fmt_u_head n [] Hn) as (c & t & E & _). rewrite app_nil_r in E. by rewrite E.
  - eapply Forall_impl; [by apply fmt_u_digit10|]. unfold digit10, isspace. intros c Hc.
    rewrite orb_false_iff, andb_false_iff. lia.
Qed.
Lemma safe_atol_fmt_u n : 0 <= n < 2 ^ 63 -> (safe_atol (fmt_u n)).1 = n.
Proof.
  intros Hn. unfold safe_atol. destruct (fmt_u_head n [] ltac:(lia)) as (c & t & E & Hc). rewrite app_nil_r in E.
  rewrite (proj2 (Z.eqb_neq _ _)) by (rewrite E; unfold digit10 in Hc; change (chr "-") with 45; cbn [hd0]; lia). cbn [fst].
  rewrite <- (app_nil_r (fmt_u n)), strtoumax_fmt_u by (done || (unfold UINTMAX_MAX; lia)). by rewrite swrap_id by lia.
Qed.
Lemma size_fmt_u n : 0 <= n < 2 ^ 63 -> swrap 64 (strtoumax (fmt_u n)) = n.
Proof.
  intros Hn. rewrite <- (app_nil_r (fmt_u n)), strtoumax_fmt_u by (done || (unfold UINTMAX_MAX; lia)). by rewrite swrap_id by lia.
Qed.
Lemma wire_word s : s <> [] -> Forall wire_char s -> word s.
Proof. intros Hn Hw. split; [done|]. eapply Forall_impl; [exact Hw|]. by intros c [_ ?]. Qed.

(** A file compares as the one with its own name, size and time. *)
Lemma tfile_cmp_self t : tfile_cmp t (t_netname t) (t_size t) (t_time t) = 0.
Proof.
  unfold tfile_cmp. assert (Hs : forall s, strcmp s s = 0).
  { intros s. induction s as [|c s IH]; [done|]. simpl. by rewrite Z.eqb_refl. }
  rewrite Hs, Z.sub_diag, (Z.eqb_refl (t_time t)). reflexivity.
Qed.
