(* ===== verification/FtnQ.v ===== *)
(** * ftnq.c: the outbound queue

    The queue is built from the outbound directories and the file boxes, either
    as a list of files ([Queue]) or, for the caller that only wants to know
    whom to call, as flavours in the node table ([SCAN_LISTED]).  Hold (.hld),
    busy (.bsy/.csy) and retry (.try) files live next to the mail. *)
From S2P Require Import Prelude CStr Tools Pmatch FtnAddr Sys Types FtnNode ReadFlo.

Inductive QUEUE := SCAN_LISTED | Queue (l : list FTNQ).

Definition prio : cstr := str "IiCcDdOoFfHh".
Definition flo_flvrs : cstr := str "icdfhICDFH".
Definition out_flvrs : cstr := str "icdohICDOH".

(** Position in [prio]; the terminator, and so no flavour, is the last. *)
Definition prio_pos (c : char) : nat := match strchr prio c with Some i => S i | None => O end.
Definition MAXFLVR (a b : char) : char := if (prio_pos a <? prio_pos b)%nat then a else b.

Definition buf_size : nat := MAXPATHLEN + 1.
Definition path_join (dir name : cstr) : cstr :=
  strnzcat (strnzcat (strnzcpy dir buf_size) (str "/") buf_size) name buf_size.

(** ** Adding a file *)

(** A status file gives the name, size and time of the file it stands for. *)
Definition read_status (w : WORLD) (filename : cstr) : mem (option (list cstr)) :=
  match fopen_r (sys w) filename with
  | None => Ok None
  | Some data =>
      match fgets MAXPATHLEN data with
      | ([], _) => Ok None
      | (line, _) =>
          match c_string line with
          | [] => Oob
          | c :: t =>
              if isspace c then Ok None
              else Ok (fst <$> parse_args 3 (trim_right (c :: t)))
          end
      end
  end.

Definition q_entry (w : WORLD) (filename : cstr) (fa1 : FTN_ADDR) (flvr action type : char) : mem (option FTNQ) :=
  if type =? chr "s" then
    let* r := read_status w filename in
    match r with
    | Some [path; size; time] =>
        Ok (Some (mkFTNQ fa1 flvr action type (strnzcpy path MAXPATHLEN) (swrap 64 (strtoumax size))
                    (safe_atol time).1 false))
    | _ => Ok None
    end
  else Ok (Some (mkFTNQ fa1 flvr action type (strnzcpy filename MAXPATHLEN) 0 0 false)).

(** A file for a shared address is first offered to the nodes that share it;
    in a list the elements these calls make are dropped. *)
Fixpoint q_add_file (fuel : nat) (w : WORLD) (q : QUEUE) (filename : cstr) (fa1 : FTN_ADDR)
    (flvr action type : char) (config : BINKD_CONFIG) : mem (QUEUE * WORLD) :=
  match fuel with
  | O => Fuel
  | S f =>
      let* w := mem_fold (fun w chn =>
        if ftnaddress_cmp fa1 (sha chn) =? 0 then
          mem_fold (fun w fa =>
            let* r := q_add_file f w q filename fa flvr action type config in Ok r.2) (sfa chn) w
        else Ok w) (shares config) w in
      match q with
      | Queue l =>
          let* e := q_entry w filename fa1 flvr action type in
          match e with
          | Some e => Ok (Queue (e :: l), w)
          | None => Ok (q, w)
          end
      | SCAN_LISTED =>
          Ok (q, edit_info w fa1 config (fun node =>
            if type =? chr "m" then node <| n_mail_flvr := MAXFLVR flvr (n_mail_flvr node) |>
            else node <| n_files_flvr := MAXFLVR flvr (n_files_flvr node) |>))
      end
  end.
(** A shared address is not shared by another one: two calls deep. *)
Definition SHARE_DEPTH : nat := 2.

(** A file at the end of the list; the new list has one element or none. *)
Definition q_add_last_file (w : WORLD) (q : list FTNQ) (filename : cstr) (fa1 : FTN_ADDR)
    (flvr action type : char) (config : BINKD_CONFIG) : mem (list FTNQ * WORLD) :=
  let* r := q_add_file SHARE_DEPTH w (Queue []) filename fa1 flvr action type config in
  match r.1 with
  | Queue new => Ok (q ++ new, r.2)
  | SCAN_LISTED => Ok (q, r.2)
  end.

(** ** Hold and busy files *)
Definition process_hld (w : WORLD) (fa0 : FTN_ADDR) (path : cstr) (config : BINKD_CONFIG) : WORLD :=
  let '(np, w) := get_node_index w fa0 config in
  match np with
  | None => w
  | Some i =>
      let until := match fopen_r (sys w) path with
                   | Some data =>
                       let s := skip_spaces (c_string data) in
                       let d := if (hd0 s =? chr "-") || (hd0 s =? chr "+") then tl s else s in
                       if isdigit (hd0 d) then (strtol s).1 else 0
                   | None => 0
                   end in
      if until <=? safe_time (sys w)
      then (on_sys (w <| pNodArray ::= alter (fun n => n <| n_hold_until := 0 |>) i |>) (delete_ (sys w) path)).2
      else w <| pNodArray ::= alter (fun n => n <| n_hold_until := until |>) i |>
  end.

Definition process_bsy (w : WORLD) (fa0 : FTN_ADDR) (path : cstr) (config : BINKD_CONFIG) : WORLD :=
  let s := drop (length path - 4) path in
  let old := match fs (sys w) !! path with
             | Some f => negb (kill_old_bsy config =? 0) && (kill_old_bsy config <? clock (sys w) - f_mtime f)
             | None => false
             end in
  if old then (on_sys w (delete_ (sys w) path)).2
  else
    edit_info w fa0 config (fun n =>
      if negb (n_busy n =? chr "b") && ((o_stricmp s (str ".bsy") =? 0) || (o_stricmp s (str ".csy") =? 0))
      then n <| n_busy := tolower (hd0 (drop 1 s)) |> else n).

(** ** An outbound directory *)

(** [sscanf (s, "%<k>x", &n)] for [k] hexadecimal digits, into an [int]. *)
Definition hex_val (c : char) : Z := if isdigit c then c - 48 else tolower c - 87.
Definition scan_hex (k : nat) (s : cstr) : Z :=
  swrap 32 (fold_left (fun a c => a * 16 + hex_val c) (take k s) 0).

(** Eight hexadecimal digits, a dot and a three-letter extension. *)
Definition bso_name (s : cstr) : bool :=
  forallb isxdigit (take 8 s) && (length s =? 12)%nat && (hd0 (drop 8 s) =? chr ".") &&
  negb (in_set (drop 9 s) (chr ".")).

(** The address a name stands for in the directory of [fa1]. *)
Definition name_addr (fa1 : FTN_ADDR) (s : cstr) : FTN_ADDR :=
  if negb (fa_node fa1 =? -1) && negb (fa_p fa1 =? 0) then fa1 <| fa_p := scan_hex 8 s |>
  else fa1 <| fa_net := scan_hex 4 s |> <| fa_node := scan_hex 4 (drop 4 s) |>.

(** The files of one kind or another for the address [fa2]. *)
Definition q_add_entry (w : WORLD) (q : QUEUE) (buf s : cstr) (fa1 fa2 : FTN_ADDR) (config : BINKD_CONFIG)
    : mem (QUEUE * WORLD) :=
  let add := q_add_file SHARE_DEPTH in
  let ext := drop 9 s in
  let w := if (o_stricmp ext (str "bsy") =? 0) || (o_stricmp ext (str "csy") =? 0)
           then process_bsy w fa2 buf config else w in
  let '(known, w) :=
    if havedefnode config then (true, w)
    else let '(n, w) := get_node_info w fa2 config in
         (bool_decide (is_Some n) || is5D fa1, w) in
  if negb known then Ok (q, w)
  else if in_set out_flvrs (hd0 ext) && (tolower (hd0 (drop 1 ext)) =? chr "u") && (tolower (hd0 (drop 2 ext)) =? chr "t")
  then add w q buf fa2 (hd0 ext) (chr "d") (chr "m") config
  else if o_stricmp ext (str "req") =? 0 then add w q buf fa2 (chr "h") (chr "s") (chr "r") config
  else if o_stricmp ext (str "hld") =? 0 then Ok (q, process_hld w fa2 buf config)
  else if in_set flo_flvrs (hd0 ext) && (tolower (hd0 (drop 1 ext)) =? chr "l") && (tolower (hd0 (drop 2 ext)) =? chr "o")
  then add w q buf fa2 (hd0 ext) (chr "d") (chr "l") config
  else if o_stricmp ext (str "stc") =? 0 then add w q buf fa2 (chr "h") 0 (chr "s") config
  else Ok (q, w).

(** The recursion goes into point directories. *)
Fixpoint q_add_dir (fuel : nat) (w : WORLD) (q : QUEUE) (dir : cstr) (fa1 : FTN_ADDR) (config : BINKD_CONFIG)
    : mem (QUEUE * WORLD) :=
  match fuel with
  | O => Fuel
  | S f =>
      if negb (is_dir (sys w) dir) then Ok (q, w) else
      mem_fold (fun qw s =>
        let '(q, w) := qw in
        if negb (bso_name s) then Ok (q, w) else
        let fa2 := name_addr fa1 s in
        if negb (fa_node fa1 =? -1) && negb (fa_p fa1 =? -1) && negb (ftnaddress_cmp fa1 fa2 =? 0)
        then Ok (q, w) else
        let buf := path_join dir s in
        if (o_stricmp (drop 9 s) (str "pnt") =? 0) && (fa_p fa2 =? -1) then
          (if is_dir (sys w) buf then q_add_dir f w q buf fa2 config else Ok (q, w))
        else
          let fa2 := if fa_p fa2 =? -1 then fa2 <| fa_p := 0 |> else fa2 in
          q_add_entry w q buf s fa1 fa2 config)
        (readdir (sys w) dir) (q, w)
  end.
(** Each level makes the path longer, and a path has at most [MAXPATHLEN] characters. *)
Definition DIR_DEPTH : nat := buf_size.

(** ** File boxes *)
Definition q_scan_box (w : WORLD) (q : QUEUE) (fa0 : FTN_ADDR) (boxpath : cstr) (flvr : char) (deleteempty : bool)
    (config : BINKD_CONFIG) : mem (QUEUE * WORLD) :=
  if negb (exists_ (sys w) boxpath) || deny (sys w) boxpath then Ok (q, w)
  else if negb (is_dir (sys w) boxpath) then Ok (q, w)
  else
    let* r := mem_fold (fun st name =>
      let '(q, w, n_files) := st in
      let buf := path_join boxpath name in
      if negb (hd0 name =? chr ".") && is_file (sys w) buf then
        let* r := q_add_file SHARE_DEPTH w q buf fa0 flvr (chr "d") 0 config in
        Ok (r.1, r.2, S n_files)
      else Ok (q, w, n_files))
      (readdir (sys w) boxpath) (q, w, O) in
    let '(q, w, n_files) := r in
    Ok (q, if (n_files =? 0)%nat && deleteempty then (on_sys w (rmdir (sys w) boxpath)).2 else w).

Definition to32 (N : Z) : char :=
  if (0 <=? N) && (N <=? 9) then chr "0" + N
  else if (9 <? N) && (N <? 32) then chr "A" + N - 10
  else chr "Z".

Definition brakeExt : list (cstr * char) :=
  [(str "immediate", chr "i"); (str "crash", chr "c"); (str "direct", chr "d"); (str "normal", chr "f"); (str "hold", chr "h");
   (str "Immediate", chr "i"); (str "Crash", chr "c"); (str "Direct", chr "d"); (str "Normal", chr "f"); (str "Hold", chr "h")].

Definition fmt_uint (z : Z) : cstr := fmt_u (wrap 32 z).
Definition dot : cstr := str ".".
Definition bbox_name (fa0 : FTN_ADDR) : cstr :=
  fa_domain fa0 ++ dot ++ fmt_uint (fa_z fa0) ++ dot ++ fmt_uint (fa_net fa0) ++ dot ++
  fmt_uint (fa_node fa0) ++ dot ++ fmt_uint (fa_p fa0) ++ dot.
Definition tbox_name (fa0 : FTN_ADDR) : cstr :=
  fmt_uint (fa_z fa0) ++ dot ++ fmt_uint (fa_net fa0) ++ dot ++ fmt_uint (fa_node fa0) ++ dot ++ fmt_uint (fa_p fa0).
Definition tbox_name32 (fa0 : FTN_ADDR) : cstr :=
  let z := fa_z fa0 in let net := fa_net fa0 in let node := fa_node fa0 in let p := fa_p fa0 in
  [to32 (z ÷ 32); to32 (Z.rem z 32);
   to32 (net ÷ 1024); to32 (Z.rem (net ÷ 32) 32); to32 (Z.rem net 32);
   to32 (node ÷ 1024); to32 (Z.rem (node ÷ 32) 32)] ++ [to32 (Z.rem node 32)] ++ dot ++
  [to32 (p ÷ 32); to32 (Z.rem p 32)].

(** The hold box ends in the upper-case letter if such a directory exists. *)
Definition hold_box (w : WORLD) (buf ext : cstr) : cstr :=
  let b := strnzcat buf ext buf_size in
  if is_dir (sys w) b then b else take (length b - 1) b ++ str "h".

Definition q_scan_tbox (w : WORLD) (q : QUEUE) (fa0 : FTN_ADDR) (name ext : cstr) (config : BINKD_CONFIG)
    : mem (QUEUE * WORLD) :=
  let buf := path_join (tfilebox config) name in
  let* r := q_scan_box w q fa0 buf (chr "f") (deleteablebox config) config in
  q_scan_box r.2 r.1 fa0 (hold_box r.2 buf ext) (chr "h") (deleteablebox config) config.

(** Mail is not given to a node without a password if [send-if-pwd] is set and
    it is the node that called. *)
Definition unsecure (node : option FTN_NODE) (to : bool) (config : BINKD_CONFIG) : bool :=
  negb to && send_if_pwd config &&
  match node with None => true | Some n => strcmp (n_pwd n) (str "-") =? 0 end.

Definition q_scan_boxes_of (to : bool) (config : BINKD_CONFIG) (qw : QUEUE * WORLD) (fa0 : FTN_ADDR)
    : mem (QUEUE * WORLD) :=
  let '(q, w) := qw in
  let '(node, w) := get_node_info w fa0 config in
  if unsecure node to config then Ok (q, w) else
  let* r := match node with
            | Some n => match n_obox n with
                        | Some box => q_scan_box w q fa0 box (n_obox_flvr n) false config
                        | None => Ok (q, w)
                        end
            | None => Ok (q, w)
            end in
  let* r := match bfilebox config with
            | [] => Ok r
            | _ =>
                let buf := path_join (bfilebox config) (bbox_name fa0) in
                mem_fold (fun qw e => q_scan_box qw.2 qw.1 fa0 (strnzcat buf e.1 buf_size) e.2 (deleteablebox config) config)
                  brakeExt r
            end in
  match tfilebox config with
  | [] => Ok r
  | _ =>
      let* r := q_scan_tbox r.2 r.1 fa0 (tbox_name fa0) (str ".H") config in
      q_scan_tbox r.2 r.1 fa0 (tbox_name32 fa0) (str "H") config
  end.
Definition q_scan_boxes (w : WORLD) (q : QUEUE) (fa : list FTN_ADDR) (to : bool) (config : BINKD_CONFIG)
    : mem (QUEUE * WORLD) :=
  mem_fold (q_scan_boxes_of to config) fa (q, w).

(** ** The scans *)

(** Everything for the addresses of a session. *)
Definition q_scan_addr (to : bool) (config : BINKD_CONFIG) (qw : QUEUE * WORLD) (fa0 : FTN_ADDR)
    : mem (QUEUE * WORLD) :=
  let '(q, w) := qw in
  let '(skip, w) :=
    if negb to && send_if_pwd config
    then let '(fn, w) := get_node_info w fa0 config in (unsecure fn to config, w) else (false, w) in
  if skip then Ok (q, w) else
  let* buf := ftnaddress_to_filename_ fa0 (pDomains config) in
  match last_slash buf with
  | Some i => q_add_dir DIR_DEPTH w q (take i buf) fa0 config
  | None => Ok (q, w)
  end.
Definition q_scan_addrs (w : WORLD) (q : QUEUE) (fa : list FTN_ADDR) (to : bool) (config : BINKD_CONFIG)
    : mem (QUEUE * WORLD) :=
  let* r := mem_fold (q_scan_addr to config) fa (q, w) in
  q_scan_boxes r.2 r.1 fa to config.

(** [strtol (s, NULL, 16)] after a hexadecimal digit. *)
Fixpoint hex_digits (s : cstr) : cstr :=
  match s with c :: t => if isxdigit c then c :: hex_digits t else [] | [] => [] end.
Definition strtol16 (s : cstr) : Z :=
  let s := if (hd0 s =? chr "0") && (tolower (hd0 (drop 1 s)) =? chr "x") && isxdigit (hd0 (drop 2 s)) then drop 2 s else s in
  let n := fold_left (fun a c => a * 16 + hex_val c) (hex_digits s) 0 in
  if LONG_MAX <? n then LONG_MAX else n.

(** The directories of one domain: the default one and one for each zone. *)
Definition q_scan_domain (config : BINKD_CONFIG) (qw : QUEUE * WORLD) (d : FTN_DOMAIN) : mem (QUEUE * WORLD) :=
  match d_alias4 d, d_path d with
  | Some _, _ => Ok qw
  | None, [] => Oob
  | None, _ =>
      let '(q, w) := qw in
      let outb_path := strnzcpy (d_path d) MAXPATHLEN in
      let outb_path := if hd0 (rev outb_path) =? chr ":" then outb_path ++ str "/" else outb_path in
      if negb (is_dir (sys w) outb_path) then Ok (q, w) else
      let len := length (d_dir d) in
      mem_fold (fun qw name =>
        let '(q, w) := qw in
        let ext := hd0 (drop len name) in
        if (o_strnicmp name (d_dir d) len =? 0) && ((ext =? 0) || ((ext =? chr ".") && isxdigit (hd0 (drop (S len) name))))
        then
          let z := if ext =? chr "." then swrap 32 (strtol16 (drop (S len) name)) else d_z d in
          if (ext =? 0) || negb (z =? d_z d)
          then q_add_dir DIR_DEPTH w q (path_join (d_path d) name) (mkFTN_ADDR (d_name d) z (-1) (-1) (-1)) config
          else Ok (q, w)
        else Ok (q, w))
        (readdir (sys w) outb_path) (q, w)
  end.

Definition qn_scan (config : BINKD_CONFIG) (fn : FTN_NODE) (q : QUEUE) (w : WORLD) : mem (bool * QUEUE * WORLD) :=
  let* r := q_scan_boxes w q [n_fa fn] true config in
  Ok (false, r.1, r.2).

Definition q_scan (w : WORLD) (q : QUEUE) (config : BINKD_CONFIG) : mem (QUEUE * WORLD) :=
  let* r := mem_fold (q_scan_domain config) (pDomains config) (q, w) in
  let* r := foreach_node config (qn_scan config) r.1 r.2 in
  Ok (r.1.2, r.2).

(** Forgetting what [SCAN_LISTED] found. *)
Definition qn_free (fn : FTN_NODE) (arg : unit) (w : WORLD) : mem (bool * unit * WORLD) :=
  Ok (false, arg, update_node w (n_fa fn) (fun n =>
    n <| n_hold_until := 0 |> <| n_mail_flvr := 0 |> <| n_files_flvr := 0 |> <| n_busy := 0 |>)).
Definition q_free (w : WORLD) (q : QUEUE) (config : BINKD_CONFIG) : mem WORLD :=
  match q with
  | Queue _ => Ok w
  | SCAN_LISTED => let* r := foreach_node config qn_free tt w in Ok r.2
  end.

(** ** Whom to call *)
Record qn_not_empty_arg := mkqn_not_empty_arg { ne_maxflvr : char; ne_fn : option FTN_NODE }.
Definition qn_not_empty (fn : FTN_NODE) (a : qn_not_empty_arg) (w : WORLD) : mem (bool * qn_not_empty_arg * WORLD) :=
  let hosts := default [] (n_hosts fn) in
  if (n_busy fn =? 0) && negb (strcmp hosts (str "-") =? 0) && (n_hold_until fn <? safe_time (sys w)) &&
     negb (ne_maxflvr a =? MAXFLVR (n_mail_flvr fn) (MAXFLVR (n_files_flvr fn) (ne_maxflvr a)))
  then Ok (false, mkqn_not_empty_arg (MAXFLVR (n_mail_flvr fn) (n_files_flvr fn)) (Some fn), w)
  else Ok (false, a, w).
Definition q_not_empty (w : WORLD) (config : BINKD_CONFIG) : mem (option FTN_NODE * WORLD) :=
  let* r := foreach_node config qn_not_empty (mkqn_not_empty_arg 0 None) w in
  let '(_, arg, w) := r in
  Ok (if negb (ne_maxflvr arg =? 0) && negb (tolower (ne_maxflvr arg) =? chr "h") then ne_fn arg else None, w).
Definition q_next_node (w : WORLD) (config : BINKD_CONFIG) : mem (option FTN_NODE * WORLD) :=
  let* r := q_not_empty w config in
  match r with
  | (None, w) => Ok (None, w)
  | (Some fn, w) =>
      let take_ n := n <| n_mail_flvr := 0 |> <| n_files_flvr := 0 |> <| n_busy := chr "c" |> in
      Ok (Some (take_ fn), update_node w (n_fa fn) take_)
  end.

(** ** The order of sending *)
Definition weight_by_name (s : cstr) : Z :=
  if ispkt s then 100 else if isarcmail s then 50 else if istic s then -100 else 0.
Definition cmp_filebox_files (a b : FTNQ) : Z :=
  let w_a := weight_by_name (q_path a) in
  let w_b := weight_by_name (q_path b) in
  if w_a - w_b =? 0 then swrap 32 (q_time a - q_time b) else w_b - w_a.

Fixpoint cmp_aka (a b : FTN_ADDR) (fa : list FTN_ADDR) : option Z :=
  match fa with
  | [] => None
  | x :: t =>
      if ftnaddress_cmp a x =? 0 then Some (-1)
      else if ftnaddress_cmp b x =? 0 then Some 1 else cmp_aka a b t
  end.
Definition typeorder : list char := [chr "s"; chr "r"; chr "m"; chr "l"; chr "d"].
Fixpoint cmp_type (a b : char) (order : list char) : option Z :=
  match order with
  | [] => None
  | x :: t => if a =? x then Some (-1) else if b =? x then Some 1 else cmp_type a b t
  end.

Definition q_cmp (a b : FTNQ) (fa : list FTN_ADDR) : Z :=
  if q_sent a || q_sent b then Z.b2z (q_sent b) - Z.b2z (q_sent a)
  else
    let by_aka :=
      if ftnaddress_cmp (q_fa a) (q_fa b) =? 0 then
        if FA_ISNULL (q_fa a) then Some (-1) else if FA_ISNULL (q_fa b) then Some 1
        else cmp_aka (q_fa a) (q_fa b) fa
      else None in
    match by_aka with
    | Some r => r
    | None =>
        match (if negb (q_type a =? q_type b) then cmp_type (q_type a) (q_type b) typeorder else None) with
        | Some r => r
        | None => if (q_type a =? chr "d") && (q_type b =? chr "d") then cmp_filebox_files a b else 0
        end
    end.

Fixpoint q_insert (fa : list FTN_ADDR) (x : FTNQ) (q : list FTNQ) : list FTNQ :=
  match q with
  | [] => [x]
  | cur :: t => if 0 <? q_cmp cur x fa then x :: q else cur :: q_insert fa x t
  end.
Definition q_sort (q : list FTNQ) (fa : list FTN_ADDR) : list FTNQ :=
  match q with
  | [] => []
  | x :: t => fold_left (fun sorted x => q_insert fa x sorted) t [x]
  end.

(** The first element not sent, marked, and its position. *)
Fixpoint select_next_file (q : list FTNQ) : option (nat * FTNQ * list FTNQ) :=
  match q with
  | [] => None
  | curr :: t =>
      if q_sent curr then
        match select_next_file t with
        | Some (i, e, t) => Some (S i, e, curr :: t)
        | None => None
        end
      else let curr := curr <| q_sent := true |> in Some (O, curr, curr :: t)
  end.

(** ** Sizes; a directory has none here *)
Definition stat_file (s : SYS) (p : cstr) : option (Z * Z) :=
  (fun f => (Z.of_nat (length (f_data f)), f_mtime f)) <$> fs s !! p.

Definition flo_line_path (line : list Z) : option cstr :=
  let str := c_string line in
  if (hd0 str =? chr "~") || (hd0 str =? chr "$") then None
  else
    let p := match strchr str 10 with Some i => take i str | None => str end in
    Some (if (hd0 p =? chr "#") || (hd0 p =? chr "^") then tl p else p).

Fixpoint flo_sizes (fuel : nat) (s : SYS) (f : list Z) (curr : FTNQ) : mem FTNQ :=
  match fuel with
  | O => Fuel
  | S fuel =>
      match fgets (MAXPATHLEN + 1) f with
      | ([], _) => Ok curr
      | (line, f) =>
          flo_sizes fuel s f
            match flo_line_path line ≫= stat_file s with
            | Some (size, mtime) =>
                curr <| q_size ::= fun z => z + size |>
                     <| q_time ::= fun t => if t <? mtime then mtime else t |>
            | None => curr
            end
      end
  end.

Fixpoint q_get_sizes (s : SYS) (q : list FTNQ) : mem (Z * Z * list FTNQ) :=
  match q with
  | [] => Ok (0, 0, [])
  | curr :: t =>
      let* curr :=
        if q_type curr =? chr "l" then
          if negb (q_size curr =? 0) then Ok curr
          else match fopen_r s (q_path curr) with
               | Some f => flo_sizes (S (length f)) s f (curr <| q_size := 0 |> <| q_time := 0 |>)
               | None => Ok curr
               end
        else if q_type curr =? chr "s" then Ok curr
        else if q_size curr =? 0 then
          match stat_file s (q_path curr) with
          | Some (size, mtime) => Ok (curr <| q_size := size |> <| q_time := mtime |>)
          | None => Ok curr
          end
        else Ok curr in
      let* r := q_get_sizes s t in
      let '(netsize, filessize, t) := r in
      if q_type curr =? chr "m" then Ok (wrap 64 (netsize + q_size curr), filessize, curr :: t)
      else Ok (netsize, wrap 64 (filessize + q_size curr), curr :: t)
  end.

Definition q_freq_num (q : list FTNQ) : Z :=
  Z.of_nat (length (filter (fun e => q_type e = chr "r") q)).

(** ** Poll, hold and retry files *)
Definition out_file (fa0 : FTN_ADDR) (ext : cstr) (config : BINKD_CONFIG) : mem cstr :=
  let* buf := ftnaddress_to_filename_ fa0 (pDomains config) in
  Ok (match buf with [] => [] | _ => strnzcat buf ext buf_size end).

Definition create_poll (w : WORLD) (fa0 : FTN_ADDR) (flvr : char) (config : BINKD_CONFIG) : mem (bool * WORLD) :=
  let ext := if negb (flvr =? 0) && in_set flo_flvrs flvr then str "." ++ [tolower flvr] ++ str "lo" else str ".flo" in
  let* name := ftnaddress_to_filename_ fa0 (pDomains config) in
  match name with
  | [] => Ok (false, w)
  | _ =>
      let w := (on_sys w (mkpath (sys w) name)).2 in
      let buf := strnzcat name ext buf_size in
      if exists_ (sys w) buf then Ok (true, w)
      else Ok (on_sys w (create_empty_sem_file (sys w) buf))
  end.

Definition hold_node (w : WORLD) (fa0 : FTN_ADDR) (hold_until : Z) (config : BINKD_CONFIG) : mem WORLD :=
  let* buf := out_file fa0 (str ".hld") config in
  match buf with
  | [] => Ok w
  | _ =>
      if fopen_w (sys w) buf then
        let w := w <| sys ::= fun s => put_file s buf (fmt_u (wrap 64 hold_until)) |> in
        Ok (edit_info w fa0 config (fun n => n <| n_hold_until := hold_until |>))
      else Ok w
  end.

Definition try_bytes (nok nbad : Z) (comment : cstr) : list Z :=
  [Z.land nok 0xff; uchar (Z.shiftr nok 8); Z.land nbad 0xff; uchar (Z.shiftr nbad 8); uchar (strlen comment)] ++ comment.

Definition write_try (w : WORLD) (fa0 : FTN_ADDR) (nok nbad : Z) (comment : cstr) (config : BINKD_CONFIG) : mem WORLD :=
  if tries config <=? 0 then Ok w else
  let* buf := out_file fa0 (str ".try") config in
  match buf with
  | [] => Ok w
  | _ => Ok (if fopen_w (sys w) buf then w <| sys ::= fun s => put_file s buf (try_bytes nok nbad comment) |> else w)
  end.

(** Nothing is assigned when the address has no file name: the caller's
    variables keep what they had, which [old] stands for. *)
Definition read_try (w : WORLD) (fa0 : FTN_ADDR) (old : Z * Z) (config : BINKD_CONFIG) : mem (Z * Z) :=
  let* buf := out_file fa0 (str ".try") config in
  match buf with
  | [] => Ok old
  | _ =>
      match fopen_r (sys w) buf with
      | Some (ch1 :: ch2 :: ch3 :: ch4 :: _) => Ok (ch1 + Z.shiftl ch2 8, ch3 + Z.shiftl ch4 8)
      | _ => Ok (0, 0)
      end
  end.

(** The counters are [unsigned]; [junk] is their indeterminate initial value. *)
Definition bad_try (w : WORLD) (fa0 : FTN_ADDR) (error : cstr) (junk : Z * Z) (config : BINKD_CONFIG) : mem WORLD :=
  if tries config =? 0 then Ok w else
  let* r := read_try w fa0 junk config in
  let '(nok, nbad) := r in
  if 0 <? tries config then
    let nbad := wrap 32 (nbad + 1) in
    if wrap 32 (tries config) <=? nbad then
      let* w := hold_node w fa0 (safe_time (sys w) + hold config) config in
      write_try w fa0 0 0 error config
    else write_try w fa0 nok nbad error config
  else write_try w fa0 nok nbad error config.

Definition remove_try (w : WORLD) (fa0 : FTN_ADDR) (config : BINKD_CONFIG) : mem WORLD :=
  if tries config =? 0 then Ok w else
  let* buf := out_file fa0 (str ".try") config in
  match buf with
  | [] => Ok w
  | _ => Ok (if exists_ (sys w) buf then (on_sys w (delete_ (sys w) buf)).2 else w)
  end.

Definition good_try (w : WORLD) (fa0 : FTN_ADDR) (comment : cstr) (junk : Z * Z) (config : BINKD_CONFIG) : mem WORLD :=
  if tries config =? 0 then Ok w
  else if negb (remove_try_files config) then
    let* r := read_try w fa0 junk config in
    write_try w fa0 (wrap 32 (r.1 + 1)) 0 comment config
  else remove_try w fa0 config.

(** ** ftnnode.c: a poll from the command line *)
Definition POLL_NODE_FLAVOUR : char := chr "d".
Definition poll_args : NODE_ARGS :=
  mkNODE_ARGS (Some (str "*")) None None None (chr "-") None None USE_OLD USE_OLD MD_USE_OLD USE_OLD
    MD_USE_OLD USE_OLD USE_OLD None USE_OLD.
Definition poll_node (w : WORLD) (s : cstr) (config : BINKD_CONFIG) : mem (bool * WORLD) :=
  match parse_ftnaddress s (pDomains config) with
  | (false, _) => Ok (false, w)
  | (true, target) =>
      let* target := exp_ftnaddress target (pAddr config) (pDomains config) in
      match target with
      | None => Ok (false, w) (* no address of our own: the program has stopped *)
      | Some target =>
          let '(n, w) := get_node_info w target config in
          let w := match n with Some _ => w | None => add_node_nolock w target poll_args end in
          create_poll w target POLL_NODE_FLAVOUR config
      end
  end.

(** ** Scanning for a session: where the files of the queue come from *)
#[local] Opaque MAXPATHLEN.
#[local] Arguments mem_fold : simpl never.
Section Scan.
Context (config : BINKD_CONFIG).

(** No address that shares another one is itself shared. *)
Definition shares_flat : Prop :=
  forall c1 c2 a, c1 ∈ shares config -> c2 ∈ shares config -> a ∈ sfa c1 -> ftnaddress_cmp a (sha c2) <> 0.
Context (Hflat : shares_flat).

(** A status file whose first byte is NUL, and a zone that overflows the
    extension buffer, make the scan step out of its buffers. *)
Definition bad_status (w : WORLD) : Prop :=
  exists p f, fs (sys w) !! p = Some f /\ hd0 (f_data f) = 0 /\ f_data f <> [].

(** The table changes by node steps only, and files are only removed. *)
Definition scanned (w w' : WORLD) : Prop :=
  rtc (node_step config) w w' /\ fs (sys w') ⊆ fs (sys w).
Lemma scanned_refl w : scanned w w.
Proof. split; [apply rtc_refl|done]. Qed.
Lemma scanned_trans w1 w2 w3 : scanned w1 w2 -> scanned w2 w3 -> scanned w1 w3.
Proof. intros [? ?] [? ?]. split; [by etrans|by etrans]. Qed.
Lemma bad_status_mono w w' : scanned w w' -> bad_status w' -> bad_status w.
Proof. intros [_ Hs] (p & f & Hp & ?). exists p, f. split; [|done]. by eapply lookup_weaken. Qed.

Lemma get_node_index_sys w fa0 : sys (get_node_index w fa0 config).2 = sys w.
Proof.
  unfold get_node_index. remember (if nNodSorted w then w else sort_nodes w) as w1 eqn:E.
  assert (Hw1 : sys w1 = sys w) by (subst; by destruct (nNodSorted w)).
  match goal with |- context [if ?b then _ else _] => destruct b end; [|by destruct (search_for_node w1 fa0)].
  unfold get_defnode_info. destruct (_ ≫= _); [|by destruct (search_for_node w1 fa0)].
  destruct (search_for_node w1 fa0); [done|]. simpl.
  assert (Ha : forall a, sys (add_node_nolock w1 fa0 a) = sys w1)
    by (intros a; unfold add_node_nolock; by destruct (find_node _ _)).
  destruct (search_for_node _ _); simpl; by rewrite Ha.
Qed.

Lemma get_node_info_index w fa0 : (get_node_info w fa0 config).2 = (get_node_index w fa0 config).2.
Proof. unfold get_node_info. by destruct (get_node_index w fa0 config). Qed.

Lemma get_node_info_scanned w fa0 : fa_wf fa0 -> scanned w (get_node_info w fa0 config).2.
Proof.
  intros Hf. split; [by apply rtc_once, ns_get|]. by rewrite get_node_info_index, get_node_index_sys.
Qed.

Lemma edit_info_sys w fa0 f : sys (edit_info w fa0 config f) = sys w.
Proof.
  unfold edit_info. pose proof (get_node_index_sys w fa0) as H. destruct (get_node_index w fa0 config) as [[i|] w']; by simpl in *.
Qed.

Lemma edit_info_scanned w fa0 f : fa_wf fa0 ->
  (forall n, n_fa (f n) = n_fa n /\ passwords (f n) = passwords n) -> scanned w (edit_info w fa0 config f).
Proof. intros Hf Hg. split; [by apply rtc_once, ns_edit|]. by rewrite edit_info_sys. Qed.

Lemma sys_scanned w s : fs s ⊆ fs (sys w) -> scanned w (w <| sys := s |>).
Proof. intros H. split; [apply rtc_once; by apply ns_other|done]. Qed.

Lemma delete_subset s p : fs (delete_ s p).2 ⊆ fs s.
Proof. unfold delete_, unlink. case_if; simpl; [apply delete_subseteq|done]. Qed.
Lemma rmdir_subset s p : fs (rmdir s p).2 ⊆ fs s.
Proof. unfold rmdir. by case_if. Qed.

Lemma process_bsy_scanned w fa0 path : fa_wf fa0 -> scanned w (process_bsy w fa0 path config).
Proof.
  intros Hf. unfold process_bsy. case_if; [apply sys_scanned, delete_subset|].
  apply edit_info_scanned; [done|]. intros n. by case_if.
Qed.

Lemma process_hld_edit w fa0 path : exists f, (forall n, n_fa (f n) = n_fa n /\ passwords (f n) = passwords n) /\
  (process_hld w fa0 path config = edit_info w fa0 config f \/
   process_hld w fa0 path config = (edit_info w fa0 config f) <| sys := (delete_ (sys w) path).2 |>).
Proof.
  unfold process_hld, edit_info. pose proof (get_node_index_sys w fa0) as H.
  destruct (get_node_index w fa0 config) as [[i|] w1]; simpl in H; [|by exists id; split; [|left]].
  match goal with |- context [?u <=? _] => set (until := u) end. case_if.
  - exists (fun n => n <| n_hold_until := 0 |>). split; [done|]. right. unfold on_sys. by rewrite H.
  - exists (fun n => n <| n_hold_until := until |>). split; [done|]. by left.
Qed.

Lemma process_hld_scanned w fa0 path : fa_wf fa0 -> scanned w (process_hld w fa0 path config).
Proof.
  intros Hf. destruct (process_hld_edit w fa0 path) as (f & Hg & [-> | ->]); [by apply edit_info_scanned|].
  eapply scanned_trans; [by apply (edit_info_scanned _ fa0 f)|]. apply sys_scanned.
  rewrite edit_info_sys. apply delete_subset.
Qed.

(** *** Adding a file to a list *)
Definition added (P : FTNQ -> Prop) (w : WORLD) (l : list FTNQ) (r : QUEUE * WORLD) : Prop :=
  scanned w r.2 /\ exists new, r.1 = Queue (new ++ l) /\ Forall P new.

Lemma added_none P w w' l : scanned w w' -> added P w l (Queue l, w').
Proof. intros Hs. split; [done|]. by exists []. Qed.

Lemma added_weaken (P Q : FTNQ -> Prop) w l r : (forall e, P e -> Q e) -> added P w l r -> added Q w l r.
Proof. intros HPQ [Hs (new & E & HP)]. split; [done|]. exists new. split; [done|]. by eapply Forall_impl. Qed.

(** Two scans in a row. *)
Lemma added_bind (P : FTNQ -> Prop) w l (m : mem (QUEUE * WORLD)) (k : QUEUE * WORLD -> mem (QUEUE * WORLD)) (E : WORLD -> Prop) :
  (forall w1 w2, scanned w1 w2 -> E w2 -> E w1) ->
  outcome (added P w l) (E w) m ->
  (forall l' w', scanned w w' -> outcome (added P w' l') (E w') (k (Queue l', w'))) ->
  outcome (added P w l) (E w) (mem_bind m k).
Proof.
  intros HE Hm Hk. eapply outcome_bind; [done|]. intros [q w'] [Hs (new & Eq & HP)]. simpl in Eq, Hs. subst q.
  eapply outcome_weaken; [by apply Hk| |by apply HE].
  intros [q2 w2] [Hs2 (new2 & Eq2 & HP2)]. simpl in *. split; [by eapply scanned_trans|].
  exists (new2 ++ new). simpl. rewrite Eq2, <- app_assoc. split; [done|]. by apply Forall_app.
Qed.

Lemma added_fold {A} (P : FTNQ -> Prop) (E : WORLD -> Prop) (f : QUEUE * WORLD -> A -> mem (QUEUE * WORLD)) xs w l :
  (forall w1 w2, scanned w1 w2 -> E w2 -> E w1) ->
  (forall l' w' x, x ∈ xs -> scanned w w' -> outcome (added P w' l') (E w') (f (Queue l', w') x)) ->
  outcome (added P w l) (E w) (mem_fold f xs (Queue l, w)).
Proof.
  intros HE. revert w l. induction xs as [|x xs IH]; intros w l Hf; cbn [mem_fold]; [by apply added_none, scanned_refl|].
  apply added_bind; [done|apply Hf; [left|apply scanned_refl]|].
  intros l' w' Hs. apply IH. intros l2 w2 y Hy Hs2. apply Hf; [by right|by eapply scanned_trans].
Qed.

Lemma read_status_outcome w filename : outcome (fun _ => True) (bad_status w) (read_status w filename).
Proof.
  unfold read_status, fopen_r. destruct (fs (sys w) !! filename) as [f|] eqn:Ef; simpl; [|done].
  destruct (fgets MAXPATHLEN (f_data f)) as [[|c line] rest] eqn:Eg; [done|].
  destruct (c_string (c :: line)) as [|c' t] eqn:Ec; [|by case_if].
  exists filename, f. split; [done|]. simpl in Ec. destruct (Z.eqb_spec c 0) as [->|]; [|done].
  pose proof (fgets_split MAXPATHLEN (f_data f)) as Hsp. rewrite Eg in Hsp. simpl in Hsp. rewrite <- Hsp. done.
Qed.

Lemma q_entry_outcome w filename fa1 flvr action type :
  outcome (fun e => match e with Some e => q_fa e = fa1 /\ q_sent e = false | None => True end) (bad_status w)
    (q_entry w filename fa1 flvr action type).
Proof.
  unfold q_entry. case_if; [|done]. eapply outcome_bind; [apply read_status_outcome|].
  intros [[|p [|s [|t [|? ?]]]]|] _; done.
Qed.

Definition entry_for (a : FTN_ADDR) (e : FTNQ) : Prop := q_fa e = a /\ q_sent e = false.

(** The calls for the sharing nodes leave nothing behind in a list. *)
Lemma q_add_file_added f w l filename fa1 flvr action type :
  (1 < f)%nat \/ (f = 1%nat /\ forall c, c ∈ shares config -> ftnaddress_cmp fa1 (sha c) <> 0) ->
  outcome (fun r => r.2 = w /\ added (entry_for fa1) w l r) (bad_status w)
    (q_add_file f w (Queue l) filename fa1 flvr action type config).
Proof.
  revert fa1. induction f as [|f IH]; intros fa1 Hf; [lia|]. cbn [q_add_file].
  eapply (outcome_bind (fun w' => w' = w)).
  - apply outcome_fold; [done|]. intros w' chn Hin ->. case_if; bools; [|done].
    apply outcome_fold; [done|]. intros w' a Ha ->.
    eapply outcome_bind; [apply IH|by intros r [-> _]].
    destruct Hf as [Hf|[_ Hf]]; [|by apply Hf in Hin].
    destruct (decide (f = 1%nat)) as [->|]; [|left; lia]. right. split; [done|].
    intros c Hc. by apply (Hflat chn c a).
  - intros w' ->. eapply outcome_bind; [apply q_entry_outcome|].
    intros [e|] He; (split; [done|]); [|by apply added_none, scanned_refl].
    split; [apply scanned_refl|]. exists [e]. split; [done|]. by repeat constructor; apply He.
Qed.

Lemma q_add_added w l filename fa1 flvr action type :
  outcome (added (entry_for fa1) w l) (bad_status w)
    (q_add_file SHARE_DEPTH w (Queue l) filename fa1 flvr action type config).
Proof.
  eapply outcome_weaken; [apply q_add_file_added; left; unfold SHARE_DEPTH; lia| |done]. by intros r [_ ?].
Qed.

(** *** A directory, for one address *)
Definition full_addr (a : FTN_ADDR) : Prop := fa_wf a /\ 0 <= fa_node a /\ 0 <= fa_p a.

Lemma stricmp_refl s : o_stricmp s s = 0.
Proof. induction s as [|c s IH]; simpl; [done|]. by rewrite Z.eqb_refl. Qed.

Lemma swrap_range z : - 2 ^ 31 <= swrap 32 z < 2 ^ 31.
Proof. unfold swrap. pose proof (Z.mod_pos_bound z (2 ^ 32) ltac:(lia)). case_if; bools; lia. Qed.

Lemma swrap_zero z : - 2 ^ 32 < z < 2 ^ 32 -> swrap 32 z = 0 -> z = 0.
Proof.
  unfold swrap. intros Hz H. destruct (Z_lt_le_dec z 0).
  - rewrite <- (Z.mod_unique z (2 ^ 32) (-1) (z + 2 ^ 32)) in H by lia. destruct (_ <? _) eqn:E in H; bools; lia.
  - rewrite Z.mod_small in H by lia. destruct (_ <? _) eqn:E in H; bools; lia.
Qed.

(** In the directory of a full address only its own names match. *)
Lemma name_addr_same a s : full_addr a -> ftnaddress_cmp a (name_addr a s) = 0 -> name_addr a s = a.
Proof.
  intros [(Hd & Hwf) [Hnode Hp]] H. unfold INT_MAX in Hwf. unfold ftnaddress_cmp in H.
  assert (Hdom : fa_domain (name_addr a s) = fa_domain a) by (unfold name_addr; by case_if).
  assert (Hrange : - 2 ^ 31 <= fa_net (name_addr a s) < 2 ^ 31 /\ - 2 ^ 31 <= fa_node (name_addr a s) < 2 ^ 31 /\
    - 2 ^ 31 <= fa_p (name_addr a s) < 2 ^ 31).
  { pose proof (swrap_range (fold_left (fun a c => a * 16 + hex_val c) (take 8 s) 0)).
    pose proof (swrap_range (fold_left (fun a c => a * 16 + hex_val c) (take 4 s) 0)).
    pose proof (swrap_range (fold_left (fun a c => a * 16 + hex_val c) (take 4 (drop 4 s)) 0)).
    unfold name_addr, scan_hex. case_if; simpl; lia. }
  assert (Hz : fa_z (name_addr a s) = fa_z a) by (unfold name_addr; by case_if).
  rewrite Hdom, stricmp_refl, Hz, !Z.eqb_refl in H. cbn [negb] in H.
  destruct (Z.eqb_spec (fa_net a) (fa_net (name_addr a s))) as [En|En]; cbn [negb] in H;
    [|apply swrap_zero in H; lia].
  destruct (Z.eqb_spec (fa_node a) (fa_node (name_addr a s))) as [Eo|Eo]; cbn [negb] in H;
    [|apply swrap_zero in H; lia].
  destruct (Z.eqb_spec (fa_p a) (fa_p (name_addr a s))) as [Ep|Ep]; cbn [negb] in H;
    [|apply swrap_zero in H; lia].
  clear -Hdom Hz En Eo Ep. destruct a, (name_addr _ s). simpl in *. by subst.
Qed.

Lemma q_add_entry_added w l buf s a : fa_wf a ->
  outcome (added (entry_for a) w l) (bad_status w) (q_add_entry w (Queue l) buf s a a config).
Proof.
  intros Hf. unfold q_add_entry. cbv zeta.
  match goal with |- context [if ?b then process_bsy _ _ _ _ else _] =>
    remember (if b then process_bsy w a buf config else w) as w1 eqn:E1 end.
  assert (H1 : scanned w w1) by (subst w1; case_if; [by apply process_bsy_scanned|apply scanned_refl]). clear E1.
  match goal with |- outcome _ _ (let '(_, _) := ?x in _) => destruct x as [known w2] eqn:E2 end.
  assert (H2 : scanned w w2).
  { eapply scanned_trans; [done|]. destruct (havedefnode config); [injection E2 as _ <-; apply scanned_refl|].
    pose proof (get_node_info_scanned w1 a Hf) as H. destruct (get_node_info w1 a config). injection E2 as _ <-. done. }
  assert (Hadd : forall flvr action type, outcome (added (entry_for a) w l) (bad_status w)
    (q_add_file SHARE_DEPTH w2 (Queue l) buf a flvr action type config)).
  { intros. eapply outcome_weaken; [apply q_add_added| |by apply bad_status_mono].
    intros r [Hs Hn]. split; [by eapply scanned_trans|done]. }
  repeat (case_if; [first [apply Hadd | by apply added_none
    | apply added_none; eapply scanned_trans; [done|by apply process_hld_scanned]]|]).
  by apply added_none.
Qed.

Lemma q_add_dir_added f w l dir a : full_addr a -> (0 < f)%nat ->
  outcome (added (entry_for a) w l) (bad_status w) (q_add_dir f w (Queue l) dir a config).
Proof.
  intros Ha Hfuel. destruct f as [|f]; [lia|]. cbn [q_add_dir]. case_if; [by apply added_none, scanned_refl|].
  apply added_fold; [apply bad_status_mono|]. intros l' w' s _ Hs. cbv zeta.
  case_if; [by apply added_none, scanned_refl|]. destruct Ha as (Hwf & Hnode & Hp).
  rewrite (proj2 (Z.eqb_neq (fa_node a) (-1))) by lia. rewrite (proj2 (Z.eqb_neq (fa_p a) (-1))) by lia. cbn [negb andb].
  case_if; [by apply added_none, scanned_refl|]. bools.
  rewrite (name_addr_same a s) by done. rewrite (proj2 (Z.eqb_neq (fa_p a) (-1))) by lia. rewrite andb_false_r.
  by apply q_add_entry_added.
Qed.

(** *** File boxes *)
Lemma q_scan_box_added w l a boxpath flvr deleteempty :
  outcome (added (entry_for a) w l) (bad_status w) (q_scan_box w (Queue l) a boxpath flvr deleteempty config).
Proof.
  unfold q_scan_box. case_if; [by apply added_none, scanned_refl|]. case_if; [by apply added_none, scanned_refl|].
  eapply (outcome_bind (fun st => added (entry_for a) w l st.1)).
  - apply outcome_fold; [by apply added_none, scanned_refl|].
    intros [[q w'] n] name _ [Hs (new & Eq & HP)]. simpl in Hs, Eq. subst q. case_if; [|by split; [|exists new]].
    eapply outcome_bind.
    + eapply outcome_weaken; [apply q_add_added|by intros r Hr; apply Hr|by apply bad_status_mono].
    + intros [q2 w2] [Hs2 (new2 & Eq2 & HP2)]. simpl in *. subst q2. split; [by eapply scanned_trans|].
      exists (new2 ++ new). simpl. rewrite <- app_assoc. split; [done|]. by apply Forall_app.
  - intros [[q w'] n] [Hs Hn]. simpl in *. split; [|done]. simpl. case_if; [|done].
    eapply scanned_trans; [done|]. unfold on_sys. apply sys_scanned, rmdir_subset.
Qed.

Lemma q_scan_tbox_added w l a name ext :
  outcome (added (entry_for a) w l) (bad_status w) (q_scan_tbox w (Queue l) a name ext config).
Proof.
  unfold q_scan_tbox. apply added_bind; [apply bad_status_mono|apply q_scan_box_added|].
  intros. apply q_scan_box_added.
Qed.

(** *** A node whose password [send-if-pwd] asks for *)
Definition has_password (w : WORLD) (a : FTN_ADDR) : Prop :=
  exists n, n ∈ pNodArray w /\ fa_same (n_fa n) a /\ no_pwd (n_pwd n) = false.
Definition may_have (to : bool) (w : WORLD) (a : FTN_ADDR) : Prop :=
  to = false -> send_if_pwd config = true -> has_password w a.

Lemma has_password_kept w w' a : table_ok w -> scanned w w' -> has_password w a -> has_password w' a.
Proof.
  intros Hw [Hs _] (n & Hn & Hsame & Hp). destruct (node_steps_keeps config _ _ Hs Hw) as [_ Hk].
  destruct (Hk n Hn) as (n' & Hn' & Hfa & Hpw). exists n'. split; [done|]. rewrite Hfa. split; [done|].
  assert (protected n) as Hprot by (by left). specialize (Hpw Hprot). unfold passwords in Hpw.
  by injection Hpw as -> _ _.
Qed.

Lemma unsecure_password w a to : table_ok w -> fa_wf a ->
  unsecure (get_node_info w a config).1 to config = false -> may_have to (get_node_info w a config).2 a.
Proof.
  intros Hw Hf H -> Hsend. unfold unsecure in H. rewrite Hsend in H. cbn [negb andb] in H.
  destruct (get_node_info_world config w a) as (np & Ei & Er). rewrite Er in H.
  destruct (get_node_index_spec config _ _ _ _ Hw Hf Ei) as (_ & _ & Hl). destruct np as [i|]; [|done].
  destruct Hl as (n & Hn & Hkey & _). simpl in H. rewrite Hn in H. exists n.
  split; [by eapply list_elem_of_lookup_2|]. split; [by apply key_same|done].
Qed.

(** *** The scan for a session *)
Definition deliverable (to : bool) (fa : list FTN_ADDR) (w : WORLD) (e : FTNQ) : Prop :=
  q_fa e ∈ fa /\ q_sent e = false /\ may_have to w (q_fa e).

(** The invariant of the scans: the table, and what has been queued so far. *)
Definition scan_inv (to : bool) (fa : list FTN_ADDR) (w0 : WORLD) (l : list FTNQ) (r : QUEUE * WORLD) : Prop :=
  table_ok r.2 /\ scanned w0 r.2 /\ exists new, r.1 = Queue (new ++ l) /\ Forall (deliverable to fa r.2) new.

Definition bad_scan (w : WORLD) (fa : list FTN_ADDR) : Prop :=
  bad_status w \/ exists a, a ∈ fa /\ ftnaddress_to_filename_ a (pDomains config) = Oob.

Lemma scanned_table w w' : scanned w w' -> table_ok w -> table_ok w'.
Proof. intros [Hs _] Hw. by apply (node_steps_keeps config _ _ Hs). Qed.

Lemma may_have_kept to w w' a : table_ok w -> scanned w w' -> may_have to w a -> may_have to w' a.
Proof. intros Hw Hs H Ht Hsend. eapply has_password_kept; eauto. Qed.

(** Files added for an address that may have them keep the invariant. *)
Lemma scan_inv_added to fa w0 l w a new r :
  a ∈ fa -> table_ok w -> may_have to w a -> scanned w0 w -> Forall (deliverable to fa w) new ->
  added (entry_for a) w (new ++ l) r -> scan_inv to fa w0 l r.
Proof.
  intros Ha Hw Hmay Hs0 Hnew [Hs (new2 & Eq & HP)]. split_and!; [by eapply scanned_table|by eapply scanned_trans|].
  exists (new2 ++ new). rewrite Eq, app_assoc. split; [done|]. apply Forall_app. split.
  - eapply Forall_impl; [done|]. intros e [Hfa Hsent]. split_and!; [by rewrite Hfa|done|].
    rewrite Hfa. by eapply may_have_kept.
  - eapply Forall_impl; [done|]. intros e (? & ? & ?). split_and!; [done|done|]. by eapply may_have_kept.
Qed.

Lemma scan_inv_none to fa w0 l w new w' :
  table_ok w -> scanned w0 w -> Forall (deliverable to fa w) new -> scanned w w' ->
  scan_inv to fa w0 l (Queue (new ++ l), w').
Proof.
  intros Hw Hs0 Hnew Hs. split_and!; [by eapply scanned_table|by eapply scanned_trans|]. exists new. split; [done|].
  eapply Forall_impl; [done|]. intros e (? & ? & ?). split_and!; [done|done|]. by eapply may_have_kept.
Qed.

(** The password test of both scans. *)
Lemma scan_inv_step to fa w0 l w new a (m : mem (QUEUE * WORLD)) :
  a ∈ fa -> fa_wf a -> table_ok w -> scanned w0 w -> Forall (deliverable to fa w) new ->
  unsecure (get_node_info w a config).1 to config = false ->
  outcome (added (entry_for a) (get_node_info w a config).2 (new ++ l)) (bad_scan w0 fa) m ->
  outcome (scan_inv to fa w0 l) (bad_scan w0 fa) m.
Proof.
  intros Ha Hf Hw Hs0 Hnew Hun Hm. pose proof (get_node_info_scanned w a Hf) as Hg.
  eapply outcome_weaken; [done| |done]. intros r Hr.
  eapply (scan_inv_added to fa w0 l (get_node_info w a config).2 a new); try done.
  - by eapply scanned_table.
  - by apply unsecure_password.
  - by eapply scanned_trans.
  - eapply Forall_impl; [done|]. intros e (? & ? & ?). split_and!; [done|done|]. by eapply may_have_kept.
Qed.

Lemma q_scan_addr_inv to fa w0 l q w a : a ∈ fa -> full_addr a ->
  scan_inv to fa w0 l (q, w) -> outcome (scan_inv to fa w0 l) (bad_scan w0 fa) (q_scan_addr to config (q, w) a).
Proof.
  intros Ha Hfull (Hw & Hs0 & new & Eq & Hnew). simpl in *. subst q. pose proof Hfull as [Hf _].
  assert (Hdir : forall w', scanned w0 w' ->
    outcome (added (entry_for a) w' (new ++ l)) (bad_scan w0 fa)
      (let* buf := ftnaddress_to_filename_ a (pDomains config) in
       match last_slash buf with
       | Some i => q_add_dir DIR_DEPTH w' (Queue (new ++ l)) (take i buf) a config
       | None => Ok (Queue (new ++ l), w')
       end)).
  { intros w' Hs'. destruct (ftnaddress_to_filename_ a (pDomains config)) as [buf| |] eqn:En; simpl.
    - destruct (last_slash buf); [|by apply added_none, scanned_refl].
      eapply outcome_weaken; [apply q_add_dir_added; [done|unfold DIR_DEPTH, buf_size; lia]|done|].
      intros Hb. left. by eapply bad_status_mono.
    - right. eauto.
    - unfold ftnaddress_to_filename_ in En. destruct (get_domain_info _ _); [|done]. destruct (_ <? _)%nat; done. }
  unfold q_scan_addr. destruct (negb to && send_if_pwd config) eqn:Esend.
  - pose proof (get_node_info_scanned w a Hf) as Hg.
    destruct (unsecure (get_node_info w a config).1 to config) eqn:Hun.
    + destruct (get_node_info w a config) as [fn w'] eqn:E. simpl in Hun, Hg. rewrite Hun. by eapply scan_inv_none.
    + eapply (scan_inv_step to fa w0 l w new a); try done.
      destruct (get_node_info w a config) as [fn w'] eqn:E. simpl in *. rewrite Hun. apply Hdir. by eapply scanned_trans.
  - eapply outcome_weaken; [by apply Hdir| |done]. intros r Hr. eapply scan_inv_added; try done.
    intros -> Hsend. by rewrite Hsend in Esend.
Qed.

Lemma q_scan_boxes_of_inv to fa w0 l q w a : a ∈ fa -> fa_wf a ->
  scan_inv to fa w0 l (q, w) -> outcome (scan_inv to fa w0 l) (bad_scan w0 fa) (q_scan_boxes_of to config (q, w) a).
Proof.
  intros Ha Hf (Hw & Hs0 & new & Eq & Hnew). simpl in *. subst q. unfold q_scan_boxes_of.
  pose proof (get_node_info_scanned w a Hf) as Hg.
  destruct (unsecure (get_node_info w a config).1 to config) eqn:Hun.
  - destruct (get_node_info w a config) as [node w'] eqn:E. simpl in Hun, Hg. rewrite Hun. by eapply scan_inv_none.
  - eapply (scan_inv_step to fa w0 l w new a); try done.
    destruct (get_node_info w a config) as [node w'] eqn:E. simpl in Hun, Hg. cbn [snd]. rewrite Hun.
    eapply (outcome_weaken _ _ (bad_status w') (bad_scan w0 fa));
      [|intros r Hr; exact Hr|intros Hb; left; eapply bad_status_mono; [|exact Hb]; by eapply scanned_trans].
    apply added_bind; [apply bad_status_mono| |].
    { destruct node as [n|]; [|by apply added_none, scanned_refl].
      destruct (n_obox n); [apply q_scan_box_added|by apply added_none, scanned_refl]. }
    intros l1 w1 Hs1. apply added_bind; [apply bad_status_mono| |].
    { destruct (bfilebox config) as [|c b]; [by apply added_none, scanned_refl|].
      cbv zeta. apply (added_fold _ bad_status); [apply bad_status_mono|]. intros. apply q_scan_box_added. }
    intros l2 w2 Hs2. destruct (tfilebox config) as [|c b]; [by apply added_none, scanned_refl|].
    apply added_bind; [apply bad_status_mono|apply q_scan_tbox_added|]. intros. apply q_scan_tbox_added.
Qed.

(** C23: The scan for a session queues a file only for the addresses of the
    session: every element it adds is addressed to one of them and not yet
    sent, whatever lies in the outbound directories and the file boxes.  When
    the other side called and [send-if-pwd] is set, each of those addresses is
    a node with a password.  The scan always ends; it leaves its buffers only
    on a status file that begins with NUL or a zone above 4095. *)
Theorem q_scan_addrs_addressee w0 w l fa to :
  pNodArray w0 = [] -> rtc (node_step config) w0 w -> Forall full_addr fa ->
  outcome (fun r => exists new, r.1 = Queue (new ++ l) /\
      Forall (fun e => q_fa e ∈ fa /\ q_sent e = false /\
        (to = false -> send_if_pwd config = true -> has_password r.2 (q_fa e))) new)
    (bad_scan w fa) (q_scan_addrs w (Queue l) fa to config).
Proof.
  intros E0 Hw Hfa. destruct (node_steps_keeps config _ _ Hw (empty_table_ok _ E0)) as [Hok _].
  rewrite Forall_forall in Hfa. unfold q_scan_addrs, q_scan_boxes.
  eapply (outcome_bind (scan_inv to fa w l)).
  - apply outcome_fold; [split_and!; [done|apply scanned_refl|by exists []]|].
    intros [q w'] a Ha Hi. apply q_scan_addr_inv; [done|by apply Hfa|done].
  - intros [q w'] Hi. eapply (outcome_weaken (scan_inv to fa w l)); [|by intros r (_ & _ & Hr)|done].
    apply outcome_fold; [done|]. intros [q2 w2] a Ha Hi2. apply q_scan_boxes_of_inv; [done|by apply Hfa|done].
Qed.
End Scan.

(** An outbound with mail for two nodes, one of which calls. *)
Definition mail_sys : SYS := put_file (put_file example_sys (str "/s/outb/13b7000d.dut") (str "mail"))
  (str "/s/outb/13b7000e.dut") (str "other").
Definition mail_world : WORLD := mkWORLD mail_sys [] true [] 0.
Definition mail_config : BINKD_CONFIG := example_config.
Definition mail_listed : WORLD := add_node_nolock mail_world (example_addr 13) (pwd_args (str "one")).

Lemma q_scan_addrs_addressee_witness :
  match q_scan_addrs mail_listed (Queue []) [example_addr 13] false mail_config with
  | Ok (Queue [e], _) => q_path e = str "/s/outb/13b7000d.dut" /\ q_fa e ∈ [example_addr 13]
  | _ => False
  end.
Proof.
  pose proof (q_scan_addrs_addressee mail_config ltac:(by intros c1 c2 a ?%not_elem_of_nil) mail_world mail_listed []
    [example_addr 13] false eq_refl) as H.
  assert (Hr : rtc (node_step mail_config) mail_world mail_listed)
    by (apply rtc_once; constructor; apply example_addr_wf; lia).
  specialize (H Hr). assert (Hf : Forall full_addr [example_addr 13]).
  { constructor; [|done]. split; [apply example_addr_wf; lia|]. simpl. lia. }
  specialize (H Hf).
  assert (E : exists w', q_scan_addrs mail_listed (Queue []) [example_addr 13] false mail_config =
    Ok (Queue [mkFTNQ (example_addr 13) (chr "d") (chr "d") (chr "m") (str "/s/outb/13b7000d.dut") 0 0 false], w'))
    by (eexists; vm_compute; reflexivity).
  destruct E as [w' E]. rewrite E in *. split; [reflexivity|]. destruct H as (new & En & Hn).
  injection En as En. rewrite app_nil_r in En. subst new. apply Forall_cons in Hn as [[Hn _] _]. exact Hn.
Defined.

(** ** Retries *)
Section Tries.
Context (config : BINKD_CONFIG) (fa0 : FTN_ADDR) (error : cstr) (junk : Z * Z) (name : cstr).
Context (Htries : 0 < tries config <= 0xffff).
Context (Hname : ftnaddress_to_filename_ fa0 (pDomains config) = Ok name) (Hne : name <> []).
Context (Hlen : (length name + 4 < buf_size)%nat).

Definition try_file : cstr := name ++ str ".try".
Definition hld_file : cstr := name ++ str ".hld".

Lemma out_file_ext ext : length ext = 4%nat -> out_file fa0 ext config = Ok (name ++ ext).
Proof.
  intros He. unfold out_file. rewrite Hname. simpl. destruct name; [done|]. f_equal. apply strnzcat_fits. lia.
Qed.

(** Both files may be written. *)
Definition writable (w : WORLD) : Prop := fopen_w (sys w) try_file = true /\ fopen_w (sys w) hld_file = true.

Lemma fopen_w_put s p q d : fopen_w s p = true -> fopen_w (put_file s q d) p = true.
Proof.
  unfold fopen_w. change (parent_ok (put_file s q d) p) with (parent_ok s p).
  change (is_dir (put_file s q d) p) with (is_dir s p). change (deny (put_file s q d)) with (deny s).
  rewrite !andb_true_iff, !orb_true_iff. intros [Hd [Hf|Hf]]; (split; [done|]); [|by right]. left.
  unfold is_file in *. apply bool_decide_eq_true in Hf. apply bool_decide_eq_true. simpl.
  destruct (decide (q = p)) as [->|]; [by rewrite lookup_insert_eq|by rewrite lookup_insert_ne].
Qed.

Lemma writable_put w q d : writable w -> writable (w <| sys ::= fun s => put_file s q d |>).
Proof. intros [H1 H2]. split; simpl; by apply fopen_w_put. Qed.

Lemma try_hld_ne : try_file <> hld_file.
Proof. unfold try_file, hld_file. intros H. by apply app_inv_head in H. Qed.

Lemma counter_bytes n : 0 <= n <= 0xffff -> Z.land n 0xff + Z.shiftl (uchar (Z.shiftr n 8)) 8 = n.
Proof.
  intros Hn. unfold uchar. rewrite Z.shiftr_div_pow2, Z.shiftl_mul_pow2 by lia.
  rewrite (Z.mod_small (n / 2 ^ 8)) by (split; [apply Z.div_pos; lia|apply Z.div_lt_upper_bound; lia]).
  change 0xff with (Z.ones 8). rewrite Z.land_ones by lia. rewrite (Z.div_mod n (2 ^ 8)) at 3 by lia. lia.
Qed.

Lemma try_file_ne : exists c t, try_file = c :: t.
Proof. unfold try_file. destruct name as [|c t]; [done|]. eauto. Qed.

Lemma try_name : out_file fa0 (str ".try") config = Ok try_file.
Proof. by apply out_file_ext. Qed.
Lemma hld_name : out_file fa0 (str ".hld") config = Ok hld_file.
Proof. by apply out_file_ext. Qed.

Lemma read_written w nok nbad comment : 0 <= nok <= 0xffff -> 0 <= nbad <= 0xffff ->
  read_try (w <| sys ::= fun s => put_file s try_file (try_bytes nok nbad comment) |>) fa0 junk config = Ok (nok, nbad).
Proof.
  intros H1 H2. unfold read_try. rewrite try_name. simpl. unfold fopen_r, put_file. simpl.
  rewrite lookup_insert_eq. simpl. rewrite !counter_bytes by done. by destruct try_file_ne as (c & t & ->).
Qed.

Lemma write_try_ok w nok nbad comment : writable w ->
  write_try w fa0 nok nbad comment config =
  Ok (w <| sys ::= fun s => put_file s try_file (try_bytes nok nbad comment) |>).
Proof.
  intros [Hw _]. unfold write_try. rewrite (proj2 (Z.leb_gt _ _)) by lia. rewrite try_name. simpl.
  rewrite Hw. by destruct try_file_ne as (c & t & ->).
Qed.

Lemma hold_node_ok w until : writable w -> exists w', hold_node w fa0 until config = Ok w' /\ writable w' /\
  sys w' = put_file (sys w) hld_file (fmt_u (wrap 64 until)).
Proof.
  intros Hw. unfold hold_node. rewrite hld_name. simpl. rewrite (proj2 Hw).
  destruct hld_file as [|c h] eqn:E; [by unfold hld_file in E; destruct name|]. eexists. split; [done|].
  rewrite <- E. unfold writable. rewrite !edit_info_sys. simpl. destruct Hw. split; [|done].
  split; by apply fopen_w_put.
Qed.

(** One failed call: the counter goes up, and at the limit the node is held. *)
Lemma bad_try_step w nok nbad :
  writable w -> read_try w fa0 junk config = Ok (nok, nbad) -> 0 <= nok <= 0xffff -> 0 <= nbad < tries config ->
  exists w', bad_try w fa0 error junk config = Ok w' /\ writable w' /\ clock (sys w') = clock (sys w) /\
    if nbad + 1 <? tries config
    then read_try w' fa0 junk config = Ok (nok, nbad + 1) /\ fs (sys w') !! hld_file = fs (sys w) !! hld_file
    else read_try w' fa0 junk config = Ok (0, 0) /\
         fs (sys w') !! hld_file = Some (mkFILE_ (fmt_u (wrap 64 (clock (sys w) + hold config))) (clock (sys w))).
Proof.
  intros Hw Hr Hnok Hnbad. unfold bad_try. rewrite (proj2 (Z.eqb_neq _ _)) by lia. rewrite Hr. cbn [mem_bind].
  rewrite (proj2 (Z.ltb_lt _ _)) by lia.
  assert (E1 : wrap 32 (nbad + 1) = nbad + 1) by (apply Z.mod_small; lia).
  assert (E2 : wrap 32 (tries config) = tries config) by (apply Z.mod_small; lia). rewrite E1, E2. clear E1 E2.
  destruct (Z.ltb_spec (nbad + 1) (tries config)) as [Hlt|Hge].
  - rewrite (proj2 (Z.leb_gt _ _)) by lia. rewrite write_try_ok by done. eexists. split; [done|].
    split_and!; [by apply writable_put|done|apply read_written; lia|]. simpl.
    rewrite lookup_insert_ne by apply try_hld_ne. done.
  - rewrite (proj2 (Z.leb_le _ _)) by lia. destruct (hold_node_ok w (safe_time (sys w) + hold config) Hw)
      as (w1 & -> & Hw1 & Hs1). cbn [mem_bind]. rewrite write_try_ok by done. eexists. split; [done|].
    split_and!; [by apply writable_put|simpl; by rewrite Hs1|apply read_written; lia|]. simpl.
    rewrite lookup_insert_ne by apply try_hld_ne. rewrite Hs1. simpl. by rewrite lookup_insert_eq.
Qed.

(** [k] failed calls in a row. *)
Fixpoint failures (k : nat) (w : WORLD) : mem WORLD :=
  match k with
  | O => Ok w
  | S k => let* w := failures k w in bad_try w fa0 error junk config
  end.

Lemma failures_below k w nok : writable w -> read_try w fa0 junk config = Ok (nok, 0) -> 0 <= nok <= 0xffff ->
  Z.of_nat k < tries config ->
  exists w', failures k w = Ok w' /\ writable w' /\ clock (sys w') = clock (sys w) /\
    read_try w' fa0 junk config = Ok (nok, Z.of_nat k) /\ fs (sys w') !! hld_file = fs (sys w) !! hld_file.
Proof.
  intros Hw Hr Hnok. induction k as [|k IH]; intros Hk; [by exists w|].
  destruct IH as (w1 & E1 & Hw1 & Hc1 & Hr1 & Hh1); [lia|].
  destruct (bad_try_step w1 nok (Z.of_nat k) Hw1 Hr1 Hnok ltac:(lia)) as (w2 & E2 & Hw2 & Hc2 & Hlast).
  rewrite (proj2 (Z.ltb_lt _ _)) in Hlast by lia. exists w2. cbn [failures]. rewrite E1. cbn [mem_bind].
  split_and!; [done|done|congruence| |destruct Hlast; congruence].
  destruct Hlast as [-> _]. do 2 f_equal. lia.
Qed.

(** C31: The retry limit: from a clean failure counter, fewer than [try]
    failures in a row only count, and leave the node callable; the failure that
    reaches [try] holds the node for the configured time, and starts the count
    again.  The two bytes the counter is stored in suffice for every limit the
    configuration accepts. *)
Theorem bad_try_holds_at_limit w nok :
  writable w -> read_try w fa0 junk config = Ok (nok, 0) -> 0 <= nok <= 0xffff ->
  (forall k, Z.of_nat k < tries config -> exists w', failures k w = Ok w' /\
     read_try w' fa0 junk config = Ok (nok, Z.of_nat k) /\ fs (sys w') !! hld_file = fs (sys w) !! hld_file) /\
  exists w', failures (Z.to_nat (tries config)) w = Ok w' /\ read_try w' fa0 junk config = Ok (0, 0) /\
    f_data <$> fs (sys w') !! hld_file = Some (fmt_u (wrap 64 (clock (sys w) + hold config))).
Proof.
  intros Hw Hr Hnok. split.
  - intros k Hk. destruct (failures_below k w nok Hw Hr Hnok Hk) as (w' & ? & _ & _ & ? & ?). eauto.
  - destruct (failures_below (Z.to_nat (tries config - 1)) w nok Hw Hr Hnok ltac:(lia)) as (w1 & E1 & Hw1 & Hc1 & Hr1 & _).
    destruct (bad_try_step w1 nok _ Hw1 Hr1 Hnok ltac:(lia)) as (w2 & E2 & _ & _ & Hlast).
    rewrite (proj2 (Z.ltb_ge _ _)) in Hlast by lia. exists w2.
    replace (Z.to_nat (tries config)) with (S (Z.to_nat (tries config - 1))) by lia. cbn [failures]. rewrite E1.
    cbn [mem_bind]. destruct Hlast as [H1 ->]. rewrite Hc1. by split_and!.
Qed.
End Tries.

Definition try_config : BINKD_CONFIG := example_config <| tries := 3 |>.

Lemma bad_try_holds_at_limit_witness :
  exists w', failures try_config (example_addr 13) (str "busy") (7, 7) 3 example_world = Ok w' /\
    read_try w' (example_addr 13) (7, 7) try_config = Ok (0, 0) /\
    f_data <$> fs (sys w') !! str "/s/outb/13b7000d.hld" = Some (str "4600").
Proof.
  refine (proj2 (bad_try_holds_at_limit try_config (example_addr 13) (str "busy") (7, 7) (str "/s/outb/13b7000d")
    _ _ _ _ example_world 0 _ _ _)).
  - simpl. lia.
  - vm_compute. reflexivity.
  - discriminate.
  - apply Nat.ltb_lt. vm_compute. reflexivity.
  - split; vm_compute; reflexivity.
  - vm_compute. reflexivity.
  - lia.
Defined.

(** ** The order of sending *)
Lemma q_insert_perm fa x q : q_insert fa x q ≡ₚ x :: q.
Proof.
  induction q as [|c q IH]; simpl; [done|]. case_if; [done|]. rewrite IH. apply Permutation_swap.
Qed.

Lemma q_sort_perm q fa : q_sort q fa ≡ₚ q.
Proof.
  destruct q as [|x q]; [done|]. unfold q_sort.
  assert (H : forall t s, fold_left (fun sorted x => q_insert fa x sorted) t s ≡ₚ s ++ t).
  { induction t as [|y t IH]; intros s; simpl; [by rewrite app_nil_r|]. rewrite IH, q_insert_perm. solve_Permutation. }
  apply H.
Qed.

(** Selecting until nothing is left. *)
Fixpoint drain (fuel : nat) (q : list FTNQ) : mem (list FTNQ) :=
  match fuel with
  | O => Fuel
  | S f =>
      match select_next_file q with
      | None => Ok []
      | Some (_, e, q) => let* t := drain f q in Ok (e :: t)
      end
  end.
Definition mark_sent (e : FTNQ) : FTNQ := e <| q_sent := true |>.
Definition unsent (q : list FTNQ) : list FTNQ := filter (fun e => q_sent e = false) q.

Lemma select_next_spec q :
  match select_next_file q with
  | None => unsent q = []
  | Some (i, e, q') => exists e0 rest, unsent q = e0 :: rest /\ e = mark_sent e0 /\ unsent q' = rest /\
                                        q !! i = Some e0 /\ q' = <[i := e]> q
  end.
Proof.
  induction q as [|c q IH]; cbn [select_next_file]; [done|]. unfold unsent in *. rewrite filter_cons.
  destruct (q_sent c) eqn:Ec; case_decide as Hd; try done.
  - destruct (select_next_file q) as [[[i e] t]|]; [|done].
    destruct IH as (e0 & rest & E & -> & Er & Hi & ->). exists e0, rest. rewrite filter_cons_False by congruence. done.
  - exists c, (filter (fun e => q_sent e = false) q). rewrite filter_cons_False by done. done.
Qed.

Lemma drain_unsent f q : (length (unsent q) < f)%nat -> drain f q = Ok (mark_sent <$> unsent q).
Proof.
  revert q. induction f as [|f IH]; intros q Hf; [lia|]. cbn [drain]. pose proof (select_next_spec q) as H.
  destruct (select_next_file q) as [[[i e] q']|]; [|by rewrite H].
  destruct H as (e0 & rest & E & -> & Er & _). rewrite E in *. simpl in Hf. rewrite IH by (rewrite Er; lia).
  simpl. by rewrite Er.
Qed.

(** Every file queued is offered exactly once: sorting permutes the queue,
    and selecting the next file until there is none yields each element not
    yet sent, marked, in the order of the sorted queue, and then stops. *)
Theorem queue_is_sent_once q fa : exists sent, drain (S (length q)) (q_sort q fa) = Ok sent /\
  sent = mark_sent <$> unsent (q_sort q fa) /\ sent ≡ₚ mark_sent <$> unsent q.
Proof.
  exists (mark_sent <$> unsent (q_sort q fa)). split_and!.
  - apply drain_unsent. unfold unsent. rewrite <- (Permutation_length (q_sort_perm q fa)).
    pose proof (length_filter (fun e => q_sent e = false) (q_sort q fa)). lia.
  - done.
  - unfold unsent. by rewrite q_sort_perm.
Qed.

Lemma cmp_aka_listed a fa : fa_wf a -> a ∈ fa -> cmp_aka a a fa = Some (-1).
Proof.
  intros Hw. induction fa as [|x fa IH]; intros Ha; [by apply not_elem_of_nil in Ha|]. cbn [cmp_aka].
  destruct (Z.eqb_spec (ftnaddress_cmp a x) 0) as [|Hne]; [done|]. apply elem_of_cons in Ha as [->|Ha]; [|by apply IH].
  exfalso. apply Hne. by apply ftnaddress_cmp_same.
Qed.

Lemma q_insert_last fa x q : Forall (fun c => q_cmp c x fa <= 0) q -> q_insert fa x q = q ++ [x].
Proof.
  induction 1 as [|c q Hc _ IH]; simpl; [done|]. rewrite (proj2 (Z.ltb_ge _ _)) by lia. by rewrite IH.
Qed.

(** In a session with one address the queue is never sorted: the test that
    should order different addresses runs on equal ones, answers "before" for
    every pair, and neither the kind of the files nor the age of the file-box
    files is looked at. *)
Theorem q_sort_one_aka q fa a :
  fa_wf a -> a ∈ fa -> Forall (fun e => q_fa e = a /\ q_sent e = false) q -> q_sort q fa = q.
Proof.
  intros Hw Ha Hq. assert (Hcmp : forall x y, q_fa x = a /\ q_sent x = false -> q_fa y = a /\ q_sent y = false ->
    q_cmp x y fa = -1).
  { intros x y [Ex Sx] [Ey Sy]. unfold q_cmp. rewrite Sx, Sy, Ex, Ey. cbn [orb].
    rewrite (proj2 (Z.eqb_eq _ _)) by (by apply ftnaddress_cmp_same).
    destruct (FA_ISNULL a); [done|]. by rewrite cmp_aka_listed. }
  assert (H : forall t s, Forall (fun e => q_fa e = a /\ q_sent e = false) (s ++ t) ->
    fold_left (fun sorted x => q_insert fa x sorted) t s = s ++ t).
  { induction t as [|y t IH]; intros s Hs; simpl; [by rewrite app_nil_r|].
    apply Forall_app in Hs as [Hs Ht]. pose proof Ht as Hyt. apply Forall_cons in Hyt as [Hy _].
    rewrite q_insert_last.
    - rewrite IH; rewrite <- app_assoc; [done|]. by apply Forall_app.
    - eapply Forall_impl; [done|]. intros c Hc. simpl. rewrite Hcmp by done. lia. }
  destruct q as [|x q]; [done|]. by apply H.
Qed.

Lemma q_sort_one_aka_witness :
  let e t p := mkFTNQ (example_addr 13) (chr "f") 0 t p 0 0 false in
  let q := [e (chr "l") (str "files.flo"); e (chr "m") (str "mail.out"); e (chr "r") (str "x.req")] in
  q_sort q [example_addr 13] = q /\ cmp_type (chr "l") (chr "m") typeorder = Some 1.
Proof.
  split; [|reflexivity]. apply (q_sort_one_aka _ _ (example_addr 13)); [apply example_addr_wf; lia|left|].
  repeat constructor.
Defined.
