(* ===== verification/Cleanup.v ===== *)
(** * bsycleanup.c: lock files left over from an earlier run

    [main] sweeps the outbound directories once, before anything else.  It
    deletes every busy and retry file of a node it finds, without asking whose
    it is; the directories of points are not looked into. *)
From S2P Require Import Prelude CStr Tools FtnAddr Sys Types Bsy FtnQ.

Definition has_ext (s ext : cstr) : bool := o_stricmp (drop (length s - 4) s) ext =? 0.
Definition lock_name (s : cstr) : bool :=
  (4 <? length s)%nat && (has_ext s (str ".bsy") || has_ext s (str ".csy") || has_ext s (str ".try")).

Definition scan_and_delete_bsy_in_dir (s : SYS) (dir : cstr) : SYS :=
  if is_dir s dir
  then fold_left (fun s n => if lock_name n then (delete_ s (path_join dir n)).2 else s) (readdir s dir) s
  else s.

(** [base_path]: the last character is looked at also when there is none. *)
Definition base_path (d : FTN_DOMAIN) : mem cstr :=
  let b := strnzcpy (d_path d) buf_size in
  match b with
  | [] => Oob
  | _ => if hd0 (rev b) =? chr ":"
         then if (length b + 1 <? buf_size)%nat then Ok (b ++ str "/") else Oob
         else Ok b
  end.
(** The outbound of a domain: its directory, and those with a zone. *)
Definition outbound_name (d : FTN_DOMAIN) (name : cstr) : bool :=
  let len := length (d_dir d) in
  let ext := hd0 (drop len name) in
  (o_strnicmp name (d_dir d) len =? 0) &&
  ((ext =? 0) || ((ext =? chr ".") && isxdigit (hd0 (drop (S len) name)))).

Definition cleanup_domain (s : SYS) (d : FTN_DOMAIN) : mem SYS :=
  match d_alias4 d with
  | Some _ => Ok s
  | None =>
      let* base := base_path d in
      if is_dir s base then
        Ok (fold_left (fun s n => if outbound_name d n then scan_and_delete_bsy_in_dir s (path_join base n) else s)
              (readdir s base) s)
      else Ok s
  end.
Definition cleanup_old_bsy (config : BINKD_CONFIG) (s : SYS) : mem SYS :=
  mem_fold cleanup_domain (pDomains config) s.

(** ** What a sweep removes *)

(** A directory the sweep looks into. *)
Definition swept_dir (config : BINKD_CONFIG) (s : SYS) (dir : cstr) : Prop :=
  exists d base n, d ∈ pDomains config /\ d_alias4 d = None /\ base_path d = Ok base /\ is_dir s base = true /\
    n ∈ readdir s base /\ outbound_name d n = true /\ dir = path_join base n /\ is_dir s dir = true.
Definition swept (config : BINKD_CONFIG) (s : SYS) (p : cstr) : Prop :=
  exists dir n, swept_dir config s dir /\ n ∈ readdir s dir /\ lock_name n = true /\ p = path_join dir n.

(** The state after some files were removed, all of them among [P]. *)
Record fewer (P : cstr -> Prop) (s s' : SYS) : Prop := {
  fw_dirs : dirs s' = dirs s;
  fw_deny : deny s' = deny s;
  fw_files : forall p, fs s' !! p = fs s !! p \/ (fs s' !! p = None /\ P p)
}.
Lemma fewer_refl P s : fewer P s s.
Proof. split; auto. Qed.
Lemma fewer_trans P s1 s2 s3 : fewer P s1 s2 -> fewer P s2 s3 -> fewer P s1 s3.
Proof.
  intros [D1 N1 F1] [D2 N2 F2]. split; [congruence..|]. intros p.
  destruct (F2 p) as [E2|[E2 H2]], (F1 p) as [E1|[E1 H1]]; rewrite ?E2; auto.
Qed.
Lemma fewer_weaken (P Q : cstr -> Prop) s s' : (forall p, P p -> Q p) -> fewer P s s' -> fewer Q s s'.
Proof. intros H [D N F]. split; [done..|]. intros p. destruct (F p) as [?|[? ?]]; auto. Qed.
Lemma fewer_delete (P : cstr -> Prop) s p : P p -> fewer P s (delete_ s p).2.
Proof.
  intros Hp. unfold delete_, unlink. case_if; [|apply fewer_refl]. split; [done..|]. intros x. simpl.
  destruct (decide (p = x)) as [<-|Hne]; [right; by rewrite lookup_delete_eq|left; by rewrite lookup_delete_ne].
Qed.
Lemma fewer_readdir P s s' d n : fewer P s s' -> n ∈ readdir s' d -> n ∈ readdir s d.
Proof.
  intros [D _ F]. unfold readdir. rewrite D, !omap_app, !elem_of_app, !list_elem_of_omap.
  intros [(p & Hp & E)|H]; [left|by right]. exists p. split; [|done].
  apply list_elem_of_fmap in Hp as ([p' f] & -> & Hp). apply elem_of_map_to_list in Hp. simpl in *.
  apply list_elem_of_fmap. exists (p', f). split; [done|]. apply elem_of_map_to_list.
  destruct (F p') as [<-|[E' _]]; [done|congruence].
Qed.
Lemma fewer_fold {A} (P : cstr -> Prop) (f : SYS -> A -> SYS) l : forall s0 s,
  (forall a s', a ∈ l -> fewer P s0 s' -> fewer P s' (f s' a)) -> fewer P s0 s -> fewer P s0 (fold_left f l s).
Proof.
  induction l as [|a l IH]; intros s0 s Hf Hs; [done|]. cbn [fold_left].
  apply IH; [intros a' s' Ha'; apply Hf; by right|]. eapply fewer_trans; [done|]. apply Hf; [by left|done].
Qed.

Lemma scan_fewer config s0 s dir : fewer (swept config s0) s0 s -> swept_dir config s0 dir ->
  fewer (swept config s0) s (scan_and_delete_bsy_in_dir s dir).
Proof.
  intros H Hd. unfold scan_and_delete_bsy_in_dir. case_if; [|apply fewer_refl].
  apply fewer_fold; [|apply fewer_refl]. intros n s' Hn _. case_if; [|apply fewer_refl].
  apply fewer_delete. exists dir, n. split_and!; [done|by eapply fewer_readdir|done|done].
Qed.
Lemma cleanup_domain_fewer config s0 s d s' : d ∈ pDomains config -> fewer (swept config s0) s0 s ->
  cleanup_domain s d = Ok s' -> fewer (swept config s0) s s'.
Proof.
  intros Hd H E. unfold cleanup_domain in E. destruct (d_alias4 d) eqn:Ea; [injection E as <-; apply fewer_refl|].
  apply mem_bind_ok in E as (base & Hb & E). destruct (is_dir s base) eqn:Eb; injection E as <-; [|apply fewer_refl].
  apply fewer_fold; [|apply fewer_refl]. intros n s1 Hn H1. case_if; [|apply fewer_refl].
  assert (H01 : fewer (swept config s0) s0 s1) by (by eapply fewer_trans).
  destruct (is_dir s1 (path_join base n)) eqn:Ed.
  - apply scan_fewer; [done|]. exists d, base, n. unfold is_dir in *. rewrite (fw_dirs _ _ _ H) in Eb.
    rewrite (fw_dirs _ _ _ H01) in Ed. split_and!; try done. exact (fewer_readdir _ _ _ _ _ H Hn).
  - unfold scan_and_delete_bsy_in_dir. rewrite Ed. apply fewer_refl.
Qed.
Lemma cleanup_domains_fewer config s0 ds : forall s s', (forall d, d ∈ ds -> d ∈ pDomains config) ->
  fewer (swept config s0) s0 s -> mem_fold cleanup_domain ds s = Ok s' -> fewer (swept config s0) s s'.
Proof.
  induction ds as [|d ds IH]; intros s s' Hds H E; [injection E as <-; apply fewer_refl|].
  cbn [mem_fold] in E. apply mem_bind_ok in E as (s1 & E1 & E).
  pose proof (cleanup_domain_fewer config s0 s d s1 ltac:(apply Hds; by left) H E1) as H1.
  eapply fewer_trans; [exact H1|]. apply IH; [intros d' Hd'; apply Hds; by right|by eapply fewer_trans|done].
Qed.

(** ** What it leaves

    A path that fits the buffer is joined whole. *)
Lemma path_join_fits dir n : (length dir + 1 + length n < buf_size)%nat -> path_join dir n = dir ++ str "/" ++ n.
Proof.
  intros H. unfold path_join. rewrite strnzcpy_fits by lia.
  rewrite (strnzcat_fits dir) by (change (length (str "/")) with 1%nat; lia).
  rewrite strnzcat_fits; [by rewrite <- app_assoc|]. rewrite length_app. change (length (str "/")) with 1%nat. lia.
Qed.
Lemma is_prefix_spec p s : is_prefix p s = true -> exists t, s = p ++ t.
Proof.
  revert s. induction p as [|c p IH]; intros s H; [by exists s|]. destruct s as [|c' s]; [done|].
  cbn [is_prefix] in H. bools. destruct (IH s ltac:(done)) as [t ->]. exists t. by subst.
Qed.
Lemma entry_of_some dir p n : entry_of dir p = Some n -> p = dir ++ str "/" ++ n /\ n <> [] /\ in_set n (chr "/") = false.
Proof.
  unfold entry_of, inside. destruct (is_prefix _ p) eqn:E; [|done].
  apply is_prefix_spec in E as [t ->]. rewrite <- app_assoc, drop_app_add.
  change (drop 1 (str "/" ++ t)) with t. case_if; [done|]. destruct t; [done|]. by intros [= <-].
Qed.
Lemma entry_of_join dir n : n <> [] -> in_set n (chr "/") = false -> entry_of dir (dir ++ str "/" ++ n) = Some n.
Proof.
  intros Hn Hs. unfold entry_of, inside. rewrite app_assoc, is_prefix_app, <- app_assoc, drop_app_add.
  change (drop 1 (str "/" ++ n)) with n. rewrite Hs. by destruct n.
Qed.
Lemma readdir_file s dir n : n <> [] -> in_set n (chr "/") = false -> is_file s (dir ++ str "/" ++ n) = true ->
  n ∈ readdir s dir.
Proof.
  intros Hn Hs Hf. apply bool_decide_eq_true in Hf as [f Hf]. unfold readdir. rewrite omap_app. apply elem_of_app. left.
  apply list_elem_of_omap. exists (dir ++ str "/" ++ n). split; [|by apply entry_of_join].
  apply list_elem_of_fmap. exists (dir ++ str "/" ++ n, f). split; [done|]. by apply elem_of_map_to_list.
Qed.
Lemma readdir_dir s dir n : n <> [] -> in_set n (chr "/") = false -> is_dir s (dir ++ str "/" ++ n) = true ->
  n ∈ readdir s dir.
Proof.
  intros Hn Hs Hf. apply bool_decide_eq_true in Hf. unfold readdir. rewrite omap_app. apply elem_of_app. right.
  apply list_elem_of_omap. exists (dir ++ str "/" ++ n). split; [by apply elem_of_elements|by apply entry_of_join].
Qed.
Lemma readdir_name s dir n : n ∈ readdir s dir -> n <> [] /\ in_set n (chr "/") = false.
Proof. unfold readdir. intros (p & _ & E)%list_elem_of_omap. by apply entry_of_some in E as (_ & ? & ?). Qed.

(** Once gone, a file stays away. *)
Lemma fewer_gone P s s' p : fewer P s s' -> fs s !! p = None -> fs s' !! p = None.
Proof. intros [_ _ F] H. destruct (F p) as [->|[? _]]; done. Qed.
Lemma delete_gone s p : deny s p = false -> fs (delete_ s p).2 !! p = None.
Proof.
  intros Hd. unfold delete_, unlink, is_file. rewrite Hd. destruct (fs s !! p) eqn:E; simpl; [by rewrite lookup_delete_eq|done].
Qed.
(** A loop that removes [p] at the element [a], wherever it is reached. *)
Lemma fold_gone {A} (P : cstr -> Prop) (f : SYS -> A -> SYS) (a : A) p l : forall s0 s,
  (forall x s', x ∈ l -> fewer P s0 s' -> fewer P s' (f s' x)) ->
  (forall s', fewer P s0 s' -> fs (f s' a) !! p = None) ->
  fewer P s0 s -> a ∈ l -> fs (fold_left f l s) !! p = None.
Proof.
  induction l as [|x l IH]; intros s0 s Hf Ha Hs Hin; [by apply elem_of_nil in Hin|]. cbn [fold_left].
  assert (Hx : fewer P s0 (f s x)) by (eapply fewer_trans; [exact Hs|]; apply Hf; [by left|done]).
  apply elem_of_cons in Hin as [<-|Hin].
  - apply (fewer_gone P (f s a)); [|by apply Ha]. apply fewer_fold; [|apply fewer_refl]. intros y s' Hy Hs'.
    apply Hf; [by right|]. by eapply fewer_trans.
  - apply (IH s0); [intros y s' Hy; apply Hf; by right|done|done|done].
Qed.

(** A lock whose path the sweep reaches: the names fit its buffers. *)
Record reached (config : BINKD_CONFIG) (s : SYS) (base out n : cstr) : Prop := {
  re_domain : exists d, d ∈ pDomains config /\ d_alias4 d = None /\ base_path d = Ok base /\ outbound_name d out = true;
  re_base : is_dir s base = true;
  re_out : out <> [] /\ in_set out (chr "/") = false /\ is_dir s (base ++ str "/" ++ out) = true;
  re_name : lock_name n = true /\ in_set n (chr "/") = false;
  re_fits : (length (base ++ str "/" ++ out ++ str "/" ++ n) < buf_size)%nat;
  re_allowed : deny s ((base ++ str "/" ++ out) ++ str "/" ++ n) = false
}.

Section Sweep.
Context (config : BINKD_CONFIG) (s0 : SYS) (base out n : cstr) (Hre : reached config s0 base out n).
Definition lock_path : cstr := (base ++ str "/" ++ out) ++ str "/" ++ n.
Abbreviation swept_from := (fewer (fun _ => True) s0).

Lemma sweep_lengths : (length base + length out + length n + 2 < buf_size)%nat.
Proof. pose proof (re_fits _ _ _ _ _ Hre) as H. rewrite !length_app in H. change (length (str "/")) with 1%nat in H. lia. Qed.
Lemma scan_gone s : swept_from s -> fs (scan_and_delete_bsy_in_dir s (base ++ str "/" ++ out)) !! lock_path = None.
Proof.
  intros Hs. pose proof sweep_lengths as Hlen. destruct (re_out _ _ _ _ _ Hre) as (_ & _ & Hd), (re_name _ _ _ _ _ Hre) as [Hl Hn].
  assert (Hsd : is_dir s (base ++ str "/" ++ out) = true) by (unfold is_dir in *; by rewrite (fw_dirs _ _ _ Hs)).
  unfold scan_and_delete_bsy_in_dir. rewrite Hsd.
  assert (Hne : n <> []) by (intros ->; done).
  assert (Hjoin : path_join (base ++ str "/" ++ out) n = lock_path)
    by (apply path_join_fits; rewrite !length_app; change (length (str "/")) with 1%nat; lia).
  assert (Hstep : forall x s', fewer (fun _ => True) s s' ->
    fewer (fun _ => True) s' (if lock_name x then (delete_ s' (path_join (base ++ str "/" ++ out) x)).2 else s')).
  { intros x s' _. case_if; [by apply fewer_delete|apply fewer_refl]. }
  destruct (fs s !! lock_path) eqn:Ef.
  - apply (fold_gone (fun _ => True) _ n lock_path _ s); [auto| |apply fewer_refl|].
    + intros s' Hs'. rewrite Hl, Hjoin. apply delete_gone. rewrite (fw_deny _ _ _ Hs'), (fw_deny _ _ _ Hs). apply Hre.
    + apply readdir_file; [done..|]. apply bool_decide_eq_true. by eexists.
  - eapply fewer_gone; [|exact Ef]. apply fewer_fold; [auto|apply fewer_refl].
Qed.
Lemma scan_fewer_any s dir : fewer (fun _ => True) s (scan_and_delete_bsy_in_dir s dir).
Proof.
  unfold scan_and_delete_bsy_in_dir. case_if; [|apply fewer_refl]. apply fewer_fold; [|apply fewer_refl].
  intros x s' _ _. case_if; [by apply fewer_delete|apply fewer_refl].
Qed.
Lemma cleanup_domain_any s d s' : d ∈ pDomains config -> cleanup_domain s d = Ok s' -> fewer (fun _ => True) s s'.
Proof.
  intros Hd E. eapply fewer_weaken; [|apply (cleanup_domain_fewer config s s d); [done|apply fewer_refl|done]]. done.
Qed.
Lemma domain_gone s s' d : swept_from s -> d_alias4 d = None -> base_path d = Ok base -> outbound_name d out = true ->
  cleanup_domain s d = Ok s' -> fs s' !! lock_path = None.
Proof.
  intros Hs Ha Hb Ho E. pose proof sweep_lengths as Hlen. destruct (re_out _ _ _ _ _ Hre) as (Hne & Hsl & Hd).
  unfold cleanup_domain in E. rewrite Ha, Hb in E. cbn [mem_bind] in E.
  unfold is_dir in E. rewrite (fw_dirs _ _ _ Hs) in E. fold (is_dir s0 base) in E. rewrite (re_base _ _ _ _ _ Hre) in E.
  injection E as <-. apply (fold_gone (fun _ => True) _ out lock_path _ s).
  - intros x s1 _ _. case_if; [apply scan_fewer_any|apply fewer_refl].
  - intros s1 Hs1. rewrite Ho, path_join_fits by lia. apply scan_gone. by eapply fewer_trans.
  - apply fewer_refl.
  - apply readdir_dir; [done..|]. unfold is_dir in *. by rewrite (fw_dirs _ _ _ Hs).
Qed.
Lemma domains_gone ds : (forall d, d ∈ ds -> d ∈ pDomains config) ->
  (exists d, d ∈ ds /\ d_alias4 d = None /\ base_path d = Ok base /\ outbound_name d out = true) ->
  forall s s', swept_from s -> mem_fold cleanup_domain ds s = Ok s' -> fs s' !! lock_path = None.
Proof.
  induction ds as [|x ds IH]; intros Hin (d & Hd & Ha & Hb & Ho) s s' Hs E; [by apply elem_of_nil in Hd|].
  cbn [mem_fold] in E. apply mem_bind_ok in E as (s1 & E1 & E).
  assert (Hx : fewer (fun _ => True) s s1) by (apply (cleanup_domain_any s x); [apply Hin; by left|done]).
  assert (Hrest : fewer (fun _ => True) s1 s').
  { eapply fewer_weaken; [|apply (cleanup_domains_fewer config s1 ds); [intros y Hy; apply Hin; by right|apply fewer_refl|done]]. done. }
  apply elem_of_cons in Hd as [<-|Hd].
  - apply (fewer_gone (fun _ => True) s1 s'); [done|]. by apply (domain_gone s s1 d).
  - apply (IH ltac:(intros y Hy; apply Hin; by right) ltac:(by exists d) s1); [by eapply fewer_trans|done].
Qed.
End Sweep.

Lemma cleanup_removes config s s' : cleanup_old_bsy config s = Ok s' ->
  fewer (swept config s) s s' /\
  forall base out n, reached config s base out n -> fs s' !! lock_path base out n = None.
Proof.
  intros E. split; [apply (cleanup_domains_fewer config s (pDomains config) s s'); [done|apply fewer_refl|done]|].
  intros base out n Hre.
  apply (domains_gone config s base out n Hre (pDomains config) ltac:(done) (re_domain _ _ _ _ _ Hre) s); [apply fewer_refl|done].
Qed.


(** ** Locks of a running process *)
Lemma last_slash_none n : ~ (47 ∈ n) -> ~ (92 ∈ n) -> last_slash n = None.
Proof.
  induction n as [|c n IH]; intros H1 H2; [done|]. cbn [last_slash].
  rewrite IH by (intros Hn; (apply H1 + apply H2); by right).
  destruct (Z.eqb_spec c (chr "/")) as [->|]; [by destruct H1; left|].
  destruct (Z.eqb_spec c (chr "\")) as [->|]; [by destruct H2; left|done].
Qed.
Lemma last_slash_app p n : ~ (47 ∈ n) -> ~ (92 ∈ n) -> last_slash (p ++ str "/" ++ n) = Some (length p).
Proof.
  intros H1 H2. induction p as [|c p IH]; [|cbn [app last_slash length]; by rewrite IH].
  change ([] ++ str "/" ++ n) with (chr "/" :: n). cbn [last_slash]. by rewrite last_slash_none.
Qed.
Lemma strnicmp_prefix a b : o_strnicmp (a ++ b) a (length a) = 0.
Proof. induction a as [|c a IH]; [by destruct b|]. cbn [app length o_strnicmp hd0]. by rewrite Z.eqb_refl. Qed.
Lemma hex_no_slash w k : ~ (47 ∈ fmt_x w k) /\ ~ (92 ∈ fmt_x w k).
Proof. pose proof (fmt_x_digits w k) as H. rewrite Forall_forall in H. split; intros Hin; apply H in Hin; unfold lxdigit in Hin; lia. Qed.
Lemma get_domain_info_listed name ds d : get_domain_info name ds = Some d -> d ∈ ds.
Proof.
  induction ds as [|x ds IH]; [done|]. cbn [get_domain_info]. case_if; [intros [= <-]; by left|]. intros H. right. by apply IH.
Qed.

Lemma MKDIR_dirs s p x : is_dir s x = true -> is_dir (MKDIR s p).2 x = true.
Proof. unfold MKDIR. case_if; [|done]. unfold is_dir. rewrite !bool_decide_eq_true. simpl. set_solver. Qed.
Lemma mkpath0_dirs f : forall s p x, is_dir s x = true -> is_dir (mkpath0 f s p).2 x = true.
Proof.
  induction f as [|f IH]; intros s p x H; [done|]. cbn [mkpath0]. case_if; [done|]. case_if; [done|].
  set (r := match last_slash p with Some _ => _ | None => _ end).
  assert (Hr : is_dir r.2 x = true) by (unfold r; destruct (last_slash p); [|done]; destruct (take n p); [done|by apply IH]).
  destruct r as [z s']. cbn [snd] in Hr. case_if; [done|]. case_if; [done|]. by apply MKDIR_dirs.
Qed.
Lemma mkpath_dirs s p x : is_dir s x = true -> is_dir (mkpath s p).2 x = true.
Proof. unfold mkpath. destruct (last_slash _); [apply mkpath0_dirs|done]. Qed.

(** An address with an outbound of its own and the file of its lock. *)
Record outbound_lock (config : BINKD_CONFIG) (fa0 : FTN_ADDR) (d : FTN_DOMAIN) (bt : char) : Prop := {
  ol_domain : get_domain_info (fa_domain fa0) (pDomains config) = Some d;
  ol_real : d_alias4 d = None;
  ol_base : base_path d = Ok (d_path d);
  ol_dir : d_dir d <> [] /\ in_set (d_dir d) (chr "/") = false;
  ol_range : fa_outbound fa0;
  ol_type : bt = F_BSY \/ bt = F_CSY;
  ol_fits : (length (out_path fa0 d) + 5 < MAXPATHLEN)%nat
}.

Section Broken.
Context (config : BINKD_CONFIG) (fa0 : FTN_ADDR) (d : FTN_DOMAIN) (bt : char).
Context (Hol : outbound_lock config fa0 d bt) (Hnode : fa_p fa0 = 0).
Definition lock_dir : cstr := d_path d ++ str "/" ++ d_dir d ++ out_ext fa0 d.
Definition lock_base : cstr := (fmt_x 4 (fa_net fa0) ++ fmt_x 4 (fa_node fa0)) ++ bsy_ext bt.

Lemma lock_file_name : bsy_name fa0 bt config = Ok (lock_dir ++ str "/" ++ lock_base).
Proof.
  pose proof (ol_fits _ _ _ _ Hol) as Hlen. unfold bsy_name.
  rewrite (filename_out_path fa0 d) by apply Hol. cbn [mem_bind]. rewrite take_ge by lia.
  assert (He : length (bsy_ext bt) = 4%nat) by (unfold bsy_ext; by case_if).
  assert (Hne : exists c t, out_path fa0 d = c :: t).
  { unfold out_path. destruct (d_path d); [by exists (chr "/"), (d_dir d ++ out_ext fa0 d ++ str "/" ++ (fmt_x 4 (fa_net fa0) ++ fmt_x 4 (fa_node fa0)) ++ out_pnt fa0)|by eexists _, _]. }
  destruct Hne as (c & t & Et). rewrite Et. rewrite <- Et, strnzcat_fits by (unfold path_size; lia). f_equal.
  unfold out_path, lock_dir, lock_base, out_pnt. rewrite Hnode, app_nil_r, <- !app_assoc. done.
Qed.
Lemma lock_base_chars : ~ (47 ∈ lock_base) /\ ~ (92 ∈ lock_base).
Proof.
  unfold lock_base. rewrite !elem_of_app. pose proof (hex_no_slash 4 (fa_net fa0)) as [? ?]. pose proof (hex_no_slash 4 (fa_node fa0)) as [? ?].
  assert (Hb : ~ (47 ∈ bsy_ext bt) /\ ~ (92 ∈ bsy_ext bt)) by (unfold bsy_ext; case_if; split; intros Hin%list_elem_of_In;
    repeat (destruct Hin as [Hin|Hin]; [done|]); destruct Hin).
  destruct Hb. split; tauto.
Qed.
Lemma lock_base_name : lock_name lock_base = true /\ in_set lock_base (chr "/") = false.
Proof.
  destruct (ol_range _ _ _ _ Hol) as (Hz & Hnet & Hn & Hp). split.
  - unfold lock_name, lock_base, has_ext.
    assert (Hl : length (fmt_x 4 (fa_net fa0) ++ fmt_x 4 (fa_node fa0)) = 8%nat)
      by (rewrite length_app, !fmt_x_length by lia; done).
    destruct (ol_type _ _ _ _ Hol) as [-> | ->]; rewrite length_app, Hl; change (8 + length (bsy_ext _) - 4)%nat with 8%nat;
      rewrite drop_app_length' by done; vm_compute; done.
  - apply in_set_false; [done|]. rewrite <- list_elem_of_In. apply lock_base_chars.
Qed.
Lemma lock_out_name : outbound_name d (d_dir d ++ out_ext fa0 d) = true /\ in_set (d_dir d ++ out_ext fa0 d) (chr "/") = false.
Proof.
  destruct (ol_dir _ _ _ _ Hol) as [Hd Hs]. split.
  - unfold outbound_name. rewrite strnicmp_prefix, drop_app_length. cbn [Z.eqb andb]. unfold out_ext. case_if; [done|].
    change (drop (S ?k) ?l) with (drop (S k) l). 
    replace (S (length (d_dir d))) with (length (d_dir d) + 1)%nat by lia. rewrite drop_app_add.
    change (drop 1 (str "." ++ fmt_x 3 (fa_z fa0))) with (fmt_x 3 (fa_z fa0)).
    pose proof (fmt_x_hex 3 (fa_z fa0)) as Hx. destruct (fmt_x 3 (fa_z fa0)) eqn:Ef.
    + pose proof (fmt_x_length 3 (fa_z fa0)) as Hl. rewrite Ef in Hl. destruct (ol_range _ _ _ _ Hol) as (Hz & _). simpl in Hl. lia.
    + apply Forall_cons in Hx as [Hx _]. by cbn [hd0 app str]; rewrite Hx.
  - apply in_set_false; [done|]. rewrite <- list_elem_of_In, elem_of_app. intros [Hin|Hin].
    + apply list_elem_of_In in Hin. revert Hs. unfold in_set. clear -Hin. induction (d_dir d) as [|c l IH]; [done|]. simpl in *.
      destruct (Z.eqb_spec c (chr "/")); [done|]. destruct Hin as [->|Hin]; [done|]. specialize (IH Hin). by destruct (strchr l (chr "/")).
    + unfold out_ext in Hin. destruct (fa_z fa0 =? d_z d); [by apply elem_of_nil in Hin|]. apply elem_of_app in Hin as [Hin|Hin].
      * rewrite list_elem_of_In in Hin. by destruct Hin as [Hin|[]].
      * by apply hex_no_slash in Hin.
Qed.
Lemma lock_parent s : d_path d <> [] -> parent_ok s (lock_dir ++ str "/" ++ lock_base) = is_dir s lock_dir.
Proof.
  intros Hp. unfold parent_ok, parent. rewrite last_slash_app by apply lock_base_chars. cbn [fmap option_fmap option_map].
  rewrite take_app_length. unfold lock_dir. by destruct (d_path d).
Qed.
Lemma lock_mkpath s : is_dir s lock_dir = true -> (mkpath s (lock_dir ++ str "/" ++ lock_base)).2 = s.
Proof.
  intros Hd. pose proof (ol_fits _ _ _ _ Hol) as Hlen. unfold mkpath. rewrite strnzcpy_fits.
  - rewrite last_slash_app by apply lock_base_chars. rewrite take_app_length. cbn [mkpath0]. by rewrite Hd.
  - unfold out_path, lock_dir, lock_base, out_pnt in *. rewrite Hnode in Hlen. rewrite !length_app in *.
    assert (length (bsy_ext bt) = 4%nat) by (unfold bsy_ext; by case_if). simpl length in *. lia.
Qed.

Lemma is_dir_put s p b x : is_dir (put_file s p b) x = is_dir s x.
Proof. done. Qed.
Lemma deny_put s p b x : deny (put_file s p b) x = deny s x.
Proof. done. Qed.
#[local] Opaque mkpath put_file cleanup_old_bsy MAXPATHLEN.

(** C21: The sweep takes the lock of a running process away.  A process has
    locked a node; another is started, on the same outbound, by a call of
    inetd, with -p, or only to make a poll: after its sweep the lock file is
    gone, and the new process gets the lock of the same node. *)
Theorem cleanup_breaks_exclusion s w s1 : is_dir s (d_path d) = true ->
  bsy_add (as_world s []) fa0 bt config = Ok (true, w) -> cleanup_old_bsy config (sys w) = Ok s1 ->
  exists w2, bsy_add (as_world s1 []) fa0 bt config = Ok (true, w2) /\ bsy_list w2 = bsy_list w.
Proof.
  intros Hbase Hadd Hclean. pose proof (ol_fits _ _ _ _ Hol) as Hlen.
  assert (Hp : d_path d <> []) by (intros E; pose proof (ol_base _ _ _ _ Hol) as Hb; unfold base_path in Hb; by rewrite E in Hb).
  destruct lock_base_name as [Hl1 Hl2]. destruct lock_out_name as [Ho1 Ho2].
  set (name := lock_dir ++ str "/" ++ lock_base) in *.
  assert (Hne : exists c t, name = c :: t) by (unfold name, lock_dir; destruct (d_path d); [done|by eexists _, _]).
  destruct Hne as (c & t & En). unfold bsy_add in *. rewrite lock_file_name in *. fold name in Hadd |- *.
  cbn [mem_bind] in *. rewrite En in *. rewrite <- En in *. revert Hadd.
  unfold on_sys, create_sem_file. cbn [fst snd sys as_world set_field]. set (s2 := (mkpath s name).2).
  destruct (may_create s2 name) eqn:Em; [|done]. cbn [fst snd]. intros [= <-]. cbn [sys bsy_list] in *.
  set (s3 := put_file s2 name (fmt_u (pid s2) ++ [10])) in *.
  unfold may_create in Em. apply andb_prop in Em as [Em Hpar]. apply andb_prop in Em as [Hex Hden]. rewrite lock_parent in Hpar by done.
  assert (Hre : reached config s3 (d_path d) (d_dir d ++ out_ext fa0 d) lock_base).
  { constructor; [| |split_and!; [|done|unfold s3; rewrite is_dir_put; exact Hpar]|done| |].
    - exists d. split_and!; [by eapply get_domain_info_listed, Hol|by apply Hol|by apply Hol|done].
    - unfold s3. rewrite is_dir_put. by apply mkpath_dirs.
    - destruct (ol_dir _ _ _ _ Hol) as [Hd _]. by destruct (d_dir d).
    - unfold out_path, lock_base, out_pnt in *. rewrite Hnode in Hlen. rewrite !length_app in *.
      assert (length (bsy_ext bt) = 4%nat) by (unfold bsy_ext; by case_if). unfold buf_size. simpl length in *. lia.
    - unfold s3. rewrite deny_put. by apply negb_true_iff in Hden. }
  destruct (cleanup_removes config s3 s1 Hclean) as [Hfw Hgone]. specialize (Hgone _ _ _ Hre).
  change (lock_path (d_path d) (d_dir d ++ out_ext fa0 d) lock_base) with name in Hgone.
  assert (Hdir1 : forall x, is_dir s1 x = is_dir s2 x) by (intros x; rewrite <- (is_dir_put s2 name (fmt_u (pid s2) ++ [10]));
    unfold is_dir; by rewrite (fw_dirs _ _ _ Hfw)).
  assert (Hm : (mkpath s1 name).2 = s1) by (apply lock_mkpath; by rewrite Hdir1). rewrite Hm.
  assert (Hcreate : may_create s1 name = true).
  { unfold may_create. rewrite lock_parent, Hdir1, Hpar, (fw_deny _ _ _ Hfw) by done. unfold s3.
    rewrite deny_put, Hden. unfold exists_ in *. rewrite Hdir1. apply negb_true_iff, orb_false_elim in Hex as [_ ->].
    unfold is_file. by rewrite Hgone. }
  cbn [sys as_world set_field]. rewrite Hcreate. cbn [fst snd]. by eexists.
Qed.
#[local] Transparent mkpath put_file cleanup_old_bsy MAXPATHLEN.
End Broken.

(** ** A running process, and another that starts *)
Definition running : WORLD := (from_ok (false, as_world example_sys []) (bsy_add (as_world example_sys []) (example_addr 13) F_BSY example_config)).2.
Definition swept_sys : SYS := from_ok example_sys (cleanup_old_bsy example_config (sys running)).
Definition example_lock : cstr := str "/s/outb/13b7000d.bsy".


Lemma cleanup_breaks_exclusion_witness : exists w2,
  bsy_add (as_world swept_sys []) (example_addr 13) F_BSY example_config = Ok (true, w2) /\ bsy_list w2 = bsy_list running.
Proof.
  assert (Hol : outbound_lock example_config (example_addr 13) example_domain F_BSY).
  { constructor; [by vm_compute..|split; by vm_compute| |by left|vm_compute; lia].
    vm_compute. repeat split; discriminate. }
  apply (cleanup_breaks_exclusion example_config (example_addr 13) example_domain F_BSY Hol eq_refl example_sys running swept_sys).
  - by vm_compute.
  - unfold running. by vm_compute.
  - by vm_compute.
Defined.
