(* ===== verification/Srif.v ===== *)
(** * srif.c: events on received files

    A received file can set a flag, start a program, or be answered through a
    request file (S.R.I.F.).  What a started program does to the system is the
    parameter [run]. *)
From S2P Require Import Prelude CStr Crypt Tools Pmatch FtnAddr Sys Types FtnNode FtnQ Prothlp.

Section Events.
Context (run : cstr -> SYS -> SYS).

Definition evt_queue_ (eq : list EVTQ) (evt_type : char) (path : cstr) : list EVTQ :=
  if existsb (fun t => (e_type t =? evt_type) && (strcmp (e_path t) path =? 0)) eq then eq
  else mkEVTQ path evt_type :: eq.

(** Creating the flag, or touching it if it is there. *)
Definition set_flag (s : SYS) (path : cstr) : SYS :=
  let '(ok, s) := create_empty_sem_file s path in
  if ok then s else (touch s path (clock s)).2.

Fixpoint evt_test (s : SYS) (eq : list EVTQ) (filename : cstr) (evt_flags : list EVT_FLAG) : bool * list EVTQ * SYS :=
  match evt_flags with
  | [] => (false, eq, s)
  | curr :: t =>
      if pmatch_ncase (ev_pattern curr) filename then
        match ev_path curr, ev_command curr with
        | Some path, _ =>
            if ev_imm curr then evt_test (set_flag s path) eq filename t
            else evt_test s (evt_queue_ eq (chr "f") path) filename t
        | None, Some _ => let '(_, eq, s) := evt_test s eq filename t in (true, eq, s)
        | None, None => evt_test s eq filename t
        end
      else evt_test s eq filename t
  end.

Fixpoint evt_set (s : SYS) (eq : list EVTQ) : SYS :=
  match eq with
  | [] => s
  | e :: t => evt_set (if e_type e =? chr "e" then run (e_path e) s else set_flag s (e_path e)) t
  end.

(** Names of the request and of the response. *)
Definition mksrifpaths (fa0 : FTN_ADDR) (config : BINKD_CONFIG) : mem (option (cstr * cstr)) :=
  let* name := ftnaddress_to_filename_ fa0 (pDomains config) in
  match name with
  | [] => Ok None
  | _ => Ok (Some (strnzcat name (str ".srf") MAXPATHLEN,
                   strnzcat (strnzcpy name MAXPATHLEN) (str ".rsp") MAXPATHLEN))
  end.

Definition line (s : cstr) : cstr := s ++ [10].
Definition srif_text (fa : list FTN_ADDR) (req rsp : cstr) (prot listed : bool) (peer_name peer_sysop : cstr) : list Z :=
  line (str "Sysop " ++ peer_sysop) ++
  concat (map (fun a => line (str "AKA " ++ ftnaddress_to_str a)) fa) ++
  line (str "Baud 115200") ++ line (str "Time -1") ++
  line (str "RequestList " ++ req) ++ line (str "ResponseList " ++ rsp) ++
  line (str "RemoteStatus " ++ (if prot then str "PROTECTED" else str "UNPROTECTED")) ++
  line (str "SystemStatus " ++ (if listed then str "LISTED" else str "UNLISTED")) ++
  line (str "CallerID " ++ peer_name) ++ line (str "SessionType OTHER").
Definition srif_fill (s : SYS) (path : cstr) (fa : list FTN_ADDR) (req rsp : cstr) (prot listed : bool)
    (peer_name peer_sysop : cstr) : bool * SYS :=
  if fopen_w s path then (true, put_file s path (srif_text fa req rsp prot listed peer_name peer_sysop)) else (false, s).

(** The first word of each line, after the mark that says what to do with it. *)
Fixpoint word_of (s : cstr) : cstr :=
  match s with c :: t => if isspace c then [] else c :: word_of t | [] => [] end.
Definition response_action (c : char) : option char :=
  if c =? chr "=" then Some (chr "d") else if c =? chr "+" then Some 0 else if c =? chr "-" then Some (chr "a") else None.
Fixpoint parse_response_loop (fuel : nat) (f : list Z) (w : WORLD) (q : list FTNQ) (fa0 : FTN_ADDR) (config : BINKD_CONFIG)
    : mem (list FTNQ * WORLD) :=
  match fuel with
  | O => Fuel
  | S fuel =>
      match fgets (MAXPATHLEN - 1) f with
      | ([], _) => Ok (q, w)
      | (l, f) =>
          let buf := word_of (c_string l) in
          let* r := match response_action (hd0 buf) with
                    | Some action => q_add_last_file w q (drop 1 buf) fa0 (chr "h") action 0 config
                    | None => Ok (q, w)
                    end in
          parse_response_loop fuel f r.2 r.1 fa0 config
      end
  end.
Definition parse_response (w : WORLD) (q : list FTNQ) (rsp : cstr) (fa0 : FTN_ADDR) (config : BINKD_CONFIG)
    : mem (list FTNQ * WORLD) :=
  match fopen_r (sys w) rsp with
  | Some f => parse_response_loop (S (length f)) f w q fa0 config
  | None => Ok (q, w)
  end.

(** ** The command line *)
Definition valid_filename_chars : cstr := str ".\-_:/@".
Definition valid_name (s : cstr) : bool := forallb (fun c => isalnum c || in_set valid_filename_chars c) s.

Definition aka_list (fa : list FTN_ADDR) : cstr :=
  match fa with
  | [] => []
  | a :: t => ftnaddress_to_str a ++ concat (map (fun a => chr " " :: ftnaddress_to_str a) t)
  end.

(** One macro: the text the macro stands for replaces all its occurrences. *)
Definition expand_macro (fn pn : cstr) (st : STATE) (locked : list FTN_ADDR) (w : cstr) (sw : Z) (c1 c2 : char)
    : mem (cstr * Z * bool) :=
  let c := toupper c1 in
  let put a b use := let* r := ed w a b (Some sw) in Ok (r.1, r.2, use) in
  if c =? chr "N" then put (str "*N") fn true
  else if c =? chr "F" then put (str "*F") fn true
  else if c =? chr "A" then
    if (c2 =? chr "@") || (c2 =? chr "*") then put (str "*A" ++ [c2]) (aka_list locked) false
    else
      let i := if isdigit c2 then Z.to_nat (c2 - 48) else O in
      let adr := match locked !! i with Some a => ftnaddress_to_str a | None => str "-" end in
      if isdigit c2 then put (str "*A" ++ [c2]) adr false
      else put (str "*A" ++ c_string [c2]) (adr ++ c_string [c2]) false
  else if c =? chr "P" then put (str "*P") (if bool_decide (state st = P_SECURE) then str "1" else str "0") false
  else if c =? chr "L" then put (str "*L") (if listed_flag st =? 0 then str "0" else str "1") false
  else if c =? chr "H" then put (str "*H") pn false
  else Ok (w, sw, false).

(** [l] is the position from which the next star is looked for. *)
Fixpoint macro_loop (fuel : nat) (fn pn : cstr) (st : STATE) (locked : list FTN_ADDR) (w : cstr) (sw : Z) (l : nat)
    (use_fn : bool) : mem (cstr * bool) :=
  match fuel with
  | O => Fuel
  | S f =>
      if (length w <=? l)%nat then Ok (w, use_fn) else
      match strchr (drop l w) (chr "*") with
      | None => Ok (w, use_fn)
      | Some i =>
          let l := (l + i)%nat in
          let* r := expand_macro fn pn st locked w sw (at_ w (l + 1)) (at_ w (l + 2)) in
          let '(w, sw, use) := r in
          macro_loop f fn pn st locked w sw (S l) (use_fn || use)
      end
  end.

(** The program to start; [None] if a name from the other side could harm. *)
Definition run_args_cmd (fuel : nat) (cmd filename0 : cstr) (st : STATE) : mem (option cstr) :=
  let ok := valid_name filename0 in
  let fn := if ok then filename0 else str "-" in
  let pn := match peer_name st with
            | [] => ipaddr st
            | pn => if valid_name pn then pn else ipaddr st
            end in
  let sw := Z.max 1024 (strlen cmd + 1) in
  let* r := macro_loop fuel fn pn st (take (nfa st) (fa st)) cmd sw 0 false in
  Ok (if negb ok && r.2 then None else Some r.1).

(** Every step moves past a star or replaces one: the square of the number of
    stars bounds the steps. *)
Definition MACRO_FUEL (cmd : cstr) : nat := (S (length cmd) * S (length cmd))%nat.

Definition run_args (s : SYS) (eq : list EVTQ) (cmd filename0 : cstr) (st : STATE) (imm : bool)
    : mem (list EVTQ * SYS) :=
  let* r := run_args_cmd (MACRO_FUEL cmd) cmd filename0 st in
  Ok match r with
     | None => (eq, s)
     | Some w => if imm then (eq, run w s) else (evt_queue_ eq (chr "e") w, s)
     end.

(** A request is answered at once or noted for the end of the batch. *)
Definition srif_request (w : WORLD) (q : list FTNQ) (command filename : cstr) (st : STATE) (fa0 : FTN_ADDR)
    (config : BINKD_CONFIG) : mem (list FTNQ * WORLD) :=
  let* p := mksrifpaths fa0 config in
  match p with
  | None => Ok (q, w)
  | Some (srf, rsp) =>
      let* c := ed command (str "*S") srf None in
      let '(ok, w) := on_sys w (srif_fill (sys w) srf (take (nfa st) (fa st)) filename rsp
                         (bool_decide (state st = P_SECURE)) (negb (listed_flag st =? 0)) (peer_name st) (sysop st)) in
      let* w := if ok then
                  let* r := run_args (sys w) [] c.1 filename st true in
                  Ok (on_sys w (delete_ r.2 filename)).2
                else Ok w in
      let* r := parse_response w q rsp fa0 config in
      let w := (on_sys r.2 (delete_ (sys r.2) srf)).2 in
      Ok (r.1, (on_sys w (delete_ (sys w) rsp)).2)
  end.

Definition has_srif (command : cstr) : bool :=
  match strstr command (str "*S"), strstr command (str "*s") with None, None => false | _, _ => true end.

Fixpoint evt_run_loop (w : WORLD) (q : list FTNQ) (filename : cstr) (imm_freq : bool) (st : STATE)
    (flags : list EVT_FLAG) (config : BINKD_CONFIG) : mem (list FTNQ * STATE * WORLD) :=
  match flags with
  | [] => Ok (q, st, w)
  | curr :: t =>
      match ev_command curr with
      | Some command =>
          if pmatch_ncase (ev_pattern curr) filename then
            if has_srif command then
              if imm_freq then
                match fa st with
                | [] => Oob
                | fa0 :: _ =>
                    let* r := srif_request w q command filename st fa0 config in
                    evt_run_loop r.2 r.1 filename imm_freq st t config
                end
              else evt_run_loop w q filename imm_freq (st <| rcvdlist ::= fun l => add_to_rcvdlist l filename |>) t config
            else
              let* r := run_args (sys w) (evt_queue st) command filename st (ev_imm curr) in
              evt_run_loop (w <| sys := r.2 |>) q filename imm_freq (st <| evt_queue := r.1 |>) t config
          else evt_run_loop w q filename imm_freq st t config
      | None => evt_run_loop w q filename imm_freq st t config
      end
  end.
Definition evt_run (w : WORLD) (q : list FTNQ) (filename : cstr) (imm_freq : bool) (st : STATE) (config : BINKD_CONFIG)
    : mem (list FTNQ * STATE * WORLD) :=
  evt_run_loop w q filename imm_freq st (evt_flags config) config.
End Events.

(** ** The command line cannot be injected into *)
Definition star : char := 42.
Definition stars (s : cstr) : nat := length (List.filter (Z.eqb star) s).

Lemma stars_app s t : stars (s ++ t) = (stars s + stars t)%nat.
Proof. unfold stars. by rewrite List.filter_app, length_app. Qed.
Lemma stars_length s : (stars s <= length s)%nat.
Proof. unfold stars. induction s as [|c s IH]; [done|]. cbn [List.filter]. destruct (star =? c); cbn [length]; lia. Qed.
Lemma stars_none s : Forall (fun c => c <> star) s -> stars s = 0%nat.
Proof.
  unfold stars. induction 1 as [|c s Hc _ IH]; [done|]. cbn [List.filter]. rewrite (proj2 (Z.eqb_neq star c)) by congruence. done.
Qed.
Lemma stars_cons c s : stars (c :: s) = ((if (star =? c)%Z then 1 else 0) + stars s)%nat.
Proof. unfold stars. cbn [List.filter]. by destruct (star =? c). Qed.

Lemma replace_ci_Forall (P : Z -> Prop) k a b s : Forall P s -> Forall P b -> Forall P (replace_ci k a b s).
Proof.
  intros Hs Hb. revert k. induction Hs as [|c s Hc Hs IH]; intros k; simpl; [constructor|].
  destruct k; [|apply IH]. case_if; [apply Forall_app; auto|constructor; auto].
Qed.

Lemma replace_ci_stars k a b s : stars b = 0%nat -> (stars (replace_ci k a b s) <= stars s)%nat.
Proof.
  intros Hb. revert k. induction s as [|c s IH]; intros k; cbn [replace_ci]; [lia|]. rewrite stars_cons.
  destruct k as [|k]; [|specialize (IH k); destruct (star =? c)%Z; lia]. destruct (ci_prefix a (c :: s)).
  - rewrite stars_app, Hb. specialize (IH (length a - 1)%nat). destruct (star =? c)%Z; lia.
  - rewrite stars_cons. specialize (IH 0%nat). destruct (star =? c)%Z; lia.
Qed.

Lemma fold_star c : fold_eq star c = true -> c = star.
Proof.
  unfold fold_eq, star. change (tolower 42) with 42. unfold tolower, isupper.
  destruct ((65 <=? c) && (c <=? 90)) eqn:E; intros H; bools; lia.
Qed.

(** An occurrence anywhere makes at least one replacement, which takes a star away. *)
Lemma replace_ci_star a b s i : stars b = 0%nat -> ci_prefix (star :: a) (drop i s) = true ->
  (stars (replace_ci 0 (star :: a) b s) < stars s)%nat.
Proof.
  intros Hb. revert i. induction s as [|c s IH]; intros i Hi; [by rewrite drop_nil in Hi|]. cbn [replace_ci].
  rewrite stars_cons. destruct (ci_prefix (star :: a) (c :: s)) eqn:E.
  - rewrite stars_app, Hb. cbn [ci_prefix] in E. bools. apply fold_star in H as ->. rewrite Z.eqb_refl.
    pose proof (replace_ci_stars (length (star :: a) - 1) (star :: a) b s Hb). lia.
  - rewrite stars_cons. destruct i as [|i]; [by rewrite drop_0, E in Hi|]. specialize (IH i Hi). destruct (star =? c)%Z; lia.
Qed.

Lemma strchr_star s i : strchr s star = Some i -> at_ s i = star /\ (i < length s)%nat.
Proof.
  revert i. induction s as [|c s IH]; intros i; simpl; [done|]. case_if; bools; [intros [= <-]; split; [done|lia]|].
  destruct (strchr s star) as [j|]; [|done]. intros [= <-]. destruct (IH j eq_refl). split; [done|lia].
Qed.

Lemma strchr_prefix_stars s i : strchr s star = Some i -> stars s = S (stars (drop (S i) s)).
Proof.
  revert i. induction s as [|c s IH]; intros i; simpl; [done|]. rewrite stars_cons. case_if; bools.
  - intros [= <-]. subst c. rewrite Z.eqb_refl. by rewrite drop_0.
  - destruct (strchr s star) as [j|]; [|done]. intros [= <-]. rewrite (proj2 (Z.eqb_neq star c)) by congruence.
    by rewrite (IH j).
Qed.

(** The characters of a name from outside that may reach the shell. *)
Definition safe (c : char) : Prop := c <> star /\ (isalnum c = true \/ in_set valid_filename_chars c = true \/ c = 32).
Definition safe_name (s : cstr) : Prop := Forall safe s.

Lemma valid_name_safe s : Forall (fun c => 0 < c < 256) s -> valid_name s = true -> safe_name s.
Proof.
  intros Hs Hv. unfold valid_name in Hv. rewrite forallb_forall in Hv. apply Forall_forall. intros c Hc.
  apply list_elem_of_In, Hv in Hc. split; [intros ->; done|]. bools. tauto.
Qed.

Lemma safe_stars s : safe_name s -> stars s = 0%nat.
Proof. intros H. apply stars_none. eapply Forall_impl; [done|]. by intros c []. Qed.

Lemma digit_safe c : isdigit c = true -> safe c.
Proof.
  intros H. split; [intros ->; done|]. left. unfold isalnum. by rewrite H, orb_true_r.
Qed.

Lemma domain_char_safe c : 0 < c -> domain_char c = true -> safe c.
Proof.
  intros Hc H. split; [intros ->; done|]. unfold domain_char in H. bools.
  repeat match goal with H : _ \/ _ |- _ => destruct H | H : orb _ _ = true |- _ => apply orb_true_iff in H end; bools; subst; tauto.
Qed.

(** The addresses of the other side, as the parser gives them. *)
Definition addr_chars (a : FTN_ADDR) : Prop := Forall (fun c => 0 < c /\ domain_char c = true) (fa_domain a).

Lemma addr_str_safe a : addr_chars a -> safe_name (ftnaddress_to_str a).
Proof.
  intros Ha. apply addr_str_Forall.
  - intros c Hc. apply digit_safe. by apply isdigit_spec.
  - intros c [<-|[<-|[<-|[<-|[<-|[]]]]]]; (split; [done|right; left; done]).
  - eapply Forall_impl; [done|]. intros c [? ?]. by apply domain_char_safe.
Qed.

Lemma aka_list_safe l : Forall addr_chars l -> safe_name (aka_list l).
Proof.
  intros Hl. unfold aka_list. destruct Hl as [|a l Ha Hl]; [constructor|]. apply Forall_app; split; [by apply addr_str_safe|].
  induction Hl as [|b l Hb _ IH]; simpl; [constructor|]. constructor; [split; [done|tauto]|].
  apply Forall_app; split; [by apply addr_str_safe|done].
Qed.

(** *** The macro loop *)
Section Macros.
Context (fn pn : cstr) (st : STATE) (locked : list FTN_ADDR) (cmd : cstr).
Context (Hfn : safe_name fn) (Hpn : safe_name pn) (Hak : Forall addr_chars locked).

(** From the configured command or from the safe characters. *)
Definition from_cmd (c : char) : Prop := c ∈ cmd \/ safe c.
Definition cmd_inv (w : cstr) (sw : Z) : Prop := Forall from_cmd w /\ strlen w < sw.

Lemma safe_from s : safe_name s -> Forall from_cmd s.
Proof. intros H. eapply Forall_impl; [done|]. intros c Hc. by right. Qed.

Lemma ed_step w sw a b : cmd_inv w sw -> a <> [] -> Forall from_cmd b ->
  exists sw', ed w a b (Some sw) = Ok (replace_ci 0 a b w, sw') /\ cmd_inv (replace_ci 0 a b w) sw'.
Proof.
  intros (Hw & Hsw) Ha Hb. destruct (ed_replaces w a b (Some sw) Hsw Ha) as (sw' & E & Hl).
  exists sw'. split; [done|]. split; [by apply replace_ci_Forall|done].
Qed.

Lemma drop_at w l c : at_ w l = c -> (l < length w)%nat -> drop l w = c :: drop (S l) w.
Proof.
  intros Hc Hl. unfold at_ in Hc. destruct (nth_split w 0 Hl) as (a & b & E & <-). rewrite E at 1 2.
  rewrite drop_app_length. rewrite Hc. f_equal. rewrite drop_app_ge by lia.
  replace (S (length a) - length a)%nat with 1%nat by lia. done.
Qed.

Lemma at_nonzero w i c : at_ w i = c -> c <> 0 -> (i < length w)%nat.
Proof. unfold at_. intros <- Hc. destruct (Nat.lt_ge_cases i (length w)); [done|]. by rewrite nth_overflow in Hc. Qed.

Lemma fold_upper u c : 65 <= u <= 90 -> toupper c = u -> fold_eq u c = true.
Proof.
  unfold toupper, fold_eq, tolower, isupper, islower. intros Hu Hc.
  rewrite (proj2 (Z.leb_le 65 u)), (proj2 (Z.leb_le u 90)) by lia. cbn [andb]. apply Z.eqb_eq.
  destruct ((97 <=? c) && (c <=? 122)) eqn:E1 in Hc; destruct ((65 <=? c) && (c <=? 90)) eqn:E2; bools; lia.
Qed.

(** The macro named by a letter is where the star is. *)
Lemma macro_here w l u rest : at_ w l = star -> (l < length w)%nat -> 65 <= u <= 90 -> toupper (at_ w (l + 1)) = u ->
  ci_prefix rest (drop (l + 2) w) = true -> ci_prefix (star :: u :: rest) (drop l w) = true.
Proof.
  intros Hat Hl Hu Hup Hrest. rewrite (drop_at w l star) by done.
  assert (H1 : (l + 1 < length w)%nat).
  { apply (at_nonzero w (l + 1) (at_ w (l + 1))); [done|]. intros E. rewrite E in Hup. unfold toupper in Hup. simpl in Hup. lia. }
  replace (S l) with (l + 1)%nat by lia. rewrite (drop_at w (l + 1) (at_ w (l + 1))) by done.
  cbn [ci_prefix]. replace (fold_eq star star) with true by done. rewrite fold_upper by done.
  by replace (S (l + 1)) with (l + 2)%nat by lia.
Qed.

Lemma ed_at w sw l u rest b :
  cmd_inv w sw -> at_ w l = star -> (l < length w)%nat -> 65 <= u <= 90 -> toupper (at_ w (l + 1)) = u ->
  ci_prefix rest (drop (l + 2) w) = true -> stars b = 0%nat -> Forall from_cmd b ->
  exists w' sw', ed w (star :: u :: rest) b (Some sw) = Ok (w', sw') /\ cmd_inv w' sw' /\ (stars w' < stars w)%nat.
Proof.
  intros Hinv Hat Hl Hu Hup Hrest Hb Hfb.
  destruct (ed_step w sw (star :: u :: rest) b Hinv ltac:(done) Hfb) as (sw' & E & Hinv').
  eexists _, sw'. split_and!; [done|done|]. apply (replace_ci_star (u :: rest) b w l Hb). by apply macro_here.
Qed.

Lemma fold_refl c : fold_eq c c = true.
Proof. unfold fold_eq. apply Z.eqb_refl. Qed.

(** The character after [*A], if the command line goes on. *)
Lemma third_char w l :
  ci_prefix (c_string [at_ w (l + 2)]) (drop (l + 2) w) = true.
Proof.
  cbn [c_string]. destruct (Z.eqb_spec (at_ w (l + 2)) 0) as [|Hne]; [by destruct (drop _ w)|].
  rewrite (drop_at w (l + 2) (at_ w (l + 2))) by (done || by apply (at_nonzero _ _ (at_ w (l + 2)))).
  cbn [ci_prefix]. by rewrite fold_refl.
Qed.

Lemma third_from w l : Forall from_cmd w -> Forall from_cmd (c_string [at_ w (l + 2)]).
Proof.
  intros Hw. cbn [c_string]. case_if; bools; [constructor|]. constructor; [|constructor].
  rewrite Forall_forall in Hw. apply Hw. apply list_elem_of_In. unfold at_. apply nth_In.
  by apply (at_nonzero _ _ (at_ w (l + 2))).
Qed.

Lemma adr_safe i : safe_name match locked !! i with Some a => ftnaddress_to_str a | None => str "-" end.
Proof.
  destruct (locked !! i) as [a|] eqn:E; [|repeat constructor; done || tauto].
  apply addr_str_safe. by eapply Forall_lookup_1.
Qed.

(** At a star: either a replacement takes a star away, or nothing changes. *)
Lemma expand_macro_step w sw l :
  cmd_inv w sw -> at_ w l = star -> (l < length w)%nat ->
  exists w' sw' use, expand_macro fn pn st locked w sw (at_ w (l + 1)) (at_ w (l + 2)) = Ok (w', sw', use) /\
    cmd_inv w' sw' /\ ((stars w' < stars w)%nat \/ w' = w).
Proof.
  intros Hinv Hat Hl. unfold expand_macro. pose proof (ed_at w sw l) as Hed.
  assert (Hlit : forall u b use, 65 <= u <= 90 -> toupper (at_ w (l + 1)) = u -> safe_name b ->
    exists w' sw' use', (let* r := ed w (star :: u :: []) b (Some sw) in Ok (r.1, r.2, use : bool)) = Ok (w', sw', use') /\
      cmd_inv w' sw' /\ ((stars w' < stars w)%nat \/ w' = w)).
  { intros u b use Hu Hup Hb. destruct (Hed u [] b Hinv Hat Hl Hu Hup) as (w' & sw' & -> & ? & ?);
      [by destruct (drop _ w)|by apply safe_stars|by apply safe_from|]. simpl. eauto 10. }
  destruct (toupper (at_ w (l + 1)) =? chr "N") eqn:EN; bools; [by apply (Hlit 78)|].
  destruct (toupper (at_ w (l + 1)) =? chr "F") eqn:EF; bools; [by apply (Hlit 70)|].
  destruct (toupper (at_ w (l + 1)) =? chr "A") eqn:EA; bools.
  - change (str "*A" ++ [at_ w (l + 2)]) with (star :: 65 :: [at_ w (l + 2)]).
    change (str "*A" ++ c_string [at_ w (l + 2)]) with (star :: 65 :: c_string [at_ w (l + 2)]).
    pose proof (third_char w l) as H3. cbn [c_string] in H3.
    destruct ((at_ w (l + 2) =? chr "@") || (at_ w (l + 2) =? chr "*")) eqn:E2.
    + rewrite (proj2 (Z.eqb_neq (at_ w (l + 2)) 0)) in H3
        by (intros E0; rewrite E0 in E2; done).
      destruct (Hed 65 [at_ w (l + 2)] (aka_list locked) Hinv Hat Hl ltac:(lia) EA H3) as (w' & sw' & -> & ? & ?);
        [apply safe_stars, aka_list_safe, Hak|apply safe_from, aka_list_safe, Hak|]. simpl. eauto 10.
    + destruct (isdigit (at_ w (l + 2))) eqn:Ed.
      * rewrite (proj2 (Z.eqb_neq (at_ w (l + 2)) 0)) in H3 by (intros E0; rewrite E0 in Ed; done).
        destruct (Hed 65 [at_ w (l + 2)] _ Hinv Hat Hl ltac:(lia) EA H3 (safe_stars _ (adr_safe (Z.to_nat (at_ w (l + 2) - 48))))
          (safe_from _ (adr_safe _))) as (w' & sw' & -> & ? & ?). simpl. eauto 10.
      * destruct (Hed 65 (c_string [at_ w (l + 2)])
          (match locked !! 0%nat with Some a => ftnaddress_to_str a | None => str "-" end ++ c_string [at_ w (l + 2)])
          Hinv Hat Hl ltac:(lia) EA (third_char w l)) as (w' & sw' & -> & ? & ?).
        -- rewrite stars_app, (safe_stars _ (adr_safe 0)). cbn [c_string]. case_if; [done|].
           rewrite stars_cons. bools. rewrite (proj2 (Z.eqb_neq star _)); [done|]. by apply not_eq_sym.
        -- apply Forall_app; split; [apply safe_from, adr_safe|apply third_from, Hinv].
        -- simpl. eauto 10.
  - destruct (toupper (at_ w (l + 1)) =? chr "P") eqn:EP; bools.
    { apply (Hlit 80); [lia|done|]. case_bool_decide; repeat constructor; done || (left; done). }
    destruct (toupper (at_ w (l + 1)) =? chr "L") eqn:EL; bools.
    { apply (Hlit 76); [lia|done|]. case_if; repeat constructor; done || (left; done). }
    destruct (toupper (at_ w (l + 1)) =? chr "H") eqn:EH; bools; [by apply (Hlit 72)|].
    exists w, sw, false. auto.
Qed.

(** The number of stars after the position, and of all stars, bound the steps. *)
Lemma macro_loop_spec K f w sw l use :
  cmd_inv w sw -> (stars w <= K)%nat -> (stars w * S K + stars (drop l w) < f)%nat ->
  exists w' use', macro_loop f fn pn st locked w sw l use = Ok (w', use') /\ Forall from_cmd w'.
Proof.
  revert w sw l use. induction f as [|f IH]; intros w sw l use Hinv HK Hf; [lia|]. cbn [macro_loop].
  destruct (Nat.leb_spec (length w) l) as [|Hl]; [exists w, use; split; [done|apply Hinv]|].
  destruct (strchr (drop l w) (chr "*")) as [i|] eqn:Ei; [|exists w, use; split; [done|apply Hinv]].
  pose proof (strchr_prefix_stars _ _ Ei) as Hst. apply strchr_star in Ei as [Hat Hlt].
  assert (Hat' : at_ w (l + i) = star).
  { rewrite <- Hat. unfold at_. rewrite <- (take_drop l w) at 1. rewrite app_nth2, length_take; [|rewrite length_take; lia].
    f_equal. lia. }
  rewrite length_drop in Hlt.
  destruct (expand_macro_step w sw (l + i) Hinv Hat' ltac:(lia)) as (w' & sw' & use' & -> & Hinv' & Hdec). cbn [mem_bind].
  rewrite drop_drop in Hst. apply IH; [done|destruct Hdec as [ | -> ]; lia|].
  assert (Hle : (stars (drop (S (l + i)) w') <= stars w')%nat).
  { rewrite <- (take_drop (S (l + i)) w') at 2. rewrite stars_app. lia. }
  destruct Hdec as [Hdec | -> ]; [nia|]. replace (S (l + i)) with (l + S i)%nat by lia. lia.
Qed.
End Macros.

(** C30: Nothing the other side sends reaches the shell as anything but letters,
    digits, blanks and [.\-_:/@]: every character of a command started for a
    received file comes from the configured command or from that set, and a
    file whose name holds another character starts nothing.  The expansion
    always ends and stays inside its buffers. *)
Theorem run_args_no_injection cmd filename0 st :
  Forall (fun c => 0 < c < 256) filename0 -> Forall (fun c => 0 < c < 256) (peer_name st) ->
  safe_name (ipaddr st) -> Forall addr_chars (fa st) ->
  outcome (fun r => match r with
                    | Some w => Forall (fun c => c ∈ cmd \/ safe c) w
                    | None => valid_name filename0 = false
                    end) False (run_args_cmd (MACRO_FUEL cmd) cmd filename0 st).
Proof.
  intros Hf Hp Hip Hfa. unfold run_args_cmd.
  set (fn := if valid_name filename0 then filename0 else str "-").
  set (pn := match peer_name st with [] => ipaddr st | _ => _ end).
  assert (Hfn : safe_name fn).
  { unfold fn. destruct (valid_name filename0) eqn:E; [by apply valid_name_safe|repeat constructor; done || tauto]. }
  assert (Hpn : safe_name pn).
  { unfold pn. destruct (peer_name st) as [|c n]; [done|]. destruct (valid_name (c :: n)) eqn:E; [by apply valid_name_safe|done]. }
  destruct (macro_loop_spec fn pn st (take (nfa st) (fa st)) cmd Hfn Hpn ltac:(by apply Forall_take) (length cmd)
    (MACRO_FUEL cmd) cmd (Z.max 1024 (strlen cmd + 1)) 0 false) as (w & use & -> & Hw).
  - split; [|unfold strlen; lia]. apply Forall_forall. intros c Hc. by left.
  - apply stars_length.
  - pose proof (stars_length cmd). rewrite drop_0. unfold MACRO_FUEL. nia.
  - simpl. destruct (valid_name filename0); simpl; [done|]. by destruct use.
Qed.

Definition example_state : STATE :=
  mkSTATE None (str "-") [] [] (-1) false [] TF_ZERO TF_ZERO TF_ZERO [] [] [example_addr 13] 1 None None 0 false false 1
    (str "/in") (str "host.example") (str "10.0.0.1") false 0 0 0 [] [] [] 0 0 0 0 [] [] [] false false 0 false P_SECURE P_NA
    0 0 0 None false false TF_ZERO FA_ZERO 0 (mkKEYS 0 0 0) (mkKEYS 0 0 0) [] false 0 false false.

Lemma run_args_no_injection_witness :
  run_args_cmd (MACRO_FUEL (str "toss *F *A0")) (str "toss *F *A0") (str "/in/a.pkt") example_state =
    Ok (Some (str "toss /in/a.pkt 2:5047/13@fidonet")) /\
  run_args_cmd (MACRO_FUEL (str "toss *F")) (str "toss *F") (str "/in/a;rm.pkt") example_state = Ok None /\
  Forall (fun c => c ∈ str "toss *F *A0" \/ safe c) (str "toss /in/a.pkt 2:5047/13@fidonet").
Proof.
  assert (E : run_args_cmd (MACRO_FUEL (str "toss *F *A0")) (str "toss *F *A0") (str "/in/a.pkt") example_state =
    Ok (Some (str "toss /in/a.pkt 2:5047/13@fidonet"))) by (vm_compute; reflexivity).
  split; [exact E|]. split; [vm_compute; reflexivity|].
  pose proof (run_args_no_injection (str "toss *F *A0") (str "/in/a.pkt") example_state) as H. rewrite E in H. apply H.
  - vm_compute. repeat constructor.
  - vm_compute. repeat constructor.
  - apply valid_name_safe; vm_compute; repeat constructor.
  - constructor; [|constructor]. vm_compute. repeat constructor.
Defined.
