(* ===== verification/Inbound.v ===== *)
(** * inbound.c: receiving files

    A file in transfer is [<8 hex digits>.dt] in the inbound directory; the
    [.hr] file next to it records its net name, size, time and sender, so that
    the transfer can be resumed.  A complete file is renamed to its real name,
    another one if that is taken. *)
From S2P Require Import Prelude CStr Crypt Tools Pmatch FtnAddr Getw Pkt Sys Types FtnNode ReadFlo FtnQ Prothlp Srif.

(** Cutting an extension off at the last dot; without one the pointer is null. *)
Definition set_ext (path ext : cstr) : mem cstr :=
  match strrchr path (chr ".") with Some i => Ok (take i path ++ ext) | None => Oob end.

Definition remove_hr (s : SYS) (path : cstr) : mem SYS :=
  let* dt := set_ext path (str ".dt") in
  let s := (delete_ s dt).2 in
  let* hr := set_ext dt (str ".hr") in
  Ok (delete_ s hr).2.

(** A directory name that ends in the separator. *)
Definition with_slash (inbound : cstr) : cstr :=
  let s := strnzcpy inbound MAXPATHLEN in
  match s with
  | [] => []
  | _ => if hd0 (rev s) =? chr "/" then s else strnzcat s (str "/") MAXPATHLEN
  end.

Definition hr_line (file : TFILE) (from : option FTN_ADDR) : list Z :=
  t_netname file ++ str " " ++ fmt_u (wrap 64 (t_size file)) ++ str " " ++ fmt_u (wrap 64 (t_time file)) ++ str " " ++
  match from with Some a => ftnaddress_to_str a | None => str "0:0/0.0@unknown" end ++ [10].

(** Random names are tried until one can be created: nothing else ends the loop. *)
Fixpoint creat_tmp_name (fuel : nat) (s : SYS) (file : TFILE) (from : option FTN_ADDR) (inbound : cstr)
    : mem (option cstr * SYS) :=
  match fuel with
  | O => Fuel
  | S f =>
      let '(r, s) := rnd s in
      let path := strnzcat (with_slash inbound) (fmt_x 8 r ++ str ".hr") MAXPATHLEN in
      let '(ok, s) := create_empty_sem_file s path in
      if ok then
        if fopen_w s path then Ok (Some path, put_file s path (hr_line file from))
        else Ok (None, (delete_ s path).2)
      else creat_tmp_name f s file from inbound
  end.

Definition to_be_deleted (s : SYS) (tmp_name : cstr) (filesize : Z) (config : BINKD_CONFIG) : mem bool :=
  if kill_old_partial_files config =? 0 then Ok false else
  match stat_file s tmp_name with
  | None => Ok false
  | Some (_, hr_time) =>
      let* dt := set_ext tmp_name (str ".dt") in
      Ok match stat_file s dt with
         | Some (size, mtime) => negb (size =? filesize) && (kill_old_partial_files config <? clock s - mtime)
         | None => kill_old_partial_files config <? clock s - hr_time
         end
  end.

Definition hr_name (d_name : cstr) : bool :=
  forallb isxdigit (take 8 d_name) && (8 <=? length d_name)%nat && (o_stricmp (drop 8 d_name) (str ".hr") =? 0).

Definition inbound_dir (st : STATE) (config : BINKD_CONFIG) : cstr :=
  match temp_inbound config with [] => inbound st | t => t end.

(** The four fields of a record. *)
Definition hr_buf : nat := MAXPATHLEN + 80.
Definition hr_field (buf : cstr) (n : nat) : mem (option cstr) := getwordx no_env buf n GWX_CTL.

(** Position of the first address that is [fa0], or the length of the list. *)
Fixpoint aka_index (fa0 : FTN_ADDR) (l : list FTN_ADDR) : nat :=
  match l with
  | [] => O
  | a :: t => if ftnaddress_cmp fa0 a =? 0 then O else S (aka_index fa0 t)
  end.

(** ** Partial files of the link *)
Fixpoint has_partials_loop (names : list cstr) (s : SYS) (st : STATE) (base : cstr) (config : BINKD_CONFIG) : mem bool :=
  match names with
  | [] => Ok false
  | d :: t =>
      if negb (hr_name d) then has_partials_loop t s st base config else
      let* found :=
        match fopen_r s (strnzcat base d MAXPATHLEN) with
        | None => Ok false
        | Some data =>
            match fgets (hr_buf - 1) data with
            | ([], _) => Ok false
            | (l, _) =>
                let* w3 := hr_field (c_string l) 4 in
                Ok match w3 with
                   | None => false
                   | Some w3 =>
                       let '(ok, fa0) := parse_ftnaddress w3 (pDomains config) in
                       ok && (aka_index fa0 (take (nfa st) (fa st)) <? nfa st)%nat
                   end
            end
        end in
      if found then Ok true else has_partials_loop t s st base config
  end.
Definition inb_has_partials (s : SYS) (st : STATE) (config : BINKD_CONFIG) : mem bool :=
  let inbound := inbound_dir st config in
  if is_dir s inbound then has_partials_loop (readdir s inbound) s st (with_slash inbound) config else Ok false.

(** ** The temporary name of a file *)
Inductive SEARCH := S_none | S_busy | S_found (s : cstr).

Definition even_time (t : Z) : Z := Z.land t (-2).

(** One record; [file] is null when the partial files are only to be removed. *)
Definition hr_match (s : SYS) (path w0 w1 w2 w3 : cstr) (file : option TFILE) (st : STATE) (config : BINKD_CONFIG)
    : mem (SEARCH * SYS) :=
  let '(ok, fa0) := parse_ftnaddress w3 (pDomains config) in
  let i := if ok then Some (aka_index fa0 (fa st)) else None in
  let listed := match i with Some i => (i <? length (fa st))%nat | None => false end in
  let remove := let* s := remove_hr s path in Ok (S_none, s) in
  match file with
  | None => if listed && negb (skip_all_flag st) then remove else Ok (S_none, s)
  | Some file =>
      if ok && (strcmp w0 (t_netname file) =? 0) then
        if (t_size file =? swrap 64 (strtoumax w1)) && (even_time (t_time file) =? even_time (safe_atol w2).1) && listed
        then if (nfa st <=? default O i)%nat then Ok (S_busy, s) else Ok (S_found path, s)
        else if kill_dup_partial_files config && listed then remove else Ok (S_none, s)
      else
        let* old := to_be_deleted s path (swrap 64 (strtoumax w1)) config in
        if old then remove else Ok (S_none, s)
  end.

Definition hr_step (s : SYS) (path : cstr) (file : option TFILE) (st : STATE) (config : BINKD_CONFIG)
    : mem (SEARCH * SYS) :=
  let garbage :=
    let* old := to_be_deleted s path (-1) config in
    if old then let* s := remove_hr s path in Ok (S_none, s) else Ok (S_none, s) in
  match fopen_r s path with
  | None => Ok (S_none, s)
  | Some data =>
      match fgets (hr_buf - 1) data with
      | ([], _) => garbage
      | (l, _) =>
          let buf := c_string l in
          let* w0 := hr_field buf 1 in
          let* w1 := hr_field buf 2 in
          let* w2 := hr_field buf 3 in
          let* w3 := hr_field buf 4 in
          match w0, w1, w2, w3 with
          | Some w0, Some w1, Some w2, Some w3 => hr_match s path w0 w1 w2 w3 file st config
          | _, _, _, _ => garbage
          end
      end
  end.

Fixpoint find_loop (names : list cstr) (s : SYS) (base : cstr) (file : option TFILE) (st : STATE) (config : BINKD_CONFIG)
    : mem (SEARCH * SYS) :=
  match names with
  | [] => Ok (S_none, s)
  | d :: t =>
      if negb (hr_name d) then find_loop t s base file st config else
      let* r := hr_step s (strnzcat base d MAXPATHLEN) file st config in
      match r.1 with
      | S_none => find_loop t r.2 base file st config
      | _ => Ok r
      end
  end.

(** The .dt name and whether it is new; [None] is an error, a busy address, or
    the end of a removal. *)
Definition find_tmp_name (fuel : nat) (s : SYS) (file : option TFILE) (st : STATE) (config : BINKD_CONFIG)
    : mem (option (bool * cstr) * SYS) :=
  let inbound := inbound_dir st config in
  if negb (is_dir s inbound) then Ok (None, s) else
  let* r := find_loop (readdir s inbound) s (with_slash inbound) file st config in
  match file, r with
  | None, (_, s) | _, (S_busy, s) => Ok (None, s)
  | Some _, (S_found path, s) => let* dt := set_ext path (str ".dt") in Ok (Some (false, dt), s)
  | Some file, (S_none, s) =>
      let* c := creat_tmp_name fuel s file (hd_error (fa st)) inbound in
      match c with
      | (None, s) => Ok (None, s)
      | (Some path, s) => let* dt := set_ext path (str ".dt") in Ok (Some (true, dt), s)
      end
  end.
(** Random names tried before a model gives up. *)
Definition TMP_FUEL : nat := 64.

Definition inb_remove_partial (s : SYS) (st : STATE) (config : BINKD_CONFIG) : mem SYS :=
  let* r := find_tmp_name TMP_FUEL s None st config in Ok r.2.

(** ** Opening it *)
Section Open.
(** Free kilobytes of a file system. *)
Context (getfree : cstr -> Z).

(** [open] creates the file and positions at its end; a partial file longer
    than the file to come is truncated and opened again. *)
Fixpoint fopen_again (fuel : nat) (s : SYS) (buf : cstr) (st : STATE) (config : BINKD_CONFIG)
    : mem (option HANDLE * SYS) :=
  match fuel with
  | O => Fuel
  | S f =>
      if negb (fopen_w s buf) then Ok (None, s) else
      let s := if is_file s buf then s else put_file s buf [] in
      let st_size := match fs s !! buf with Some d => Z.of_nat (length (f_data d)) | None => 0 end in
      let req_free := if bool_decide (state st = P_SECURE) then minfree config else minfree_nonsecure config in
      let freespace2 := getfree (inbound st) in
      let freespace :=
        match temp_inbound config with
        | [] => freespace2
        | t => if strncmp t buf (length t) =? 0 then Z.min (getfree t) freespace2 else freespace2
        end in
      if t_size (in_ st) <? st_size then
        let '(r, s) := trunc_file s buf in
        if r =? 0 then fopen_again f s buf st config
        else let '(r, s) := unlink s buf in
             if r =? 0 then fopen_again f s buf st config else Ok (None, s)
      else if (0 <=? req_free) && (freespace <? wrap 64 ((t_size (in_ st) - st_size + 1023) ÷ 1024 + req_free))
      then Ok (None, s)
      else Ok (Some (mkHANDLE buf st_size), s)
  end.

Definition inb_fopen (s : SYS) (st : STATE) (config : BINKD_CONFIG) : mem (option HANDLE * SYS) :=
  let* r := find_tmp_name TMP_FUEL s (Some (in_ st)) st config in
  match r with
  | (None, s) => Ok (None, s)
  | (Some (_, buf), s) => fopen_again 2 s buf st config
  end.
End Open.

Definition inb_reject (s : SYS) (st : STATE) (config : BINKD_CONFIG) : mem (bool * SYS) :=
  let* r := find_tmp_name TMP_FUEL s (Some (in_ st)) st config in
  match r with
  | (Some (false, tmp_name), s) =>
      let* hr := set_ext tmp_name (str ".hr") in
      let* s := remove_hr s hr in Ok (true, s)
  | (_, s) => Ok (false, s)
  end.

(** ** The header of a packet *)
Fixpoint pkthdr_nodes (w : WORLD) (fa : list FTN_ADDR) (check listed : bool) (config : BINKD_CONFIG)
    : option (bool * bool) * WORLD :=
  match fa with
  | [] => (Some (check, listed), w)
  | a :: t =>
      match get_node_info w a config with
      | (None, w) => pkthdr_nodes w t check listed config
      | (Some node, w) =>
          let listed := listed || (0 <? fa_z (n_fa node)) in
          if n_HC_flag node =? HC_OFF then (None, w)
          else pkthdr_nodes w t (check || (n_HC_flag node =? HC_ON)) listed config
      end
  end.

Definition pkt_from (a : PKTADDR) (fa0 : FTN_ADDR) : bool :=
  ((oz a <? 0) || (fa_z fa0 =? oz a)) && ((onet a <? 0) || (fa_net fa0 =? onet a)) &&
  (fa_node fa0 =? onode a) && ((op a <? 0) || (fa_p fa0 =? op a)).

(** The extension becomes [pkthdr_bad], cut to the length of the old one. *)
Definition bad_ext (real_name bad : cstr) : cstr :=
  match strrchr real_name (chr ".") with
  | Some (S i) =>
      let ext := drop (S (S i)) real_name in
      take (S (S i)) real_name ++ take (length ext) bad
  | _ => real_name
  end.

Definition check_pkthdr (w : WORLD) (st : STATE) (tmp_name real_name : cstr) (config : BINKD_CONFIG) : cstr * WORLD :=
  let secure := bool_decide (state st = P_SECURE) in
  match pkthdr_bad config with
  | None => (real_name, w)
  | Some bad =>
      match pkthdr_nodes w (fa st) false false config with
      | (None, w) => (real_name, w)
      | (Some (check, listed), w) =>
          let t := pkthdr_type config in
          if negb check && ((t =? 0) || ((t =? A_PROT) && negb secure) || ((t =? A_UNPROT) && secure) ||
                            ((t =? A_LST) && negb listed) || ((t =? A_UNLST) && listed))
          then (real_name, w)
          else
            let good := match fopen_r (sys w) tmp_name with
                        | None => false
                        | Some data =>
                            if (length data <? 58)%nat then false else
                            match pkt_getaddr (take 58 data) with
                            | (false, _) => false
                            | (true, a) => existsb (pkt_from a) (fa st)
                            end
                        end in
            if good then (real_name, w) else (bad_ext real_name bad, w)
      end
  end.

(** ** The next possible real name

    [s] is the position the name is changed at; [None] is no more names. *)
Definition set_char (fname : cstr) (i : nat) (c : char) : cstr := <[i := c]> fname.

(** [isalnum (p[1])]: the last character of the run that starts at [p]. *)
Fixpoint run_end (fuel : nat) (fname : cstr) (p : nat) : nat :=
  match fuel with
  | O => p
  | S f => if isalnum (at_ fname (p + 1)) then run_end f fname (p + 1) else p
  end.

Definition last_char (ren_style : renamestyletype) : char :=
  match ren_style with RENAME_BODY => chr "f" | _ => chr "z" end.

(** The carry moves left, up to [s] and then one more. *)
Fixpoint inc_loop (p : nat) (fname : cstr) (s : nat) (ren_style : renamestyletype) : mem (option (cstr * nat)) :=
  let c := at_ fname p in
  if c =? chr "9" then Ok (Some (set_char fname p (chr "a"), s))
  else if c =? last_char ren_style then
    let fname := set_char fname p (chr "0") in
    match p with
    | O => Oob
    | S p' =>
        let c' := at_ fname p' in
        if (c' =? chr "/") || (c' =? chr ".") then Ok None
        else if negb (p =? s)%nat then inc_loop p' fname s ren_style
        else Ok (Some (set_char fname p' (chr "0"), p'))
    end
  else Ok (Some (set_char fname p (uchar (c + 1)), s)).

Definition next_inb_filename (fname : cstr) (s : nat) (ren_style : renamestyletype) : mem (option (cstr * nat)) :=
  let c := at_ fname s in
  if bool_decide (ren_style = RENAME_POSTFIX) then
    if c =? 0 then Ok (Some (take s fname ++ str ".1", s))
    else
      let num := atoi (drop (s + 1) fname) in
      if (num <=? 0) || (MAX_INB_RENAME <? num) then Ok None
      else Ok (Some (take (s + 1) fname ++ fmt_d (num + 1), s))
  else if (bool_decide (ren_style = RENAME_EXTENSION) && (c =? 0)) || (bool_decide (ren_style = RENAME_BODY) && (c =? chr "."))
  then match s with
       | O => Oob
       | S s' => Ok (Some (set_char fname s' (chr "0"), s'))
       end
  else inc_loop (run_end (length fname) fname s) fname s ren_style.

(** *.pkt, mail, tickets and requests keep their extension. *)
Definition keeps_ext (netname : cstr) : bool := ispkt netname || istic netname || isarcmail netname || isreq netname.

(** [s -= 4] for these. *)
Definition name_pos (netname real_name : cstr) : mem nat :=
  if keeps_ext netname then (if (length real_name <? 4)%nat then Oob else Ok (length real_name - 4)%nat)
  else Ok (length real_name).

Definition mask_test (s : cstr) (chain : list cstr) : option cstr := List.find (fun m => pmatch_ncase m s) chain.

Definition real_name_of (inbound netname : cstr) (config : BINKD_CONFIG) : mem cstr :=
  let* u := makeinboundcase (strdequote netname) (inboundcase config) in
  let base := with_slash inbound in
  let full := strnzcat base u MAXPATHLEN in
  Ok (take (length base) full ++ strwipe (drop (length base) full)).

(** ** A complete file gets its real name *)

(** With an [overwrite] mask the old file goes away first. *)
Fixpoint overwrite_loop (k : nat) (s : SYS) (tmp_name real_name : cstr) : bool * SYS :=
  let s := (unlink s real_name).2 in
  match o_rename s tmp_name real_name with
  | (None, s) => (true, s)
  | (Some ENOENT, s) => (false, s)
  | (Some _, s) => match k with O => (false, s) | S k => overwrite_loop k s tmp_name real_name end
  end.

(** Otherwise other names are tried; [again] is the name and position to start
    over with when the extensions run out. *)
Fixpoint rename_loop (fuel : nat) (s : SYS) (tmp_name real_name : cstr) (pos : nat) (ren_style : renamestyletype)
    (again : cstr * nat) : mem (option cstr * SYS) :=
  match fuel with
  | O => Fuel
  | S f =>
      match o_rename s tmp_name real_name with
      | (None, s) => Ok (Some real_name, s)
      | (Some ENOENT, s) => Ok (None, s)
      | (Some _, s) =>
          let* n := next_inb_filename real_name pos ren_style in
          match n with
          | Some (real_name, pos) => rename_loop f s tmp_name real_name pos ren_style again
          | None =>
              if bool_decide (ren_style = RENAME_EXTENSION)
              then rename_loop f s tmp_name again.1 again.2 RENAME_POSTFIX again
              else Ok (None, s)
          end
      end
  end.
(** One name for each entry of the directories, twice. *)
Definition rename_fuel (s : SYS) : nat := 2 * S (size (fs s) + size (dirs s)).

Definition overwritable (netname : cstr) (config : BINKD_CONFIG) : bool :=
  bool_decide (is_Some (mask_test netname (overwrite config))) && negb (ispkt netname) && negb (isarcmail netname).

(** The file under its real name, and its record removed; [None] is a failure,
    with the data left in the temporary file. *)
Definition inb_store (w : WORLD) (file : TFILE) (tmp_name : cstr) (st : STATE) (config : BINKD_CONFIG)
    : mem (option cstr * WORLD) :=
  let netname := t_netname file in
  let* real_name := real_name_of (inbound st) netname config in
  if overwritable netname config then
    let '(ok, s) := overwrite_loop 10 (sys w) tmp_name real_name in
    Ok (if ok then Some real_name else None, w <| sys := s |>)
  else
    let '(real_name', w) := if ispkt netname then check_pkthdr w st tmp_name real_name config else (real_name, w) in
    let* pos := name_pos netname real_name' in
    let ren_style := if keeps_ext netname then RENAME_BODY else renamestyle config in
    let w := (on_sys w (touch (sys w) tmp_name (t_time file))).2 in
    let* r := rename_loop (rename_fuel (sys w)) (sys w) tmp_name real_name' pos ren_style
                (real_name, length (with_slash (inbound st))) in
    Ok (r.1, w <| sys := r.2 |>).

Section Done.
Context (run : cstr -> SYS -> SYS).

Definition inb_done (w : WORLD) (file : TFILE) (st : STATE) (config : BINKD_CONFIG) : mem (bool * STATE * WORLD) :=
  let* r := find_tmp_name TMP_FUEL (sys w) (Some file) st config in
  match r with
  | (Some (false, tmp_name), s) =>
      let* r := inb_store (w <| sys := s |>) file tmp_name st config in
      match r with
      | (None, w) => Ok (false, st, w)
      | (Some real_name, w) =>
          let* hr := set_ext tmp_name (str ".hr") in
          let w := (on_sys w (unlink (sys w) hr)).2 in
          let '(rc, eq, s) := evt_test (sys w) (evt_queue st) real_name (evt_flags config) in
          let st := st <| evt_queue := eq |> in
          let w := w <| sys := s |> in
          let* e := if (rc : bool) then evt_run run w (q st) real_name (0 <? delay_EOB st) st config
                    else Ok (q st, st, w) in
          let '(q', st, w) := e in
          let st := st <| q := q' |> in
          let st := if negb (delay_EOB st =? 0) && isreq (t_netname file) then st <| delay_EOB ::= Z.pred |> else st in
          let st := st <| bytes_rcvd ::= fun b => wrap 64 (b + t_size file) |> <| files_rcvd ::= Z.succ |> in
          match fa st with [] => Oob | _ => Ok (true, st, w) end
      end
  | (_, s) => Ok (false, st, w <| sys := s |>)
  end.
End Done.

(** ** Is the file already here? *)
Fixpoint inb_test_loop (fuel : nat) (s : SYS) (fp : cstr) (pos : nat) (size t : Z) (ren_style : renamestyletype)
    : mem (bool * cstr) :=
  match fuel with
  | O => Fuel
  | S f =>
      if negb (exists_ s fp) then Ok (false, fp) else
      let same := match stat_file s fp with
                  | Some (sz, mtime) => (sz =? size) && (even_time mtime =? even_time t)
                  | None => false
                  end in
      if same then Ok (true, fp) else
      let* n := next_inb_filename fp pos ren_style in
      match n with
      | Some (fp, pos) => inb_test_loop f s fp pos size t ren_style
      | None => Ok (false, fp)
      end
  end.
Definition inb_test (s : SYS) (filename : cstr) (size t : Z) (inbound : cstr) (ren_style : renamestyletype) : mem (bool * cstr) :=
  let base := with_slash inbound in
  let full := strnzcat base (strdequote filename) MAXPATHLEN in
  let fp := take (length base) full ++ strwipe (drop (length base) full) in
  let* pos := name_pos filename fp in
  inb_test_loop (rename_fuel s) s fp pos size t (if keeps_ext filename then RENAME_BODY else ren_style).

(** ** The record next to a temporary file *)
#[local] Opaque MAXPATHLEN.

(** What the system may become while partial files are looked through. *)
Record shrinks (s s' : SYS) : Prop := {
  sh_fs : fs s' ⊆ fs s;
  sh_dirs : dirs s' = dirs s;
  sh_deny : deny s' = deny s;
  sh_rand : rand_ s' = rand_ s;
  sh_nrand : nrand s' = nrand s;
  sh_clock : clock s' = clock s
}.
Lemma shrinks_refl s : shrinks s s.
Proof. by constructor. Qed.
Lemma shrinks_trans s1 s2 s3 : shrinks s1 s2 -> shrinks s2 s3 -> shrinks s1 s3.
Proof. intros [] []. constructor; etrans; done. Qed.
Lemma delete_shrinks s p : shrinks s (delete_ s p).2.
Proof. unfold delete_, unlink. case_if; [|apply shrinks_refl]. constructor; try done. simpl. apply delete_subseteq. Qed.

Definition dotted (p : cstr) : Prop := is_Some (strrchr p (chr ".")).

Lemma strrchr_app_none a b c : c <> 0 -> strrchr b c = None -> strrchr (a ++ b) c = strrchr a c.
Proof.
  intros Hc Hb. induction a as [|x a IH]; simpl; [|by rewrite IH].
  rewrite Hb. by rewrite (proj2 (Z.eqb_neq c 0)).
Qed.
Lemma strrchr_app_some a b c i : strrchr b c = Some i -> strrchr (a ++ b) c = Some (length a + i)%nat.
Proof. intros Hb. induction a as [|x a IH]; simpl; [done|]. by rewrite IH. Qed.

Lemma set_ext_ok p ext : dotted p -> exists q, set_ext p ext = Ok q /\ (strrchr ext (chr ".") = Some O -> dotted q).
Proof.
  intros [i Hi]. unfold set_ext. rewrite Hi. eexists. split; [done|]. intros He. exists (length (take i p) + 0)%nat.
  by apply strrchr_app_some.
Qed.

Lemma remove_hr_ok s p : dotted p -> exists s', remove_hr s p = Ok s' /\ shrinks s s'.
Proof.
  intros Hp. unfold remove_hr. destruct (set_ext_ok p (str ".dt") Hp) as (dt & -> & Hdt). cbn [mem_bind].
  destruct (set_ext_ok dt (str ".hr") (Hdt eq_refl)) as (hr & -> & _). cbn [mem_bind]. eexists. split; [done|].
  eapply shrinks_trans; apply delete_shrinks.
Qed.

Lemma to_be_deleted_ok s p size config : dotted p -> exists b, to_be_deleted s p size config = Ok b.
Proof.
  intros Hp. unfold to_be_deleted. case_if; [eauto|]. destruct (stat_file s p) as [[? ?]|]; [|eauto].
  destruct (set_ext_ok p (str ".dt") Hp) as (dt & -> & _). simpl. eauto.
Qed.

(** The record [hr] is the file's: name, size and time, and the sender is one
    of the addresses this session has locked. *)
Definition record_of (s : SYS) (hr : cstr) (file : TFILE) (st : STATE) (config : BINKD_CONFIG) : Prop :=
  exists data line rest w0 w1 w2 w3 fa0,
    fopen_r s hr = Some data /\ fgets (hr_buf - 1) data = (line, rest) /\
    hr_field (c_string line) 1 = Ok (Some w0) /\ strcmp w0 (t_netname file) = 0 /\
    hr_field (c_string line) 2 = Ok (Some w1) /\ t_size file = swrap 64 (strtoumax w1) /\
    hr_field (c_string line) 3 = Ok (Some w2) /\ even_time (t_time file) = even_time (safe_atol w2).1 /\
    hr_field (c_string line) 4 = Ok (Some w3) /\ parse_ftnaddress w3 (pDomains config) = (true, fa0) /\
    Exists (fun a => ftnaddress_cmp fa0 a = 0) (take (nfa st) (fa st)).

Definition byte_files (s : SYS) : Prop := forall p f, fs s !! p = Some f -> Forall is_byte (f_data f).
Lemma byte_files_shrinks s s' : shrinks s s' -> byte_files s -> byte_files s'.
Proof. intros H Hb p f Hp. eapply Hb, lookup_weaken; [done|apply H]. Qed.

Lemma hr_field_ok l n : (0 < n)%nat -> Forall is_byte l -> exists w, hr_field (c_string l) n = Ok w.
Proof.
  intros Hn Hl. unfold hr_field. apply getwordx_total; [done|done|by apply c_string_cstring|by left].
Qed.

Lemma aka_index_locked fa0 n l : (aka_index fa0 l < n)%nat -> (aka_index fa0 l < length l)%nat ->
  Exists (fun a => ftnaddress_cmp fa0 a = 0) (take n l).
Proof.
  revert n. induction l as [|a l IH]; intros n; simpl; [lia|]. destruct n as [|n]; [lia|].
  destruct (Z.eqb_spec (ftnaddress_cmp fa0 a) 0); simpl; [by left|]. intros. right. apply IH; lia.
Qed.

Lemma fgets_bytes n f : Forall is_byte f -> Forall is_byte (fgets n f).1.
Proof.
  intros Hf. pose proof (fgets_split n f) as E. rewrite <- E in Hf. by apply Forall_app in Hf as [Hf _].
Qed.

(** One directory entry: the search stops at a record of the file only. *)
Definition step_spec (s0 : SYS) (path : cstr) (file : TFILE) (st : STATE) (config : BINKD_CONFIG) (r : SEARCH * SYS) : Prop :=
  shrinks s0 r.2 /\
  match r.1 with S_found p => dotted p /\ record_of r.2 p file st config | _ => True end.

Lemma removed_spec s path p file st config : dotted p ->
  outcome (step_spec s path file st config) False (let* s := remove_hr s p in Ok (S_none, s)).
Proof. intros Hp. destruct (remove_hr_ok s p Hp) as (s' & -> & Hs). by split. Qed.

Lemma hr_step_spec s path file st config : dotted path -> byte_files s ->
  outcome (step_spec s path file st config) False (hr_step s path (Some file) st config).
Proof.
  intros Hp Hb. unfold hr_step, fopen_r. destruct (fs s !! path) as [f|] eqn:Ef; cbn [fmap option_fmap option_map];
    [|split; [apply shrinks_refl|done]].
  assert (Hgarb : outcome (step_spec s path file st config) False
    (let* old := to_be_deleted s path (-1) config in
     if old then let* s := remove_hr s path in Ok (S_none, s) else Ok (S_none, s))).
  { destruct (to_be_deleted_ok s path (-1) config Hp) as ([|] & ->); cbn [mem_bind]; [by apply removed_spec|].
    split; [apply shrinks_refl|done]. }
  destruct (fgets (hr_buf - 1) (f_data f)) as [[|c l] rest] eqn:Eg; [done|].
  pose proof (fgets_bytes (hr_buf - 1) (f_data f) (Hb _ _ Ef)) as Hl. rewrite Eg in Hl. cbn [fst] in Hl.
  destruct (hr_field_ok (c :: l) 1 ltac:(lia) Hl) as (w0 & E0). destruct (hr_field_ok (c :: l) 2 ltac:(lia) Hl) as (w1 & E1).
  destruct (hr_field_ok (c :: l) 3 ltac:(lia) Hl) as (w2 & E2). destruct (hr_field_ok (c :: l) 4 ltac:(lia) Hl) as (w3 & E3).
  rewrite E0, E1, E2, E3. cbn [mem_bind].
  destruct w0 as [w0|], w1 as [w1|], w2 as [w2|], w3 as [w3|]; try done.
  unfold hr_match. destruct (parse_ftnaddress w3 (pDomains config)) as [ok fa0] eqn:Ep.
  destruct (ok && (strcmp w0 (t_netname file) =? 0)) eqn:Ename.
  - apply andb_prop in Ename as [-> Ename].
    destruct (_ && _ && (aka_index fa0 (fa st) <? length (fa st))%nat) eqn:Eall.
    + case_if; [split; [apply shrinks_refl|done]|]. cbn [outcome]. split; [apply shrinks_refl|]. cbn [fst snd default].
      bools. split; [done|]. exists (f_data f), (c :: l), rest, w0, w1, w2, w3, fa0.
      apply Nat.leb_gt in E. cbn [default] in E. apply Nat.ltb_lt in H0. unfold fopen_r. rewrite Ef. split_and!; try done.
      by apply aka_index_locked.
    + case_if; [by apply removed_spec|]. split; [apply shrinks_refl|done].
  - destruct (to_be_deleted_ok s path (swrap 64 (strtoumax w1)) config Hp) as ([|] & ->); cbn [mem_bind];
      [by apply removed_spec|]. split; [apply shrinks_refl|done].
Qed.

Lemma stricmp_length s t : cstring s -> cstring t -> o_stricmp s t = 0 -> length s = length t.
Proof.
  intros Hs Ht H. apply o_stricmp_eq in H; [|done..]. apply (f_equal length) in H. unfold strlower in H. by rewrite !length_map in H.
Qed.

Lemma hr_name_dotted d : cstring d -> hr_name d = true -> dotted d /\ length d = 11%nat.
Proof.
  intros Hd H. unfold hr_name in H. bools. apply Nat.leb_le in H1.
  assert (Hd8 : cstring (drop 8 d)) by (by apply Forall_drop).
  assert (Hhr : cstring (str ".hr")) by (vm_compute; repeat constructor).
  pose proof (stricmp_length _ _ Hd8 Hhr H0) as Hl. rewrite length_drop in Hl. simpl in Hl.
  split; [|lia]. apply o_stricmp_eq in H0; [|done|done].
  change (strlower (str ".hr")) with [46; 104; 114] in H0.
  destruct (drop 8 d) as [|c t] eqn:E; [done|]. cbn [strlower map] in H0. injection H0 as Hc _.
  assert (c = 46) as ->.
  { apply Forall_inv in Hd8. unfold tolower, isupper in Hc. destruct ((65 <=? c) && (c <=? 90)) eqn:Ei; bools; lia. }
  rewrite <- (take_drop 8 d), E. unfold dotted. destruct (strrchr (46 :: t) (chr ".")) as [i|] eqn:Es.
  - rewrite (strrchr_app_some _ _ _ i Es). eauto.
  - simpl in Es. by destruct (strrchr t (chr ".")).
Qed.

Lemma find_loop_spec names s base file st config :
  Forall cstring names -> (length base + 12 < MAXPATHLEN)%nat -> byte_files s ->
  outcome (fun r => shrinks s r.2 /\ match r.1 with S_found p => dotted p /\ record_of r.2 p file st config | _ => True end)
    False (find_loop names s base (Some file) st config).
Proof.
  intros Hn Hlen. revert s. induction Hn as [|d names Hd Hn IH]; intros s Hb; cbn [find_loop];
    [split; [apply shrinks_refl|done]|].
  case_if; bools; [by apply IH|]. destruct (hr_name_dotted d Hd E) as [Hdot Hl].
  assert (Hp : dotted (strnzcat base d MAXPATHLEN)).
  { rewrite strnzcat_fits by lia. destruct Hdot as [i Hi]. exists (length base + i)%nat. by apply strrchr_app_some. }
  eapply outcome_bind; [by apply hr_step_spec|]. intros [r s1] [Hs1 Hr]. cbn [fst snd] in *.
  destruct r; [|by split|by split]. eapply outcome_weaken; [apply IH; by eapply byte_files_shrinks| |done].
  intros [r2 s2] [Hs2 Hr2]. split; [by eapply shrinks_trans|done].
Qed.

(** *** A new record reads back *)
Definition word_char (c : char) : Prop := 32 < c < 256 /\ c <> 34.
Definition record_file (file : TFILE) : Prop :=
  t_netname file <> [] /\ Forall word_char (t_netname file) /\ 0 <= t_size file < 2 ^ 63 /\ 0 <= t_time file < 2 ^ 63.

Lemma word_char_sep c : word_char c -> in_set DEF_FLDSEP c = false.
Proof.
  intros [Hc _]. apply in_set_false; [lia|]. unfold DEF_FLDSEP. simpl. lia.
Qed.

Lemma fmt_u_words n : 0 <= n -> Forall word_char (fmt_u n) /\ fmt_u n <> [].
Proof.
  intros Hn. split.
  - eapply Forall_impl; [by apply fmt_u_digit10|]. unfold digit10, word_char. lia.
  - destruct (fmt_u_head n [] Hn) as (c & t & E & _). rewrite app_nil_r in E. by rewrite E.
Qed.

Lemma domain_char_word c : domain_char c = true -> word_char c.
Proof.
  unfold domain_char, isalnum, isalpha, isupper, islower, isdigit, word_char. change (chr ".") with 46.
  change (chr "-") with 45. change (chr "_") with 95. intros H. bools.
  repeat match goal with H : _ \/ _ |- _ => destruct H | H : orb _ _ = true |- _ => apply orb_true_iff in H end; bools; lia.
Qed.

Lemma addr_words a : fa_valid a -> Forall word_char (ftnaddress_to_str a) /\ ftnaddress_to_str a <> [].
Proof.
  intros Ha. split.
  - apply addr_str_Forall.
    + unfold digit10, word_char. intros c Hc. lia.
    + intros c [<-|[<-|[<-|[<-|[<-|[]]]]]]; by vm_compute.
    + destruct (valid_domain a Ha) as [-> | [(_ & Hd & _) _]]; [constructor|].
      eapply Forall_impl; [done|]. intros c. apply domain_char_word.
  - unfold ftnaddress_to_str, xftnaddress_to_str. destruct (Z.eqb_spec (fa_node a) (-1)) as [E|E]; cbn [negb].
    + rewrite orb_true_r. cbn [orb]. intros H. apply app_eq_nil in H as [_ H]. apply app_eq_nil in H as [_ H].
      apply app_eq_nil in H as [_ H]. by apply app_eq_nil in H as [H _].
    + intros H. apply app_eq_nil in H as [_ H]. apply app_eq_nil in H as [_ H]. by apply app_eq_nil in H as [H _].
Qed.

(** The four words of the line. *)
Lemma hr_line_words file a : record_file file -> fa_valid a ->
  words_of (hr_line file (Some a)) =
    [t_netname file; fmt_u (t_size file); fmt_u (t_time file); ftnaddress_to_str a] /\
  Forall (plain GWX_CTL) (hr_line file (Some a)).
Proof.
  intros (Hne & Hn & Hs & Ht) Ha. unfold hr_line.
  assert (E1 : wrap 64 (t_size file) = t_size file) by (apply Z.mod_small; lia).
  assert (E2 : wrap 64 (t_time file) = t_time file) by (apply Z.mod_small; lia). rewrite E1, E2. clear E1 E2.
  change (str " ") with [32]. cbn [app].
  destruct (fmt_u_words (t_size file) ltac:(lia)) as [Hu Hune]. destruct (fmt_u_words (t_time file) ltac:(lia)) as [Hv Hvne].
  destruct (addr_words a Ha) as [Hw Hwne].
  assert (Hsep : forall u, Forall word_char u -> Forall (fun d => in_set DEF_FLDSEP d = false) u)
    by (intros u Hu0; eapply Forall_impl; [exact Hu0|apply word_char_sep]). split.
  - rewrite !words_of_cons by auto. done.
  - assert (Hp : forall u, Forall word_char u -> Forall (plain GWX_CTL) u).
    { intros u Hu0. eapply Forall_impl; [exact Hu0|]. unfold word_char, plain. intros c Hc. split_and!; [lia|lia|by unfold DQUOTE; lia|by left]. }
    assert (H32 : plain GWX_CTL 32) by (split_and!; [done|done|done|by left]).
    assert (H10 : plain GWX_CTL 10) by (split_and!; [done|done|done|by left]).
    repeat (apply Forall_app; split; [by apply Hp|constructor; [done|]]). constructor.
Qed.

Lemma hr_line_record s p file a st config :
  record_file file -> fa_valid a -> domain_spelling (fa_domain a) (pDomains config) = fa_domain a ->
  fs s !! p = Some (mkFILE_ (hr_line file (Some a)) (clock s)) -> (length (hr_line file (Some a)) < hr_buf)%nat ->
  hd_error (fa st) = Some a -> (0 < nfa st)%nat -> fa_wf a ->
  record_of s p file st config.
Proof.
  intros Hf Ha Hsp Hfs Hlen Hhd Hn Hwf. destruct (hr_line_words file a Hf Ha) as [Hwords Hplain].
  assert (Hline : exists u, hr_line file (Some a) = u ++ [10] /\ ~ In 10 u).
  { eexists. unfold hr_line. rewrite !app_assoc. split; [reflexivity|]. rewrite <- !app_assoc.
    destruct Hf as (_ & Hnn & Hs & Ht). destruct (addr_words a Ha) as [Hw _].
    assert (Hno : forall u, Forall word_char u -> Forall (fun c => c <> 10) u).
    { intros v Hv. eapply Forall_impl; [exact Hv|]. unfold word_char. lia. }
    assert (Hu : forall z, Forall (fun c => c <> 10) (fmt_u (wrap 64 z)))
      by (intros z; apply Hno, fmt_u_words, Z.mod_pos_bound; lia).
    match goal with |- ~ In 10 ?l => assert (Hall : Forall (fun c => c <> 10) l) end.
    { change (str " ") with [32]. repeat (apply Forall_app; split; [first [by apply Hno|by apply Hu|by repeat constructor]|]).
      by apply Hno. }
    rewrite List.Forall_forall in Hall. intros Hin. by apply Hall in Hin. }
  destruct Hline as (u & Eu & Hnl).
  assert (Hget : fgets (hr_buf - 1) (hr_line file (Some a)) = (hr_line file (Some a), [])).
  { rewrite Eu in *. apply fgets_line; [|done]. rewrite length_app in Hlen. simpl in Hlen. lia. }
  assert (Hcs : c_string (hr_line file (Some a)) = hr_line file (Some a)).
  { apply c_string_id. eapply Forall_impl; [done|]. by intros c [? _]. }
  assert (Hfield : forall n, (0 < n)%nat -> hr_field (hr_line file (Some a)) n =
    Ok (nth_error [t_netname file; fmt_u (t_size file); fmt_u (t_time file); ftnaddress_to_str a] (n - 1))).
  { intros n Hn0. unfold hr_field. rewrite getwordx_words by done. by rewrite Hwords. }
  destruct Hf as (_ & Hnn & Hs & Ht).
  exists (hr_line file (Some a)), (hr_line file (Some a)), [], (t_netname file), (fmt_u (t_size file)), (fmt_u (t_time file)),
    (ftnaddress_to_str a), a. unfold fopen_r. rewrite Hfs, Hcs. split_and!; try done; try (by rewrite Hfield by lia).
  - apply strcmp_eq; [| |done]; eapply Forall_impl; try exact Hnn; unfold word_char; lia.
  - rewrite <- (app_nil_r (fmt_u (t_size file))), strtoumax_fmt_u by (done || unfold UINTMAX_MAX; lia).
    rewrite swrap_id; lia.
  - f_equal. unfold safe_atol. destruct (fmt_u_head (t_time file) [] ltac:(lia)) as (c & t & E & Hc).
    rewrite app_nil_r in E. rewrite E. unfold digit10 in Hc. cbn [hd0]. change (chr "-") with 45.
    rewrite (proj2 (Z.eqb_neq c 45)) by lia. cbn [fst]. rewrite <- E.
    rewrite <- (app_nil_r (fmt_u (t_time file))), strtoumax_fmt_u by (done || unfold UINTMAX_MAX; lia). rewrite swrap_id; lia.
  - by apply parse_printed.
  - destruct (fa st) as [|b l]; [done|]. injection Hhd as ->. destruct (nfa st); [lia|]. left. by apply ftnaddress_cmp_same.
Qed.

(** *** Creating the record *)
Definition tmp_path (s : SYS) (inbound : cstr) (k : nat) : cstr :=
  strnzcat (with_slash inbound) (fmt_x 8 (Z.land (clock s + rand_ s (nrand s + k)) 0xFFFFFFFF) ++ str ".hr") MAXPATHLEN.
(** One of the random names to come is free. *)
Definition free_name (s : SYS) (inbound : cstr) (fuel : nat) : Prop :=
  exists k, (k < fuel)%nat /\ may_create s (tmp_path s inbound k) = true.

Lemma may_create_shrinks s s' p : shrinks s s' -> may_create s p = true -> may_create s' p = true.
Proof.
  intros [Hfs Hd Hdeny _ _ _] H. unfold may_create in *. bools. rewrite Hdeny, H1. cbn [negb andb].
  unfold parent_ok, exists_, is_dir, is_file in *. rewrite Hd. bools. rewrite H2, H0, orb_false_r, !andb_true_r.
  apply negb_true_iff, bool_decide_eq_false. intros [f Hf]. apply bool_decide_eq_false in H. apply H. exists f.
  by eapply lookup_weaken.
Qed.

Lemma tmp_path_shrinks s s' inbound k : shrinks s s' -> tmp_path s' inbound k = tmp_path s inbound k.
Proof. intros [_ _ _ Hr Hn Hc]. unfold tmp_path. by rewrite Hr, Hn, Hc. Qed.

Lemma free_name_shrinks s s' inbound fuel : shrinks s s' -> free_name s inbound fuel -> free_name s' inbound fuel.
Proof.
  intros Hs (k & Hk & Hc). exists k. split; [done|]. rewrite (tmp_path_shrinks s s') by done. by eapply may_create_shrinks.
Qed.

Lemma tmp_path_dotted s inbound k : (length (with_slash inbound) + 12 < MAXPATHLEN)%nat -> dotted (tmp_path s inbound k).
Proof.
  intros Hl. unfold tmp_path. set (r := Z.land _ _). assert (Hr : 0 <= r < 2 ^ 32).
  { unfold r. change 0xFFFFFFFF with (Z.ones 32). rewrite Z.land_ones by lia. apply Z.mod_pos_bound. lia. }
  rewrite strnzcat_fits.
  - rewrite app_assoc. eexists. by apply (strrchr_app_some _ (str ".hr") _ 0).
  - rewrite length_app, fmt_x_length by lia. simpl. lia.
Qed.

Lemma creat_tmp_name_spec fuel s file from inbound :
  free_name s inbound fuel -> (length (with_slash inbound) + 12 < MAXPATHLEN)%nat ->
  exists path s', creat_tmp_name fuel s file from inbound = Ok (Some path, s') /\ dotted path /\
    fs s' !! path = Some (mkFILE_ (hr_line file from) (clock s')).
Proof.
  revert s. induction fuel as [|f IH]; intros s (k & Hk & Hc) Hl; [lia|]. cbn [creat_tmp_name]. unfold rnd.
  set (s1 := s <| nrand ::= S |>).
  change (strnzcat (with_slash inbound) (fmt_x 8 (Z.land (clock s + rand_ s (nrand s)) 0xFFFFFFFF) ++ str ".hr") MAXPATHLEN)
    with (strnzcat (with_slash inbound) (fmt_x 8 (Z.land (clock s + rand_ s (nrand s)) 0xFFFFFFFF) ++ str ".hr") MAXPATHLEN).
  assert (E0 : strnzcat (with_slash inbound) (fmt_x 8 (Z.land (clock s + rand_ s (nrand s)) 0xFFFFFFFF) ++ str ".hr") MAXPATHLEN
    = tmp_path s inbound 0) by (unfold tmp_path; by rewrite Nat.add_0_r). rewrite E0.
  unfold create_empty_sem_file. change (may_create s1 (tmp_path s inbound 0)) with (may_create s (tmp_path s inbound 0)).
  destruct (may_create s (tmp_path s inbound 0)) eqn:Em.
  - assert (Hw : fopen_w (put_file s1 (tmp_path s inbound 0) []) (tmp_path s inbound 0) = true).
    { unfold may_create, exists_ in Em. bools. unfold fopen_w.
      change (deny (put_file s1 (tmp_path s inbound 0) [])) with (deny s).
      change (is_dir (put_file s1 (tmp_path s inbound 0) []) (tmp_path s inbound 0)) with (is_dir s (tmp_path s inbound 0)).
      rewrite H1, H2. cbn [negb andb orb]. unfold is_file. rewrite bool_decide_eq_true_2; [done|]. simpl.
      by rewrite lookup_insert_eq. }
    rewrite Hw. eexists _, _. split; [done|]. split; [by apply tmp_path_dotted|]. simpl. by rewrite lookup_insert_eq.
  - destruct k as [|k]; [by rewrite Hc in Em|]. apply IH; [|done]. exists k. split; [lia|].
    change (may_create s1 (tmp_path s1 inbound k)) with (may_create s (tmp_path s1 inbound k)).
    assert (E1 : tmp_path s1 inbound k = tmp_path s inbound (S k)).
    { unfold tmp_path. replace (nrand s + S k)%nat with (S (nrand s) + k)%nat by lia. reflexivity. }
    rewrite E1. exact Hc.
Qed.

(** C28: The temporary file a transfer is given is its own: next to the .dt
    name returned there is a record that names this file, with its size and its
    time to two seconds, sent by one of the addresses the session has locked.
    A resumed transfer therefore never appends to another file's or another
    link's data, and a record just written is one the next session will find.
    The search always ends, if one of the random names it may try is free. *)
Theorem find_tmp_name_record s file a st config :
  is_dir s (inbound_dir st config) = true ->
  Forall cstring (readdir s (inbound_dir st config)) -> byte_files s ->
  (length (with_slash (inbound_dir st config)) + 12 < MAXPATHLEN)%nat ->
  free_name s (inbound_dir st config) TMP_FUEL ->
  record_file file -> hd_error (fa st) = Some a -> (0 < nfa st)%nat -> fa_valid a -> fa_wf a ->
  domain_spelling (fa_domain a) (pDomains config) = fa_domain a -> (length (hr_line file (Some a)) < hr_buf)%nat ->
  outcome (fun r => match r.1 with
                    | Some (_, dt) => exists hr, set_ext hr (str ".dt") = Ok dt /\ record_of r.2 hr file st config
                    | None => True
                    end) False (find_tmp_name TMP_FUEL s (Some file) st config).
Proof.
  intros Hdir Hnames Hb Hlen Hfree Hf Hhd Hn Hv Hwf Hsp Hline. unfold find_tmp_name. rewrite Hdir. cbn [negb].
  eapply outcome_bind; [by apply find_loop_spec|]. intros [r s1] [Hs Hr]. cbn [fst snd] in *. destruct r as [| |p]; [|done|].
  - rewrite Hhd. destruct (creat_tmp_name_spec TMP_FUEL s1 file (Some a) (inbound_dir st config)) as (p & s2 & -> & Hp & Hfs);
      [by eapply free_name_shrinks|done|]. cbn [mem_bind]. destruct (set_ext_ok p (str ".dt") Hp) as (dt & E & _).
    rewrite E. cbn. exists p. split; [done|]. by eapply hr_line_record.
  - destruct Hr as [Hp Hr]. destruct (set_ext_ok p (str ".dt") Hp) as (dt & E & _). rewrite E. cbn. eauto.
Qed.

Definition example_file : TFILE := TF_ZERO <| t_netname := str "a.pkt" |> <| t_size := 100 |> <| t_time := 1000 |>.

Lemma find_tmp_name_record_witness :
  match find_tmp_name TMP_FUEL example_sys (Some example_file) example_state example_config with
  | Ok (Some (new, dt), s) => new = true /\ dt = str "/in/000003e8.dt" /\
      exists hr, set_ext hr (str ".dt") = Ok dt /\ record_of s hr example_file example_state example_config
  | _ => False
  end.
Proof.
  pose proof (find_tmp_name_record example_sys example_file (example_addr 13) example_state example_config) as H.
  assert (E : match find_tmp_name TMP_FUEL example_sys (Some example_file) example_state example_config with
              | Ok (r, _) => r | _ => None end = Some (true, str "/in/000003e8.dt")) by (vm_compute; reflexivity).
  destruct (find_tmp_name TMP_FUEL example_sys (Some example_file) example_state example_config) as [[r s]| |]; [|discriminate E..].
  subst r. split; [reflexivity|]. split; [reflexivity|]. apply H; clear H.
  - vm_compute. reflexivity.
  - vm_compute. constructor.
  - intros p f Hp. vm_compute in Hp. destruct p; discriminate Hp.
  - apply Nat.ltb_lt. vm_compute. reflexivity.
  - exists 0%nat. split; [unfold TMP_FUEL; lia|]. vm_compute. reflexivity.
  - split; [discriminate|]. split; [vm_compute; repeat constructor; discriminate|]. split; simpl; lia.
  - reflexivity.
  - simpl. lia.
  - constructor; simpl; unfold known, INT_MAX; try (right; split; lia); try lia. right. split; [|lia].
    split; [reflexivity|]. split; [vm_compute; repeat constructor|apply Nat.leb_le; vm_compute; reflexivity].
  - apply example_addr_wf. lia.
  - reflexivity.
  - apply Nat.ltb_lt. vm_compute. reflexivity.
Defined.

(** ** Opening the temporary file *)
Section Opening.
Context (getfree : cstr -> Z) (buf : cstr) (st : STATE) (config : BINKD_CONFIG).

Definition file_size (s : SYS) : Z := match fs s !! buf with Some d => Z.of_nat (length (f_data d)) | None => 0 end.
Definition opened (s : SYS) : SYS := if is_file s buf then s else put_file s buf [].

Lemma opened_file s : is_file (opened s) buf = true.
Proof.
  unfold opened. destruct (is_file s buf) eqn:E; [done|]. unfold is_file. simpl. rewrite lookup_insert_eq.
  by apply bool_decide_eq_true_2.
Qed.
Lemma opened_deny s : deny (opened s) = deny s.
Proof. unfold opened. by case_if. Qed.
Lemma opened_size s : file_size (opened s) = file_size s.
Proof.
  unfold opened, file_size. destruct (is_file s buf) eqn:E; [done|]. simpl. rewrite lookup_insert_eq. simpl.
  unfold is_file in E. apply bool_decide_eq_false in E. destruct (fs s !! buf); [|done]. exfalso. apply E. eauto.
Qed.

(** One round on a file that may be written. *)
Lemma fopen_round f s : fopen_w s buf = true ->
  exists ok, fopen_again getfree (S f) s buf st config =
    if t_size (in_ st) <? file_size s then fopen_again getfree f (put_file (opened s) buf []) buf st config
    else Ok (if ok : bool then Some (mkHANDLE buf (file_size s)) else None, opened s).
Proof.
  intros Hw. cbn [fopen_again]. rewrite Hw. cbn [negb]. change (if is_file s buf then s else put_file s buf []) with (opened s).
  change (match fs (opened s) !! buf with Some d => _ | None => 0 end) with (file_size (opened s)). rewrite opened_size.
  destruct (t_size (in_ st) <? file_size s).
  - exists true. unfold trunc_file. rewrite opened_file, opened_deny. unfold fopen_w in Hw. bools. by rewrite H.
  - match goal with |- context [if ?b then Ok (None, _) else _] => destruct b end; [by exists false|by exists true].
Qed.

Lemma fopen_w_opened s d : fopen_w s buf = true -> fopen_w (put_file (opened s) buf d) buf = true.
Proof. intros H. apply fopen_w_put. unfold opened. case_if; [done|by apply fopen_w_put]. Qed.

Lemma truncated_size s : file_size (put_file s buf []) = 0.
Proof. unfold file_size. simpl. by rewrite lookup_insert_eq. Qed.

End Opening.

Definition negative_state : STATE := example_state <| in_ := TF_ZERO <| t_size := -1 |> |>.
