(* ===== verification/Frames.v ===== *)
(** * protocol.c: frames

    Both sides send frames: two bytes of header, a flag and a 15-bit length,
    and the data.  Messages wait in a queue, encrypted when they are queued;
    file data is encrypted when it is put into the output buffer.  A session
    reads one header or one body at a time, in the pieces the network gives. *)
From S2P Require Import Prelude CStr Crypt Tools Pmatch FtnAddr Pkt Sys Types FtnNode FtnQ.

(** What a call on the socket did. *)
Inductive IO :=
| IO_bytes (bs : list Z)     (* [recv] got these *)
| IO_sent (n : nat)          (* [send] accepted this many *)
| IO_block                   (* it would block *)
| IO_error (msg : cstr)
| IO_closed.                 (* 0 bytes *)

Definition scommand : list cstr :=
  [str "NUL"; str "ADR"; str "PWD"; str "FILE"; str "OK"; str "EOB"; str "GOT"; str "ERR"; str "BSY"; str "GET"; str "SKIP"].

Definition mkhdr (u : Z) : list Z := [uchar (Z.shiftr u 8); uchar u].

(** [encrypt_buf] in place, when the session is encrypted. *)
Definition crypt_out (st : STATE) (bs : list Z) : list Z * STATE :=
  if crypt_flag st =? YES_CRYPT
  then let '(bs, k) := encrypt_buf 64 bs (keys_out st) in (bs, st <| keys_out := k |>)
  else (bs, st).
Definition crypt_in (st : STATE) (bs : list Z) : list Z * STATE :=
  if crypt_flag st =? YES_CRYPT
  then let '(bs, k) := decrypt_buf 64 bs (keys_in st) in (bs, st <| keys_in := k |>)
  else (bs, st).

Definition msg_send2 (st : STATE) (m : Z) (s1 s2 : cstr) : STATE :=
  let sz := strlen s1 + strlen s2 + 1 in
  let '(s, st) := crypt_out st (mkhdr (Z.lor sz 0x8000) ++ [m] ++ s1 ++ s2) in
  st <| msgs ::= fun l => l ++ [mkBMSG m (sz + 2) (Some s)] |> <| msgs_in_batch ::= Z.succ |>.

(** [vsnprintf] into a buffer of this size. *)
Definition msg_text_size : nat := MAXPATHLEN + 80.
Definition msg_sendf (st : STATE) (m : Z) (text : cstr) : STATE :=
  msg_send2 st m (strnzcpy text msg_text_size) [].

Section Sending.
Context (config : BINKD_CONFIG) (junk : Z * Z) (binkd_exit : bool).

Definition try_failed (w : WORLD) (st : STATE) (s : cstr) : mem WORLD :=
  match to st with Some n => bad_try w (n_fa n) s junk config | None => Ok w end.

Definition current_file_was_sent (st : STATE) : STATE :=
  let st := st <| sent_fls ::= fun l => l ++ [(out st) <| t_f := None |>] |> <| out := TF_ZERO |> in
  if has (ND_flag st) WE_ND then st <| waiting_for_GOT := true |> else st.

(** Copying queued messages while the next one fits; [None] is a message too
    big to be sent at all. *)
Fixpoint take_msgs (l : list BMSG) (obuf : list Z) : option (list BMSG * list Z) :=
  match l with
  | [] => Some ([], obuf)
  | m :: t =>
      match m_s m with
      | None => match take_msgs t obuf with Some (t, obuf) => Some (m :: t, obuf) | None => None end
      | Some s =>
          if MAX_BLKSIZE <? m_sz m - 2 then None
          else if MAX_BLKSIZE <? Z.of_nat (length obuf) + m_sz m then Some (l, obuf)
          else match take_msgs t (obuf ++ s) with
               | Some (t, obuf) => Some (m <| m_s := None |> :: t, obuf)
               | None => None
               end
      end
  end.
Definition all_sent (l : list BMSG) : bool := forallb (fun m => match m_s m with None => true | Some _ => false end) l.

(** The eight bytes of the packet password: a node's own array is filled up
    with zeros, a separate short string is not. *)
Definition pkt_pwd_bytes (fn : FTN_NODE) : mem (list Z) :=
  match n_pkt_pwd fn with
  | None => Ok (replicate 8 0)
  | Some p =>
      if (8 <=? length p + 1)%nat then Ok (take 8 (p ++ [0]))
      else if bool_decide (p = n_pwd fn) then Ok (take 8 (p ++ replicate 8 0))
      else Oob
  end.

(** The first block of a packet for a shared address is readdressed. *)
Definition share_dest (a : PKTADDR) (chn : SHARED_CHAIN) : bool :=
  (fa_z (sha chn) =? dz a) && (fa_net (sha chn) =? dnet a) && (fa_node (sha chn) =? dnode a) && (fa_p (sha chn) =? dp a).
Definition readdress (st : STATE) (w : WORLD) (buf : list Z) : mem (list Z * WORLD) :=
  match pkt_getaddr buf with
  | (false, _) => Ok (buf, w)
  | (true, a) =>
      if existsb (share_dest a) (shares config) then
        match (match to st with Some n => Some (n_fa n) | None => hd_error (fa st) end) with
        | None => Ok (buf, w)
        | Some fa0 =>
            let buf := (pkt_setaddr buf (mkPKTADDR (-1) (-1) (-1) (-1) (short (fa_z fa0)) (short (fa_net fa0))
                          (short (fa_node fa0)) (short (fa_p fa0)))).2 in
            let '(fn, w) := match to st with Some n => (Some n, w) | None => get_node_info w fa0 config end in
            match fn with
            | None => Oob
            | Some fn => let* pwd := pkt_pwd_bytes fn in Ok (take 26 buf ++ pwd ++ drop 34 buf, w)
            end
        end
      else Ok (buf, w)
  end.

(** The size of the file in transfer, at most a block; reading a file that got
    shorter fails. *)
Definition read_file (w : WORLD) (h : HANDLE) (sz : Z) : option (list Z) :=
  match fopen_r (sys w) (h_path h) with
  | Some d => let buf := take (Z.to_nat sz) (drop (Z.to_nat (h_pos h)) d) in
              if (length buf <? Z.to_nat sz)%nat then None else Some buf
  | None => None
  end.

Definition file_block (st : STATE) (w : WORLD) : mem (option (list Z * STATE * WORLD)) :=
  match t_f (out st) with
  | None => Ok (Some ([], st <| send_eof := false |>, w))
  | Some h =>
      let sz := Z.min (oblksize config) (t_size (out st) - h_pos h) in
      if sz =? 0 then Ok (Some ([], st, w)) else
      match read_file w h sz with
      | None => Ok None
      | Some buf =>
          let h := h <| h_pos ::= fun p => p + sz |> in
          let st := st <| out ::= fun t => t <| t_f := Some h |> |> in
          if (h_pos h =? sz) && (60 <=? sz) && ispkt (t_netname (out st)) then
            let* r := readdress st w buf in Ok (Some (r.1, st, r.2))
          else Ok (Some (buf, st, w))
      end
  end.

(** 0 ends the session, 2 is "not ready", 1 is done; and the bytes that went
    out. *)
Definition send_block (io : IO) (st : STATE) (w : WORLD) : mem (Z * list Z * STATE * WORLD) :=
  match obuf st with
  | _ :: _ =>
      match io with
      | IO_sent (S _ as n) => Ok (1, take n (obuf st), st <| obuf ::= drop n |>, w)
      | IO_sent O | IO_block | IO_closed | IO_bytes _ => Ok (2, [], st, w)
      | IO_error msg =>
          let st := st <| io_error := true |> in
          let* w := if binkd_exit then Ok w else try_failed w st msg in
          Ok (0, [], st, w)
      end
  | [] =>
      match msgs st with
      | _ :: _ =>
          match take_msgs (msgs st) [] with
          | None => Ok (0, [], st, w)
          | Some (l, ob) => Ok (1, [], st <| obuf := ob |> <| msgs := if all_sent l then [] else l |>, w)
          end
      | [] =>
          if (bool_decide (is_Some (t_f (out st))) && negb (off_req_sent st) && negb (waiting_for_GOT st)) || send_eof st
          then
            let* r := file_block st w in
            match r with
            | None => Ok (0, [], st, w)
            | Some (buf, st, w) =>
                let sz := Z.of_nat (length buf) in
                let st := match t_f (out st) with
                          | Some h => if (sz =? 0) || (t_size (out st) =? h_pos h) then current_file_was_sent st else st
                          | None => st
                          end in
                let '(frame, st) := crypt_out st (mkhdr sz ++ buf) in
                Ok (1, [], st <| obuf := frame |>, w)
            end
          else Ok (1, [], st, w)
      end
  end.
End Sending.

(** ** Receiving *)
Section Receiving.
Context (config : BINKD_CONFIG) (junk : Z * Z) (binkd_exit : bool).
(** What is done with a complete block; false ends the session. *)
Context (got_block : list Z -> STATE -> WORLD -> mem (bool * STATE * WORLD)).

(** How many bytes are asked for. *)
Definition want (st : STATE) : Z := if isize st =? -1 then BLK_HDR_SIZE else isize st.

Definition block_done (st : STATE) (w : WORLD) : mem (bool * STATE * WORLD) :=
  let* r := got_block (ibuf st) st w in
  let '(rc, st, w) := r in
  if rc then Ok (true, st <| isize := -1 |> <| ibuf := [] |>, w) else Ok (false, st <| ibuf := [] |>, w).

Definition recv_bytes (bs : list Z) (st : STATE) (w : WORLD) : mem (bool * STATE * WORLD) :=
  let '(bs, st) := crypt_in st bs in
  let st := st <| ibuf ::= fun l => l ++ bs |> in
  if negb (Z.of_nat (length (ibuf st)) =? want st) then Ok (true, st, w) else
  if isize st =? -1 then
    match ibuf st with
    | [b0; b1] =>
        let st := st <| imsg := negb (Z.land b0 0x80 =? 0) |> <| isize := Z.land b0 0x7f * 256 + b1 |> <| ibuf := [] |> in
        if isize st =? 0 then block_done st w else Ok (true, st, w)
    | _ => Oob
    end
  else block_done st w.

Definition recv_block (io : IO) (st : STATE) (w : WORLD) : mem (bool * STATE * WORLD) :=
  let failed (msg : cstr) :=
    let st := st <| io_error := true |> in
    let* w := if binkd_exit then Ok w else try_failed config junk w st msg in
    Ok (false, st, w) in
  if want st =? 0 then recv_bytes [] st w else
  match io with
  | IO_block | IO_sent _ => Ok (true, st, w)
  | IO_error msg => failed msg
  | IO_closed => failed (str "connection closed by foreign host")
  | IO_bytes bs => recv_bytes bs st w
  end.
End Receiving.

(** ** The bytes on the wire *)
#[local] Arguments encrypt_buf : simpl never.
#[local] Arguments decrypt_buf : simpl never.

(** The cipher text of the bytes and the keys after it, if the session is
    encrypted. *)
Definition cipher (on : Z) (bs : list Z) (k : KEYS) : list Z * KEYS :=
  if on =? YES_CRYPT then encrypt_buf 64 bs k else (bs, k).
Definition decipher (on : Z) (bs : list Z) (k : KEYS) : list Z * KEYS :=
  if on =? YES_CRYPT then decrypt_buf 64 bs k else (bs, k).

Lemma crypt_out_cipher st bs :
  crypt_out st bs = ((cipher (crypt_flag st) bs (keys_out st)).1,
                     st <| keys_out := (cipher (crypt_flag st) bs (keys_out st)).2 |>).
Proof.
  unfold crypt_out, cipher. case_if; [by destruct (encrypt_buf _ _ _)|]. by destruct st.
Qed.
Lemma crypt_in_decipher st bs :
  crypt_in st bs = ((decipher (crypt_flag st) bs (keys_in st)).1,
                    st <| keys_in := (decipher (crypt_flag st) bs (keys_in st)).2 |>).
Proof.
  unfold crypt_in, decipher. case_if; [by destruct (decrypt_buf _ _ _)|]. by destruct st.
Qed.

Lemma cipher_app on a b k :
  cipher on (a ++ b) k = ((cipher on a k).1 ++ (cipher on b (cipher on a k).2).1, (cipher on b (cipher on a k).2).2).
Proof.
  unfold cipher. case_if; [|done]. rewrite encrypt_buf_app. destruct (encrypt_buf 64 a k) as [a' k1]. simpl.
  by destruct (encrypt_buf 64 b k1).
Qed.
Lemma decipher_app on a b k :
  decipher on (a ++ b) k = ((decipher on a k).1 ++ (decipher on b (decipher on a k).2).1, (decipher on b (decipher on a k).2).2).
Proof.
  unfold decipher. case_if; [|done]. rewrite decrypt_buf_app. destruct (decrypt_buf 64 a k) as [a' k1]. simpl.
  by destruct (decrypt_buf 64 b k1).
Qed.
Lemma decipher_cipher on bs k : decipher on (cipher on bs k).1 k = (bs, (cipher on bs k).2).
Proof. unfold cipher, decipher. case_if; [|done]. apply decrypt_encrypt_buf. Qed.
Lemma cipher_length on bs k : length (cipher on bs k).1 = length bs.
Proof. unfold cipher. case_if; [|done]. apply encrypt_buf_length. Qed.
Lemma decipher_length on bs k : length (decipher on bs k).1 = length bs.
Proof. unfold decipher. case_if; [|done]. apply decrypt_buf_length. Qed.
#[export] Hint Rewrite cipher_length decipher_length : len.

(** *** Sending *)

(** What waits to be sent, in the order it will be. *)
Definition pending (l : list BMSG) : list Z := concat (map (fun m => default [] (m_s m)) l).
Definition wire (st : STATE) : list Z := obuf st ++ pending (msgs st).

(** A frame: a message or a block of data. *)
Definition msg_frame (m : Z) (text : list Z) : list Z := mkhdr (Z.lor (1 + Z.of_nat (length text)) 0x8000) ++ m :: text.
Definition data_frame (bs : list Z) : list Z := mkhdr (Z.of_nat (length bs)) ++ bs.

(** The bytes gone out ([sent]) and those that wait are what waited at first
    ([pre]) and the frames made so far, enciphered with one key stream from [k]. *)
Record on_wire (on : Z) (k : KEYS) (pre sent frames : list Z) (st : STATE) : Prop := {
  ow_flag : crypt_flag st = on;
  ow_bytes : sent ++ wire st = pre ++ (cipher on frames k).1;
  ow_keys : keys_out st = (cipher on frames k).2
}.

Lemma pending_app a b : pending (a ++ b) = pending a ++ pending b.
Proof. unfold pending. by rewrite map_app, concat_app. Qed.

Lemma msg_send2_wire on k pre sent frames st m s1 s2 : on_wire on k pre sent frames st ->
  on_wire on k pre sent (frames ++ msg_frame m (s1 ++ s2)) (msg_send2 st m s1 s2).
Proof.
  intros [Hf Hb Hk]. unfold msg_send2. rewrite crypt_out_cipher, Hf, Hk.
  assert (E : mkhdr (Z.lor (strlen s1 + strlen s2 + 1) 32768) ++ [m] ++ s1 ++ s2 = msg_frame m (s1 ++ s2)).
  { unfold msg_frame. do 3 f_equal. autorewrite with len. unfold strlen. lia. }
  rewrite E. constructor; simpl; [done| |by rewrite cipher_app].
  unfold wire in *. simpl. rewrite pending_app, cipher_app. simpl. rewrite !app_assoc, <- Hb.
  unfold pending. simpl. by rewrite !app_nil_r, !app_assoc.
Qed.

Lemma take_msgs_wire l ob l' ob' : take_msgs l ob = Some (l', ob') -> ob' ++ pending l' = ob ++ pending l.
Proof.
  revert ob l' ob'. induction l as [|m l IH]; intros ob l' ob'; simpl; [by intros [= <- <-]|].
  destruct (m_s m) as [s|] eqn:Es.
  - case_if; [done|]. case_if; [by intros [= <- <-]|].
    destruct (take_msgs l (ob ++ s)) as [[t ob2]|] eqn:Et; [|done]. intros [= <- <-].
    unfold pending in *. simpl. rewrite Es. simpl. rewrite (IH _ _ _ Et). by rewrite app_assoc.
  - destruct (take_msgs l ob) as [[t ob2]|] eqn:Et; [|done]. intros [= <- <-].
    unfold pending in *. simpl. rewrite Es. by apply (IH _ _ _ Et).
Qed.
Lemma all_sent_pending l : all_sent l = true -> pending l = [].
Proof.
  unfold all_sent, pending. induction l as [|m l IH]; simpl; [done|]. intros H. bools.
  destruct (m_s m); [done|]. by rewrite IH.
Qed.

(** The frames a session makes, in their order. *)
Inductive FRAME := F_msg (m : Z) (text : list Z) | F_data (bs : list Z).
Definition encode (f : FRAME) : list Z := match f with F_msg m text => msg_frame m text | F_data bs => data_frame bs end.
Definition encode_all (l : list FRAME) : list Z := concat (map encode l).

Lemma encode_all_app a b : encode_all (a ++ b) = encode_all a ++ encode_all b.
Proof. unfold encode_all. by rewrite map_app, concat_app. Qed.
Lemma encode_all_one f : encode_all [f] = encode f.
Proof. unfold encode_all. simpl. apply app_nil_r. Qed.

(** Fields the wire does not depend on. *)
Lemma on_wire_ext on k pre sent frames st st' :
  crypt_flag st' = crypt_flag st -> obuf st' = obuf st -> msgs st' = msgs st -> keys_out st' = keys_out st ->
  on_wire on k pre sent frames st -> on_wire on k pre sent frames st'.
Proof. intros Hc Ho Hm Hk [H1 H2 H3]. unfold wire in *. constructor; unfold wire; congruence. Qed.

Section Sender.
Context (config : BINKD_CONFIG) (junk : Z * Z) (binkd_exit : bool).

Definition same_out (st st' : STATE) : Prop :=
  crypt_flag st' = crypt_flag st /\ obuf st' = obuf st /\ msgs st' = msgs st /\ keys_out st' = keys_out st.

Lemma file_block_same st w bs st' w' : file_block config st w = Ok (Some (bs, st', w')) -> same_out st st'.
Proof.
  unfold file_block, same_out. destruct (t_f (out st)) as [h|]; [|by intros [= <- <- <-]].
  case_if; [by intros [= <- <- <-]|]. destruct (read_file w h _) as [buf|]; [|done]. case_if.
  - intros H. apply mem_bind_ok in H as ([b' w2] & _ & [= <- <- <-]). done.
  - by intros [= <- <- <-].
Qed.

Lemma current_file_was_sent_same st : same_out st (current_file_was_sent st).
Proof. unfold current_file_was_sent, same_out. by case_if. Qed.

(** Is a block of the file due? *)
Definition block_due (st : STATE) : bool :=
  (bool_decide (is_Some (t_f (out st))) && negb (off_req_sent st) && negb (waiting_for_GOT st)) || send_eof st.
(** The frame [send_block] makes. *)
Definition made (st : STATE) (w : WORLD) : list FRAME :=
  match obuf st, msgs st with
  | [], [] =>
      if block_due st then
        match file_block config st w with Ok (Some (bs, _, _)) => [F_data bs] | _ => [] end
      else []
  | _, _ => []
  end.

Lemma send_block_wire on k pre sent frames io st w rc bytes st' w' :
  send_block config junk binkd_exit io st w = Ok (rc, bytes, st', w') ->
  on_wire on k pre sent frames st ->
  on_wire on k pre (sent ++ bytes) (frames ++ encode_all (made st w)) st'.
Proof.
  intros H Hw. unfold send_block in H. unfold made, block_due.
  destruct (obuf st) as [|b ob] eqn:Eo.
  - destruct (msgs st) as [|m l] eqn:Em.
    + destruct ((bool_decide _ && _ && _) || _); [|injection H as <- <- <- <-; by rewrite !app_nil_r].
      apply mem_bind_ok in H as (r & Hr & H). rewrite Hr.
      destruct r as [[[buf st1] w1]|]; [|injection H as <- <- <- <-; by rewrite !app_nil_r].
      assert (Hs := file_block_same _ _ _ _ _ Hr). rewrite encode_all_one. cbn [encode].
      set (st2 := match t_f (out st1) with Some h => _ | None => st1 end) in *.
      assert (Hs2 : same_out st1 st2).
      { subst st2. destruct (t_f (out st1)); [|done]. case_if; [apply current_file_was_sent_same|done]. }
      clearbody st2. rewrite crypt_out_cipher in H. injection H as <- <- <- <-.
      destruct Hs as (Hc & Ho & Hm & Hk), Hs2 as (Hc2 & Ho2 & Hm2 & Hk2), Hw as [Wf Wb Wk].
      rewrite Hc2, Hk2, Hc, Hk, Wf, Wk. rewrite app_nil_r. unfold wire in Wb. rewrite Eo, Em in Wb.
      unfold pending in Wb. simpl in Wb. rewrite app_nil_r in Wb.
      constructor; cbn; [try done; congruence| |].
      * unfold wire. cbn. rewrite Hm2, Hm, Em, cipher_app, Wb. unfold pending. cbn. by rewrite app_nil_r, app_assoc.
      * by rewrite cipher_app.
    + destruct (take_msgs (m :: l) []) as [[l' ob]|] eqn:Et;
        injection H as <- <- <- <-; rewrite !app_nil_r; [|done].
      apply take_msgs_wire in Et. destruct Hw as [Wf Wb Wk].
      assert (E : pending (if all_sent l' then [] else l') = pending l').
      { case_if; [by rewrite (all_sent_pending l')|done]. }
      constructor; [done| |done]. rewrite <- Wb. unfold wire. rewrite Eo, Em. simpl obuf. simpl msgs.
      by rewrite E, Et.
  - rewrite app_nil_r. destruct io as [bs|[|n]| |msg|];
      try (injection H as <- <- <- <-; by rewrite app_nil_r).
    + injection H as <- <- <- <-. destruct Hw as [Wf Wb Wk]. constructor; cbn; [done| |done].
      rewrite <- Wb. unfold wire. rewrite Eo. change (b :: take n ob) with (take (S n) (b :: ob)).
      simpl obuf. simpl msgs. change (drop n ob) with (drop (S n) (b :: ob)).
      by rewrite <- app_assoc, (app_assoc (take _ _)), take_drop.
    + apply mem_bind_ok in H as (w1 & _ & [= <- <- <- <-]). rewrite app_nil_r.
      by eapply on_wire_ext; [..|exact Hw].
Qed.

(** A sender at work: messages are queued and [send_block] is called, in any
    order and with any answers of the socket.  [sent] are the bytes that went
    out, [frames] the frames made. *)
Inductive sending (st0 : STATE) (w0 : WORLD) : list Z -> list FRAME -> STATE -> WORLD -> Prop :=
| sending_start : sending st0 w0 [] [] st0 w0
| sending_msg sent frames st w m s1 s2 :
    sending st0 w0 sent frames st w ->
    sending st0 w0 sent (frames ++ [F_msg m (s1 ++ s2)]) (msg_send2 st m s1 s2) w
| sending_block sent frames st w io rc bytes st' w' :
    sending st0 w0 sent frames st w ->
    send_block config junk binkd_exit io st w = Ok (rc, bytes, st', w') ->
    sending st0 w0 (sent ++ bytes) (frames ++ made st w) st' w'.

End Sender.

(** A sender that queues a message while half of the one before is still in
    the output buffer. *)
Definition example_sender : STATE := example_state <| crypt_flag := YES_CRYPT |>.

(** *** Receiving *)
Section Receiver.
Context (config : BINKD_CONFIG) (junk : Z * Z) (binkd_exit : bool).
Context (got_block : list Z -> STATE -> WORLD -> mem (bool * STATE * WORLD)).
#[local] Abbreviation recv_block := (recv_block config junk binkd_exit got_block).
#[local] Abbreviation block_done := (block_done got_block).

(** What is asked for next. *)
Definition room (st : STATE) : nat := Z.to_nat (want st) - length (ibuf st).
(** The network has [input] for the session; each call gets as much of it as
    there is room for, and not more than the next of the sizes. *)
Fixpoint recv_stream (sizes : list nat) (input : list Z) (st : STATE) (w : WORLD)
    : mem (list Z * bool * STATE * WORLD) :=
  match sizes with
  | [] => Ok (input, true, st, w)
  | n :: sizes =>
      let n := Nat.min n (room st) in
      let* r := recv_block (IO_bytes (take n input)) st w in
      match r with
      | (true, st, w) => recv_stream sizes (drop n input) st w
      | (false, st, w) => Ok (drop n input, false, st, w)
      end
  end.

(** A chunk that does not complete what is expected is only kept. *)
Definition put_in (st : STATE) (k : KEYS) (l : list Z) : STATE := st <| keys_in := k |> <| ibuf := l |>.
Definition keep (bs : list Z) (st : STATE) : STATE :=
  put_in st (decipher (crypt_flag st) bs (keys_in st)).2 (ibuf st ++ (decipher (crypt_flag st) bs (keys_in st)).1).
Lemma put_in_twice st k l k' l' : put_in (put_in st k l) k' l' = put_in st k' l'.
Proof. done. Qed.
Lemma put_in_get st k l : crypt_flag (put_in st k l) = crypt_flag st /\ keys_in (put_in st k l) = k /\ ibuf (put_in st k l) = l.
Proof. done. Qed.
Lemma keep_ibuf bs st : ibuf (keep bs st) = ibuf st ++ (decipher (crypt_flag st) bs (keys_in st)).1.
Proof. done. Qed.
Lemma keep_app a b st : keep (a ++ b) st = keep b (keep a st).
Proof.
  set (st1 := keep a st). unfold keep at 2. unfold keep at 1. unfold st1, keep.
  destruct (put_in_get st (decipher (crypt_flag st) a (keys_in st)).2
    (ibuf st ++ (decipher (crypt_flag st) a (keys_in st)).1)) as (E1 & E2 & E3).
  rewrite E1, E2, E3, put_in_twice, decipher_app. cbn [fst snd]. by rewrite <- app_assoc.
Qed.

Definition kept (st : STATE) (w : WORLD) : mem (bool * STATE * WORLD) :=
  if negb (Z.of_nat (length (ibuf st)) =? want st) then Ok (true, st, w) else
  if isize st =? -1 then
    match ibuf st with
    | [b0; b1] =>
        let st := st <| imsg := negb (Z.land b0 0x80 =? 0) |> <| isize := Z.land b0 0x7f * 256 + b1 |> <| ibuf := [] |> in
        if isize st =? 0 then block_done st w else Ok (true, st, w)
    | _ => Oob
    end
  else block_done st w.
Lemma recv_bytes_keep bs st w : recv_bytes got_block bs st w = kept (keep bs st) w.
Proof. unfold recv_bytes. by rewrite crypt_in_decipher. Qed.

(** Two chunks are as good as one. *)
Lemma recv_bytes_fuse a b st w :
  (length (ibuf st) + length a < Z.to_nat (want st))%nat ->
  exists st1, recv_bytes got_block a st w = Ok (true, st1, w) /\ want st1 = want st /\
    length (ibuf st1) = (length (ibuf st) + length a)%nat /\
    recv_bytes got_block b st1 w = recv_bytes got_block (a ++ b) st w.
Proof.
  intros Hl. assert (Hk : length (ibuf (keep a st)) = (length (ibuf st) + length a)%nat).
  { rewrite keep_ibuf. by autorewrite with len. }
  exists (keep a st). rewrite !recv_bytes_keep, keep_app. split_and!; [|done|done|done].
  unfold kept. rewrite Hk. change (want (keep a st)) with (want st).
  by rewrite (proj2 (Z.eqb_neq _ _)) by lia.
Qed.

Lemma recv_block_bytes bs st w : want st <> 0 -> recv_block (IO_bytes bs) st w = recv_bytes got_block bs st w.
Proof. intros Hz. unfold recv_block at 1. by rewrite (proj2 (Z.eqb_neq _ _)). Qed.

(** The pieces of what is expected amount to the whole of it. *)
Lemma recv_stream_fill r : forall sizes input st w,
  room st = r -> (0 < r)%nat -> (r <= length input)%nat -> (r <= length sizes)%nat -> Forall (fun n => 0 < n)%nat sizes ->
  exists s1 s2, sizes = s1 ++ s2 /\ (length s1 <= r)%nat /\ forall s3,
    recv_stream (s1 ++ s3) input st w =
      let* x := recv_bytes got_block (take r input) st w in
      match x with
      | (true, st, w) => recv_stream s3 (drop r input) st w
      | (false, st, w) => Ok (drop r input, false, st, w)
      end.
Proof.
  induction r as [r IH] using lt_wf_ind. intros sizes input st w Hr H0 Hi Hs Hp.
  destruct sizes as [|n sizes]; [simpl in Hs; lia|]. inversion Hp as [|? ? Hn Hp']; subst x l. simpl in Hs.
  assert (Hz : want st <> 0) by (unfold room in Hr; lia).
  destruct (decide (r <= n)%nat) as [Hle|Hlt].
  - exists [n], sizes. split; [done|]. split; [simpl; lia|]. intros s3. simpl.
    by rewrite Hr, (Nat.min_r n r), recv_block_bytes.
  - destruct (recv_bytes_fuse (take n input) (take (r - n) (drop n input)) st w) as (st1 & H1 & Hw & Hl & H2).
    { rewrite length_take. unfold room in Hr. lia. }
    rewrite length_take in Hl.
    destruct (IH (r - n)%nat ltac:(lia) sizes (drop n input) st1 w) as (s1 & s2 & -> & Hs1 & Hst); [..|done|].
    { unfold room in *. rewrite Hw, Hl. lia. }
    { lia. } { rewrite length_drop. lia. } { lia. }
    exists (n :: s1), s2. split; [done|]. split; [simpl; lia|]. intros s3. simpl.
    rewrite Hr, Nat.min_l, recv_block_bytes, H1 by lia. simpl. rewrite Hst, H2, drop_drop.
    replace (n + (r - n))%nat with r by lia.
    replace (take n input ++ take (r - n) (drop n input)) with (take r input); [done|].
    replace r with (n + (r - n))%nat at 1 by lia. by rewrite take_take_drop.
Qed.
(** The session between two blocks. *)
Definition between (st : STATE) : Prop := isize st = -1 /\ ibuf st = [].

(** A frame received at once: its header and its body. *)
Definition is_msg (f : FRAME) : bool := match f with F_msg _ _ => true | F_data _ => false end.
Definition body (f : FRAME) : list Z := match f with F_msg m text => m :: text | F_data bs => bs end.
Definition header (f : FRAME) : list Z := take 2 (encode f).
Definition fits (f : FRAME) : Prop := Z.of_nat (length (body f)) <= MAX_BLKSIZE.

(** The block of the frame is handled once, the keys of this direction being
    those of the other side. *)
Definition recv_frame (f : FRAME) (st : STATE) (w : WORLD) : mem (bool * STATE * WORLD) :=
  block_done (st <| keys_in := (cipher (crypt_flag st) (encode f) (keys_in st)).2 |>
                 <| ibuf := body f |> <| imsg := is_msg f |> <| isize := Z.of_nat (length (body f)) |>) w.

Lemma lor_high n : 0 <= n < 0x8000 -> Z.lor n 0x8000 = n + 0x8000.
Proof.
  intros Hn. assert (Hl : Z.land n 0x8000 = 0).
  { apply Z.bits_inj'. intros i Hi. rewrite Z.land_spec, Z.bits_0. change 0x8000 with (2 ^ 15).
    rewrite Z.pow2_bits_eqb by lia. destruct (Z.eqb_spec 15 i) as [<-|]; [|apply andb_false_r].
    rewrite andb_true_r. apply Z.testbit_false; [lia|]. change (2 ^ 15) with 0x8000. by rewrite Z.div_small. }
  by rewrite <- Z.lxor_lor, <- Z.add_nocarry_lxor.
Qed.
Lemma land_high q : 0 <= q < 128 -> Z.land q 128 = 0 /\ Z.land (q + 128) 128 = 128.
Proof.
  intros Hq.
  assert (Hc : forallb (fun q => (Z.land q 128 =? 0) && (Z.land (q + 128) 128 =? 128)) (map Z.of_nat (seq 0 128)) = true)
    by by vm_compute.
  rewrite forallb_forall in Hc.
  assert (Hin : In q (map Z.of_nat (seq 0 128))).
  { apply in_map_iff. exists (Z.to_nat q). split; [lia|apply in_seq; lia]. }
  specialize (Hc q Hin). by bools.
Qed.
(** The flag and the size are read back from a header. *)
Lemma mkhdr_read (h : bool) n : 0 <= n < 0x8000 ->
  let u := n + (if h then 0x8000 else 0) in
  negb (Z.land (uchar (Z.shiftr u 8)) 0x80 =? 0) = h /\ Z.land (uchar (Z.shiftr u 8)) 0x7f * 256 + uchar u = n.
Proof.
  intros Hn u. subst u. unfold uchar. rewrite Z.shiftr_div_pow2 by lia. change (2 ^ 8) with 256.
  assert (Hq : 0 <= n / 256 < 128) by (split; [apply Z.div_pos; lia|apply Z.div_lt_upper_bound; lia]).
  assert (Hd : (n + (if h then 0x8000 else 0)) / 256 mod 256 = n / 256 + (if h then 128 else 0)).
  { destruct h; [change 0x8000 with (128 * 256); rewrite Z.div_add by lia|rewrite !Z.add_0_r];
      apply Z.mod_small; lia. }
  assert (Hm : (n + (if h then 0x8000 else 0)) mod 256 = n mod 256).
  { destruct h; [change 0x8000 with (128 * 256); by rewrite Z.mod_add by lia|by rewrite Z.add_0_r]. }
  rewrite Hd, Hm. destruct (land_high (n / 256) Hq) as [H1 H2].
  change 0x7f with (Z.ones 7). rewrite Z.land_ones by lia.
  assert (Hr : (n / 256 + (if h then 128 else 0)) mod 2 ^ 7 = n / 256).
  { destruct h; [|rewrite Z.add_0_r; by apply Z.mod_small].
    replace (n / 256 + 128) with (n / 256 + 1 * 2 ^ 7) by lia. rewrite Z.mod_add by lia. by apply Z.mod_small. }
  rewrite Hr. split; [|pose proof (Z.div_mod n 256); lia].
  destruct h; rewrite ?Z.add_0_r, ?H1, ?H2; done.
Qed.

Lemma encode_split f : encode f = header f ++ body f.
Proof. by destruct f. Qed.
(** The header tells the kind of the block and its size. *)
Lemma header_read f : fits f -> exists b0 b1,
  header f = [b0; b1] /\ negb (Z.land b0 0x80 =? 0) = is_msg f /\
  Z.land b0 0x7f * 256 + b1 = Z.of_nat (length (body f)).
Proof.
  unfold fits, MAX_BLKSIZE. intros Hf.
  destruct f as [m text|bs]; eexists _, _; (split; [reflexivity|]); cbn [body length is_msg] in *.
  - rewrite lor_high by lia. replace (1 + Z.of_nat (length text)) with (Z.of_nat (S (length text))) by lia.
    apply (mkhdr_read true). lia.
  - pose proof (mkhdr_read false (Z.of_nat (length bs)) ltac:(lia)) as H. cbv zeta in H.
    rewrite Z.add_0_r in H. exact H.
Qed.

Lemma kept_done st w : isize st <> -1 -> Z.of_nat (length (ibuf st)) = isize st -> kept st w = block_done st w.
Proof.
  intros Hi Hl. unfold kept, want. rewrite (proj2 (Z.eqb_neq _ _) Hi). by rewrite (proj2 (Z.eqb_eq _ _) Hl).
Qed.

(** C4: whatever the sizes of the pieces the network delivers a frame in, it is
    received as if it came at once: its block is handled exactly once, after as
    many calls as the frame has bytes at most, with the text deciphered, the
    keys those of the sender after the frame, and nothing of what follows
    consumed. *)
Theorem recv_stream_frame f sizes more st w :
  between st -> fits f -> Forall (fun n => 0 < n)%nat sizes -> (length (encode f) <= length sizes)%nat ->
  exists n, (n <= length (encode f))%nat /\
    recv_stream (take n sizes) ((cipher (crypt_flag st) (encode f) (keys_in st)).1 ++ more) st w =
      let* r := recv_frame f st w in Ok (more, r.1.1, r.1.2, r.2).
Proof.
  intros [Hi Hib] Hf Hp Hs. set (k := keys_in st). set (on := crypt_flag st).
  destruct (header_read f Hf) as (b0 & b1 & Hh & Hmsg & Hlen).
  assert (Hel : length (encode f) = (2 + length (body f))%nat) by by rewrite encode_split, length_app, Hh.
  rewrite Hel in Hs |- *. rewrite encode_split, Hh, cipher_app. cbn [fst]. rewrite <- app_assoc.
  set (hc := (cipher on [b0; b1] k).1). set (k1 := (cipher on [b0; b1] k).2).
  set (bc := (cipher on (body f) k1).1).
  assert (Hhc : length hc = 2%nat) by (subst hc; apply cipher_length).
  assert (Hbc : length bc = length (body f)) by (subst bc; apply cipher_length).
  destruct (recv_stream_fill 2 sizes (hc ++ bc ++ more) st w) as (s1 & s2 & -> & Hs1 & H1);
    [unfold room, want; rewrite Hi, Hib; done|lia|rewrite length_app; lia|lia|done|].
  rewrite take_app_length' in H1 by done. rewrite drop_app_length' in H1 by done.
  assert (Hkp : keep hc st = st <| keys_in := k1 |> <| ibuf := [b0; b1] |>).
  { unfold keep. fold on k. subst hc k1. by rewrite decipher_cipher, Hib. }
  assert (Hkd : kept (keep hc st) w =
    let st1 := st <| keys_in := k1 |> <| ibuf := [] |> <| imsg := is_msg f |> <| isize := Z.of_nat (length (body f)) |> in
    if Z.of_nat (length (body f)) =? 0 then block_done st1 w else Ok (true, st1, w)).
  { rewrite Hkp. unfold kept. simpl. rewrite Hi. simpl. by rewrite Hmsg, Hlen. }
  rewrite recv_bytes_keep, Hkd in H1. cbv zeta in H1. clear Hkp Hkd.
  set (st1 := st <| keys_in := k1 |> <| ibuf := [] |> <| imsg := is_msg f |> <| isize := Z.of_nat (length (body f)) |>) in H1.
  assert (Hrf : recv_frame f st w = kept (keep bc st1) w).
  { rewrite kept_done; [|cbn; lia|by rewrite keep_ibuf, length_app, decipher_length, Hbc].
    unfold recv_frame. rewrite encode_split, Hh, cipher_app. fold on k k1. cbn [fst snd].
    unfold keep. subst bc. change (crypt_flag st1) with on. change (keys_in st1) with k1. by rewrite decipher_cipher. }
  destruct (Z.eqb_spec (Z.of_nat (length (body f))) 0) as [Hz|Hz].
  - exists (length s1). split; [lia|]. destruct bc as [|? ?] eqn:Ebc; [|simpl in Hbc; lia]. rewrite take_app_length.
    assert (Hke : keep [] st1 = st1) by (unfold keep, decipher; case_if; done).
    rewrite <- (app_nil_r s1), H1, Hrf, Hke, kept_done; [|cbn; lia|change (0 = Z.of_nat (length (body f))); lia].
    destruct (block_done st1 w) as [[[[] st2] w2]| |]; done.
  - rewrite length_app in Hs. apply Forall_app in Hp as [Hp1 Hp2].
    destruct (recv_stream_fill (length (body f)) s2 (bc ++ more) st1 w) as (s3 & s4 & -> & Hs3 & H2);
      [unfold room, want; cbn; rewrite (proj2 (Z.eqb_neq _ _)) by lia; lia|lia|rewrite length_app; lia|lia|done|].
    exists (length s1 + length s3)%nat. split; [lia|].
    rewrite app_assoc, <- length_app, take_app_length, H1. cbn [mem_bind].
    rewrite <- (app_nil_r s3), H2, recv_bytes_keep, take_app_length', drop_app_length', <- Hrf by done.
    destruct (recv_frame f st w) as [[[[] st2] w2]| |]; done.
Qed.
End Receiver.

(** An M_SKIP in pieces of 1, 1 and 2 bytes, and a byte of the next frame; the
    handler notes what it is given. *)
Lemma recv_stream_frame_witness :
  let f := F_msg M_SKIP (str "a") in
  let note body st w := Ok (true, st <| sysname := body |>, w) in
  between example_sender /\ fits f /\
  exists n, (n <= length (encode f))%nat /\
    recv_stream example_config (0, 0) false note (take n [1; 1; 7; 7; 7]%nat)
      ((cipher (crypt_flag example_sender) (encode f) (keys_in example_sender)).1 ++ [99]) example_sender example_world =
    let* r := recv_frame note f example_sender example_world in Ok ([99], r.1.1, r.1.2, r.2).
Proof.
  intros f note. assert (Hb : between example_sender) by (split; by vm_compute).
  assert (Hf : fits f) by (by vm_compute). split; [done|]. split; [done|].
  apply (recv_stream_frame example_config (0, 0) false note f [1; 1; 7; 7; 7]%nat [99]); [done|done| |].
  - repeat constructor.
  - vm_compute. repeat constructor.
Defined.

(** ** The buffers *)
Section Buffers.
Context (config : BINKD_CONFIG) (junk : Z * Z) (binkd_exit : bool).
Context (got_block : list Z -> STATE -> WORLD -> mem (bool * STATE * WORLD)).

(** The output buffer holds a block and its header; of a block expected less
    than all has been read, and it is not larger than a buffer. *)
Definition msg_ok (m : BMSG) : Prop := forall s, m_s m = Some s -> Z.of_nat (length s) = m_sz m.
Definition out_ok (st : STATE) : Prop :=
  Z.of_nat (length (obuf st)) <= MAX_BLKSIZE + BLK_HDR_SIZE /\ Forall msg_ok (msgs st).
Definition in_ok (st : STATE) : Prop :=
  (isize st = -1 \/ 0 < isize st <= MAX_BLKSIZE) /\ Z.of_nat (length (ibuf st)) < want st.

Definition same_in (st st' : STATE) : Prop := isize st' = isize st /\ ibuf st' = ibuf st.
Lemma in_ok_same st st' : same_in st st' -> in_ok st -> in_ok st'.
Proof. unfold same_in, in_ok, want. by intros [-> ->]. Qed.
Lemma crypt_out_in st bs : same_in st (crypt_out st bs).2.
Proof. by rewrite crypt_out_cipher. Qed.

Lemma take_msgs_bound l ob l' ob' : Z.of_nat (length ob) <= MAX_BLKSIZE -> Forall msg_ok l ->
  take_msgs l ob = Some (l', ob') -> Z.of_nat (length ob') <= MAX_BLKSIZE /\ Forall msg_ok l'.
Proof.
  intros Hob Hl. revert ob l' ob' Hob. induction Hl as [|m l Hm Hl IH]; intros ob l' ob' Hob; simpl; [by intros [= <- <-]|].
  destruct (m_s m) as [s|] eqn:Es.
  - case_if; [done|]. case_if; [intros [= <- <-]; split; [done|by constructor]|]. bools. specialize (Hm s Es).
    destruct (take_msgs l (ob ++ s)) as [[t ob2]|] eqn:Et; [|done]. intros [= <- <-].
    destruct (IH (ob ++ s) t ob2) as [H1 H2]; [rewrite length_app; lia|done|]. split; [done|]. by constructor.
  - destruct (take_msgs l ob) as [[t ob2]|] eqn:Et; [|done]. intros [= <- <-].
    destruct (IH ob t ob2 Hob Et) as [H1 H2]. split; [done|]. by constructor.
Qed.
Lemma msg_send2_buffers st m s1 s2 : out_ok st -> out_ok (msg_send2 st m s1 s2) /\ same_in st (msg_send2 st m s1 s2).
Proof.
  intros [Ho Hm]. unfold msg_send2. rewrite crypt_out_cipher. split; [|done]. split; [done|]. simpl.
  apply Forall_app. split; [done|]. apply Forall_singleton. intros s [= <-]. cbn [m_sz].
  rewrite cipher_length. unfold strlen. simpl. rewrite length_app. lia.
Qed.

Lemma readdress_length st w buf r : (60 <= length buf)%nat -> readdress config st w buf = Ok r -> length r.1 = length buf.
Proof.
  intros Hl. unfold readdress. destruct (pkt_getaddr buf) as [[] a]; [|by intros [= <-]].
  case_if; [|by intros [= <-]]. destruct (match to st with Some n => _ | None => _ end) as [fa0|]; [|by intros [= <-]].
  destruct (match to st with Some n => _ | None => get_node_info w fa0 config end) as [[fn|] w1]; [|done].
  intros H. apply mem_bind_ok in H as (pwd & Hp & [= <-]). cbn [fst].
  assert (H8 : length pwd = 8%nat).
  { unfold pkt_pwd_bytes in Hp. destruct (n_pkt_pwd fn) as [p|]; [|by injection Hp as <-].
    destruct (Nat.leb_spec 8 (length p + 1)).
    - injection Hp as <-. rewrite length_take, length_app, Nat.min_l; [done|]. simpl length. lia.
    - revert Hp. case_if; [|done]. intros [= <-]. rewrite length_take, length_app, Nat.min_l; [done|]. simpl length. lia. }
  rewrite !length_app, H8, length_take, length_drop, pkt_setaddr_length. lia.
Qed.

Lemma file_block_length st w bs st' w' : 0 <= oblksize config <= MAX_BLKSIZE ->
  file_block config st w = Ok (Some (bs, st', w')) -> Z.of_nat (length bs) <= MAX_BLKSIZE /\ same_in st st'.
Proof.
  intros Hc. unfold file_block. destruct (t_f (out st)) as [h|]; [|by intros [= <- <- _]].
  case_if; [by intros [= <- <- _]|]. set (sz := Z.min _ _) in *.
  destruct (read_file w h sz) as [buf|] eqn:Er; [|done].
  assert (Hb : Z.of_nat (length buf) <= Z.max 0 sz).
  { unfold read_file in Er. destruct (fopen_r _ _) as [d|]; [|done]. revert Er. case_if; [done|].
    intros [= <-]. rewrite length_take. lia. }
  assert (Hm : Z.max 0 sz <= MAX_BLKSIZE) by (assert (sz <= oblksize config) by (unfold sz; lia); lia). case_if.
  - intros H. apply mem_bind_ok in H as (r & Hr & [= <- <- <-]). bools. split; [|done].
    assert (Hlen : length buf = Z.to_nat sz).
    { revert Er. unfold read_file. destruct (fopen_r _ _) as [d|]; [|done]. case_match eqn:Ex; [done|].
      intros [= <-]. apply Nat.ltb_ge in Ex. pose proof (length_take (drop (Z.to_nat (h_pos h)) d) (Z.to_nat sz)). lia. }
    assert (H60 : (60 <= length buf)%nat) by lia. rewrite (readdress_length _ _ _ _ H60 Hr). lia.
  - intros [= <- <- <-]. split; [lia|done].
Qed.

Lemma send_block_buffers io st w rc bytes st' w' : 0 <= oblksize config <= MAX_BLKSIZE ->
  send_block config junk binkd_exit io st w = Ok (rc, bytes, st', w') -> out_ok st -> out_ok st' /\ same_in st st'.
Proof.
  intros Hc H [Ho Hms]. revert H. unfold send_block, out_ok. destruct (obuf st) as [|b ob] eqn:Eo.
  - destruct (msgs st) as [|m l] eqn:Em.
    + case_if; [|intros [= _ _ <- _]; by rewrite Eo, Em]. intros H. apply mem_bind_ok in H as (r & Hr & H).
      destruct r as [[[buf st1] w1]|]; [|injection H as _ _ <- _; by rewrite Eo, Em].
      destruct (file_block_same _ _ _ _ _ _ Hr) as (_ & _ & Am & _).
      apply file_block_length in Hr as [Hl Hs]; [|done].
      set (st2 := match t_f (out st1) with Some h => _ | None => st1 end) in *.
      assert (Hs2 : same_in st1 st2 /\ msgs st2 = msgs st1).
      { subst st2. destruct (t_f (out st1)); [|done]. case_if; [|done]. unfold current_file_was_sent. by case_if. }
      clearbody st2. rewrite crypt_out_cipher in H. injection H as _ _ <- _. simpl.
      destruct Hs as [A1 A2], Hs2 as [[B1 B2] B3]. unfold same_in. simpl.
      rewrite cipher_length, B3, Am, Em. simpl. unfold BLK_HDR_SIZE. split; [split; [lia|constructor]|]. split; congruence.
    + intros H. destruct (take_msgs (m :: l) []) as [[l' ob]|] eqn:Et; injection H as _ _ <- _; [|by rewrite Eo, Em].
      apply take_msgs_bound in Et as [Hb Hm]; [|simpl; unfold MAX_BLKSIZE; lia|done]. simpl. unfold BLK_HDR_SIZE.
      split; [|done]. split; [lia|]. by case_if.
  - intros H. destruct io as [bs|[|n]| |msg|]; try (injection H as _ _ <- _; by rewrite Eo).
    + injection H as _ _ <- _. cbn [obuf msgs set_field]. rewrite Eo, length_drop. split; [split; [lia|done]|done].
    + apply mem_bind_ok in H as (w1 & _ & [= _ _ <- _]). simpl. by rewrite Eo.
Qed.

Lemma decipher_bytes on bs k : Forall is_byte bs -> Forall is_byte (decipher on bs k).1.
Proof. unfold decipher. case_if; [|done]. apply decrypt_buf_bytes. Qed.

(** Bytes that fit leave less than all of a block, or complete it. *)
Lemma recv_bytes_in bs st w st' w' : in_ok st -> Forall is_byte (ibuf st) -> Forall is_byte bs -> (length bs <= room st)%nat ->
  recv_bytes got_block bs st w = Ok (true, st', w') -> in_ok st' /\ Forall is_byte (ibuf st').
Proof.
  intros [Hi Hl] Hib Hbs Hr H. rewrite recv_bytes_keep in H. unfold kept in H.
  assert (Hk : length (ibuf (keep bs st)) = (length (ibuf st) + length bs)%nat) by (rewrite keep_ibuf; by autorewrite with len).
  assert (Hkb : Forall is_byte (ibuf (keep bs st))).
  { rewrite keep_ibuf. apply Forall_app. split; [done|]. by apply decipher_bytes. }
  change (want (keep bs st)) with (want st) in H. change (isize (keep bs st)) with (isize st) in H.
  assert (Hdone : forall st1, block_done got_block st1 w = Ok (true, st', w') -> in_ok st' /\ Forall is_byte (ibuf st')).
  { intros st1 Hd. unfold block_done in Hd. apply mem_bind_ok in Hd as ([[[] st2] w2] & _ & [= <- <-]).
    split; [|constructor]. split; [by left|]. vm_compute. done. }
  revert H. case_if.
  - intros [= <- _]. bools. split; [|done]. split; [done|]. change (want (keep bs st)) with (want st).
    unfold room in Hr. lia.
  - case_if; [|apply Hdone]. destruct (ibuf (keep bs st)) as [|b0 [|b1 [|]]]; [done..| |done].
    apply Forall_cons in Hkb as [H0 Hkb]. apply Forall_cons in Hkb as [H1 _]. unfold is_byte in *.
    assert (Hs : 0 <= Z.land b0 0x7f * 256 + b1 <= MAX_BLKSIZE).
    { change 0x7f with (Z.ones 7). rewrite Z.land_ones by lia. pose proof (Z.mod_pos_bound b0 (2 ^ 7) ltac:(lia)).
      unfold MAX_BLKSIZE. lia. }
    set (sz := Z.land b0 0x7f * 256 + b1) in *. clearbody sz. cbv zeta.
    case_if; [apply Hdone|]. intros [= <- _]. cbn in *. bools. split; [|constructor].
    unfold in_ok, want. cbn. split; [right; lia|]. case_if; [done|]. lia.
Qed.

End Buffers.


(** ** Progress *)
Section Progress.
Context (config : BINKD_CONFIG) (junk : Z * Z) (binkd_exit : bool).

(** A message that can be sent: it fits the buffer together with its header. *)
Definition sendable (m : BMSG) : Prop := msg_ok m /\ (forall s, m_s m = Some s -> s <> []) /\ m_sz m <= MAX_BLKSIZE.
Definition drained (st : STATE) : Prop := obuf st = [] /\ msgs st = [].
Definition left_to_do (st : STATE) : nat := 2 * length (wire st) + match obuf st with [] => 1 | _ => 0 end.

Lemma take_msgs_some l ob : Forall sendable l -> exists l' ob', take_msgs l ob = Some (l', ob') /\ Forall sendable l'.
Proof.
  intros H. revert ob. induction H as [|m l Hm Hl IH]; intros ob; simpl; [by eauto|].
  destruct (m_s m) as [s|] eqn:Es.
  - rewrite (proj2 (Z.ltb_ge _ _)) by (destruct Hm as (_ & _ & ?); lia).
    case_if; [eexists _, _; split; [done|]; by constructor|].
    destruct (IH (ob ++ s)) as (l' & ob' & -> & Hl'). eexists _, _. split; [done|]. constructor; [|done].
    split; [by intros ? [=]|]. split; [by intros ? [=]|]. by destruct Hm as (_ & _ & ?).
  - destruct (IH ob) as (l' & ob' & -> & Hl'). eexists _, _. split; [done|]. by constructor.
Qed.

Lemma take_msgs_grows l ob l' ob' : take_msgs l ob = Some (l', ob') -> (length ob <= length ob')%nat.
Proof.
  revert ob l' ob'. induction l as [|m l IH]; intros ob l' ob'; simpl; [by intros [= _ <-]|].
  destruct (m_s m) as [s|].
  - case_if; [done|]. case_if; [by intros [= _ <-]|]. destruct (take_msgs l (ob ++ s)) as [[t o]|] eqn:Et; [|done].
    intros [= _ <-]. apply IH in Et. rewrite length_app in Et. lia.
  - destruct (take_msgs l ob) as [[t o]|] eqn:Et; [|done]. intros [= _ <-]. by apply IH in Et.
Qed.

(** If nothing can be taken, nothing waits. *)
Lemma take_msgs_nil l l' : Forall sendable l -> take_msgs l [] = Some (l', []) -> pending l = [] /\ all_sent l' = true.
Proof.
  intros H. revert l'. induction H as [|m l (Ho & Hn & Hz) Hl IH]; intros l'; simpl; [by intros [= <-]|].
  destruct (m_s m) as [s|] eqn:Es.
  - case_if; [done|]. case_if; bools; [simpl in *; lia|]. destruct (take_msgs l s) as [[t o]|] eqn:Et; [|done].
    intros [= _ ->]. apply take_msgs_grows in Et. specialize (Hn s eq_refl). destruct s; simpl in *; [done|lia].
  - destruct (take_msgs l []) as [[t o]|] eqn:Et; [|done]. intros [= <- ->]. destruct (IH t eq_refl) as [H1 H2].
    unfold pending in *. simpl. by rewrite Es, H1.
Qed.

Lemma send_block_progress n st w : ~ drained st -> Forall sendable (msgs st) ->
  exists bytes st', send_block config junk binkd_exit (IO_sent (S n)) st w = Ok (1, bytes, st', w) /\
    wire st = bytes ++ wire st' /\ Forall sendable (msgs st') /\ io_error st' = io_error st /\
    (drained st' \/ (left_to_do st' < left_to_do st)%nat).
Proof.
  intros Hd Hm. unfold send_block, left_to_do, wire. destruct (obuf st) as [|b ob] eqn:Eo.
  - destruct (msgs st) as [|m l] eqn:Em; [by destruct Hd|].
    destruct (take_msgs_some _ [] Hm) as (l' & ob' & Et & Hl'). rewrite Et.
    exists [], (st <| obuf := ob' |> <| msgs := if all_sent l' then [] else l' |>). split; [done|]. simpl.
    assert (Hp : pending (if all_sent l' then [] else l') = pending l') by (case_if; [by rewrite (all_sent_pending l')|done]).
    pose proof (take_msgs_wire _ _ _ _ Et) as Hw. simpl in Hw. rewrite Hp, Hw.
    split; [done|]. split; [by case_if|]. split; [done|]. destruct ob' as [|c ob'].
    + left. destruct (take_msgs_nil _ _ Hm Et) as [_ ->]. done.
    + right. lia.
  - exists (take (S n) (b :: ob)), (st <| obuf ::= drop (S n) |>). rewrite <- Eo. split; [done|].
    cbn [obuf msgs io_error set_field]. rewrite Eo. split; [by rewrite app_assoc, take_drop|]. split; [done|]. split; [done|].
    right. rewrite !length_app, length_drop. destruct (drop (S n) (b :: ob)); simpl length; lia.
Qed.
End Progress.
