(* ===== verification/Hosts.v ===== *)
(** * iptools.c and readcfg.c: hosts of a node

    What the name service of the system answers is a parameter. *)
From S2P Require Import Prelude CStr Tools FtnAddr Getw Types.

(** ** iptools.c: addresses of hosts *)
Inductive SOCKADDR :=
| SA_INET (s_addr : Z)
| SA_INET6 (sin6_addr : list Z)
| SA_OTHER (sa_family : Z).
Definition sa_family_of (a : SOCKADDR) : Z :=
  match a with SA_INET _ => 2 | SA_INET6 _ => 10 | SA_OTHER f => f end.
Fixpoint memcmp (a b : list Z) : Z :=
  match a, b with
  | x :: a, y :: b => if x =? y then memcmp a b else x - y
  | _, _ => 0
  end.
Definition sockaddr_cmp_addr (a b : SOCKADDR) : Z :=
  if negb (sa_family_of a =? sa_family_of b) then sa_family_of a - sa_family_of b
  else match a, b with
       | SA_INET x, SA_INET y => swrap 32 (x - y)
       | SA_INET6 x, SA_INET6 y => memcmp x y
       | _, _ => -1
       end.

(** What the host's name service answers. *)
Record RESOLVER := mkRESOLVER {
  numeric_host : cstr -> option SOCKADDR;      (* an address in digits *)
  resolve : cstr -> option (list SOCKADDR);    (* [None] is an error *)
  known_service : cstr -> bool                 (* a port, by name or number *)
}.

Definition PRTCLNAME : cstr := str "binkp".
Definition DEF_PORT : cstr := str "24554".
Definition MAXPORTSTRLEN : nat := 32.

Definition find_port (net : RESOLVER) (s : cstr) : option cstr :=
  let ps := match s with [] => PRTCLNAME | _ => s end in
  if known_service net ps then Some ps
  else match s with [] => Some DEF_PORT | _ => None end.

(** readcfg.c: the [n]-th host of a node's list and its port; [None] is the end
    of the list, [Some None] a host that cannot be used. *)
Definition get_host_and_port (net : RESOLVER) (n : nat) (src : cstr) (fa0 : FTN_ADDR) (config : BINKD_CONFIG)
    : mem (option (option (cstr * cstr))) :=
  let* w := getwordx2 no_env src n GWX_0 (str ",;") [] in
  match w with
  | None => Ok None
  | Some s =>
      let ipv6 := match strchr s (chr "]") with
                  | Some i => if hd0 s =? chr "[" then Some i else None
                  | None => None
                  end in
      let '(name, hostoff, t) :=
        match ipv6 with
        | Some e => let rest := drop e s in
                    (take e s, 1%nat, (fun i => drop (S i) rest) <$> strchr rest (chr ":"))
        | None => match strchr s (chr ":") with
                  | Some i => (take i s, O, Some (drop (S i) s))
                  | None => (s, O, None)
                  end
        end in
      let host := if strcmp name (str "*") =? 0
                  then ftnaddress_to_domain fa0 (pDomains config) (root_domain config)
                  else strnzcpy (drop hostoff name) BINKD_FQDNLEN in
      Ok (Some match t with
               | None => Some (host, strnzcpy (oport config) MAXPORTSTRLEN)
               | Some p => (fun p => (host, strnzcpy p MAXPORTSTRLEN)) <$> find_port net p
               end)
  end.
