(* ===== verification/Readcfg.v ===== *)
(** * readcfg.c: the configuration reader

    A configuration file is a list of lines; the first word of a line selects an
    entry of the table [keywords], whose callback reads the other words into a
    field of [work_config] or adds to one of its lists.  [include] reads another
    file, to a limited depth.  The [void *var] of an entry is the name of a
    field ([IVAR], [SVAR], [BVAR], [MVAR]).

    The callbacks run in a monad over the reader's state: [None] is the end of
    the process ([Log (0, ...)] exits).  Logging is outside the model, but for
    where [ConfigError] says an error is. *)
From S2P Require Import Prelude CStr Tools Pmatch FtnAddr Getw Sys Types FtnNode FtnQ Hosts.

Definition MAXINCLUDELEVEL : nat := 8.
Definition MAXCFGLINE : nat := Z.to_nat 1024.
Definition MAX_WORDS_ON_LINE : nat := 64.
Definition MAXSERVNAME : nat := 32.
Definition MAXNODEINFO : nat := 120.
Definition LISTEN_ADDR_SZ : nat := 42.
Definition DEF_TIMEOUT : Z := 5 * 60.
Definition MIN_BLKSIZE : Z := 128.
Definition DEF_BLKSIZE : Z := 4 * 1024.
Definition ROOT_DOMAIN : cstr := str "binkp.net".
Definition A_ALL : Z := -1.
Definition DONT_CHECK : Z := 0x7fffffff.
Definition NL_PASSWORDS : Z := 2.
Definition MD_ON : Z := 1.
Definition MD_OFF : Z := -1.
Definition RIP_ON : Z := 1.
Definition RIP_SIP : Z := 2.
Definition NP_ON : Z := 1.
Definition NC_ON : Z := 1.
Definition AF_UNSPEC : Z := 0.
Definition AF_INET : Z := 2.
Definition AF_INET6 : Z := 10.

(** ** The state of the reader *)
Record READER := mkREADER {
  work_config : BINKD_CONFIG;
  nodes : WORLD;                     (* the node table of [work_config], and the system *)
  syslog_facility : Z;
  current_path : cstr;
  current_line : Z;
  errors : list (cstr * Z)           (* where [ConfigError] was called, last first *)
}.
#[export] Instance eta_READER : Eta READER := fun r =>
  mkREADER (work_config r) (nodes r) (syslog_facility r) (current_path r) (current_line r) (errors r).

Definition cfgM (A : Type) : Type := READER -> mem (option A * READER).
Definition ret {A} (a : A) : cfgM A := fun r => Ok (Some a, r).
Definition exit0 {A} : cfgM A := fun r => Ok (None, r).
Definition bind {A B} (m : cfgM A) (k : A -> cfgM B) : cfgM B := fun r =>
  let* x := m r in
  match x.1 with Some a => k a x.2 | None => Ok (None, x.2) end.
Definition lift {A} (m : mem A) : cfgM A := fun r => let* a := m in Ok (Some a, r).
Definition gets {A} (f : READER -> A) : cfgM A := fun r => Ok (Some (f r), r).
Definition modify (f : READER -> READER) : cfgM unit := fun r => Ok (Some tt, f r).
Definition set_work (f : BINKD_CONFIG -> BINKD_CONFIG) : cfgM unit := modify (fun r => r <| work_config ::= f |>).
Notation "'let!' x := m 'in' k" := (bind m (fun x => k))
  (at level 10, x pattern, m at level 100, k at level 200) : mem_scope.
Notation "m ;;; k" := (bind m (fun _ => k)) (at level 60, right associativity) : mem_scope.

(** ** Errors *)
Definition ConfigError : cfgM bool := fun r =>
  Ok (Some false, r <| errors ::= cons (current_path r, current_line r) |>).
Definition ConfigNeedNumber : cfgM bool := ConfigError.
Definition ConfigNeedTime : cfgM bool := ConfigError.
Definition SyntaxError : cfgM bool := ConfigError.
Definition isDefined (value : cstr) : cfgM bool :=
  match value with [] => ConfigError | _ => ret true end.
Definition isArgCount (expectedCount : nat) (words : list cstr) : cfgM bool :=
  if (length words =? expectedCount)%nat then ret true else ConfigError.
(** [if (!test) return 0;] *)
Definition unless (test : cfgM bool) (k : cfgM bool) : cfgM bool :=
  let! ok := test in if (ok : bool) then k else ret false.

(** ** The fields the table points at *)
Inductive IVAR :=
| V_loglevel | V_conlog | V_tzoff | V_rescan_delay | V_call_delay | V_nettimeout | V_oblksize
| V_max_servers | V_max_clients | V_kill_old_partial_files | V_kill_old_bsy | V_minfree
| V_minfree_nonsecure | V_tries | V_hold | V_hold_skipped | V_connect_timeout.
Inductive BVAR :=
| V_no_call_delay | V_kill_dup_partial_files | V_percents | V_printq | V_backresolv
| V_remove_try_files | V_send_if_pwd | V_prescan | V_deleteablebox | V_deletedirs.
Inductive SVAR :=
| V_passwords | V_logpath | V_binlogpath | V_fdinhist | V_fdouthist | V_sysname | V_bindaddr | V_sysop
| V_location | V_nodeinfo | V_inbound | V_inbound_nonsecure | V_temp_inbound | V_pid_file
| V_root_domain | V_tfilebox | V_bfilebox | V_iport | V_oport.
Inductive MVAR := V_overwrite | V_nolog.
#[export] Instance IVAR_eq_dec : EqDecision IVAR. Proof. solve_decision. Defined.
#[export] Instance SVAR_eq_dec : EqDecision SVAR. Proof. solve_decision. Defined.
#[export] Instance BVAR_eq_dec : EqDecision BVAR. Proof. solve_decision. Defined.
#[export] Instance MVAR_eq_dec : EqDecision MVAR. Proof. solve_decision. Defined.

Definition get_int (v : IVAR) (c : BINKD_CONFIG) : Z :=
  match v with
  | V_loglevel => loglevel c | V_conlog => conlog c | V_tzoff => tzoff c
  | V_rescan_delay => rescan_delay c | V_call_delay => call_delay c | V_nettimeout => nettimeout c
  | V_oblksize => oblksize c | V_max_servers => max_servers c | V_max_clients => max_clients c
  | V_kill_old_partial_files => kill_old_partial_files c | V_kill_old_bsy => kill_old_bsy c
  | V_minfree => minfree c | V_minfree_nonsecure => minfree_nonsecure c | V_tries => tries c
  | V_hold => hold c | V_hold_skipped => hold_skipped c | V_connect_timeout => connect_timeout c
  end.
Definition set_int (v : IVAR) (n : Z) (c : BINKD_CONFIG) : BINKD_CONFIG :=
  match v with
  | V_loglevel => c <| loglevel := n |> | V_conlog => c <| conlog := n |> | V_tzoff => c <| tzoff := n |>
  | V_rescan_delay => c <| rescan_delay := n |> | V_call_delay => c <| call_delay := n |>
  | V_nettimeout => c <| nettimeout := n |> | V_oblksize => c <| oblksize := n |>
  | V_max_servers => c <| max_servers := n |> | V_max_clients => c <| max_clients := n |>
  | V_kill_old_partial_files => c <| kill_old_partial_files := n |>
  | V_kill_old_bsy => c <| kill_old_bsy := n |> | V_minfree => c <| minfree := n |>
  | V_minfree_nonsecure => c <| minfree_nonsecure := n |> | V_tries => c <| tries := n |>
  | V_hold => c <| hold := n |> | V_hold_skipped => c <| hold_skipped := n |>
  | V_connect_timeout => c <| connect_timeout := n |>
  end.
Definition get_bool (v : BVAR) (c : BINKD_CONFIG) : bool :=
  match v with
  | V_no_call_delay => no_call_delay c | V_kill_dup_partial_files => kill_dup_partial_files c
  | V_percents => percents c | V_printq => printq c | V_backresolv => backresolv c
  | V_remove_try_files => remove_try_files c | V_send_if_pwd => send_if_pwd c | V_prescan => prescan c
  | V_deleteablebox => deleteablebox c | V_deletedirs => deletedirs c
  end.
Definition set_bool (v : BVAR) (c : BINKD_CONFIG) : BINKD_CONFIG :=
  match v with
  | V_no_call_delay => c <| no_call_delay := true |>
  | V_kill_dup_partial_files => c <| kill_dup_partial_files := true |>
  | V_percents => c <| percents := true |> | V_printq => c <| printq := true |>
  | V_backresolv => c <| backresolv := true |> | V_remove_try_files => c <| remove_try_files := true |>
  | V_send_if_pwd => c <| send_if_pwd := true |> | V_prescan => c <| prescan := true |>
  | V_deleteablebox => c <| deleteablebox := true |> | V_deletedirs => c <| deletedirs := true |>
  end.
Definition get_str (v : SVAR) (c : BINKD_CONFIG) : cstr :=
  match v with
  | V_passwords => c_passwords c | V_logpath => logpath c | V_binlogpath => binlogpath c
  | V_fdinhist => fdinhist c | V_fdouthist => fdouthist c | V_sysname => c_sysname c
  | V_bindaddr => bindaddr c | V_sysop => c_sysop c | V_location => c_location c
  | V_nodeinfo => c_nodeinfo c | V_inbound => c_inbound c | V_inbound_nonsecure => inbound_nonsecure c
  | V_temp_inbound => temp_inbound c | V_pid_file => pid_file c | V_root_domain => root_domain c
  | V_tfilebox => tfilebox c | V_bfilebox => bfilebox c | V_iport => iport c | V_oport => oport c
  end.
Definition set_str (v : SVAR) (s : cstr) (c : BINKD_CONFIG) : BINKD_CONFIG :=
  match v with
  | V_passwords => c <| c_passwords := s |> | V_logpath => c <| logpath := s |>
  | V_binlogpath => c <| binlogpath := s |> | V_fdinhist => c <| fdinhist := s |>
  | V_fdouthist => c <| fdouthist := s |> | V_sysname => c <| c_sysname := s |>
  | V_bindaddr => c <| bindaddr := s |> | V_sysop => c <| c_sysop := s |>
  | V_location => c <| c_location := s |> | V_nodeinfo => c <| c_nodeinfo := s |>
  | V_inbound => c <| c_inbound := s |> | V_inbound_nonsecure => c <| inbound_nonsecure := s |>
  | V_temp_inbound => c <| temp_inbound := s |> | V_pid_file => c <| pid_file := s |>
  | V_root_domain => c <| root_domain := s |> | V_tfilebox => c <| tfilebox := s |>
  | V_bfilebox => c <| bfilebox := s |> | V_iport => c <| iport := s |> | V_oport => c <| oport := s |>
  end.
Definition get_masks (v : MVAR) (c : BINKD_CONFIG) : list cstr :=
  match v with V_overwrite => overwrite c | V_nolog => nolog c end.
Definition add_mask (v : MVAR) (m : cstr) (c : BINKD_CONFIG) : BINKD_CONFIG :=
  match v with
  | V_overwrite => c <| overwrite ::= fun l => l ++ [m] |>
  | V_nolog => c <| nolog ::= fun l => l ++ [m] |>
  end.

(** ** The table *)
Inductive CALLBACK :=
| C_include | C_passwords (var : SVAR) | C_read_aka_list | C_read_domain_info | C_read_node_info
| C_read_int (var : IVAR) | C_read_time (var : IVAR) | C_read_string (var : SVAR) | C_read_bool (var : BVAR)
| C_read_log_string (var : SVAR) | C_read_log_int (var : IVAR) | C_read_flag_exec_info | C_read_rfrule
| C_read_mask (var : MVAR) | C_read_akachain | C_read_inboundcase | C_read_dontsendempty
| C_read_renamestyle | C_read_port (var : SVAR) | C_read_listen | C_read_skip | C_read_check_pkthdr
| C_read_shares | C_read_syslog_facility.
#[export] Instance CALLBACK_eq_dec : EqDecision CALLBACK. Proof. solve_decision. Defined.
Record KEYWORD := mkKEYWORD { key : cstr; callback : CALLBACK; option1 : Z; option2 : Z }.

Definition keywords : list KEYWORD := [
  mkKEYWORD (str "include") C_include 0 0;
  mkKEYWORD (str "passwords") (C_passwords V_passwords) (chr "f") 0;
  mkKEYWORD (str "log") (C_read_log_string V_logpath) (chr "f") 0;
  mkKEYWORD (str "loglevel") (C_read_log_int V_loglevel) 0 DONT_CHECK;
  mkKEYWORD (str "conlog") (C_read_log_int V_conlog) 0 DONT_CHECK;
  mkKEYWORD (str "binlog") (C_read_string V_binlogpath) (chr "f") 0;
  mkKEYWORD (str "fdinhist") (C_read_string V_fdinhist) (chr "f") 0;
  mkKEYWORD (str "fdouthist") (C_read_string V_fdouthist) (chr "f") 0;
  mkKEYWORD (str "tzoff") (C_read_time V_tzoff) (-12 * 60 * 60) (12 * 60 * 60);
  mkKEYWORD (str "domain") C_read_domain_info 0 0;
  mkKEYWORD (str "address") C_read_aka_list 0 0;
  mkKEYWORD (str "sysname") (C_read_string V_sysname) 0 (Z.of_nat MAXSYSTEMNAME);
  mkKEYWORD (str "bindaddr") (C_read_string V_bindaddr) 0 42;
  mkKEYWORD (str "listen") C_read_listen 0 0;
  mkKEYWORD (str "sysop") (C_read_string V_sysop) 0 (Z.of_nat MAXSYSOPNAME);
  mkKEYWORD (str "location") (C_read_string V_location) 0 (Z.of_nat MAXLOCATIONNAME);
  mkKEYWORD (str "nodeinfo") (C_read_string V_nodeinfo) 0 (Z.of_nat MAXNODEINFO);
  mkKEYWORD (str "iport") (C_read_port V_iport) 0 0;
  mkKEYWORD (str "oport") (C_read_port V_oport) 0 0;
  mkKEYWORD (str "rescan-delay") (C_read_time V_rescan_delay) 1 DONT_CHECK;
  mkKEYWORD (str "call-delay") (C_read_time V_call_delay) 1 DONT_CHECK;
  mkKEYWORD (str "no-call-delay") (C_read_bool V_no_call_delay) 0 0;
  mkKEYWORD (str "timeout") (C_read_time V_nettimeout) 1 DONT_CHECK;
  mkKEYWORD (str "oblksize") (C_read_int V_oblksize) MIN_BLKSIZE MAX_BLKSIZE;
  mkKEYWORD (str "maxservers") (C_read_int V_max_servers) 0 DONT_CHECK;
  mkKEYWORD (str "maxclients") (C_read_int V_max_clients) 0 DONT_CHECK;
  mkKEYWORD (str "inbound") (C_read_string V_inbound) (chr "d") 0;
  mkKEYWORD (str "inbound-nonsecure") (C_read_string V_inbound_nonsecure) (chr "d") 0;
  mkKEYWORD (str "temp-inbound") (C_read_string V_temp_inbound) (chr "d") 0;
  mkKEYWORD (str "node") C_read_node_info 0 0;
  mkKEYWORD (str "defnode") C_read_node_info 1 0;
  mkKEYWORD (str "kill-dup-partial-files") (C_read_bool V_kill_dup_partial_files) 0 0;
  mkKEYWORD (str "kill-old-partial-files") (C_read_time V_kill_old_partial_files) 1 DONT_CHECK;
  mkKEYWORD (str "kill-old-bsy") (C_read_time V_kill_old_bsy) 1 DONT_CHECK;
  mkKEYWORD (str "percents") (C_read_bool V_percents) 0 0;
  mkKEYWORD (str "minfree") (C_read_int V_minfree) 0 DONT_CHECK;
  mkKEYWORD (str "minfree-nonsecure") (C_read_int V_minfree_nonsecure) 0 DONT_CHECK;
  mkKEYWORD (str "flag") C_read_flag_exec_info (chr "f") 0;
  mkKEYWORD (str "exec") C_read_flag_exec_info (chr "e") 0;
  mkKEYWORD (str "printq") (C_read_bool V_printq) 0 0;
  mkKEYWORD (str "try") (C_read_int V_tries) 0 0xffff;
  mkKEYWORD (str "hold") (C_read_time V_hold) 0 DONT_CHECK;
  mkKEYWORD (str "hold-skipped") (C_read_time V_hold_skipped) 0 DONT_CHECK;
  mkKEYWORD (str "backresolv") (C_read_bool V_backresolv) 0 0;
  mkKEYWORD (str "pid-file") (C_read_string V_pid_file) (chr "f") 0;
  mkKEYWORD (str "remove-try-files") (C_read_bool V_remove_try_files) 0 0;
  mkKEYWORD (str "syslog") C_read_syslog_facility 0 0;
  mkKEYWORD (str "ftrans") C_read_rfrule 0 0;
  mkKEYWORD (str "send-if-pwd") (C_read_bool V_send_if_pwd) 0 0;
  mkKEYWORD (str "root-domain") (C_read_string V_root_domain) 0 (Z.of_nat BINKD_FQDNLEN);
  mkKEYWORD (str "prescan") (C_read_bool V_prescan) 0 0;
  mkKEYWORD (str "connect-timeout") (C_read_time V_connect_timeout) 0 DONT_CHECK;
  mkKEYWORD (str "filebox") (C_read_string V_tfilebox) (chr "d") 0;
  mkKEYWORD (str "brakebox") (C_read_string V_bfilebox) (chr "d") 0;
  mkKEYWORD (str "deletebox") (C_read_bool V_deleteablebox) 0 0;
  mkKEYWORD (str "skip") C_read_skip 0 0;
  mkKEYWORD (str "skipmask") C_read_skip 1 0;
  mkKEYWORD (str "inboundcase") C_read_inboundcase 0 0;
  mkKEYWORD (str "deletedirs") (C_read_bool V_deletedirs) 0 0;
  mkKEYWORD (str "overwrite") (C_read_mask V_overwrite) 0 0;
  mkKEYWORD (str "dont-send-empty") C_read_dontsendempty 0 0;
  mkKEYWORD (str "rename-style") C_read_renamestyle 0 0;
  mkKEYWORD (str "share") C_read_shares 0 0;
  mkKEYWORD (str "check-pkthdr") C_read_check_pkthdr 0 0;
  mkKEYWORD (str "nolog") (C_read_mask V_nolog) 0 0;
  mkKEYWORD (str "hide-aka") C_read_akachain ACT_HIDE 0;
  mkKEYWORD (str "present-aka") C_read_akachain ACT_PRESENT 0
].
(** The keywords are told apart without regard to case. *)
Definition find_keyword (w : cstr) : option KEYWORD :=
  List.find (fun k => o_stricmp (key k) w =? 0) keywords.

(** ** Values *)
Definition is_slash (c : char) : bool := (c =? chr "/") || (c =? chr "\").
Fixpoint drop_slashes (r : list Z) : list Z :=
  match r with c :: t => if is_slash c then drop_slashes t else r | [] => [] end.
(** Trailing slashes are cut off, a path of slashes altogether. *)
Definition check_dir_path (s : cstr) : cstr := rev (drop_slashes (rev s)).

(** [DONT_CHECK] switches a bound off. *)
Definition bounds_ok (k : KEYWORD) (n : Z) : bool :=
  ((option1 k =? DONT_CHECK) || (option1 k <=? n)) && ((option2 k =? DONT_CHECK) || (n <=? option2 k)).

Fixpoint all_digits (first : bool) (s : cstr) : bool :=
  match s with
  | [] => true
  | c :: t => (isdigit c || (first && (c =? chr "-"))) && all_digits false t
  end.
Definition read_int (k : KEYWORD) (var : IVAR) (words : list cstr) : cfgM bool :=
  unless (isArgCount 1 words) (
    let w := hd [] words in
    if negb (all_digits true w) then ConfigNeedNumber else
    set_work (set_int var (atoi w)) ;;;
    if bounds_ok k (atoi w) then ret true else ConfigError).

Definition time_unit (c : char) : option Z :=
  let c := tolower c in
  if c =? chr "w" then Some (7 * 24 * 60 * 60) else if c =? chr "d" then Some (24 * 60 * 60)
  else if c =? chr "h" then Some (60 * 60) else if c =? chr "m" then Some 60
  else if c =? chr "s" then Some 1 else None.
(** [curnum] is -1 between numbers; the sum is an [int].  The flag is false at
    a unit without a number and at an unknown unit. *)
Fixpoint read_time_loop (s : cstr) (curnum target : Z) : bool * Z :=
  match s with
  | [] => (true, if curnum =? -1 then target else swrap 32 (target + curnum))
  | c :: t =>
      if isdigit c then
        let curnum := if curnum =? -1 then 0 else swrap 32 (curnum * 10) in
        read_time_loop t (swrap 32 (curnum + (c - chr "0"))) target
      else if curnum =? -1 then (false, target)
      else match time_unit c with
           | None => (false, target)
           | Some u => read_time_loop t (-1) (swrap 32 (target + swrap 32 (curnum * u)))
           end
  end.
Definition parse_time (w : cstr) : bool * Z :=
  let neg := hd0 w =? chr "-" in
  let '(ok, n) := read_time_loop (if neg then tl w else w) (-1) 0 in
  (ok, if ok && neg then swrap 32 (- n) else n).
Definition read_time (k : KEYWORD) (var : IVAR) (words : list cstr) : cfgM bool :=
  unless (isArgCount 1 words) (
    let '(ok, n) := parse_time (hd [] words) in
    set_work (set_int var n) ;;;
    if negb ok then ConfigNeedTime else if bounds_ok k n then ret true else ConfigError).

(** A string ([option1] is 0, [option2] its size), a file name ('f') or the name
    of a directory that exists ('d'). *)
Definition read_string (k : KEYWORD) (var : SVAR) (words : list cstr) : cfgM bool :=
  unless (isArgCount 1 words) (
    let target := strnzcpy (hd [] words) (if option1 k =? 0 then Z.to_nat (option2 k) else MAXPATHLEN) in
    if option1 k =? 0 then set_work (set_str var target) ;;; ret true
    else if (option1 k =? chr "f") && is_slash (hd0 (rev target)) then
      set_work (set_str var target) ;;; ConfigError
    else
      let target := check_dir_path target in
      set_work (set_str var target) ;;;
      let! s := gets (fun r => sys (nodes r)) in
      if (option1 k =? chr "d") && negb (is_dir s target) then ConfigError else ret true).
Definition passwords_ (k : KEYWORD) (var : SVAR) (words : list cstr) : cfgM bool :=
  unless (read_string k var words) (ret true).
Definition read_log_string (k : KEYWORD) (var : SVAR) (words : list cstr) : cfgM bool :=
  unless (read_string k var words) (ret true).
Definition read_log_int (k : KEYWORD) (var : IVAR) (words : list cstr) : cfgM bool :=
  unless (read_int k var words) (ret true).
Definition read_bool (k : KEYWORD) (var : BVAR) (words : list cstr) : cfgM bool :=
  match words with
  | [] => set_work (set_bool var) ;;; ret true
  | _ => SyntaxError
  end.

Definition same_word (w : cstr) (s : cstr) : bool := o_stricmp w s =? 0.
Definition read_inboundcase (words : list cstr) : cfgM bool :=
  unless (isArgCount 1 words) (
    let w := hd [] words in
    let set t := set_work (fun c => c <| inboundcase := t |>) ;;; ret true in
    if same_word w (str "save") then set INB_SAVE else if same_word w (str "upper") then set INB_UPPER
    else if same_word w (str "lower") then set INB_LOWER else if same_word w (str "mixed") then set INB_MIXED
    else SyntaxError).
Definition read_dontsendempty (words : list cstr) : cfgM bool :=
  unless (isArgCount 1 words) (
    let w := hd [] words in
    let set t := set_work (fun c => c <| dontsendempty := t |>) ;;; ret true in
    if same_word w (str "no") then set EMPTY_NO else if same_word w (str "arcmail") then set EMPTY_ARCMAIL
    else if same_word w (str "yes") then set EMPTY_ALL else SyntaxError).
Definition read_renamestyle (words : list cstr) : cfgM bool :=
  unless (isArgCount 1 words) (
    let w := hd [] words in
    let set t := set_work (fun c => c <| renamestyle := t |>) ;;; ret true in
    if same_word w (str "postfix") then set RENAME_POSTFIX
    else if same_word w (str "extenstion") then set RENAME_EXTENSION else SyntaxError).

(** ** Lists of words *)
Definition read_rfrule (words : list cstr) : cfgM bool :=
  unless (isArgCount 2 words) (
    set_work (fun c => c <| rf_rules ::= fun l => l ++ [mkRF_RULE (nth 0 words []) (nth 1 words [])] |>) ;;;
    ret true).
Definition read_mask (var : MVAR) (words : list cstr) : cfgM bool :=
  match words with
  | [] => SyntaxError
  | _ => set_work (fun c => fold_left (fun c w => add_mask var w c) words c) ;;; ret true
  end.

Definition parse_addrtype (w : cstr) : Z :=
  if same_word w (str "all") then A_ALL else if same_word w (str "secure") then A_PROT
  else if same_word w (str "unsecure") then A_UNPROT else if same_word w (str "listed") then A_LST
  else if same_word w (str "unlisted") then A_UNLST else 0.

(** The words of [skip]: the type of address, the size and its flag, then masks. *)
Record SKIP_WORDS := mkSKIP_WORDS { s_destr : bool; s_maskonly : Z; s_sz : Z; s_at : Z }.
Definition read_skip_word (obsolete : bool) (i : nat) (w : cstr) (s : SKIP_WORDS) : cfgM (option SKIP_WORDS) :=
  let fail := (let! _ := ConfigError in ret None) in
  if (i =? 0)%nat && isalpha (hd0 w) && negb obsolete then
    let at_ := parse_addrtype w in
    if at_ =? 0 then fail else ret (Some (mkSKIP_WORDS (s_destr s) (s_maskonly s) (s_sz s) at_))
  else if (i <? 2)%nat && (s_maskonly s =? 0) && negb obsolete then
    if bool_decide (w = str "-") then ret (Some (mkSKIP_WORDS (s_destr s) (s_maskonly s) (-1) (s_at s)))
    else
      let bang := hd0 w =? chr "!" in
      let w := if bang then tl w else w in
      if negb (isdigit (hd0 w)) then fail
      else ret (Some (mkSKIP_WORDS (s_destr s || bang) 1 (swrap 64 (strtoumax w)) (s_at s)))
  else
    let sz := if 0 <? s_sz s then swrap 64 (Z.shiftl (s_sz s) 10) else s_sz s in
    set_work (fun c => c <| skipmask ::= fun l => l ++ [mkskipchain w (s_at s) sz (s_destr s)] |>) ;;;
    ret (Some (mkSKIP_WORDS (s_destr s) 2 (s_sz s) (s_at s))).
Fixpoint read_skip_loop (obsolete : bool) (i : nat) (words : list cstr) (s : SKIP_WORDS) : cfgM bool :=
  match words with
  | [] => if s_maskonly s =? 2 then ret true else ConfigError
  | w :: t => let! r := read_skip_word obsolete i w s in
              match r with None => ret false | Some s => read_skip_loop obsolete (S i) t s end
  end.
Definition read_skip (k : KEYWORD) (words : list cstr) : cfgM bool :=
  let obsolete := negb (option1 k =? 0) in
  read_skip_loop obsolete 0 words (mkSKIP_WORDS obsolete 0 0 A_ALL).

Definition read_check_pkthdr (words : list cstr) : cfgM bool :=
  match words with
  | [] => SyntaxError
  | w0 :: _ =>
      let at_ := parse_addrtype w0 in
      let typed := negb (at_ =? 0) in
      set_work (fun c => c <| pkthdr_type := if typed then at_ else A_ALL |>) ;;;
      unless (isArgCount (if typed then 2 else 1) words) (
        let w := if typed then nth 1 words [] else w0 in
        let w := if hd0 w =? chr "." then tl w else w in
        set_work (fun c => c <| pkthdr_bad := Some w |>) ;;; ret true)
  end.

(** Each mask of a [flag] or [exec] line gets an entry of its own. *)
Definition new_event (k : KEYWORD) (path w : cstr) : option EVT_FLAG :=
  let imm := hd0 path =? chr "!" in
  let body := Some (if imm then tl path else path) in
  if option1 k =? chr "f" then Some (mkEVT_FLAG body None w imm)
  else if option1 k =? chr "e" then Some (mkEVT_FLAG None body w imm) else None.
Definition read_flag_exec_info (k : KEYWORD) (words : list cstr) : cfgM bool :=
  match words with
  | path :: w :: t =>
      set_work (fun c => c <| evt_flags ::= fun l => l ++ omap (new_event k path) (w :: t) |>) ;;; ret true
  | _ => SyntaxError
  end.

(** ** Addresses and domains *)
Definition Config_ParseAddress (s : cstr) : cfgM (option FTN_ADDR) :=
  let! doms := gets (fun r => pDomains (work_config r)) in
  let '(ok, a) := parse_ftnaddress s doms in
  if (ok : bool) then ret (Some a) else let! _ := ConfigError in ret None.
(** [exp_ftnaddress]: without an address of one's own the process ends. *)
Definition expand (a : FTN_ADDR) : cfgM FTN_ADDR :=
  let! c := gets work_config in
  let! r := lift (exp_ftnaddress a (pAddr c) (pDomains c)) in
  match r with Some a => ret a | None => exit0 end.

Definition read_aka (w : cstr) : cfgM bool :=
  let! a := Config_ParseAddress w in
  match a with
  | None => ret false
  | Some a =>
      if negb (is4D a) then ConfigError else
      let! c := gets work_config in
      match fa_domain a, pDomains c with
      | [], [] => ConfigError
      | d, doms =>
          let! a := match d with
                    | [] => let! d := lift (get_matched_domain (fa_z a) (pAddr c) doms) in ret (a <| fa_domain := d |>)
                    | _ => ret a
                    end in
          (if existsb (fun n => ftnaddress_cmp a n =? 0) (pAddr c) then ret tt
           else set_work (fun c => c <| pAddr ::= fun l => l ++ [a] |>)) ;;; ret true
      end
  end.
Fixpoint read_akas (words : list cstr) : cfgM bool :=
  match words with [] => ret true | w :: t => unless (read_aka w) (read_akas t) end.
Definition read_aka_list (words : list cstr) : cfgM bool :=
  match words with [] => SyntaxError | _ => read_akas words end.

Definition add_domain (d : FTN_DOMAIN) : cfgM bool :=
  set_work (fun c => c <| pDomains ::= fun l => l ++ [d] |>) ;;; ret true.
(** The zone: digits, perhaps followed by a blank and anything. *)
Fixpoint skip_digits (s : cstr) : cstr :=
  match s with c :: t => if isdigit c then skip_digits t else s | [] => [] end.
Definition valid_zone (w : cstr) : bool :=
  let s := skip_digits w in
  (match s with [] => true | c :: _ => isspace c end) && (0 <? atoi w).
(** The base outbound: its directory's path and its name. *)
Definition split_base (w : cstr) : cstr * cstr :=
  let w := check_dir_path w in
  match last_slash w with
  | None => (str ".", w)
  | Some i => (check_dir_path (take i w), drop (S i) w)
  end.
Definition read_domain_info (words : list cstr) : cfgM bool :=
  match words with
  | w0 :: w1 :: w2 :: ([] | [_]) as rest =>
      let! doms := gets (fun r => pDomains (work_config r)) in
      match get_domain_info w0 doms with
      | Some _ => ConfigError
      | None =>
          let name := strnzcpy w0 (MAX_DOMAIN + 1) in
          if same_word w1 (str "alias-for") then
            match get_domain_info w2 doms with
            | None => ConfigError
            | Some d => unless (isArgCount 3 words) (add_domain (mkFTN_DOMAIN name [] [] 0 None (Some d)))
            end
          else if negb (valid_zone w2) then ConfigError
          else
            let '(new_path, new_dir) := split_base w1 in
            if in_set new_dir (chr ".") then ConfigError
            else add_domain (mkFTN_DOMAIN name new_path new_dir (atoi w2) (nth_error words 3) None)
      end
  | _ => ConfigError
  end.

Definition read_akachain (k : KEYWORD) (words : list cstr) : cfgM bool :=
  unless (isArgCount 2 words) (
    let! a := Config_ParseAddress (nth 0 words []) in
    match a with
    | None => ret false
    | Some a =>
        let! a := expand a in
        let mask := nth 1 words [] in
        let bang := hd0 mask =? chr "!" in
        let type := if bang then Z.lor (option1 k) 0x80 else option1 k in
        let mask := if bang then tl mask else mask in
        set_work (fun c => c <| akamask ::= fun l => l ++ [mkakachain a mask type] |>) ;;; ret true
    end).

(** ** Nodes *)
(** "pwd,pkt_pwd,out_pwd": what is missing or empty after a comma is NULL. *)
Definition cut_at (c : char) (s : cstr) : cstr * option cstr :=
  match strchr s c with Some i => (take i s, Some (drop (S i) s)) | None => (s, None) end.
Definition null_empty (s : option cstr) : option cstr :=
  match s with Some [] => None | _ => s end.
Definition split_passwords (password : option cstr) : option cstr * option cstr * option cstr :=
  match password with
  | None => (None, None, None)
  | Some p =>
      match cut_at (chr ",") p with
      | (pwd, None) => (Some pwd, None, None)
      | (pwd, Some r) => let '(pkt, out_) := cut_at (chr ",") r in
                         (Some pwd, null_empty (Some pkt), null_empty out_)
      end
  end.

Record NODE_OPTS := mkNODE_OPTS {
  o_w : list (option cstr);          (* w[0 .. i-1] *)
  o_NR : Z; o_ND : Z; o_HC : Z; o_MD : Z; o_NP : Z; o_NC : Z; o_rip : Z; o_af : Z;
  o_pipe : option cstr
}.
#[export] Instance eta_NODE_OPTS : Eta NODE_OPTS := fun o =>
  mkNODE_OPTS (o_w o) (o_NR o) (o_ND o) (o_HC o) (o_MD o) (o_NP o) (o_NC o) (o_rip o) (o_af o) (o_pipe o).
Definition ARGNUM : nat := 6.
Definition NO_OPTS (w : list (option cstr)) : NODE_OPTS :=
  mkNODE_OPTS w USE_OLD USE_OLD 0 MD_USE_OLD USE_OLD USE_OLD USE_OLD USE_OLD (Some []).

(** An option that is not [-pipe]; the flag tells whether it is known.  A
    misuse of [-4] and [-6], and the obsolete [-crypt], are only reported. *)
Definition node_option (tmp : cstr) (o : NODE_OPTS) : cfgM (option NODE_OPTS) :=
  let known o := ret (Some o) in
  let report := (let! _ := ConfigError in ret (Some o)) in
  let opt s := same_word tmp (str s) in
  if opt "-md" then known (o <| o_MD := MD_ON |>) else if opt "-nomd" then known (o <| o_MD := MD_OFF |>)
  else if opt "-nr" then known (o <| o_NR := NR_ON |>)
  else if opt "-nd" then known (o <| o_NR := NR_ON |> <| o_ND := ND_ON |>)
  else if opt "-ip" then known (o <| o_rip := RIP_ON |>) else if opt "-sip" then known (o <| o_rip := RIP_SIP |>)
  else if opt "-crypt" then report
  else if opt "-hc" then known (o <| o_HC := HC_ON |>) else if opt "-nohc" then known (o <| o_HC := HC_OFF |>)
  else if opt "-noproxy" then known (o <| o_NP := NP_ON |>) else if opt "-nc" then known (o <| o_NC := NC_ON |>)
  else if opt "-4" then if o_af o <=? AF_UNSPEC then known (o <| o_af := AF_INET |>) else report
  else if opt "-6" then if o_af o <=? AF_UNSPEC then known (o <| o_af := AF_INET6 |>) else report
  else ret None.

(** [j] counts the words before [words]; the word after the last is the NULL
    that ended the line, or, on a line of 64 words, out of the array. *)
Fixpoint node_words (j : nat) (words : list cstr) (o : NODE_OPTS) : cfgM (option NODE_OPTS) :=
  match words with
  | [] => ret (Some o)
  | tmp :: t =>
      if (hd0 tmp =? chr "-") && negb (bool_decide (tmp = str "-")) then
        let! r := (if same_word tmp (str "-pipe") then ret (Some o) else node_option tmp o) in
        match r with
        | None => let! _ := ConfigError in ret None
        | Some o =>
            if same_word tmp (str "-pipe") then
              match t with
              | [] => let! _ := ConfigError in
                      lift (if (S j =? MAX_WORDS_ON_LINE - 1)%nat then Oob else Ok (Some (o <| o_pipe := None |>)))
              | p :: t => node_words (S (S j)) t (o <| o_pipe := Some p |>)
              end
            else node_words (S j) t o
        end
      else if (ARGNUM <=? length (o_w o))%nat then let! _ := ConfigError in ret None
      else node_words (S j) t (o <| o_w ::= fun w => w ++ [if hd0 tmp =? chr "-" then None else Some tmp] |>)
  end.

Definition isflvr (c : char) : bool := negb (c =? 0) && in_set prio c.
Definition listed_node (fa0 : FTN_ADDR) (a : NODE_ARGS) (mark : FTN_NODE -> Z) (w : WORLD) : WORLD :=
  update_node (add_node_nolock w fa0 a) fa0 (fun n => n <| n_listed := mark n |>).
Definition node_args (o : NODE_OPTS) : NODE_ARGS :=
  let w i := default None (nth_error (o_w o) i) in
  let '(pwd, pkt_pwd, out_pwd) := split_passwords (w 2%nat) in
  mkNODE_ARGS (w 1%nat) pwd pkt_pwd out_pwd (match w 3%nat with Some f => hd0 f | None => chr "-" end)
    (check_dir_path <$> w 4%nat) (check_dir_path <$> w 5%nat)
    (o_NR o) (o_ND o) (o_MD o) (o_rip o) (o_HC o) (o_NP o) (o_NC o) (o_pipe o) (o_af o).
Definition defnode_word : cstr := str "0:0/0.0@defnode".
Definition read_node_info (k : KEYWORD) (words : list cstr) : cfgM bool :=
  let def := negb (option1 k =? 0) in
  (if def then set_work (fun c => c <| havedefnode := true |>) else ret tt) ;;;
  let! r := node_words 0 words (NO_OPTS (if def then [Some defnode_word] else [])) in
  match r with
  | None => ret false
  | Some o =>
      let w i := default None (nth_error (o_w o) i) in
      match w 0%nat with
      | None => ConfigError
      | Some w0 =>
          let! a := Config_ParseAddress w0 in
          match a with
          | None => ret false
          | Some a =>
              let! a := expand a in
              if bool_decide (w 2%nat = Some []) then ConfigError
              else if match w 3%nat with Some f => negb (isflvr (hd0 f)) | None => false end then ConfigError
              else modify (fun r => r <| nodes ::= listed_node a (node_args o) (fun _ => NL_NODE) |>) ;;; ret true
          end
      end
  end.

(** A shared address is a node too. *)
Fixpoint read_share_words (words : list cstr) (l : list FTN_ADDR) : cfgM (option (list FTN_ADDR)) :=
  match words with
  | [] => ret (Some l)
  | w :: t =>
      let! a := Config_ParseAddress w in
      match a with
      | None => ret None
      | Some a => let! a := expand a in read_share_words t (l ++ [a])
      end
  end.
Definition node_keyword : KEYWORD := mkKEYWORD (str "node") C_read_node_info 0 0.
Definition read_shares (words : list cstr) : cfgM bool :=
  match words with
  | w0 :: w1 :: t =>
      let! a := Config_ParseAddress w0 in
      match a with
      | None => ret false
      | Some a =>
          let! a := expand a in
          unless (read_node_info node_keyword [w0]) (
            let! l := read_share_words (w1 :: t) [] in
            match l with
            | None => ret false
            | Some l => set_work (fun c => c <| shares ::= fun s => s ++ [mkSHARED_CHAIN a l] |>) ;;; ret true
            end)
      end
  | _ => SyntaxError
  end.

(** ** Files, ports and the rest of the lines *)
Section Reader.
Context (net : RESOLVER) (getenv : cstr -> option cstr) (facilitynames : list (cstr * Z)).

Definition listen_entry (w : cstr) : listenchain :=
  let addr := strnzcpy w LISTEN_ADDR_SZ in
  let port p := strnzcpy p (MAXSERVNAME + 1) in
  if hd0 w =? chr "[" then
    match strchr w (chr "]") with
    | Some i => if hd0 (drop (S i) w) =? chr ":"
                then mklistenchain (match strchr addr (chr "]") with Some j => take (S j) addr | None => addr end)
                       (port (drop (S (S i)) w))
                else mklistenchain addr []
    | None => mklistenchain addr []
    end
  else match strchr w (chr ":") with
       | Some i => mklistenchain (cut_at (chr ":") addr).1 (port (drop (S i) w))
       | None => mklistenchain addr []
       end.
Fixpoint read_listen_loop (words : list cstr) : cfgM bool :=
  match words with
  | [] => ret true
  | w :: t =>
      let e := listen_entry w in
      match find_port net (l_port e) with
      | None => ConfigError
      | Some _ =>
          let e := if bool_decide (l_addr e = str "*") then e <| l_addr := [] |> else e in
          set_work (fun c => c <| listen_ ::= fun l => l ++ [e] |>) ;;; read_listen_loop t
      end
  end.
Definition read_listen (words : list cstr) : cfgM bool :=
  match words with [] => SyntaxError | _ => read_listen_loop words end.

Definition read_port (var : SVAR) (words : list cstr) : cfgM bool :=
  unless (isArgCount 1 words) (
    match find_port net (hd [] words) with
    | None => ConfigError
    | Some ps => set_work (set_str var (strnzcpy ps (MAXSERVNAME + 1))) ;;; ret true
    end).

(** The test of the number of arguments is the wrong way round. *)
Definition read_syslog_facility (words : list cstr) : cfgM bool :=
  let! one := isArgCount 1 words in
  if (one : bool) then ret false else
  match words, facilitynames with
  | [], _ :: _ => lift Oob
  | [], [] => ConfigError
  | w :: _, _ =>
      match List.find (fun f => strcmp f.1 w =? 0) facilitynames with
      | Some f => modify (fun r => r <| syslog_facility := f.2 |>) ;;; ret true
      | None => ConfigError
      end
  end.

(** [k->callback (k, wordcount - 1, words + 1)] *)
Definition call (include : list cstr -> cfgM bool) (k : KEYWORD) (words : list cstr) : cfgM bool :=
  match callback k with
  | C_include => include words
  | C_passwords v => passwords_ k v words
  | C_read_aka_list => read_aka_list words
  | C_read_domain_info => read_domain_info words
  | C_read_node_info => read_node_info k words
  | C_read_int v => read_int k v words
  | C_read_time v => read_time k v words
  | C_read_string v => read_string k v words
  | C_read_bool v => read_bool k v words
  | C_read_log_string v => read_log_string k v words
  | C_read_log_int v => read_log_int k v words
  | C_read_flag_exec_info => read_flag_exec_info k words
  | C_read_rfrule => read_rfrule words
  | C_read_mask v => read_mask v words
  | C_read_akachain => read_akachain k words
  | C_read_inboundcase => read_inboundcase words
  | C_read_dontsendempty => read_dontsendempty words
  | C_read_renamestyle => read_renamestyle words
  | C_read_port v => read_port v words
  | C_read_listen => read_listen words
  | C_read_skip => read_skip k words
  | C_read_check_pkthdr => read_check_pkthdr words
  | C_read_shares => read_shares words
  | C_read_syslog_facility => read_syslog_facility words
  end.

(** All lines of a file, as [fgets] cuts them. *)
Fixpoint file_lines (fuel : nat) (f : list Z) : list cstr :=
  match fuel, f with
  | S fuel, _ :: _ => let (l, r) := fgets MAXCFGLINE f in c_string l :: file_lines fuel r
  | _, _ => []
  end.
Definition lines_of (f : list Z) : list cstr := file_lines (length f) f.

(** The words of a line: at most 64 are looked at. *)
Fixpoint get_words (k i : nat) (line : cstr) : mem (list cstr) :=
  match k with
  | O => Ok []
  | S k => let* w := getword getenv line i in
           match w with
           | None => Ok []
           | Some w => let* ws := get_words k (S i) line in Ok (w :: ws)
           end
  end.

Definition read_line (include : list cstr -> cfgM bool) (line : cstr) : cfgM bool :=
  modify (fun r => r <| current_line ::= Z.succ |>) ;;;
  let! words := lift (get_words MAX_WORDS_ON_LINE 1 line) in
  (if (length words =? MAX_WORDS_ON_LINE)%nat then ConfigError else ret true) ;;;
  match words with
  | [] => ret true
  | w :: args => match find_keyword w with
                 | Some k => call include k args
                 | None => ConfigError
                 end
  end.
Fixpoint read_lines (include : list cstr -> cfgM bool) (lines : list cstr) : cfgM bool :=
  match lines with
  | [] => ret true
  | l :: t => unless (read_line include l) (read_lines include t)
  end.

Definition add_to_config_list (path : cstr) (mtime : Z) : cfgM unit :=
  set_work (fun c => c <| config_list ::= fun l => l ++ [mkconflist_type path mtime] |>).

(** The position in the including file is put back. *)
Definition keep_place (m : cfgM bool) : cfgM bool :=
  let! old := gets id in
  let! ok := m in
  modify (fun r => r <| current_path := current_path old |> <| current_line := current_line old |>) ;;;
  ret ok.
(** [room] is how many more levels of [include] there may be. *)
Fixpoint readcfg0 (room : nat) (path : cstr) : cfgM bool :=
  let include words := unless (isArgCount 1 words) (
    match room with
    | O => ConfigError
    | S room => keep_place (readcfg0 room (hd [] words))
    end) in
  let! s := gets (fun r => sys (nodes r)) in
  match fs s !! path with
  | None => ConfigError
  | Some f =>
      modify (fun r => r <| current_line := 0 |> <| current_path := path |>) ;;;
      add_to_config_list path (f_mtime f) ;;;
      read_lines include (lines_of (f_data f))
  end.

(** ** The password file *)
Definition spaces : cstr := [32; 10; 9].
Fixpoint strtok_skip (s : cstr) : cstr :=
  match s with c :: t => if in_set spaces c then strtok_skip t else s | [] => [] end.
Fixpoint strtok_word (s : cstr) : cstr * cstr :=
  match s with
  | c :: t => if in_set spaces c then ([], t) else let (w, r) := strtok_word t in (c :: w, r)
  | [] => ([], [])
  end.
Definition strtok (s : cstr) : option cstr * cstr :=
  match strtok_skip s with [] => (None, []) | s => let (w, r) := strtok_word s in (Some w, r) end.

(** The node and the password of a line, after an optional "password". *)
Definition password_line (line : cstr) : option (cstr * cstr) :=
  let '(node, r) := strtok line in
  let '(node, r) := match node with
                    | Some n => if same_word n (str "password") then strtok r else (node, r)
                    | None => (node, r)
                    end in
  match node, (strtok r).1 with Some n, Some p => Some (n, p) | _, _ => None end.
Definition password_args (p : cstr) : NODE_ARGS :=
  let '(pwd, pkt_pwd, out_pwd) := split_passwords (Some p) in
  mkNODE_ARGS None pwd pkt_pwd out_pwd (chr "-") None None USE_OLD USE_OLD MD_USE_OLD USE_OLD 0
    USE_OLD USE_OLD None USE_OLD.
Definition read_password_line (line : cstr) : cfgM unit :=
  match password_line line with
  | None => ret tt
  | Some (n, p) =>
      let! doms := gets (fun r => pDomains (work_config r)) in
      let '(ok, a) := parse_ftnaddress n doms in
      if negb ok then ret tt else
      let! a := expand a in
      modify (fun r => r <| nodes ::= listed_node a (password_args p)
                                        (fun n => if n_listed n =? 0 then NL_PASSWORDS else n_listed n) |>)
  end.
Fixpoint read_password_lines (lines : list cstr) : cfgM bool :=
  match lines with [] => ret true | l :: t => read_password_line l ;;; read_password_lines t end.
Definition read_passwords (filename : cstr) : cfgM bool :=
  let! s := gets (fun r => sys (nodes r)) in
  match fs s !! filename with
  | None => ConfigError
  | Some f => add_to_config_list filename (f_mtime f) ;;; read_password_lines (lines_of (f_data f))
  end.

(** ** The checks of a configuration that was read *)
Context (st_dev : cstr -> Z) (junk_dev : Z).

(** A personal outbox must not be an outbound. *)
Definition is_outbound (obox : cstr) (pd : FTN_DOMAIN) : bool :=
  match d_alias4 pd with
  | Some _ => false
  | None => is_prefix (d_path pd) obox &&
            match drop (length (d_path pd)) obox with
            | c :: s => is_slash c && (o_stricmp s (d_dir pd) =? 0)
            | [] => false
            end
  end.
Definition check_outbox (obox : cstr) (doms : list FTN_DOMAIN) : bool := existsb (is_outbound obox) doms.

(** The boxes of a node exist; [arg] is the partition of the temporary inbound. *)
Definition check_boxes (doms : list FTN_DOMAIN) (node : FTN_NODE) (arg : option Z) (w : WORLD)
    : mem (bool * option Z * WORLD) :=
  let bad_obox := match n_obox node with
                  | Some (c :: o) => negb (is_dir (sys w) (c :: o)) || check_outbox (c :: o) doms
                  | _ => false
                  end in
  let bad_ibox := match n_ibox node with
                  | Some (c :: i) => negb (is_dir (sys w) (c :: i)) ||
                                     match arg with Some d => negb (st_dev (c :: i) =? d) | None => false end
                  | _ => false
                  end in
  Ok (bad_obox || bad_ibox, arg, w).

Definition check_config : cfgM bool :=
  let! r := gets id in
  let c := work_config r in
  let s := sys (nodes r) in
  let apart p := exists_ s p && negb (st_dev (temp_inbound c) =? st_dev p) in
  let there := exists_ s (temp_inbound c) in
  let given := match temp_inbound c with [] => false | _ => true end in
  if given && there && (apart (c_inbound c) || apart (inbound_nonsecure c)) then ConfigError else
  let dev := if given then Some (if there then st_dev (temp_inbound c) else junk_dev) else None in
  let! b := lift (foreach_node c (check_boxes (pDomains c)) dev (nodes r)) in
  modify (fun r => r <| nodes := b.2 |>) ;;;
  if b.1.1 then ConfigError else ret true.

(** ** Reading a configuration *)
Context (no_MD5_ no_crypt_ : bool) (quiet_flag : bool) (verbose_flag : Z).

(** [memset (&work_config, 0, ...)]; [-m] and [-r] are the command line's. *)
Definition zero_config : BINKD_CONFIG :=
  {| pAddr := []; pDomains := []; oblksize := 0; kill_dup_partial_files := false;
     kill_old_partial_files := 0; kill_old_bsy := 0; minfree := 0; minfree_nonsecure := 0; tries := 0;
     hold := 0; hold_skipped := 0; send_if_pwd := false; remove_try_files := false; prescan := false;
     inboundcase := INB_SAVE; deletedirs := false; havedefnode := false; dontsendempty := EMPTY_NO;
     renamestyle := RENAME_POSTFIX; pkthdr_type := 0; pkthdr_bad := None; overwrite := []; skipmask := [];
     rf_rules := []; evt_flags := []; akamask := []; shares := []; root_domain := []; c_sysname := [];
     c_sysop := []; c_location := []; c_nodeinfo := []; c_inbound := []; inbound_nonsecure := [];
     temp_inbound := []; tfilebox := []; bfilebox := []; deleteablebox := false; oport := [];
     no_MD5 := no_MD5_; no_crypt := no_crypt_; tzoff := 0; max_servers := 0; max_clients := 0;
     iport := []; nettimeout := 0; connect_timeout := 0; call_delay := 0; no_call_delay := false;
     rescan_delay := 0; backresolv := false; loglevel := 0; conlog := 0; printq := false;
     percents := false; config_list := []; nolog := []; listen_ := []; bindaddr := []; logpath := [];
     binlogpath := []; fdinhist := []; fdouthist := []; pid_file := []; c_passwords := [];
     usageCount := 0; q_present := false |}.

Definition default_port : cstr := strnzcpy (default [] (find_port net [])) (MAXSERVNAME + 1).
Definition lock_config_structure (c : BINKD_CONFIG) : BINKD_CONFIG :=
  let c := c <| usageCount ::= Z.succ |> in
  if usageCount c =? 1 then
    c <| iport := default_port |> <| oport := default_port |>
      <| call_delay := 60 |> <| no_call_delay := false |> <| rescan_delay := 60 |>
      <| nettimeout := DEF_TIMEOUT |> <| oblksize := DEF_BLKSIZE |>
      <| max_servers := 100 |> <| max_clients := 100 |> <| minfree := -1 |> <| minfree_nonsecure := -1 |>
      <| loglevel := 4 |> <| conlog := 1 |> <| inboundcase := INB_SAVE |>
      <| renamestyle := RENAME_POSTFIX |> <| hold_skipped := 60 * 60 |> <| tzoff := -1 |>
      <| c_inbound := str "." |> <| root_domain := ROOT_DOMAIN |>
  else c.
(** [None] when the last user has gone and the structure is freed. *)
Definition unlock_config_structure (c : BINKD_CONFIG) : option BINKD_CONFIG :=
  let c := c <| usageCount ::= Z.pred |> in
  if usageCount c =? 0 then None else Some c.

(** The switches of the command line come last. *)
Definition apply_flags (c : BINKD_CONFIG) : BINKD_CONFIG :=
  let c := if quiet_flag then c <| percents := false |> <| conlog := 0 |> <| printq := false |> else c in
  if verbose_flag =? 0 then c
  else
    let level := if verbose_flag =? 1 then 4 else 6 in
    c <| percents := true |> <| printq := true |> <| loglevel := level |> <| conlog := level |>.
Definition fill_port (iport : cstr) (l : listenchain) : listenchain :=
  match l_port l with [] => l <| l_port := strnzcpy iport (MAXSERVNAME + 1) |> | _ => l end.
Definition finish_listen (c : BINKD_CONFIG) : BINKD_CONFIG :=
  let l := match listen_ c with [] => [mklistenchain [] []] | l => l end in
  c <| listen_ := map (fill_port (iport c)) l |>.
Definition finish_inbound (c : BINKD_CONFIG) : BINKD_CONFIG :=
  match inbound_nonsecure c with [] => c <| inbound_nonsecure := c_inbound c |> | _ => c end.

Definition load_config (path : cstr) : cfgM bool :=
  unless (readcfg0 MAXINCLUDELEVEL path) (
  unless (let! c := gets work_config in isDefined (c_sysname c)) (
  unless (let! c := gets work_config in isDefined (c_sysop c)) (
  unless (let! c := gets work_config in isDefined (c_location c)) (
  unless (let! c := gets work_config in isDefined (c_nodeinfo c)) (
    let! c := gets work_config in
    match pAddr c, pDomains c with
    | [], _ | _, [] => ConfigError
    | _, _ =>
        set_work (fun c => finish_inbound (finish_listen (apply_flags c))) ;;;
        let! c := gets work_config in
        unless (match c_passwords c with [] => ret true | p => read_passwords p end) check_config
    end))))).

Definition empty_table (w : WORLD) : WORLD := w <| pNodArray := [] |> <| nNodSorted := false |>.
(** NULL, or the new configuration; its nodes are in the reader that is left. *)
Definition readcfg (path : cstr) (r : READER) : mem (option (option BINKD_CONFIG) * READER) :=
  let r := r <| work_config := lock_config_structure zero_config |> <| nodes ::= empty_table |> in
  let* x := load_config path r in
  Ok ((fun ok : bool => if ok then Some (work_config x.2) else None) <$> x.1, x.2).

(** ** Reloading *)
Record MAIN := mkMAIN {
  current_config : option BINKD_CONFIG;
  m_world : WORLD;
  got_sighup : bool;
  m_reader : READER
}.
#[export] Instance eta_MAIN : Eta MAIN := fun m =>
  mkMAIN (current_config m) (m_world m) (got_sighup m) (m_reader m).

Definition lock_current_config (m : MAIN) : MAIN :=
  m <| current_config ::= fmap lock_config_structure |>.

(** The times of the files are brought up to date; the flag tells of a change. *)
Definition check_mtime (s : SYS) (pc : conflist_type) : conflist_type * bool :=
  match fs s !! cf_path pc with
  | None => (pc, false)
  | Some f => if cf_mtime pc =? 0 then (pc <| cf_mtime := f_mtime f |>, false)
              else if cf_mtime pc =? f_mtime f then (pc, false)
              else (pc <| cf_mtime := f_mtime f |>, true)
  end.

(** The nodes of a configuration are found through it: the new table comes with
    the new configuration.  [None] is the end of the process. *)
Definition checkcfg (checkcfg_flag : bool) (m : MAIN) : mem (option bool * MAIN) :=
  let need_reload := got_sighup m in
  let m := m <| got_sighup := false |> in
  if negb checkcfg_flag && negb need_reload then Ok (Some false, m) else
  match current_config m with
  | None => Oob
  | Some c =>
      let l := map (check_mtime (sys (m_world m))) (config_list c) in
      let need_reload := need_reload || existsb snd l in
      let m := m <| current_config := Some (c <| config_list := l.*1 |>) |> in
      if negb need_reload then Ok (Some false, m) else
      match l with
      | [] => Oob
      | pc :: _ =>
          let* x := readcfg (cf_path pc.1) ((m_reader m) <| nodes := m_world m |>) in
          let m := m <| m_reader := x.2 |> in
          match x.1 with
          | None => Ok (None, m)
          | Some None => Ok (Some false, m)
          | Some (Some c) => Ok (Some true, m <| current_config := Some c |> <| m_world := nodes x.2 |>)
          end
      end
  end.
End Reader.
