(* ===== verification/Config.v ===== *)
(** * What holds of a configuration that was read

    A successful callback is a sequence of [edit]s of the reader's state, one
    per entry added or field set; an unsuccessful one says where it failed.
    What the edits keep holds of every configuration [readcfg] returns. *)
From S2P Require Import Prelude CStr Tools Pmatch FtnAddr Getw Sys Types FtnNode FtnQ Hosts Readcfg.

(** ** Running a step of the reader *)
Definition runs {A} (E : Prop) (r : READER) (m : cfgM A) (Q : A -> READER -> Prop) : Prop :=
  outcome (fun x => match x.1 with Some a => Q a x.2 | None => True end) E (m r).

Section Runs.
Context {E : Prop}.
Lemma runs_ret {A} r (a : A) (Q : A -> READER -> Prop) : Q a r -> runs E r (ret a) Q.
Proof. done. Qed.
Lemma runs_exit {A} r (Q : A -> READER -> Prop) : runs E r (exit0 : cfgM A) Q.
Proof. done. Qed.
Lemma runs_bind {A B} r (m : cfgM A) (k : A -> cfgM B) Q :
  runs E r m (fun a r1 => runs E r1 (k a) Q) -> runs E r (bind m k) Q.
Proof.
  intros H. unfold runs, bind. eapply outcome_bind; [exact H|].
  intros [[a|] r1]; simpl; [|done]. intros Ha. exact Ha.
Qed.
Lemma runs_lift {A} r (m : mem A) Q : outcome (fun a => Q a r) E m -> runs E r (lift m) Q.
Proof. intros H. unfold runs, lift. eapply outcome_bind; [exact H|]. done. Qed.
Lemma runs_gets {A} r (f : READER -> A) Q : Q (f r) r -> runs E r (gets f) Q.
Proof. done. Qed.
Lemma runs_modify r f (Q : unit -> READER -> Prop) : Q tt (f r) -> runs E r (modify f) Q.
Proof. done. Qed.
Lemma runs_weaken {A} r (m : cfgM A) (Q Q' : A -> READER -> Prop) :
  runs E r m Q -> (forall a r1, Q a r1 -> Q' a r1) -> runs E r m Q'.
Proof.
  intros H HQ. eapply outcome_weaken; [exact H| |done]. intros [[a|] r1]; simpl; auto.
Qed.
Lemma runs_unless r t k Q :
  runs E r t (fun (ok : bool) r1 => if ok then runs E r1 k Q else Q false r1) -> runs E r (unless t k) Q.
Proof.
  intros H. apply runs_bind. eapply runs_weaken; [exact H|]. intros [|] r1; [done|]. intros Hq. by apply runs_ret.
Qed.
End Runs.

(** Where the reader is, and an error there. *)
Definition here (r : READER) : cstr * Z := (current_path r, current_line r).
Definition report (r : READER) : READER := r <| errors ::= cons (here r) |>.
Lemma runs_error E r (Q : bool -> READER -> Prop) : Q false (report r) -> runs E r ConfigError Q.
Proof. done. Qed.

(** ** The edits *)
(** The numeric variable of an entry of the table. *)
Definition int_var (k : KEYWORD) : option IVAR :=
  match callback k with C_read_int v | C_read_time v | C_read_log_int v => Some v | _ => None end.
Definition str_var (k : KEYWORD) : option SVAR :=
  match callback k with C_read_string v | C_read_log_string v | C_passwords v => Some v | _ => None end.

(** The size of its array. *)
Definition str_size (k : KEYWORD) : nat := if option1 k =? 0 then Z.to_nat (option2 k) else MAXPATHLEN.
(** What a string of the table satisfies when it is read. *)
Definition string_ok (s : SYS) (k : KEYWORD) (t : cstr) : Prop :=
  (length t < str_size k)%nat /\
  (option1 k <> 0 -> is_slash (hd0 (rev t)) = false) /\ (option1 k = chr "d" -> is_dir s t = true).
Definition work (f : BINKD_CONFIG -> BINKD_CONFIG) (r : READER) : READER := r <| work_config ::= f |>.
Definition own (r : READER) : list FTN_ADDR := pAddr (work_config r).

(** A domain or an address of one's own with an empty name. *)
Definition nameless (r : READER) : Prop :=
  (exists d, d ∈ pDomains (work_config r) /\ d_name d = []) \/ (exists b, b ∈ own r /\ fa_domain b = []).

Inductive edit : READER -> READER -> Prop :=
| e_report r : edit r (report r)
| e_place r p l : edit r (r <| current_path := p |> <| current_line := l |>)
| e_file r p t : edit r (work (fun c => c <| config_list ::= fun l => l ++ [mkconflist_type p t] |>) r)
| e_int r k v n : k ∈ keywords -> int_var k = Some v -> bounds_ok k n = true -> edit r (work (set_int v n) r)
| e_bool r v : edit r (work (set_bool v) r)
| e_str r k v t : k ∈ keywords -> str_var k = Some v -> string_ok (sys (nodes r)) k t -> edit r (work (set_str v t) r)
| e_port r v t : v = V_iport \/ v = V_oport -> t <> [] -> (length t <= MAXSERVNAME)%nat -> edit r (work (set_str v t) r)
| e_other r f : (forall v c, get_int v (f c) = get_int v c) -> (forall v c, get_str v (f c) = get_str v c) ->
    (forall c, pAddr (f c) = pAddr c) -> (forall c, pDomains (f c) = pDomains c) ->
    (forall c, config_list (f c) = config_list c) -> (forall c, listen_ (f c) = listen_ c) ->
    (forall c, usageCount (f c) = usageCount c) -> edit r (work f r)
| e_listen r e : (length (l_addr e) < LISTEN_ADDR_SZ)%nat -> (length (l_port e) <= MAXSERVNAME)%nat ->
    edit r (work (fun c => c <| listen_ ::= fun l => l ++ [e] |>) r)
| e_aka r a : is4D a = true -> nameless r \/ fa_domain a <> [] -> existsb (fun n => ftnaddress_cmp a n =? 0) (own r) = false ->
    edit r (work (fun c => c <| pAddr ::= fun l => l ++ [a] |>) r)
| e_domain r d : (length (d_name d) <= MAX_DOMAIN)%nat ->
    (forall d', d_alias4 d = Some d' -> d' ∈ pDomains (work_config r)) ->
    (d_alias4 d = None -> 0 < d_z d /\ in_set (d_dir d) (chr ".") = false) ->
    edit r (work (fun c => c <| pDomains ::= fun l => l ++ [d] |>) r)
| e_node r a args mark : edit r (r <| nodes ::= listed_node a args mark |>)
| e_facility r n : edit r (r <| syslog_facility := n |>).

(** The result of a callback run in state [r]. *)
Record result_of (silent : Prop) (r : READER) (ok : bool) (r' : READER) : Prop := {
  ro_edits : ok = true -> rtc edit r r';
  ro_here : here r' = here r;
  ro_sys : sys (nodes r') = sys (nodes r);
  ro_errors : exists n, errors r' = replicate n (here r) ++ errors r /\ (ok = false -> n = O -> silent)
}.

Lemma result_refl S r : result_of S r true r.
Proof. constructor; [done..|by exists O]. Qed.
Lemma result_fail (S : Prop) r r1 : here r1 = here r -> sys (nodes r1) = sys (nodes r) -> errors r1 = errors r ->
  result_of S r false (report r1).
Proof. intros H1 H2 H3. constructor; [done|done|done|]. exists 1%nat. split; [simpl; by rewrite H1, H3|done]. Qed.
Lemma result_edit S r r1 : edit r r1 -> here r1 = here r -> sys (nodes r1) = sys (nodes r) -> errors r1 = errors r ->
  result_of S r true r1.
Proof. intros. constructor; [intros; by apply rtc_once|done|done|]. by exists O. Qed.
Lemma result_silent (S : Prop) r : S -> result_of S r false r.
Proof. intros. constructor; [done|done|done|]. by exists O. Qed.
Lemma result_trans S r r1 r2 ok : result_of S r true r1 -> result_of S r1 ok r2 -> result_of S r ok r2.
Proof.
  intros [A1 A2 A3 (n & A4 & _)] [B1 B2 B3 (m & B4 & B5)]. constructor; [|congruence|congruence|].
  - intros ->. etrans; eauto.
  - exists (m + n)%nat. rewrite replicate_add, <- app_assoc, B4, A4, A2. split; [done|]. intros -> Hn. apply B5; [done|lia].
Qed.
Lemma result_report S r : result_of S r true (report r).
Proof. constructor; [intros; apply rtc_once, e_report|done|done|]. by exists 1%nat. Qed.
Lemma result_weaken (S T : Prop) r ok r' : result_of S r ok r' -> (S -> T) -> result_of T r ok r'.
Proof. intros [A1 A2 A3 (n & A4 & A5)] HS. constructor; [done..|]. exists n. auto. Qed.

(** ** Every callback *)
#[global] Opaque MAXPATHLEN BINKD_FQDNLEN.
Ltac wp :=
  repeat match goal with
  | |- runs _ _ (ret _) _ => apply runs_ret
  | |- runs _ _ exit0 _ => apply runs_exit
  | |- runs _ _ (bind _ _) _ => apply runs_bind
  | |- runs _ _ (lift _) _ => apply runs_lift
  | |- runs _ _ (gets _) _ => apply runs_gets
  | |- runs _ _ (modify _) _ => apply runs_modify
  | |- runs _ _ (set_work _) _ => apply runs_modify
  | |- runs _ _ (unless _ _) _ => apply runs_unless
  | |- runs _ _ ConfigError _ => apply runs_error
  | |- runs _ _ ConfigNeedNumber _ => apply runs_error
  | |- runs _ _ ConfigNeedTime _ => apply runs_error
  | |- runs _ _ SyntaxError _ => apply runs_error
  | |- runs _ _ (let _ := _ in _) _ => cbv zeta
  | |- runs _ _ (if ?b then _ else _) _ =>
      lazymatch type of b with bool => let E := fresh "E" in destruct b eqn:E end
  | |- runs _ _ (isArgCount ?n ?w) _ => let E := fresh "E" in unfold isArgCount; destruct (length w =? n)%nat eqn:E
  | |- if true then _ else _ => cbv iota
  | |- if false then _ else _ => cbv iota
  end.
Ltac fails := solve [apply result_fail; reflexivity].

Section Callbacks.
Context {E S : Prop}.
Implicit Types (r : READER) (k : KEYWORD).
Abbreviation res r := (fun ok r' => result_of S r ok r').

Lemma read_int_edits r k v words : k ∈ keywords -> int_var k = Some v -> runs E r (read_int k v words) (res r).
Proof.
  intros Hk Hv. unfold read_int. wp; try fails. apply result_edit; [|done..]. by apply (e_int r k).
Qed.
Lemma read_time_edits r k v words : k ∈ keywords -> int_var k = Some v -> runs E r (read_time k v words) (res r).
Proof.
  intros Hk Hv. unfold read_time. wp; try fails. destruct (parse_time _) as [ok n]. wp; try fails.
  apply result_edit; [|done..]. by apply (e_int r k).
Qed.
Lemma drop_slashes_head l : is_slash (hd0 (drop_slashes l)) = false.
Proof. induction l as [|c l IH]; [done|]. simpl. case_if; [done|]. simpl. done. Qed.
Lemma drop_slashes_length l : (length (drop_slashes l) <= length l)%nat.
Proof. induction l as [|c l IH]; [done|]. simpl. case_if; simpl; lia. Qed.
Lemma check_dir_path_length s : (length (check_dir_path s) <= length s)%nat.
Proof. unfold check_dir_path. rewrite length_rev. pose proof (drop_slashes_length (rev s)). rewrite length_rev in *. done. Qed.
Lemma check_dir_path_slash s : is_slash (hd0 (rev (check_dir_path s))) = false.
Proof. unfold check_dir_path. rewrite rev_involutive. apply drop_slashes_head. Qed.

Lemma str_size_pos k v : k ∈ keywords -> str_var k = Some v -> (0 < str_size k)%nat.
Proof.
  Transparent MAXPATHLEN BINKD_FQDNLEN.
  intros Hk Hv. assert (H : Forall (fun k => str_var k <> None -> Nat.ltb 0 (str_size k) = true) keywords)
    by (repeat constructor; vm_compute; done).
  apply Nat.ltb_lt. rewrite Forall_forall in H. apply H; [done|]. by rewrite Hv.
  Opaque MAXPATHLEN BINKD_FQDNLEN.
Qed.

Lemma read_string_edits r k v words : k ∈ keywords -> str_var k = Some v -> runs E r (read_string k v words) (res r).
Proof.
  intros Hk Hv. pose proof (str_size_pos k v Hk Hv) as Hs. unfold read_string. fold (str_size k). wp; try fails.
  - apply result_edit; [|done..]. apply (e_str r k); [done|done|]. split; [by apply strnzcpy_length|]. bools. split; [done|].
    intros Ho. by rewrite Ho in *.
  - apply result_edit; [|done..]. apply (e_str r k); [done|done|]. split_and!.
    + eapply Nat.le_lt_trans; [apply check_dir_path_length|]. by apply strnzcpy_length.
    + intros _. apply check_dir_path_slash.
    + intros Ho. apply andb_false_iff in E3 as [E3|E3]; [by rewrite Ho in E3|]. by apply negb_false_iff in E3.
Qed.
Lemma read_bool_edits r k v words : runs E r (read_bool k v words) (res r).
Proof. unfold read_bool. destruct words; wp; try fails. apply result_edit; [apply e_bool|done..]. Qed.

Lemma runs_unless_res r (t m : cfgM bool) : runs E r t (res r) -> (forall r1, result_of S r true r1 -> runs E r1 m (res r1)) ->
  runs E r (unless t m) (res r).
Proof.
  intros Ht Hk. apply runs_unless. eapply runs_weaken; [exact Ht|]. intros [|] r1 H1; [|done].
  eapply runs_weaken; [by apply Hk|]. intros ok r2 H2. by eapply result_trans.
Qed.
Lemma passwords_edits r k v words : k ∈ keywords -> str_var k = Some v -> runs E r (passwords_ k v words) (res r).
Proof. intros. apply runs_unless_res; [by apply read_string_edits|]. intros. apply runs_ret, result_refl. Qed.
Lemma read_log_int_edits r k v words : k ∈ keywords -> int_var k = Some v -> runs E r (read_log_int k v words) (res r).
Proof. intros. apply runs_unless_res; [by apply read_int_edits|]. intros. apply runs_ret, result_refl. Qed.

(** Callbacks that touch none of the fields the invariants speak of. *)
Ltac other := apply result_edit; [apply e_other; first [done | intros []; done]|done..].
Lemma read_inboundcase_edits r words : runs E r (read_inboundcase words) (res r).
Proof. unfold read_inboundcase. wp; try fails; other. Qed.
Lemma read_dontsendempty_edits r words : runs E r (read_dontsendempty words) (res r).
Proof. unfold read_dontsendempty. wp; try fails; other. Qed.
Lemma read_renamestyle_edits r words : runs E r (read_renamestyle words) (res r).
Proof. unfold read_renamestyle. wp; try fails; other. Qed.
Lemma read_rfrule_edits r words : runs E r (read_rfrule words) (res r).
Proof. unfold read_rfrule. wp; try fails; other. Qed.
Lemma read_flag_exec_info_edits r k words : runs E r (read_flag_exec_info k words) (res r).
Proof. unfold read_flag_exec_info. destruct words as [|w0 [|w1 t]]; wp; try fails; other. Qed.
Lemma fold_masks {A} (f : BINKD_CONFIG -> A) var words c : (forall w c, f (add_mask var w c) = f c) ->
  f (fold_left (fun c w => add_mask var w c) words c) = f c.
Proof. intros Hf. revert c. induction words as [|w t IH]; intros c; [done|]. simpl. by rewrite IH. Qed.
Lemma read_mask_edits r var words : runs E r (read_mask var words) (res r).
Proof.
  unfold read_mask. destruct words; wp; try fails.
  apply result_edit; [|done..]. apply e_other; intros; (apply (fold_masks (get_int _)) || apply (fold_masks (get_str _)) || apply fold_masks);
    destruct var; first [done | by intros ? ?; destruct v].
Qed.
Lemma read_check_pkthdr_edits r words : runs E r (read_check_pkthdr words) (res r).
Proof.
  assert (H1 : forall r t, result_of S r true (work (fun c => c <| pkthdr_type := t |>) r)) by (intros; other).
  unfold read_check_pkthdr. destruct words as [|w0 t]; wp; try fails. eapply result_trans; [apply H1|]. other.
Qed.

Lemma read_skip_word_edits r obsolete i w s : runs E r (read_skip_word obsolete i w s)
  (fun s' r' => result_of S r (bool_decide (is_Some s')) r').
Proof.
  unfold read_skip_word. wp; try fails; try apply result_refl. other.
Qed.
Lemma read_skip_loop_edits obsolete words : forall r i s, runs E r (read_skip_loop obsolete i words s) (res r).
Proof.
  induction words as [|w t IH]; intros r i s; cbn [read_skip_loop]; wp; try fails; [apply result_refl|].
  eapply runs_weaken; [apply read_skip_word_edits|]. intros [s'|] r1 H1; [|by apply runs_ret].
  eapply runs_weaken; [apply IH|]. intros ok r2 H2. by eapply result_trans.
Qed.
Lemma read_skip_edits r k words : runs E r (read_skip k words) (res r).
Proof. apply read_skip_loop_edits. Qed.

(** *** Addresses *)
Lemma Config_ParseAddress_runs r s :
  runs E r (Config_ParseAddress s) (fun a r1 => r1 = match a with Some _ => r | None => report r end).
Proof. unfold Config_ParseAddress. wp. destruct (parse_ftnaddress _ _) as [[] a]; by wp. Qed.
Lemma get_matched_domain_ok z own doms : own <> [] \/ doms <> [] -> exists d, get_matched_domain z own doms = Ok d.
Proof.
  intros H. unfold get_matched_domain. destruct (default_zone_domain z doms); [eauto|].
  destruct (aka_zone_domain z own); [eauto|]. destruct own, doms; eauto. by destruct H.
Qed.
Lemma expand_runs r a : runs E r (expand a) (fun _ r1 => r1 = r).
Proof.
  unfold expand. wp. destruct (pAddr (work_config r)) as [|m own] eqn:Eo; [done|]. cbn [exp_ftnaddress].
  match goal with |- context [match fa_domain ?a with [] => _ | _ => _ end] => destruct (fa_domain a) end; [|by wp].
  match goal with |- context [get_matched_domain ?z _ ?d] => destruct (get_matched_domain_ok z (m :: own) d) as [d' ->]; [by left|] end.
  cbn [mem_bind outcome]. by wp.
Qed.

(** Where a guessed domain comes from. *)
Lemma default_zone_in z doms d : default_zone_domain z doms = Some d -> exists x, x ∈ doms /\ d_name x = d.
Proof.
  induction doms as [|x l IH]; simpl; [done|]. destruct (d_alias4 x), (d_z x =? z);
    intros H; try (destruct (IH H) as (y & ? & ?); exists y; split; [by right|done]).
  injection H as <-. exists x. split; [by left|done].
Qed.
Lemma aka_zone_in z own d : aka_zone_domain z own = Some d -> exists x, x ∈ own /\ fa_domain x = d.
Proof.
  induction own as [|x l IH]; simpl; [done|]. case_if; intros H.
  - injection H as <-. exists x. split; [by left|done].
  - destruct (IH H) as (y & ? & ?). exists y. split; [by right|done].
Qed.
Lemma get_matched_domain_in z own doms d : get_matched_domain z own doms = Ok d ->
  (exists x, x ∈ doms /\ d_name x = d) \/ (exists x, x ∈ own /\ fa_domain x = d).
Proof.
  unfold get_matched_domain. destruct (default_zone_domain z doms) eqn:E1; [intros [= <-]; left; by eapply default_zone_in|].
  destruct (aka_zone_domain z own) eqn:E2; [intros [= <-]; right; by eapply aka_zone_in|].
  destruct own as [|a own]; [destruct doms as [|x doms]; [done|]|]; intros [= <-]; [left|right]; eexists; (split; [by left|done]).
Qed.

Lemma read_aka_edits r w : runs E r (read_aka w) (res r).
Proof.
  unfold read_aka. wp. eapply runs_weaken; [apply Config_ParseAddress_runs|]. intros [a|] r1 ->; [|wp; fails].
  wp; [fails|]. bools. destruct (fa_domain a) as [|d0 d] eqn:Ed.
  - destruct (pDomains (work_config r)) as [|x doms] eqn:Ex; [wp; fails|]. wp.
    destruct (get_matched_domain (fa_z a) (pAddr (work_config r)) (x :: doms)) as [d'| |] eqn:Hd;
      [|by destruct (get_matched_domain_ok (fa_z a) (pAddr (work_config r)) (x :: doms)) as [? ?]; [right|congruence]..].
    cbn [outcome]. wp; [apply result_refl|]. apply result_edit; [|done..].
    apply (e_aka r (a <| fa_domain := d' |>)); [done| |done]. unfold nameless, own. rewrite Ex.
    destruct d'; [|by right]. left. by eapply get_matched_domain_in.
  - destruct (pDomains (work_config r)); wp; first [apply result_refl | apply result_edit; [|done..]];
      (apply e_aka; [done|right; by rewrite Ed|done]).
Qed.
Lemma read_aka_list_edits r words : runs E r (read_aka_list words) (res r).
Proof.
  unfold read_aka_list. destruct words as [|w t]; [wp; fails|]. revert r. generalize (w :: t) as l.
  induction l as [|x l IH]; intros r; [apply runs_ret, result_refl|].
  apply runs_unless_res; [apply read_aka_edits|]. intros. apply IH.
Qed.

Lemma get_domain_info_in w doms d : get_domain_info w doms = Some d -> d ∈ doms.
Proof. induction doms as [|x l IH]; simpl; [done|]. case_if; [intros [= <-]; by left|]. right. auto. Qed.
Lemma read_domain_info_edits r words : runs E r (read_domain_info words) (res r).
Proof.
  unfold read_domain_info. destruct words as [|w0 [|w1 [|w2 rest]]]; try (wp; fails).
  assert (H : rest = [] \/ (exists x, rest = [x]) \/ exists x y l, rest = x :: y :: l)
    by (destruct rest as [|? [|]]; eauto 8).
  destruct H as [->|[[x ->]|(x & y & l & ->)]]; [| |wp; fails]; cbn match;
  wp; (destruct (get_domain_info w0 _); [wp; fails|]); wp; try fails.
  all: try (destruct (get_domain_info w2 _) as [d|] eqn:Ed; wp; try fails).
  all: try (destruct (split_base w1) as [path dir] eqn:Es; wp; try fails).
  all: unfold add_domain; wp; apply result_edit; [|done..]; apply e_domain; cbn [d_name d_alias4 d_z d_dir];
    first [ done | intros ? [= <-]; by eapply get_domain_info_in
          | pose proof (strnzcpy_length w0 (MAX_DOMAIN + 1)); unfold MAX_DOMAIN in *; lia | idtac ].
  all: intros _; unfold valid_zone in *; bools; split; [lia|done].
Qed.
Lemma read_akachain_edits r k words : runs E r (read_akachain k words) (res r).
Proof.
  unfold read_akachain. wp; try fails. eapply runs_weaken; [apply Config_ParseAddress_runs|]. intros [a|] r1 ->; [|wp; fails].
  wp. eapply runs_weaken; [apply expand_runs|]. intros a' r1 ->. wp; other.
Qed.

(** *** Nodes *)
Lemma node_option_edits r tmp o : runs E r (node_option tmp o)
  (fun o' r' => r' = r \/ o' = Some o /\ r' = report r).
Proof. unfold node_option. wp; auto. Qed.
Lemma result_either r ok r' : (r' = r \/ r' = report r) -> ok = true -> result_of S r ok r'.
Proof. intros [-> | ->] ->; [apply result_refl|apply result_report]. Qed.
(** A line that fills the array of words has no NULL after its last word. *)
Lemma node_words_edits n words : forall r j o, n = (j + length words)%nat -> ((n = MAX_WORDS_ON_LINE - 1)%nat -> E) ->
  runs E r (node_words j words o) (fun o' r' => result_of S r (bool_decide (is_Some o')) r').
Proof.
  induction words as [words IH] using (induction_ltof1 _ (@length _)); unfold ltof in IH. intros r j o Hn HE.
  destruct words as [|tmp t]; cbn [node_words]; [wp; apply result_refl|].
  assert (Hstep : forall o1 r1, result_of S r true r1 -> runs E r1 (node_words (Datatypes.S j) t o1)
    (fun o' r' => result_of S r (bool_decide (is_Some o')) r')).
  { intros o1 r1 H1. eapply runs_weaken; [apply IH; simpl in *; [lia|lia|done]|]. intros o2 r2 H2. by eapply result_trans. }
  destruct ((hd0 tmp =? chr "-") && negb (bool_decide (tmp = str "-"))) eqn:Eo.
  - wp.
    + destruct t as [|p t].
      * wp. simpl in Hn. destruct (Datatypes.S j =? MAX_WORDS_ON_LINE - 1)%nat eqn:Ej; [|apply result_report].
        apply HE. apply Nat.eqb_eq in Ej. lia.
      * apply IH; simpl in *; [lia|lia|done].
    + eapply runs_weaken; [apply node_option_edits|]. intros [o1|] r1 H1.
      * apply Hstep. apply result_either; [|done]. destruct H1 as [-> |[_ ->]]; auto.
      * destruct H1 as [-> |[? _]]; [|done]. wp. fails.
  - wp; [fails|]. apply Hstep, result_refl.
Qed.

Lemma read_node_info_edits r k words : ((length words = MAX_WORDS_ON_LINE - 1)%nat -> E) ->
  runs E r (read_node_info k words) (res r).
Proof.
  intros HE. unfold read_node_info. apply runs_bind.
  apply (runs_weaken _ _ (fun _ r1 => result_of S r true r1)); [wp; [other|apply result_refl]|]. intros _ r1 H1. wp.
  eapply runs_weaken; [apply (node_words_edits (length words)); [done|exact HE]|]. intros [o|] r2 H2; cbn beta in H2;
    [|apply runs_ret; by eapply result_trans].
  assert (H : result_of S r true r2) by (eapply result_trans; [exact H1|by rewrite bool_decide_eq_true_2 in H2]). clear H1 H2 r1.
  destruct (default None (nth_error (o_w o) 0)) as [w0|]; [|wp; eapply result_trans; [exact H|fails]]. wp.
  eapply runs_weaken; [apply Config_ParseAddress_runs|]. intros [a|] r1 ->; [|wp; eapply result_trans; [exact H|fails]]. wp.
  eapply runs_weaken; [apply expand_runs|]. intros a' r1 ->. wp; (eapply result_trans; [exact H|]); try fails.
  apply result_edit; [apply e_node|done| |done]. cbn. unfold listed_node, update_node, add_node_nolock.
  repeat match goal with |- context [find_node ?l ?a] => destruct (find_node l a) end; done.
Qed.

Lemma read_share_words_edits words : forall r l, runs E r (read_share_words words l)
  (fun l' r' => result_of S r (bool_decide (is_Some l')) r').
Proof.
  induction words as [|w t IH]; intros r l; cbn [read_share_words]; wp; [apply result_refl|].
  eapply runs_weaken; [apply Config_ParseAddress_runs|]. intros [a|] r1 ->; [|wp; fails]. wp.
  eapply runs_weaken; [apply expand_runs|]. intros a' r1 ->. apply IH.
Qed.
Lemma read_shares_edits r words : runs E r (read_shares words) (res r).
Proof.
  unfold read_shares. destruct words as [|w0 [|w1 t]]; try (wp; fails). wp.
  eapply runs_weaken; [apply Config_ParseAddress_runs|]. intros [a|] r1 ->; [|wp; fails]. wp.
  eapply runs_weaken; [apply expand_runs|]. intros a' r1 ->. apply runs_unless_res; [by apply read_node_info_edits|].
  intros r1 H1. wp. eapply runs_weaken; [apply read_share_words_edits|]. intros [l|] r2 H2; [|by apply runs_ret]. wp.
  eapply result_trans; [exact H2|]. other.
Qed.

(** *** Ports *)
Variable net : RESOLVER.
Lemma find_port_some s p : find_port net s = Some p -> p <> [].
Proof. unfold find_port. destruct s; case_if; intros [= <-]; done. Qed.
Lemma take_nonempty {A} n (l : list A) : (0 < n)%nat -> l <> [] -> take n l <> [].
Proof. destruct n, l; simpl; [lia..|done|done]. Qed.
Lemma read_port_edits r v words : v = V_iport \/ v = V_oport -> runs E r (read_port net v words) (res r).
Proof.
  intros Hv. unfold read_port. wp; try fails. destruct (find_port net _) as [p|] eqn:Ep; wp; [|fails].
  apply result_edit; [|done..]. apply e_port; [done| |].
  - apply take_nonempty; [unfold MAXSERVNAME; lia|]. by eapply find_port_some.
  - unfold strnzcpy, MAXSERVNAME. rewrite length_take. lia.
Qed.
Lemma listen_entry_sizes w : (length (l_addr (listen_entry w)) < LISTEN_ADDR_SZ)%nat /\
  (length (l_port (listen_entry w)) <= MAXSERVNAME)%nat.
Proof.
  assert (Ha : (length (strnzcpy w LISTEN_ADDR_SZ) < LISTEN_ADDR_SZ)%nat) by (apply strnzcpy_length; unfold LISTEN_ADDR_SZ; lia).
  assert (Hp : forall p, (length (strnzcpy p (MAXSERVNAME + 1)) <= MAXSERVNAME)%nat)
    by (intros p; pose proof (strnzcpy_length p (MAXSERVNAME + 1)); unfold MAXSERVNAME in *; lia).
  unfold listen_entry, cut_at. repeat (case_match; cbn [l_addr l_port fst]);
    (split; [rewrite ?length_take; lia|first [apply Hp|simpl; lia]]).
Qed.
Lemma read_listen_loop_edits words : forall r, runs E r (read_listen_loop net words) (res r).
Proof.
  induction words as [|w t IH]; intros r; cbn [read_listen_loop]; wp; [apply result_refl|].
  destruct (find_port net _) as [p|]; [|wp; fails]. wp.
  eapply runs_weaken; [apply IH|]. intros ok r1 H1. eapply result_trans; [|exact H1].
  destruct (listen_entry_sizes w) as [Ha Hp]. apply result_edit; [|done..]. apply e_listen; case_if; try done.
  simpl. unfold LISTEN_ADDR_SZ. lia.
Qed.
Lemma read_listen_edits r words : runs E r (read_listen net words) (res r).
Proof. unfold read_listen. destruct words; [wp; fails|apply read_listen_loop_edits]. Qed.

Variable facilitynames : list (cstr * Z).
Lemma read_syslog_facility_edits r words : (words = [] -> E) -> (length words = 1%nat -> S) ->
  runs E r (read_syslog_facility facilitynames words) (res r).
Proof.
  intros HE HS. unfold read_syslog_facility. wp.
  - apply result_silent, HS. by apply Nat.eqb_eq.
  - assert (Hf : forall b r1, result_of S (report r) b r1 -> result_of S r b r1)
      by (intros b r1 H; eapply result_trans; [apply result_report|exact H]).
    destruct words as [|w t].
    + destruct facilitynames; [wp; apply Hf; fails|]. wp. by apply HE.
    + destruct (List.find _ facilitynames); wp; apply Hf; [|fails]. apply result_edit; [apply e_facility|done..].
Qed.
End Callbacks.

Lemma port_keyword k v : k ∈ keywords -> callback k = C_read_port v -> v = V_iport \/ v = V_oport.
Proof.
  intros Hk Hc. assert (H : Forall (fun k => match callback k with C_read_port v => v = V_iport \/ v = V_oport | _ => True end) keywords)
    by (repeat (constructor; [simpl; auto|]); constructor).
  rewrite Forall_forall in H. specialize (H k Hk). by rewrite Hc in H.
Qed.

Section Files.
Context (net : RESOLVER) (getenv : cstr -> option cstr) (facilitynames : list (cstr * Z)).

(** A callback other than [include]. *)
Lemma call_edits (E S : Prop) include r k words : k ∈ keywords -> callback k <> C_include ->
  ((length words = MAX_WORDS_ON_LINE - 1)%nat -> E) ->
  (callback k = C_read_syslog_facility -> words = [] -> E) ->
  (callback k = C_read_syslog_facility -> length words = 1%nat -> S) ->
  runs E r (call net facilitynames include k words) (fun ok r' => result_of S r ok r').
Proof.
  intros Hk Hi HE HE2 HS. unfold call. destruct (callback k) eqn:Ec; try done.
  - apply passwords_edits; [done|]. unfold str_var. by rewrite Ec.
  - apply read_aka_list_edits.
  - apply read_domain_info_edits.
  - by apply read_node_info_edits.
  - apply read_int_edits; [done|]. unfold int_var. by rewrite Ec.
  - apply read_time_edits; [done|]. unfold int_var. by rewrite Ec.
  - apply read_string_edits; [done|]. unfold str_var. by rewrite Ec.
  - apply read_bool_edits.
  - apply passwords_edits; [done|]. unfold str_var. by rewrite Ec.
  - apply read_log_int_edits; [done|]. unfold int_var. by rewrite Ec.
  - apply read_flag_exec_info_edits.
  - apply read_rfrule_edits.
  - apply read_mask_edits.
  - apply read_akachain_edits.
  - apply read_inboundcase_edits.
  - apply read_dontsendempty_edits.
  - apply read_renamestyle_edits.
  - apply read_port_edits. by eapply port_keyword.
  - apply read_listen_edits.
  - apply read_skip_edits.
  - apply read_check_pkthdr_edits.
  - apply read_shares_edits.
  - by apply read_syslog_facility_edits; auto.
Qed.

(** ** Lines and files *)
Definition words_of_line (l : cstr) : mem (list cstr) := get_words getenv MAX_WORDS_ON_LINE 1 l.
Definition names_syslog (w : cstr) : Prop := exists k, find_keyword w = Some k /\ callback k = C_read_syslog_facility.
(** Lines that take the reader out of an array: an escape or a variable the
    splitter cannot handle, a full array of words, [syslog] alone. *)
Definition bad_line (l : cstr) : Prop :=
  match words_of_line l with
  | Ok ws => length ws = MAX_WORDS_ON_LINE \/ exists w, ws = [w] /\ names_syslog w
  | _ => True
  end.
(** Lines that are refused without a word: [syslog] with its argument. *)
Definition mute_line (l : cstr) : Prop := exists w a, words_of_line l = Ok [w; a] /\ names_syslog w.

Definition line_in (s : SYS) (l : cstr) : Prop := exists p f, fs s !! p = Some f /\ l ∈ lines_of (f_data f).
Definition bad_files (s : SYS) : Prop := exists l, line_in s l /\ bad_line l.
Definition mute_files (s : SYS) : Prop := exists l, line_in s l /\ mute_line l.
Definition place_ok (s : SYS) (e : cstr * Z) : Prop :=
  exists f, fs s !! e.1 = Some f /\ 1 <= e.2 <= Z.of_nat (length (lines_of (f_data f))).

(** The result of reading a file, or lines of it, in the system [s]. *)
Record read_of (s : SYS) (at_ : cstr * Z -> Prop) (r : READER) (ok : bool) (r' : READER) : Prop := {
  rd_edits : ok = true -> rtc edit r r';
  rd_sys : sys (nodes r') = s;
  rd_errors : exists new, errors r' = new ++ errors r /\ Forall at_ new /\ (ok = false -> new = [] -> mute_files s)
}.
Lemma read_trans s P r r1 r2 ok : read_of s P r true r1 -> read_of s P r1 ok r2 -> read_of s P r ok r2.
Proof.
  intros [A1 A2 (n & A3 & A4 & A5)] [B1 B2 (m & B3 & B4 & B5)]. constructor; [intros ->; etrans; eauto|done|].
  exists (m ++ n). rewrite B3, A3, app_assoc. split_and!; [done|by apply Forall_app|].
  intros -> H. apply app_eq_nil in H as [-> ->]. auto.
Qed.
Lemma read_refl s P r : sys (nodes r) = s -> read_of s P r true r.
Proof. intros. constructor; [done|done|by exists []]. Qed.
Lemma read_fail s (P : cstr * Z -> Prop) r : sys (nodes r) = s -> P (here r) -> read_of s P r false (report r).
Proof. intros. constructor; [done|done|]. exists [here r]. split_and!; [done|by constructor|done]. Qed.
Lemma result_read s S r ok r' (P : cstr * Z -> Prop) : result_of S r ok r' -> sys (nodes r) = s -> P (here r) ->
  (ok = false -> S -> mute_files s) -> read_of s P r ok r'.
Proof.
  intros [A1 A2 A3 (n & A4 & A5)] Hs HP HS. constructor; [done|congruence|]. exists (replicate n (here r)).
  split_and!; [done|by apply Forall_replicate|]. intros -> Hn. apply HS; [done|]. destruct n; [by apply A5|done].
Qed.

(** Splitting a line ends. *)
Lemma get_words_ends k : forall i l, (0 < i)%nat -> outcome (fun _ => True) True (get_words getenv k i l).
Proof.
  induction k as [|k IH]; intros i l Hi; [done|]. cbn [get_words]. eapply outcome_bind; [unfold getword, getwordx, getwordx2; by apply words_loop_ends|].
  intros [w|] _; [|done]. eapply outcome_bind; [apply IH; lia|]. done.
Qed.

Section InSystem.
Context (s : SYS).
Abbreviation E := (bad_files s).
Lemma words_runs r l (Q : list cstr -> READER -> Prop) : line_in s l ->
  (forall ws, words_of_line l = Ok ws -> Q ws r) -> runs E r (lift (words_of_line l)) Q.
Proof.
  intros Hl HQ. apply runs_lift. pose proof (get_words_ends MAX_WORDS_ON_LINE 1 l ltac:(lia)) as H.
  fold (words_of_line l) in H. destruct (words_of_line l) as [ws| |] eqn:Ew; [by apply HQ| |done].
  exists l. split; [done|]. unfold bad_line. by rewrite Ew.
Qed.

Lemma read_line_of include r l : sys (nodes r) = s -> line_in s l ->
  place_ok s (current_path r, Z.succ (current_line r)) ->
  (forall words r1, sys (nodes r1) = s -> here r1 = (current_path r, Z.succ (current_line r)) ->
     runs E r1 (include words) (fun ok r2 => read_of s (place_ok s) r1 ok r2 /\ here r2 = here r1)) ->
  runs E r (read_line net getenv facilitynames include l) (fun ok r' => read_of s (place_ok s) r ok r' /\
    here r' = (current_path r, Z.succ (current_line r))).
Proof.
  intros Hs Hl Hp Hinc. unfold read_line. apply runs_bind, runs_modify.
  set (r1 := r <| current_line ::= Z.succ |>).
  assert (H1 : read_of s (place_ok s) r true r1).
  { constructor; [intros _; apply rtc_once; exact (e_place r (current_path r) (Z.succ (current_line r)))|done|by exists []]. }
  assert (Hs1 : sys (nodes r1) = s) by done. assert (Hh1 : here r1 = (current_path r, Z.succ (current_line r))) by done.
  clearbody r1. apply runs_bind, words_runs; [done|]. intros ws Hws. apply runs_bind.
  apply (runs_weaken _ _ (fun _ r2 => result_of False r1 true r2)).
  { case_if; wp; [apply result_report|apply result_refl]. }
  intros _ r2 H2. assert (Hh2 : here r2 = here r1) by apply H2. assert (Hs2 : sys (nodes r2) = s) by (by rewrite <- Hs1; apply H2).
  assert (H12 : read_of s (place_ok s) r true r2).
  { eapply read_trans; [exact H1|]. eapply result_read; [exact H2|done|by rewrite Hh1|done]. }
  assert (Hh : here r2 = (current_path r, Z.succ (current_line r))) by congruence.
  clear H1 H2 Hh1 Hh2 Hs1 r1. rewrite <- Hh.
  assert (Hfin : forall ok r', read_of s (place_ok s) r2 ok r' /\ here r' = here r2 ->
    read_of s (place_ok s) r ok r' /\ here r' = here r2).
  { intros ok r' [? ?]. split; [by eapply read_trans|done]. }
  eapply runs_weaken; [|exact Hfin]. destruct ws as [|w args]; [apply runs_ret; split; [by apply read_refl|done]|].
  destruct (find_keyword w) as [k|] eqn:Ek.
  2:{ apply runs_error. split; [|done]. apply read_fail; [done|by rewrite Hh]. }
  destruct (decide (callback k = C_include)) as [Ei|Ei].
  { unfold call. rewrite Ei. by apply Hinc. }
  pose proof (find_some _ _ Ek) as [Hk _]. apply list_elem_of_In in Hk.
  eapply runs_weaken; [apply (call_edits _ (mute_files s)); [done|done|..]|].
  - intros Hn. exists l. split; [done|]. unfold bad_line. rewrite Hws. left. simpl. by rewrite Hn.
  - intros Hc ->. exists l. split; [done|]. unfold bad_line. rewrite Hws. right. exists w. split; [done|]. by exists k.
  - intros Hc Hn. exists l. split; [done|]. destruct args as [|a [|? ?]]; [done| |done]. exists w, a. split; [done|]. by exists k.
  - intros ok r' Hr. split; [|apply Hr]. eapply result_read; [exact Hr|done|by rewrite Hh|done].
Qed.

Lemma lines_in p f l : fs s !! p = Some f -> l ∈ lines_of (f_data f) -> line_in s l.
Proof. intros. by exists p, f. Qed.

(** The lines of a file from the [n]-th on. *)
Lemma read_lines_of include p f : fs s !! p = Some f ->
  (forall words r1, sys (nodes r1) = s -> place_ok s (here r1) ->
     runs E r1 (include words) (fun ok r2 => read_of s (place_ok s) r1 ok r2 /\ here r2 = here r1)) ->
  forall lines done_ r, lines_of (f_data f) = done_ ++ lines -> sys (nodes r) = s ->
  here r = (p, Z.of_nat (length done_)) ->
  runs E r (read_lines net getenv facilitynames include lines) (fun ok r' => read_of s (place_ok s) r ok r').
Proof.
  intros Hf Hinc lines. induction lines as [|l t IH]; intros done_ r Hd Hs Hh; cbn [read_lines].
  { apply runs_ret. by apply read_refl. }
  injection Hh as Hp Hl. apply runs_unless.
  assert (Hplace : place_ok s (current_path r, Z.succ (current_line r))).
  { exists f. simpl. rewrite Hp, Hl, Hd, length_app. simpl. split; [done|lia]. }
  eapply runs_weaken; [apply read_line_of; [done| |done|]|].
  - eapply lines_in; [exact Hf|]. rewrite Hd. apply elem_of_app. right. by left.
  - intros words r1 Hs1 Hh1. apply Hinc; [done|by rewrite Hh1].
  - intros [|] r1 [H1 Hh1]; [|done]. eapply runs_weaken; [apply (IH (done_ ++ [l]))|].
    + by rewrite <- app_assoc.
    + apply H1.
    + rewrite Hh1, Hp, Hl, length_app. simpl. f_equal. lia.
    + intros ok r2 H2. by eapply read_trans.
Qed.

Lemma keep_place_of r m (P : cstr * Z -> Prop) :
  runs E r m (fun ok r' => read_of s P r ok r') ->
  runs E r (keep_place m) (fun ok r' => read_of s P r ok r' /\ here r' = here r).
Proof.
  intros Hm. unfold keep_place. apply runs_bind, runs_gets. cbn [id]. apply runs_bind. eapply runs_weaken; [exact Hm|].
  intros ok r1 [H1 H2 H3]. wp. split; [|done]. constructor; [|done|done]. intros Hok. eapply rtc_r; [by apply H1|]. apply e_place.
Qed.

(** The reader at the first line of a file. *)
Definition opened (path : cstr) (t : Z) (r : READER) : READER :=
  work (fun c => c <| config_list ::= fun l => l ++ [mkconflist_type path t] |>)
    (r <| current_path := path |> <| current_line := 0 |>).

(** Reading a file with room for [room] more levels: every error is at a line
    of a file, or, when the file cannot be opened, where the reader was. *)
Lemma readcfg0_of room : forall path r, sys (nodes r) = s ->
  runs E r (readcfg0 net getenv facilitynames room path)
    (fun ok r' => read_of s (fun e => e = here r \/ place_ok s e) r ok r' /\
       (ok = true -> exists t, rtc edit (opened path t r) r')).
Proof.
  induction room as [|room IH]; intros path r Hs; cbn [readcfg0].
  all: match goal with |- context [read_lines _ _ _ ?i _] => set (inc := i) end.
  all: assert (Hinc : forall words r1, sys (nodes r1) = s -> place_ok s (here r1) ->
     runs E r1 (inc words) (fun ok r2 => read_of s (place_ok s) r1 ok r2 /\ here r2 = here r1)).
  1, 3: intros words r1 Hs1 Hp1; unfold inc; wp; try (split; [by apply read_fail|done]).
  { apply keep_place_of. eapply runs_weaken; [by apply IH|]. intros ok r2 [[H1 H2 (new & H3 & H4 & H5)] _].
    constructor; [done|done|]. exists new. split_and!; [done| |done]. eapply Forall_impl; [exact H4|]. by intros e [->|?]. }
  all: clearbody inc; wp; rewrite Hs; destruct (fs s !! path) as [f|] eqn:Ef; [|wp; split; [apply read_fail; auto|done]].
  all: apply runs_bind, runs_modify; unfold add_to_config_list; wp.
  all: eapply runs_weaken; [apply (read_lines_of inc path f Ef Hinc _ []); [done|done|done]|].
  all: intros ok r2 [H1 H2 (new & H3 & H4 & H5)]; split; [|intros Hok; exists (f_mtime f); exact (H1 Hok)]; constructor; [|done|].
  1, 3: intros Hok; eapply rtc_l; [apply (e_place r path 0)|]; eapply rtc_l; [apply (e_file _ path (f_mtime f))|]; by apply H1.
  all: exists new; split_and!; [done| |done]; eapply Forall_impl; [exact H4|]; auto.
Qed.
End InSystem.
End Files.

(** ** What every edit keeps *)
Lemma get_set_int v v' n c : get_int v (set_int v' n c) = if decide (v = v') then n else get_int v c.
Proof. by destruct v, v'. Qed.
Lemma get_set_str v v' t c : get_str v (set_str v' t c) = if decide (v = v') then t else get_str v c.
Proof. by destruct v, v'. Qed.
Lemma get_int_str v v' t c : get_int v (set_str v' t c) = get_int v c.
Proof. by destruct v, v'. Qed.
Lemma get_int_bool v v' c : get_int v (set_bool v' c) = get_int v c.
Proof. by destruct v, v'. Qed.
Lemma get_str_int v v' n c : get_str v (set_int v' n c) = get_str v c.
Proof. by destruct v, v'. Qed.
Lemma get_str_bool v v' c : get_str v (set_bool v' c) = get_str v c.
Proof. by destruct v, v'. Qed.
Definition lists (c : BINKD_CONFIG) := (pAddr c, pDomains c, config_list c, listen_ c).
Lemma lists_int v n c : lists (set_int v n c) = lists c. Proof. by destruct v. Qed.
Lemma lists_str v t c : lists (set_str v t c) = lists c. Proof. by destruct v. Qed.
Lemma lists_bool v c : lists (set_bool v c) = lists c. Proof. by destruct v. Qed.

(** The numbers of the table are in their bounds or as they were at first. *)
Definition ints_ok (c0 c : BINKD_CONFIG) : Prop := forall k v, k ∈ keywords -> int_var k = Some v ->
  bounds_ok k (get_int v c) = true \/ get_int v c = get_int v c0.
Definition strs_ok (s : SYS) (c0 c : BINKD_CONFIG) : Prop := forall k v, k ∈ keywords -> str_var k = Some v ->
  string_ok s k (get_str v c) \/ get_str v c = get_str v c0.
Definition port_ok (p : cstr) : Prop := p <> [] /\ (length p <= MAXSERVNAME)%nat.
Definition ports_ok (c : BINKD_CONFIG) : Prop := port_ok (iport c) /\ port_ok (oport c).
Definition own_ok (own : list FTN_ADDR) : Prop :=
  Forall (fun a => is4D a = true) own /\
  forall i j a b, (i < j)%nat -> own !! i = Some a -> own !! j = Some b -> ftnaddress_cmp b a <> 0.
Definition named (c : BINKD_CONFIG) : Prop :=
  (exists d, d ∈ pDomains c /\ d_name d = []) \/ Forall (fun a => fa_domain a <> []) (pAddr c).
Definition domain_ok (doms : list FTN_DOMAIN) (d : FTN_DOMAIN) : Prop :=
  (length (d_name d) <= MAX_DOMAIN)%nat /\
  (forall d', d_alias4 d = Some d' -> d' ∈ doms) /\
  (d_alias4 d = None -> 0 < d_z d /\ in_set (d_dir d) (chr ".") = false).
Definition listen_ok (e : listenchain) : Prop :=
  (length (l_addr e) < LISTEN_ADDR_SZ)%nat /\ (length (l_port e) <= MAXSERVNAME)%nat.

(** The table gives a variable the same bounds wherever it names it. *)
Definition once {V} `{EqDecision V} (var : KEYWORD -> option V) : bool :=
  forallb (fun k1 => forallb (fun k2 => match var k1, var k2 with
    | Some v1, Some v2 => negb (bool_decide (v1 = v2)) || ((option1 k1 =? option1 k2) && (option2 k1 =? option2 k2))
    | _, _ => true end) keywords) keywords.
Lemma once_same {V} `{EqDecision V} (var : KEYWORD -> option V) k1 k2 v : once var = true ->
  k1 ∈ keywords -> k2 ∈ keywords -> var k1 = Some v -> var k2 = Some v -> option1 k1 = option1 k2 /\ option2 k1 = option2 k2.
Proof.
  intros H H1 H2 E1 E2. unfold once in H. rewrite forallb_forall in H. apply list_elem_of_In in H1, H2.
  specialize (H k1 H1). rewrite forallb_forall in H. specialize (H k2 H2). rewrite E1, E2, bool_decide_eq_true_2 in H by done.
  simpl in H. by bools.
Qed.

Lemma ints_set c0 c k v n : k ∈ keywords -> int_var k = Some v -> bounds_ok k n = true ->
  ints_ok c0 c -> ints_ok c0 (set_int v n c).
Proof.
  intros Hk Hv Hn Hi k' v' Hk' Hv'. rewrite get_set_int. case_decide; [subst v'|by apply Hi]. left.
  destruct (once_same int_var k k' v ltac:(by vm_compute)) as [E1 E2]; [done..|]. unfold bounds_ok. by rewrite <- E1, <- E2.
Qed.
Lemma edit_ints c0 r r' : edit r r' -> ints_ok c0 (work_config r) -> ints_ok c0 (work_config r').
Proof.
  intros H Hi. destruct H; try exact Hi; [by apply (ints_set _ _ k)|..]; intros k' v' Hk' Hv'; unfold work;
    change (work_config (set_field _ ?f _)) with (f (work_config r)); cbv beta.
  - rewrite get_int_bool. by apply Hi.
  - rewrite get_int_str. by apply Hi.
  - rewrite get_int_str. by apply Hi.
  - match goal with Hf : forall v c, get_int v (_ c) = _ |- _ => rewrite Hf end. by apply Hi.
Qed.
Lemma edit_strs s c0 r r' : edit r r' -> sys (nodes r) = s -> strs_ok s c0 (work_config r) -> strs_ok s c0 (work_config r').
Proof.
  intros H Hs Hi. destruct H; try exact Hi; intros k' v' Hk' Hv'; unfold work;
    change (work_config (set_field _ ?f _)) with (f (work_config r)); cbv beta.
  - rewrite get_str_int. by apply Hi.
  - rewrite get_str_bool. by apply Hi.
  - rewrite get_set_str. case_decide; [subst v'|by apply Hi]. left.
    destruct (once_same str_var k k' v ltac:(by vm_compute)) as [E1 E2]; [done..|]. subst s.
    unfold string_ok, str_size in *. by rewrite <- E1, <- E2.
  - rewrite get_set_str. case_decide; [subst v'|by apply Hi]. exfalso.
    assert (Hn : forallb (fun k => match str_var k with Some (V_iport | V_oport) => false | _ => true end) keywords = true)
      by (by vm_compute).
    rewrite forallb_forall in Hn. apply list_elem_of_In in Hk'. specialize (Hn _ Hk'). rewrite Hv' in Hn.
    by match goal with Hp : _ \/ _ |- _ => destruct Hp; subst v end.
  - match goal with Hf : forall v c, get_str v (_ c) = _ |- _ => rewrite Hf end. by apply Hi.
Qed.

Lemma port_take p : p <> [] -> (length p <= MAXSERVNAME)%nat -> port_ok p.
Proof. by split. Qed.
Lemma edit_ports r r' : edit r r' -> ports_ok (work_config r) -> ports_ok (work_config r').
Proof.
  intros H Hi. assert (Hsame : forall f, (forall v c, get_str v (f c) = get_str v c) -> ports_ok (f (work_config r))).
  { intros f Hf. unfold ports_ok. change (iport ?c) with (get_str V_iport c). change (oport ?c) with (get_str V_oport c). by rewrite !Hf. }
  destruct H; try exact Hi.
  - apply Hsame. intros. apply get_str_int.
  - apply Hsame. intros. apply get_str_bool.
  - assert (Hn : forallb (fun k => match str_var k with Some (V_iport | V_oport) => false | _ => true end) keywords = true)
      by (by vm_compute).
    rewrite forallb_forall in Hn. match goal with Hk : k ∈ _ |- _ => apply list_elem_of_In in Hk; specialize (Hn _ Hk) end.
    match goal with Hv : str_var k = _ |- _ => rewrite Hv in Hn end. destruct Hi as [Hi1 Hi2]. by destruct v.
  - destruct Hi as [Hi1 Hi2]. match goal with Hp : _ \/ _ |- _ => destruct Hp; subst v end; split; first [done | exact Hi1 | exact Hi2 | by split].
  - by apply Hsame.
Qed.

(** The lists of the configuration change by their own edits alone. *)
Lemma edit_lists r r' : edit r r' ->
  lists (work_config r') = lists (work_config r) \/
  (exists x, config_list (work_config r') = config_list (work_config r) ++ [x] /\
     (pAddr (work_config r'), pDomains (work_config r'), listen_ (work_config r')) =
     (pAddr (work_config r), pDomains (work_config r), listen_ (work_config r))) \/
  (exists e, listen_ok e /\ listen_ (work_config r') = listen_ (work_config r) ++ [e] /\
     (pAddr (work_config r'), pDomains (work_config r'), config_list (work_config r')) =
     (pAddr (work_config r), pDomains (work_config r), config_list (work_config r))) \/
  (exists a, is4D a = true /\ (nameless r \/ fa_domain a <> []) /\ existsb (fun n => ftnaddress_cmp a n =? 0) (own r) = false /\
     pAddr (work_config r') = pAddr (work_config r) ++ [a] /\
     (pDomains (work_config r'), config_list (work_config r'), listen_ (work_config r')) =
     (pDomains (work_config r), config_list (work_config r), listen_ (work_config r))) \/
  (exists d, domain_ok (pDomains (work_config r)) d /\ pDomains (work_config r') = pDomains (work_config r) ++ [d] /\
     (pAddr (work_config r'), config_list (work_config r'), listen_ (work_config r')) =
     (pAddr (work_config r), config_list (work_config r), listen_ (work_config r))).
Proof.
  intros H. destruct H; try (by left).
  - right; left. by eexists.
  - left. apply lists_int.
  - left. apply lists_bool.
  - left. apply lists_str.
  - left. apply lists_str.
  - left. unfold lists, work. simpl. by f_equal; [f_equal; [f_equal|]|].
  - right; right; left. by exists e.
  - do 3 right; left. by exists a.
  - do 4 right. by exists d.
Qed.

Ltac same f :=
  match goal with r : READER, r' : READER |- _ =>
    replace (f (work_config r')) with (f (work_config r)) by (unfold lists in *; congruence) end.
Lemma edit_own r r' : edit r r' -> own_ok (pAddr (work_config r)) -> own_ok (pAddr (work_config r')).
Proof.
  intros H [H1 H2]. destruct (edit_lists r r' H) as [E|[(x & _ & E)|[(e & _ & _ & E)|[(a & Ha & _ & Hd & Ep & _)|(d & _ & _ & E)]]]];
    try (same pAddr; by split).
  rewrite Ep. split; [by apply Forall_app; split; [|constructor]|]. intros i j x y Hij Hx Hy.
  destruct (decide (j < length (pAddr (work_config r)))%nat) as [Hj|Hj].
  - rewrite lookup_app_l in Hx, Hy by lia. exact (H2 i j x y Hij Hx Hy).
  - assert (j = length (pAddr (work_config r))).
    { apply lookup_lt_Some in Hy. rewrite length_app in Hy. simpl in Hy. lia. }
    subst j. rewrite lookup_app_l in Hx by lia. rewrite lookup_app_r, Nat.sub_diag in Hy by lia. injection Hy as <-.
    intros Hc. apply list_elem_of_lookup_2 in Hx. apply list_elem_of_In in Hx.
    assert (Ht : existsb (fun n => ftnaddress_cmp a n =? 0) (own r) = true)
      by (apply existsb_exists; exists x; split; [done|by apply Z.eqb_eq]).
    congruence.
Qed.
Lemma edit_named r r' : edit r r' -> named (work_config r) -> named (work_config r').
Proof.
  intros H Hn. destruct (edit_lists r r' H) as [E|[(x & _ & E)|[(e & _ & _ & E)|[(a & Ha & Hd & _ & Ep & E)|(d & _ & Ep & E)]]]].
  1-3: unfold named; same pAddr; same pDomains; done.
  - injection E as Ed _ _. unfold named. rewrite Ep, Ed. destruct Hn as [Hn|Hn]; [by left|].
    destruct Hd as [[(d & ?)|(b & Hb & Hb')]|Hd]; [left; by exists d| |right; apply Forall_app; split; [done|by constructor]].
    rewrite Forall_forall in Hn. by destruct (Hn b Hb).
  - injection E as Ea _ _. unfold named. rewrite Ep, Ea. destruct Hn as [(x & ? & ?)|Hn]; [|by right]. left. exists x.
    split; [|done]. apply elem_of_app. auto.
Qed.
Lemma edit_domains r r' : edit r r' -> Forall (domain_ok (pDomains (work_config r))) (pDomains (work_config r)) ->
  Forall (domain_ok (pDomains (work_config r'))) (pDomains (work_config r')).
Proof.
  intros H Hd. destruct (edit_lists r r' H) as [E|[(x & _ & E)|[(e & _ & _ & E)|[(a & _ & _ & _ & _ & E)|(d & Hd' & Ep & _)]]]];
    try (same pDomains; done).
  rewrite Ep. assert (Hw : forall x, domain_ok (pDomains (work_config r)) x -> domain_ok (pDomains (work_config r) ++ [d]) x).
  { intros x (A & B & C). split_and!; [done| |done]. intros d' Hx. apply elem_of_app. auto. }
  apply Forall_app. split; [eapply Forall_impl; [exact Hd|done]|]. constructor; [by apply Hw|constructor].
Qed.
Lemma edit_listen r r' : edit r r' -> Forall listen_ok (listen_ (work_config r)) -> Forall listen_ok (listen_ (work_config r')).
Proof.
  intros H Hl. destruct (edit_lists r r' H) as [E|[(x & _ & E)|[(e & He & Ep & _)|[(a & _ & _ & _ & _ & E)|(d & _ & _ & E)]]]];
    try (same listen_; done).
  rewrite Ep. apply Forall_app. split; [done|by constructor].
Qed.
Lemma edit_files r r' : edit r r' -> config_list (work_config r) `prefix_of` config_list (work_config r').
Proof.
  intros H. destruct (edit_lists r r' H) as [E|[(x & E & _)|[(e & _ & _ & E)|[(a & _ & _ & _ & _ & E)|(d & _ & _ & E)]]]];
    try (same config_list; done). by eexists.
Qed.
Lemma usage_int v n c : usageCount (set_int v n c) = usageCount c. Proof. by destruct v. Qed.
Lemma usage_str v t c : usageCount (set_str v t c) = usageCount c. Proof. by destruct v. Qed.
Lemma usage_bool v c : usageCount (set_bool v c) = usageCount c. Proof. by destruct v. Qed.
Lemma edit_usage r r' : edit r r' -> usageCount (work_config r') = usageCount (work_config r).
Proof.
  intros H. destruct H; try done; [apply usage_int|apply usage_bool|apply usage_str|apply usage_str|].
  match goal with Hf : forall c, usageCount _ = _ |- _ => apply Hf end.
Qed.
Lemma edit_sys r r' : edit r r' -> sys (nodes r') = sys (nodes r).
Proof.
  intros H. destruct H; try done. cbn. unfold listed_node, update_node, add_node_nolock.
  repeat match goal with |- context [find_node ?l ?a] => destruct (find_node l a) end; done.
Qed.

Lemma edits_keep (I : READER -> Prop) r r' : (forall a b, edit a b -> I a -> I b) -> rtc edit r r' -> I r -> I r'.
Proof. intros Hstep. induction 1; eauto. Qed.

(** ** The rest of [readcfg] *)
Section Load.
Context (net : RESOLVER) (getenv : cstr -> option cstr) (facilitynames : list (cstr * Z)).
Context (st_dev : cstr -> Z) (junk_dev : Z) (no_MD5_ no_crypt_ quiet_flag : bool) (verbose_flag : Z).

(** The password file adds nothing to the configuration but its name. *)
Lemma read_password_lines_runs E lines : forall r,
  runs E r (read_password_lines lines) (fun ok r' => ok = true /\ work_config r' = work_config r /\ errors r' = errors r).
Proof.
  induction lines as [|l t IH]; intros r; cbn [read_password_lines]; wp; [done|].
  apply (runs_weaken _ _ (fun _ r' => work_config r' = work_config r /\ errors r' = errors r)).
  - unfold read_password_line. destruct (password_line l) as [[n p]|]; [|by wp]. wp.
    destruct (parse_ftnaddress _ _) as [[] a]; cbn [negb]; wp; [|done]. eapply runs_weaken; [apply expand_runs|]. intros a' r1 ->. by wp.
  - intros _ r1 [H1 H2]. eapply runs_weaken; [apply IH|]. intros ok r2 (-> & -> & ->). done.
Qed.
Lemma read_passwords_runs E r p : runs E r (read_passwords p) (fun ok r' =>
  if ok then errors r' = errors r /\ exists t, work_config r' = (work_config r) <| config_list ::= fun l => l ++ [mkconflist_type p t] |>
  else r' = report r).
Proof.
  unfold read_passwords. wp. destruct (fs _ !! p) as [f|]; wp; [|done]. unfold add_to_config_list. wp.
  eapply runs_weaken; [apply read_password_lines_runs|]. intros ok r1 (-> & -> & He). split; [done|]. by exists (f_mtime f).
Qed.

Lemma foreach_loop_total {A} config (func : FTN_NODE -> A -> WORLD -> mem (bool * A * WORLD)) l arg w :
  (forall n a w, exists x, func n a w = Ok x) -> exists x, foreach_loop config func l arg w = Ok x.
Proof.
  intros Hf. revert arg w. induction l as [|n l IH]; intros arg w; cbn [foreach_loop]; [eauto|].
  match goal with |- context [let '(_, _) := ?x in _] => destruct x as [n' w'] end.
  destruct (Hf n' arg w') as [[[stop a] w2] ->]. cbn [mem_bind]. destruct stop; eauto.
Qed.
Lemma check_config_runs E r : runs E r (check_config st_dev junk_dev) (fun ok r' =>
  work_config r' = work_config r /\ if ok then errors r' = errors r else errors r' = here r :: errors r).
Proof.
  unfold check_config. wp; [done|]. cbn [id].
  match goal with |- context [foreach_node ?c ?f ?a ?w] => destruct (foreach_loop_total c f (pNodArray (if nNodSorted w then w else sort_nodes w)) a
    (if nNodSorted w then w else sort_nodes w)) as [x Hx]; [by intros; eexists|] end.
  unfold foreach_node. rewrite Hx. cbn [outcome]. by wp.
Qed.

Definition initial : BINKD_CONFIG := lock_config_structure net (zero_config no_MD5_ no_crypt_).
Definition finished (c : BINKD_CONFIG) : BINKD_CONFIG :=
  finish_inbound (finish_listen (apply_flags quiet_flag verbose_flag c)).

(** The configuration the files define, and what [readcfg] makes of it. *)
Record loaded (s : SYS) (path : cstr) (c1 c : BINKD_CONFIG) : Prop := {
  ld_names : Forall (fun t => t <> []) [c_sysname c1; c_sysop c1; c_location c1; c_nodeinfo c1];
  ld_own : pAddr c1 <> [];
  ld_domains : pDomains c1 <> [];
  ld_finish : c = finished c1 \/ exists p t, c = (finished c1) <| config_list ::= fun l => l ++ [mkconflist_type p t] |>
}.

Lemma load_config_runs s path r : sys (nodes r) = s ->
  runs (bad_files getenv s) r (load_config net getenv facilitynames st_dev junk_dev quiet_flag verbose_flag path)
    (fun ok r' => (exists new, errors r' = new ++ errors r /\ (ok = false -> new = [] -> mute_files getenv s)) /\
       (ok = true -> exists t r1, rtc edit (opened path t r) r1 /\ loaded s path (work_config r1) (work_config r'))).
Proof.
  intros Hs. unfold load_config. apply runs_unless. eapply runs_weaken; [by apply (readcfg0_of net getenv facilitynames s)|].
  intros ok r1 [[_ _ (new & He & _ & Hm)] Hed]. destruct ok; [|split; [by exists new|done]].
  destruct (Hed eq_refl) as [t Ht]. clear Hed Hm.
  assert (Hfail : forall r2, errors r2 = errors r1 -> (exists new, errors (report r2) = new ++ errors r /\ (false = false -> new = [] -> mute_files getenv s)) /\
    (false = true -> exists t r1, rtc edit (opened path t r) r1 /\ loaded s path (work_config r1) (work_config (report r2)))).
  { intros r2 E. split; [|done]. exists (here r2 :: new). split; [simpl; by rewrite E, He|done]. }
  wp. unfold isDefined. destruct (c_sysname (work_config r1)) eqn:E1; wp; [by apply Hfail|].
  destruct (c_sysop (work_config r1)) eqn:E2; wp; [by apply Hfail|].
  destruct (c_location (work_config r1)) eqn:E3; wp; [by apply Hfail|].
  destruct (c_nodeinfo (work_config r1)) eqn:E4; wp; [by apply Hfail|].
  destruct (pAddr (work_config r1)) eqn:E5; [wp; by apply Hfail|].
  destruct (pDomains (work_config r1)) eqn:E6; [wp; by apply Hfail|].
  apply runs_bind, runs_modify, runs_bind, runs_gets, runs_unless.
  set (r2 := r1 <| work_config ::= _ |>). assert (H2 : work_config r2 = finished (work_config r1)) by done.
  assert (H2e : errors r2 = errors r1) by done. clearbody r2.
  assert (Hld : forall c, c = finished (work_config r1) \/ (exists p t, c = (finished (work_config r1)) <| config_list ::= fun l => l ++ [mkconflist_type p t] |>) ->
    loaded s path (work_config r1) c).
  { intros c Hc. constructor; [|by rewrite E5|by rewrite E6|done]. rewrite E1, E2, E3, E4. by repeat constructor. }
  apply (runs_weaken _ _ (fun (ok : bool) r' => (ok = true -> loaded s path (work_config r1) (work_config r')) /\
    exists new, errors r' = new ++ errors r1 /\ (ok = false -> new <> []))).
  { destruct (c_passwords (work_config r2)) as [|c0 p] eqn:Ep.
    - apply runs_ret. split; [intros _; apply Hld; by left|]. by exists [].
    - eapply runs_weaken; [apply read_passwords_runs|]. intros [] r3.
      + intros [He3 [t3 Hc]]. split; [intros _; apply Hld; right; exists (c0 :: p), t3; by rewrite Hc, H2|].
        exists []. split; [by rewrite He3|done].
      + intros ->. split; [done|]. exists [here r2]. split; [simpl; by rewrite H2e|done]. }
  intros ok r3 [Hl (new3 & He3 & Hn3)]. destruct ok; [|split; [|done]].
  - eapply runs_weaken; [apply check_config_runs|]. intros ok r4 [Hc4 He4]. destruct ok; (split; [|]).
    + exists (new3 ++ new). by rewrite He4, He3, He, app_assoc.
    + intros _. exists t, r1. split; [done|]. rewrite Hc4. by apply Hl.
    + exists ((here r3 :: new3) ++ new). rewrite He4, He3, He. split; [simpl; by rewrite app_assoc|done].
    + done.
  - exists (new3 ++ new). rewrite He3, He. split; [by rewrite app_assoc|]. intros _ Hnil.
    apply app_eq_nil in Hnil as [? _]. by destruct Hn3.
Qed.

(** What the rest of the program may rely on. *)
Record accepted (s : SYS) (path : cstr) (c : BINKD_CONFIG) : Prop := {
  ac_blksize : MIN_BLKSIZE <= oblksize c <= MAX_BLKSIZE;
  ac_tries : 0 <= tries c <= 0xffff;
  ac_limits : 0 <= max_servers c /\ 0 <= max_clients c;
  ac_delays : 1 <= call_delay c /\ 1 <= rescan_delay c /\ 1 <= nettimeout c /\ 0 <= hold c /\ 0 <= hold_skipped c;
  ac_tzoff : -12 * 60 * 60 <= tzoff c <= 12 * 60 * 60;
  ac_names : Forall (fun t => t <> [] /\ (length t < 120)%nat) [c_sysname c; c_sysop c; c_location c; c_nodeinfo c];
  ac_inbound : c_inbound c = str "." \/ is_dir s (c_inbound c) = true;
  ac_nonsecure : inbound_nonsecure c = c_inbound c \/ is_dir s (inbound_nonsecure c) = true;
  ac_temp : temp_inbound c = [] \/ is_dir s (temp_inbound c) = true;
  ac_own : pAddr c <> [] /\ own_ok (pAddr c) /\ named c;
  ac_domains : pDomains c <> [] /\ Forall (domain_ok (pDomains c)) (pDomains c);
  ac_ports : port_ok (iport c) /\ port_ok (oport c);
  ac_listen : listen_ c <> [] /\ Forall (fun e => listen_ok e /\ l_port e <> []) (listen_ c);
  ac_files : exists t l, config_list c = mkconflist_type path t :: l;
  ac_usage : usageCount c = 1
}.

Lemma entry name k : find_keyword name = Some k -> k ∈ keywords.
Proof. intros H. apply find_some in H as [H _]. by apply list_elem_of_In. Qed.
Lemma int_bounds c0 c k v lo hi : ints_ok c0 c -> k ∈ keywords -> int_var k = Some v ->
  (bounds_ok k (get_int v c) = true -> lo <= get_int v c <= hi) -> lo <= get_int v c0 <= hi -> lo <= get_int v c <= hi.
Proof. intros Hi Hk Hv Hb H0. destruct (Hi k v Hk Hv) as [H|H]; [auto|by rewrite H]. Qed.

Lemma initial_fields : iport initial = default_port net /\ oport initial = default_port net /\
  lists initial = ([], [], [], []).
Proof. unfold initial, lock_config_structure. generalize (default_port net) as p. intros p. by vm_compute. Qed.

Lemma default_port_ok : port_ok (default_port net).
Proof.
  unfold default_port. destruct (find_port net []) as [p|] eqn:E.
  - split; [apply take_nonempty; [unfold MAXSERVNAME; lia|by eapply find_port_some]|].
    simpl. unfold strnzcpy, MAXSERVNAME. rewrite length_take. lia.
  - unfold find_port in E. by destruct (known_service _ _).
Qed.
Lemma usage_files f c : usageCount (c <| config_list ::= f |>) = usageCount c. Proof. done. Qed.
Lemma initial_usage : usageCount initial = 1.
Proof. unfold initial, lock_config_structure. generalize (default_port net) as p. intros p. by vm_compute. Qed.
Lemma initial_ok s path t : let c := initial <| config_list ::= fun l => l ++ [mkconflist_type path t] |> in
  config_list c = [mkconflist_type path t] /\
  ints_ok initial c /\ strs_ok s initial c /\ ports_ok c /\ own_ok (pAddr c) /\ named c /\
  Forall (domain_ok (pDomains c)) (pDomains c) /\ Forall listen_ok (listen_ c).
Proof.
  destruct initial_fields as (Hi & Ho & Hl). revert Hi Ho Hl. generalize initial as c0. intros c0 Hi Ho [= Ha Hd Hc Hl] c.
  split; [change (config_list c) with (config_list c0 ++ [mkconflist_type path t]); by rewrite Hc|].
  assert (H : pAddr c = [] /\ pDomains c = [] /\ listen_ c = [] /\ iport c = default_port net /\ oport c = default_port net)
    by (split_and!; [exact Ha|exact Hd|exact Hl|exact Hi|exact Ho]).
  destruct H as (Ea & Ed & El & Ei & Eo). unfold named, ports_ok. rewrite Ea, Ed, El, Ei, Eo.
  split_and!; [intros k v _ _; right; by destruct v|intros k v _ _; right; by destruct v|apply default_port_ok..
    |split; [constructor|done]|right; constructor|constructor|constructor].
Qed.

Lemma find_port_filled p : port_ok p -> fill_port p (mklistenchain [] []) = mklistenchain [] p.
Proof.
  intros [_ Hl]. unfold fill_port. cbn [l_port]. unfold strnzcpy.
  by rewrite take_ge by (unfold MAXSERVNAME in *; lia).
Qed.
Lemma fill_port_ok p e : port_ok p -> listen_ok e -> listen_ok (fill_port p e) /\ l_port (fill_port p e) <> [].
Proof.
  intros [Hp Hl] [H1 H2]. unfold fill_port. destruct (l_port e) as [|c t] eqn:E.
  - cbn. unfold strnzcpy. rewrite take_ge by (unfold MAXSERVNAME in *; lia). split; [by split|done].
  - split; [split; [done|by rewrite E]|by rewrite E].
Qed.

(** Fields the command line and the last steps leave alone. *)
Lemma finished_fields {A} (f : BINKD_CONFIG -> A) c :
  (forall b c, f (c <| percents := b |>) = f c) -> (forall b c, f (c <| printq := b |>) = f c) ->
  (forall n c, f (c <| conlog := n |>) = f c) -> (forall n c, f (c <| loglevel := n |>) = f c) ->
  (forall l c, f (c <| listen_ := l |>) = f c) -> (forall t c, f (c <| inbound_nonsecure := t |>) = f c) ->
  f (finished c) = f c.
Proof.
  intros H1 H2 H3 H4 H5 H6. unfold finished, finish_inbound, finish_listen, apply_flags.
  repeat case_match; repeat first [rewrite H6|rewrite H5|rewrite H4|rewrite H3|rewrite H2|rewrite H1]; done.
Qed.

Lemma opened_ok s path t r r1 : sys (nodes r) = s -> work_config r = initial -> rtc edit (opened path t r) r1 ->
  let c := work_config r1 in
  ints_ok initial c /\ strs_ok s initial c /\ ports_ok c /\ own_ok (pAddr c) /\ named c /\
  Forall (domain_ok (pDomains c)) (pDomains c) /\ Forall listen_ok (listen_ c) /\
  usageCount c = 1 /\ exists l, config_list c = mkconflist_type path t :: l.
Proof.
  intros Hs Hw Hr. assert (Ho : work_config (opened path t r) = (work_config r) <| config_list ::= fun l => l ++ [mkconflist_type path t] |>)
    by reflexivity.
  rewrite Hw in Ho. assert (Iu : usageCount (work_config (opened path t r)) = 1) by (rewrite Ho, usage_files; exact initial_usage).
  destruct (initial_ok s path t) as (Hf & I1 & I2 & I3 & I4 & I5 & I6 & I7). rewrite <- Ho in *.
  clear Ho Hw. assert (Hso : sys (nodes (opened path t r)) = s) by done. split_and!.
  - apply (edits_keep (fun r => ints_ok initial (work_config r)) (opened path t r)); [|exact Hr|exact I1]. intros. by eapply edit_ints.
  - apply (edits_keep (fun r => sys (nodes r) = s /\ strs_ok s initial (work_config r)) (opened path t r) r1); [|exact Hr|done].
    intros a b Hab [Ha Hb]. split; [by rewrite (edit_sys _ _ Hab)|by eapply edit_strs].
  - apply (edits_keep (fun r => ports_ok (work_config r)) (opened path t r)); [|exact Hr|exact I3]. intros. by eapply edit_ports.
  - eapply (edits_keep (fun r => own_ok (pAddr (work_config r)))); [|exact Hr|exact I4]. intros. by eapply edit_own.
  - apply (edits_keep (fun r => named (work_config r)) (opened path t r)); [|exact Hr|exact I5]. intros. by eapply edit_named.
  - eapply (edits_keep (fun r => Forall (domain_ok (pDomains (work_config r))) (pDomains (work_config r))));
      [|exact Hr|exact I6]. intros. by eapply edit_domains.
  - eapply (edits_keep (fun r => Forall listen_ok (listen_ (work_config r)))); [|exact Hr|exact I7]. intros. by eapply edit_listen.
  - apply (edits_keep (fun r => usageCount (work_config r) = 1) (opened path t r)); [|exact Hr|exact Iu].
    intros a b Hab Ha. by rewrite (edit_usage _ _ Hab).
  - apply (edits_keep (fun r => [mkconflist_type path t] `prefix_of` config_list (work_config r)) _ _) in Hr as [l Hl].
    + by exists l.
    + intros a b Hab Hp. etrans; [exact Hp|by apply edit_files].
    + by rewrite Hf.
Qed.

(** [initial] by its fields. *)
Lemma initial_numbers : forall v, get_int v initial = get_int v
  (lock_config_structure (mkRESOLVER (fun _ => None) (fun _ => None) (fun _ => true)) (zero_config false false)).
Proof. intros v. unfold initial, lock_config_structure. generalize (default_port net) as p. intros p. destruct v; by vm_compute. Qed.

(** Fields of the configuration returned that are as the files left them. *)
Definition untouched {A} (f : BINKD_CONFIG -> A) : Prop :=
  (forall b c, f (c <| percents := b |>) = f c) /\ (forall b c, f (c <| printq := b |>) = f c) /\
  (forall n c, f (c <| conlog := n |>) = f c) /\ (forall n c, f (c <| loglevel := n |>) = f c) /\
  (forall l c, f (c <| listen_ := l |>) = f c) /\ (forall t c, f (c <| inbound_nonsecure := t |>) = f c) /\
  (forall g c, f (c <| config_list ::= g |>) = f c).
Lemma loaded_field {A} (f : BINKD_CONFIG -> A) s path c1 c : loaded s path c1 c -> untouched f -> f c = f c1.
Proof.
  intros [_ _ _ Hf] (H1 & H2 & H3 & H4 & H5 & H6 & H7).
  destruct Hf as [->|(p & t & ->)]; [|rewrite H7]; by apply finished_fields.
Qed.
Lemma loaded_list {A} (f : BINKD_CONFIG -> A) s path c1 c : loaded s path c1 c ->
  (forall g c, f (c <| config_list ::= g |>) = f c) -> f c = f (finished c1).
Proof. intros [_ _ _ Hf] H. destruct Hf as [->|(p & t & ->)]; [done|by rewrite H]. Qed.

Lemma string_entry s c k v name : strs_ok s initial c -> find_keyword name = Some k -> str_var k = Some v ->
  string_ok s k (get_str v c) \/ get_str v c = get_str v initial.
Proof. intros Hs Hk Hv. apply Hs; [by eapply entry|done]. Qed.
Lemma initial_strings v : get_str v initial = match v with
  | V_inbound => str "." | V_root_domain => ROOT_DOMAIN | V_iport | V_oport => default_port net | _ => [] end.
Proof. unfold initial, lock_config_structure. generalize (default_port net) as p. intros p. destruct v; by vm_compute. Qed.

(** A number that some entry of the table bounds, and that starts in bounds. *)
Lemma number_entry s path c1 c name k v lo hi : ints_ok initial c1 -> loaded s path c1 c ->
  find_keyword name = Some k -> int_var k = Some v -> untouched (get_int v) ->
  (forall n, bounds_ok k n = true -> lo <= n <= hi) -> lo <= get_int v initial <= hi -> lo <= get_int v c <= hi.
Proof.
  intros Hi Hl Hk Hv Hu Hb H0. rewrite (loaded_field (get_int v) _ _ _ _ Hl Hu).
  apply (int_bounds initial c1 k); [done|by eapply entry|done|apply Hb|done].
Qed.
Lemma number_above s path c1 c name k v lo : ints_ok initial c1 -> loaded s path c1 c ->
  find_keyword name = Some k -> int_var k = Some v -> untouched (get_int v) ->
  (forall n, bounds_ok k n = true -> lo <= n) -> lo <= get_int v initial -> lo <= get_int v c.
Proof.
  intros Hi Hl Hk Hv Hu Hb H0. rewrite (loaded_field (get_int v) _ _ _ _ Hl Hu).
  destruct (Hi k v (entry _ _ Hk) Hv) as [H|H]; [auto|by rewrite H].
Qed.
Ltac bound := let n := fresh in let H := fresh in intros n H; unfold bounds_ok in H; simpl in H; bools;
  repeat match goal with H : _ \/ _ |- _ => destruct H; bools end; unfold DONT_CHECK, MIN_BLKSIZE, MAX_BLKSIZE in *; lia.
Ltac number n := first [eapply (number_above _ _ _ _ (str n)) | eapply (number_entry _ _ _ _ (str n))];
  [eassumption|eassumption|vm_compute; reflexivity|reflexivity|by unfold untouched|bound|rewrite initial_numbers; by vm_compute].
Ltac entry_of H n v := destruct (string_entry _ _ _ v (str n) H eq_refl eq_refl) as [[? [? ?]]|?]; [|rewrite initial_strings in *].

Lemma finished_nonsecure c : inbound_nonsecure (finished c) = match inbound_nonsecure c with [] => c_inbound c | t => t end.
Proof. unfold finished, finish_inbound, finish_listen, apply_flags. by repeat (case_match; simpl in * ). Qed.
Lemma finished_listen c : listen_ (finished c) = map (fill_port (iport c)) (match listen_ c with [] => [mklistenchain [] []] | l => l end).
Proof. unfold finished, finish_inbound, finish_listen, apply_flags. by repeat (case_match; simpl in * ). Qed.

Lemma loaded_accepted s path t r r1 c : sys (nodes r) = s -> work_config r = initial -> rtc edit (opened path t r) r1 ->
  loaded s path (work_config r1) c -> accepted s path c.
Proof.
  intros Hs Hw Hr Hl. destruct (opened_ok s path t r r1 Hs Hw Hr) as (I1 & I2 & I3 & I4 & I5 & I6 & I7 & I9 & (l & I8)).
  clear Hs Hw Hr. remember (work_config r1) as c1 eqn:Ec. clear Ec r1.
  assert (Hsame : forall A (f : BINKD_CONFIG -> A), untouched f -> f c = f c1) by (intros; by eapply loaded_field).
  constructor.
  - change (oblksize c) with (get_int V_oblksize c). number "oblksize".
  - change (tries c) with (get_int V_tries c). number "try".
  - change (max_servers c) with (get_int V_max_servers c). change (max_clients c) with (get_int V_max_clients c).
    split; [number "maxservers"|number "maxclients"].
  - change (call_delay c) with (get_int V_call_delay c). change (rescan_delay c) with (get_int V_rescan_delay c).
    change (nettimeout c) with (get_int V_nettimeout c). change (hold c) with (get_int V_hold c).
    change (hold_skipped c) with (get_int V_hold_skipped c).
    split_and!; [number "call-delay"|number "rescan-delay"|number "timeout"|number "hold"|number "hold-skipped"].
  - change (tzoff c) with (get_int V_tzoff c). number "tzoff".
  - rewrite (Hsame _ c_sysname), (Hsame _ c_sysop), (Hsame _ c_location), (Hsame _ c_nodeinfo) by done.
    destruct Hl as [Hn _ _ _]. rewrite !Forall_cons in Hn. destruct Hn as (N1 & N2 & N3 & N4 & _).
    destruct (string_entry s c1 _ V_sysname (str "sysname") I2 eq_refl eq_refl) as [[L1 _]|E1]; [|by rewrite initial_strings in E1].
    destruct (string_entry s c1 _ V_sysop (str "sysop") I2 eq_refl eq_refl) as [[L2 _]|E2]; [|by rewrite initial_strings in E2].
    destruct (string_entry s c1 _ V_location (str "location") I2 eq_refl eq_refl) as [[L3 _]|E3]; [|by rewrite initial_strings in E3].
    destruct (string_entry s c1 _ V_nodeinfo (str "nodeinfo") I2 eq_refl eq_refl) as [[L4 _]|E4]; [|by rewrite initial_strings in E4].
    constructor; [by split|]. constructor; [by split|]. constructor; [by split|]. constructor; [by split|constructor].
  - rewrite (Hsame _ c_inbound) by done.
    destruct (string_entry s c1 _ V_inbound (str "inbound") I2 eq_refl eq_refl) as [(_ & _ & Hd)|E]; [right; by apply Hd|].
    left. by rewrite initial_strings in E.
  - rewrite (loaded_list inbound_nonsecure s path c1 c Hl) by done. rewrite finished_nonsecure, (Hsame _ c_inbound) by done.
    destruct (string_entry s c1 _ V_inbound_nonsecure (str "inbound-nonsecure") I2 eq_refl eq_refl) as [(_ & _ & Hd)|E].
    + destruct (inbound_nonsecure c1) eqn:En; [by left|right]. rewrite <- En. by apply Hd.
    + rewrite initial_strings in E. simpl in E. rewrite E. by left.
  - rewrite (Hsame _ temp_inbound) by done.
    destruct (string_entry s c1 _ V_temp_inbound (str "temp-inbound") I2 eq_refl eq_refl) as [(_ & _ & Hd)|E]; [right; by apply Hd|].
    left. by rewrite initial_strings in E.
  - unfold named. rewrite (Hsame _ pAddr), (Hsame _ pDomains) by done. split_and!; [apply Hl|done|done].
  - rewrite (Hsame _ pDomains) by done. split; [apply Hl|done].
  - rewrite (Hsame _ iport), (Hsame _ oport) by done. apply I3.
  - rewrite (loaded_list listen_ s path c1 c Hl) by done. rewrite finished_listen.
    assert (Hall : Forall listen_ok (match listen_ c1 with [] => [mklistenchain [] []] | l => l end)).
    { destruct (listen_ c1); [|done]. constructor; [|done]. by vm_compute; lia. }
    split; [by destruct (listen_ c1)|]. apply Forall_map. eapply Forall_impl; [exact Hall|].
    intros e He. by apply fill_port_ok; [apply I3|].
  - exists t. destruct Hl as [_ _ _ [->|(p & t' & ->)]].
    + rewrite (finished_fields config_list) by done. by exists l.
    + exists (l ++ [mkconflist_type p t']).
      change (config_list (set_field config_list ?f ?c)) with (f (config_list c)). cbv beta.
      by rewrite (finished_fields config_list), I8 by done.
  - by rewrite (Hsame _ usageCount).
Qed.

(** What comes out of [readcfg]: an accepted configuration or an error. *)
Lemma readcfg_runs path r :
  outcome (fun x => (x.1 = Some None -> errors x.2 <> errors r \/ mute_files getenv (sys (nodes r))) /\
      forall c, x.1 = Some (Some c) -> accepted (sys (nodes r)) path c)
    (bad_files getenv (sys (nodes r)))
    (readcfg net getenv facilitynames st_dev junk_dev no_MD5_ no_crypt_ quiet_flag verbose_flag path r).
Proof.
  unfold readcfg. fold initial. set (r0 := _ <| nodes ::= empty_table |>).
  eapply outcome_bind; [exact (load_config_runs (sys (nodes r)) path r0 eq_refl)|].
  intros [[ok|] r2] H; [|done]. cbn in H |- *. destruct H as [(new & He & Hm) Hr]. destruct ok.
  - split; [done|]. intros c [= <-]. destruct (Hr eq_refl) as (t & r1 & He1 & Hl). by apply (loaded_accepted _ path t r0 r1).
  - split; [|done]. intros _. rewrite He. change (errors r0) with (errors r). destruct new as [|e new]; [right; auto|left].
    intros Hn. apply (f_equal length) in Hn. simpl in Hn. rewrite length_app in Hn. lia.
Qed.

(** C10: Every configuration [readcfg] returns is one the rest of the program can
    work with: its numbers are within the bounds of the keyword table,
    the strings the log and the greeting need are there, the
    inbound directories exist, there is an address and a domain, every listening
    entry has a port, and the list of files starts with the one asked for. *)
Theorem readcfg_accepted path r c r' :
  readcfg net getenv facilitynames st_dev junk_dev no_MD5_ no_crypt_ quiet_flag verbose_flag path r = Ok (Some (Some c), r') ->
  accepted (sys (nodes r)) path c.
Proof. intros H. pose proof (readcfg_runs path r) as Hr. rewrite H in Hr. by apply Hr. Qed.

End Load.

(** ** Files that include each other *)
Section Cycle.
Context (net : RESOLVER) (getenv : cstr -> option cstr) (facilitynames : list (cstr * Z)).

(** Reading a line leaves the files alone. *)
Definition same_sys (r : READER) : bool -> READER -> Prop := fun _ r' => sys (nodes r') = sys (nodes r).
Lemma read_line_sys include l r : (forall words r, runs True r (include words) (same_sys r)) ->
  runs True r (read_line net getenv facilitynames include l) (same_sys r).
Proof.
  intros Hinc. unfold read_line. apply runs_bind, runs_modify. apply runs_bind, runs_lift.
  eapply outcome_weaken; [apply get_words_ends; lia| |done]. intros ws _. apply runs_bind.
  apply (runs_weaken _ _ (fun _ r2 => sys (nodes r2) = sys (nodes r))); [case_if; by wp|].
  intros _ r2 H2. destruct ws as [|w args]; [by apply runs_ret|].
  destruct (find_keyword w) as [k|] eqn:Ek; [|by apply runs_error].
  apply (runs_weaken _ _ (same_sys r2)); [|intros ok r3 H3; unfold same_sys in *; congruence].
  destruct (decide (callback k = C_include)) as [Ei|Ei]; [unfold call; rewrite Ei; apply Hinc|].
  eapply runs_weaken; [apply (call_edits net facilitynames True True); try done|].
  - eapply entry. exact Ek.
  - intros ok r3 H3. apply H3.
Qed.
Lemma read_lines_sys include lines : (forall words r, runs True r (include words) (same_sys r)) ->
  forall r, runs True r (read_lines net getenv facilitynames include lines) (same_sys r).
Proof.
  intros Hinc. induction lines as [|l t IH]; intros r; cbn [read_lines]; [by apply runs_ret|].
  apply runs_unless. eapply runs_weaken; [by apply read_line_sys|]. intros [] r1 H1; [|done].
  eapply runs_weaken; [apply IH|]. intros ok r2 H2. unfold same_sys in *. congruence.
Qed.
Lemma readcfg0_sys room : forall path r, runs True r (readcfg0 net getenv facilitynames room path) (same_sys r).
Proof.
  induction room as [|room IH]; intros path r; cbn [readcfg0].
  all: match goal with |- context [read_lines _ _ _ ?i _] => set (inc := i) end.
  all: assert (Hinc : forall words r1, runs True r1 (inc words) (same_sys r1)).
  1, 3: intros words r1; unfold inc; wp; try done.
  { unfold keep_place. apply runs_bind, runs_gets, runs_bind. eapply runs_weaken; [apply IH|]. intros ok r2 H2. by wp. }
  all: clearbody inc; wp; destruct (fs _ !! path) as [f|]; [|by wp].
  all: apply runs_bind, runs_modify; unfold add_to_config_list; wp.
  all: eapply runs_weaken; [by apply read_lines_sys|]; intros ok r2 H2; exact H2.
Qed.

(** A line that includes a file. *)
Definition includes (q l : cstr) : Prop := exists w k, words_of_line getenv l = Ok [w; q] /\
  find_keyword w = Some k /\ callback k = C_include.

Lemma read_line_refused include q l r : includes q l ->
  (forall r1, sys (nodes r1) = sys (nodes r) -> runs True r1 (include [q]) (fun ok _ => ok = false)) ->
  runs True r (read_line net getenv facilitynames include l) (fun ok _ => ok = false).
Proof.
  intros (w & k & Hw & Hk & Hc) Hinc. unfold read_line. apply runs_bind, runs_modify. apply runs_bind, runs_lift.
  unfold words_of_line in Hw. rewrite Hw. apply runs_bind. case_if; [done|]. apply runs_ret. rewrite Hk. unfold call. rewrite Hc.
  by apply Hinc.
Qed.
Lemma read_lines_refused include s q l : (forall words r, runs True r (include words) (same_sys r)) ->
  (forall r1, sys (nodes r1) = s -> runs True r1 (include [q]) (fun ok _ => ok = false)) -> includes q l ->
  forall lines r, l ∈ lines -> sys (nodes r) = s ->
  runs True r (read_lines net getenv facilitynames include lines) (fun ok _ => ok = false).
Proof.
  intros Hsys Hinc Hl lines. induction lines as [|l0 t IH]; intros r Hin Hs; [by apply elem_of_nil in Hin|].
  cbn [read_lines]. apply runs_unless. apply elem_of_cons in Hin as [<-|Hin].
  - eapply runs_weaken; [apply (read_line_refused include q l r Hl); intros r1 E; apply Hinc; congruence|]. by intros ok r1 ->.
  - eapply runs_weaken; [by apply read_line_sys|]. intros [] r1 H1; [|done]. apply IH; [done|]. unfold same_sys in H1. congruence.
Qed.

(** C27: Files that include each other in a circle are refused, at whatever depth
    the circle is entered: a set of files each of which includes one of the set
    holds no file that can be read. *)
Theorem include_cycle_refused (s : SYS) (C : cstr -> Prop) :
  (forall p, C p -> exists f l q, fs s !! p = Some f /\ l ∈ lines_of (f_data f) /\ includes q l /\ C q) ->
  forall room p r, C p -> sys (nodes r) = s ->
  runs True r (readcfg0 net getenv facilitynames room p) (fun ok _ => ok = false).
Proof.
  intros HC. induction room as [|room IH]; intros p r Hp Hs; cbn [readcfg0].
  all: match goal with |- context [read_lines _ _ _ ?i _] => set (inc := i) end.
  all: destruct (HC p Hp) as (f & l & q & Hf & Hl & Hi & Hq).
  all: wp; rewrite Hs, Hf; apply runs_bind, runs_modify; unfold add_to_config_list; wp.
  all: apply (read_lines_refused inc s q l); [| |done|done|done].
  - intros words r1. unfold inc. by wp.
  - intros r1 Hs1. unfold inc. by wp.
  - intros words r1. unfold inc. wp; [|done]. unfold keep_place. apply runs_bind, runs_gets, runs_bind.
    eapply runs_weaken; [apply readcfg0_sys|]. intros ok r2 H2. by wp.
  - intros r1 Hs1. unfold inc. wp; [|done]. unfold keep_place. apply runs_bind, runs_gets, runs_bind.
    eapply runs_weaken; [by apply IH|]. intros ok r2 ->. by wp.
Qed.
End Cycle.

(** ** Reloading *)
Section Reload.
Context (net : RESOLVER) (getenv : cstr -> option cstr) (facilitynames : list (cstr * Z)).
Context (st_dev : cstr -> Z) (junk_dev : Z) (no_MD5_ no_crypt_ quiet_flag : bool) (verbose_flag : Z).
Abbreviation reload := (checkcfg net getenv facilitynames st_dev junk_dev no_MD5_ no_crypt_ quiet_flag verbose_flag).

Definition with_times (s : SYS) (l : list conflist_type) : list conflist_type := (map (check_mtime s) l).*1.
Lemma check_mtime_again s pc : check_mtime s (check_mtime s pc).1 = ((check_mtime s pc).1, false).
Proof.
  assert (H : forall f t, fs s !! cf_path pc = Some f -> t = f_mtime f -> check_mtime s (pc <| cf_mtime := t |>) = (pc <| cf_mtime := t |>, false)).
  { intros f t Hf ->. unfold check_mtime. cbn. rewrite Hf, Z.eqb_refl. by case_if. }
  destruct (fs s !! cf_path pc) as [f|] eqn:Ef.
  - assert (E : (check_mtime s pc).1 = pc \/ (check_mtime s pc).1 = pc <| cf_mtime := f_mtime f |>).
    { unfold check_mtime. rewrite Ef. repeat case_if; auto. }
    destruct (Z.eqb_spec (cf_mtime pc) (f_mtime f)) as [Em|Em].
    + assert (Ep : pc <| cf_mtime := f_mtime f |> = pc) by (rewrite <- Em; by destruct pc).
      rewrite Ep in E. replace (check_mtime s pc).1 with pc by (by destruct E). rewrite <- Ep. by apply (H f).
    + replace (check_mtime s pc).1 with (pc <| cf_mtime := f_mtime f |>); [by apply (H f)|].
      unfold check_mtime. rewrite Ef, (proj2 (Z.eqb_neq _ _) Em). by case_if.
  - unfold check_mtime. by rewrite Ef; cbn; rewrite Ef.
Qed.
Lemma with_times_again s l : map (check_mtime s) (with_times s l) = map (fun pc => (pc, false)) (with_times s l).
Proof.
  unfold with_times. induction l as [|pc l IH]; [done|]. cbn [map fmap list_fmap]. rewrite check_mtime_again. f_equal. exact IH.
Qed.

(** The process after the times of its files were looked at. *)
Definition looked (m : MAIN) (c : BINKD_CONFIG) : MAIN :=
  m <| got_sighup := false |> <| current_config := Some (c <| config_list ::= with_times (sys (m_world m)) |>) |>.
Lemma looked_again flag m c rd : reload flag ((looked m c) <| m_reader := rd |>) = Ok (Some false, (looked m c) <| m_reader := rd |>).
Proof.
  unfold checkcfg. destruct flag; [|done]. cbn [negb andb]. set (c' := c <| config_list ::= with_times (sys (m_world m)) |>).
  change (current_config ((looked m c) <| m_reader := rd |> <| got_sighup := false |>)) with (Some c').
  change (got_sighup ((looked m c) <| m_reader := rd |>)) with false.
  change (sys (m_world ((looked m c) <| m_reader := rd |> <| got_sighup := false |>))) with (sys (m_world m)).
  cbv iota beta. change (config_list c') with (with_times (sys (m_world m)) (config_list c)). rewrite with_times_again.
  assert (Hf : forall l : list conflist_type, existsb snd (map (fun pc => (pc, false)) l) = false) by (by induction l).
  rewrite Hf. cbn [orb negb]. assert (Hl : forall l : list conflist_type, (map (fun pc => (pc, false)) l).*1 = l)
    by (induction l as [|x l IH]; [done|]; cbn; by rewrite IH).
  rewrite Hl. assert (Hc : c' <| config_list := with_times (sys (m_world m)) (config_list c) |> = c') by done.
  rewrite Hc. done.
Qed.

End Reload.

(** ** A small configuration in two files *)
Definition example_net : RESOLVER := mkRESOLVER (fun _ => None) (fun _ => None) (fun _ => true).
Definition text_of (lines : list cstr) : cstr := concat (map (fun l => l ++ [10]) lines).
Definition example_files : SYS :=
  put_file (put_file (put_file example_sys (str "/c") (text_of
    [str "domain fidonet /s/outb 2"; str "address 2:5047/1@fidonet # ours"; str "SysName Example"; str "sysop Me";
     str "location Here"; str "nodeinfo 9600"; str "include /nodes"; str "oblksize 4096"]))
    (str "/nodes") (text_of [str "node 2:5047/13 * secret c"; str "hold 1h30m"]))
    (str "/loop") (text_of [str "include /loop"]).
Definition example_reader : READER :=
  mkREADER example_config (example_world <| sys := example_files |>) (-1) (str "<command line>") 0 [].
Definition example_read := readcfg example_net no_env [] (fun _ => 0) 0 false false false 0 (str "/c") example_reader.
Definition example_result := from_ok (None, example_reader) example_read.
Definition example_accepted : BINKD_CONFIG :=
  match example_result.1 with Some (Some c) => c | _ => example_config end.

Lemma readcfg_accepted_witness : accepted example_files (str "/c") example_accepted /\
  oblksize example_accepted = 4096 /\ hold example_accepted = 5400.
Proof.
  split; [|by vm_compute].
  apply (readcfg_accepted example_net no_env [] (fun _ => 0) 0 false false false 0 (str "/c") example_reader
    example_accepted (snd example_result)).
  assert (Ho : is_ok example_read = true) by (by vm_compute). assert (Hs : match example_result.1 with Some (Some _) => true | _ => false end = true)
    by (by vm_compute).
  unfold example_accepted, example_result in *. unfold example_read in *.
  destruct (readcfg _ _ _ _ _ _ _ _ _ _ _) as [[[[c|]|] r]| |]; simpl in *; done.
Defined.

Lemma include_cycle_refused_witness :
  runs True example_reader (readcfg0 example_net no_env [] 8 (str "/loop")) (fun ok _ => ok = false).
Proof.
  apply (include_cycle_refused example_net no_env [] example_files (fun p => p = str "/loop")); [|done|done].
  intros p ->. exists (mkFILE_ (text_of [str "include /loop"]) 1000), (str "include /loop" ++ [10]), (str "/loop").
  split_and!; [by vm_compute|vm_compute; left|by exists (str "include"), (mkKEYWORD (str "include") C_include 0 0)|done].
Defined.

Definition example_main : MAIN :=
  mkMAIN (Some (example_accepted <| config_list := [mkconflist_type (str "/c") 7] |>)) (example_world <| sys := example_files |>) false example_reader.
Definition example_reload := checkcfg example_net no_env [] (fun _ => 0) 0 false false false 0 true example_main.
