(* ===== verification/Debugcfg.v ===== *)
(** * readcfg.c: printing the configuration that was read

    [debug_readcfg] prints every entry of the table with its value.  What
    [print_node_info_1] prints depends on the identity of the password pointers,
    which the node table of the model does not have: it is a parameter. *)
From S2P Require Import Prelude CStr Tools FtnAddr Sys Types Readcfg.

(** [%-24s] *)
Definition pad_right (w : nat) (s : cstr) : cstr := s ++ replicate (w - length s) 32.
Definition newline : cstr := [10].
Definition quoted (s : cstr) : cstr := 34 :: s ++ [34].

Definition describe_addrtype (a : Z) : cstr :=
  if a =? A_ALL then str "all" else if a =? A_PROT then str "secure" else if a =? A_UNPROT then str "unsecure"
  else if a =? A_LST then str "listed" else if a =? A_UNLST then str "unlisted" else str "???".

(** A time interval, in weeks, days, hours, minutes and seconds. *)
Definition print_unit (u : Z) (c : char) (i : Z) : cstr * Z :=
  if u <=? i then (fmt_d (i / u) ++ [c], i mod u) else ([], i).
Definition print_time (n : Z) : cstr :=
  let '(sign, i) := if n <? 0 then (str "-", - n) else ([], n) in
  let '(w, i) := print_unit (7 * 24 * 60 * 60) (chr "w") i in
  let '(d, i) := print_unit (24 * 60 * 60) (chr "d") i in
  let '(h, i) := print_unit (60 * 60) (chr "h") i in
  let '(m, i) := print_unit 60 (chr "m") i in
  let s := if (0 <? i) || (n =? 0) then fmt_d i ++ str "s" else [] in
  sign ++ w ++ d ++ h ++ m ++ s.

Section Debug.
Context (print_nodes : cstr).

Definition print_domain (d : FTN_DOMAIN) : cstr :=
  newline ++ str "    " ++ d_name d ++
  match d_alias4 d with
  | Some a => str " alias-for " ++ d_name a
  | None => str " " ++ d_path d ++ str "/" ++ d_dir d ++ str " " ++ fmt_d (d_z d)
  end.
Definition print_skip (s : skipchain) : cstr :=
  newline ++ str "    " ++ describe_addrtype (sk_atype s) ++ str " " ++
  (if sk_destr s then str "!" else str " ") ++
  fmt_d (if sk_size s <? 0 then sk_size s else Z.shiftr (sk_size s) 10) ++ str " " ++ quoted (sk_mask s).
Definition print_event (k : KEYWORD) (e : EVT_FLAG) : cstr :=
  match (if option1 k =? chr "f" then ev_path e else ev_command e) with
  | Some s => newline ++ str "    " ++ (if ev_imm e then str "[Imm] " else []) ++ quoted s ++ str " on " ++ quoted (ev_pattern e)
  | None => []
  end.
Definition print_aka (a : akachain) : cstr :=
  newline ++ str "    " ++ (if Z.land (ak_type a) 0x7F =? ACT_HIDE then str "hide-aka" else str "present-aka") ++
  str " " ++ ftnaddress_to_str (ak_fa a) ++ str " " ++
  (if Z.land (ak_type a) 0x80 =? 0 then str " " else str "!") ++ ak_mask a.
Definition print_share (s : SHARED_CHAIN) : cstr :=
  newline ++ str "    " ++ ftnaddress_to_str (sha s) ++ concat (map (fun a => str " " ++ ftnaddress_to_str a) (sfa s)).
Definition print_indented (s : cstr) : cstr := newline ++ str "    " ++ s.

Definition print_value (k : KEYWORD) (c : BINKD_CONFIG) : cstr :=
  match callback k with
  | C_read_string v | C_read_log_string v | C_read_port v => quoted (get_str v c)
  | C_read_int v | C_read_log_int v => fmt_d (get_int v c)
  | C_read_bool v => if get_bool v c then str "[yes]" else str "<not defined>"
  | C_read_time v => print_time (get_int v c)
  | C_include => concat (map (fun f => print_indented (cf_path f)) (config_list c))
  | C_read_domain_info => concat (map print_domain (pDomains c))
  | C_read_aka_list => concat (map (fun a => print_indented (ftnaddress_to_str a)) (pAddr c))
  | C_read_node_info =>
      if option1 k =? 0 then print_nodes
      else if havedefnode c then str "[see 0:0/0@defnode]" else str "<not defined>"
  | C_read_flag_exec_info => concat (map (print_event k) (evt_flags c))
  | C_read_rfrule => concat (map (fun f => print_indented (quoted (rf_from f) ++ str " => " ++ quoted (rf_to f))) (rf_rules c))
  | C_read_inboundcase =>
      match inboundcase c with
      | INB_SAVE => str "save" | INB_UPPER => str "upper" | INB_LOWER => str "lower" | INB_MIXED => str "mixed"
      end
  | C_read_renamestyle =>
      match renamestyle c with
      | RENAME_POSTFIX => str "postfix" | RENAME_EXTENSION => str "extenstion" | RENAME_BODY => str "???"
      end
  | C_read_skip => concat (map print_skip (skipmask c))
  | C_read_mask v => concat (map (fun m => print_indented (quoted m)) (get_masks v c))
  | C_read_akachain => if option1 k =? ACT_HIDE then print_indented (str "[see present-aka]") else concat (map print_aka (akamask c))
  | C_read_check_pkthdr =>
      if pkthdr_type c =? 0 then str "<disabled>"
      else describe_addrtype (pkthdr_type c) ++ str " " ++ default [] (pkthdr_bad c)
  | C_read_shares => concat (map print_share (shares c))
  | C_passwords _ | C_read_dontsendempty | C_read_listen | C_read_syslog_facility => str "[this item cannot be displayed]"
  end.
Definition debug_readcfg (c : BINKD_CONFIG) : cstr :=
  concat (map (fun k => pad_right 24 (key k) ++ str " " ++ print_value k c ++ newline) keywords).
End Debug.

(** ** Time intervals *)
(** The text of some numbers with their units, and the interval it means. *)
Fixpoint interval_text (l : list (Z * char)) : cstr :=
  match l with [] => [] | (n, c) :: l => fmt_u n ++ c :: interval_text l end.
Fixpoint interval (l : list (Z * char)) : option Z :=
  match l with
  | [] => Some 0
  | (n, c) :: l => match time_unit c, interval l with Some u, Some t => Some (n * u + t) | _, _ => None end
  end.

Lemma swrap_int n : 0 <= n <= INT_MAX -> swrap 32 n = n.
Proof. unfold INT_MAX. intros. apply swrap_id; lia. Qed.

Lemma time_unit_pos c u : time_unit c = Some u -> 1 <= u.
Proof. unfold time_unit. repeat case_if; intros [= <-]; lia. Qed.
Lemma time_unit_letter c u : time_unit c = Some u -> isdigit c = false.
Proof.
  unfold time_unit, tolower, isdigit, isupper. intros H.
  destruct (48 <=? c) eqn:E1, (c <=? 57) eqn:E2; try done. bools. exfalso. revert H.
  rewrite (proj2 (Z.leb_gt 65 c)) by lia. cbn [andb].
  repeat case_if; bools; try done; change (chr "w") with 119 in *; change (chr "d") with 100 in *;
    change (chr "h") with 104 in *; change (chr "m") with 109 in *; change (chr "s") with 115 in *; lia.
Qed.

(** Reading the digits of a number. *)
Lemma read_time_digits ds t target : forall a, Forall digit10 ds -> 0 <= a -> (read_dec a ds).1 <= INT_MAX ->
  read_time_loop (ds ++ t) a target = read_time_loop t (read_dec a ds).1 target.
Proof.
  induction ds as [|c ds IH]; intros a Hd Ha Hm; [done|]. apply Forall_cons in Hd as [Hc Hd]. unfold digit10 in Hc.
  cbn [app read_time_loop read_dec] in *. rewrite (proj2 (isdigit_spec c)) in * by lia.
  pose proof (read_dec_ge (a * 10 + (c - 48)) ds ltac:(lia)) as Hb. change (chr "0") with 48.
  rewrite (proj2 (Z.eqb_neq a (-1))) by lia. rewrite (swrap_int (a * 10)) by lia. rewrite swrap_int by lia.
  apply IH; [done|lia|done].
Qed.
Lemma read_time_number n t target : 0 <= n <= INT_MAX ->
  read_time_loop (fmt_u n ++ t) (-1) target = read_time_loop t n target.
Proof.
  intros Hn. pose proof (read_dec_fmt_u n [] ltac:(lia) eq_refl) as Hr. rewrite app_nil_r in Hr.
  pose proof (fmt_u_digit10 n ltac:(lia)) as Hd. destruct (fmt_u n) as [|c ds] eqn:E.
  { destruct (fmt_u_head n [] ltac:(lia)) as (c & t' & E' & _). by rewrite E in E'. }
  transitivity (read_time_loop ((c :: ds) ++ t) 0 target).
  - apply Forall_cons in Hd as [Hc _]. unfold digit10 in Hc. cbn [app read_time_loop].
    by rewrite (proj2 (isdigit_spec c)) by lia.
  - rewrite read_time_digits by (rewrite ?Hr; simpl; done || lia). by rewrite Hr.
Qed.

(** The parts [print_time] prints. *)
Definition unit_part (u : Z) (c : char) (i : Z) : list (Z * char) := if u <=? i then [(i / u, c)] else [].
Definition time_parts (i : Z) : list (Z * char) :=
  let w := 7 * 24 * 60 * 60 in let d := 24 * 60 * 60 in let h := 60 * 60 in
  let i1 := i mod w in let i2 := i1 mod d in let i3 := i2 mod h in
  unit_part w (chr "w") i ++ unit_part d (chr "d") i1 ++ unit_part h (chr "h") i2 ++ unit_part 60 (chr "m") i3 ++
  (if (0 <? i3 mod 60) || (i =? 0) then [(i3 mod 60, chr "s")] else []).
Lemma interval_text_app l1 l2 : interval_text (l1 ++ l2) = interval_text l1 ++ interval_text l2.
Proof. induction l1 as [|[n c] l1 IH]; [done|]. simpl. by rewrite IH, <- app_assoc. Qed.
Lemma interval_app l1 l2 : interval (l1 ++ l2) =
  match interval l1, interval l2 with Some a, Some b => Some (a + b) | _, _ => None end.
Proof.
  induction l1 as [|[n c] l1 IH]; simpl; [by destruct (interval l2)|]. rewrite IH.
  destruct (time_unit c), (interval l1), (interval l2); simpl; try done. f_equal. lia.
Qed.
Lemma print_unit_part u c i : 0 < u -> 0 <= i -> print_unit u c i = (interval_text (unit_part u c i), i mod u).
Proof.
  intros Hu Hi. unfold print_unit, unit_part. case_if; bools.
  - simpl. rewrite fmt_d_u by (apply Z.div_pos; lia). done.
  - by rewrite Z.mod_small by lia.
Qed.
Lemma unit_part_interval u c i : 0 < u -> 0 <= i -> time_unit c = Some u ->
  interval (unit_part u c i) = Some (i - i mod u) /\ Forall (fun p => 0 <= p.1) (unit_part u c i).
Proof.
  intros Hu Hi Ht. pose proof (Z.div_mod i u ltac:(lia)). unfold unit_part. case_if; bools.
  - simpl. rewrite Ht. split; [f_equal; nia|]. constructor; [|done]. apply Z.div_pos; lia.
  - rewrite Z.mod_small by lia. split; [simpl; f_equal; lia|done].
Qed.
Lemma print_time_parts n : print_time n = (if n <? 0 then str "-" else []) ++ interval_text (time_parts (Z.abs n)).
Proof.
  assert (Hm : forall a b, 0 < b -> 0 <= a mod b) by (intros; apply Z.mod_pos_bound; lia).
  unfold print_time. replace (if n <? 0 then (str "-", - n) else ([], n)) with (if n <? 0 then str "-" else [], Z.abs n)
    by (destruct (Z.ltb_spec n 0); f_equal; lia).
  cbv beta iota zeta. rewrite !print_unit_part by (try apply Hm; lia). unfold time_parts.
  rewrite !interval_text_app. replace (n =? 0) with (Z.abs n =? 0) by (destruct (Z.eqb_spec n 0), (Z.eqb_spec (Z.abs n) 0); lia || done).
  do 5 f_equal. case_if; [|done]. simpl. by rewrite fmt_d_u by (apply Hm; lia).
Qed.
Lemma time_parts_interval i : 0 <= i -> interval (time_parts i) = Some i /\ Forall (fun p => 0 <= p.1) (time_parts i) /\ time_parts i <> [].
Proof.
  intros Hi. assert (Hm : forall a b, 0 < b -> 0 <= a mod b) by (intros; apply Z.mod_pos_bound; lia).
  set (w := 7 * 24 * 60 * 60). set (d := 24 * 60 * 60). set (h := 60 * 60).
  destruct (unit_part_interval w (chr "w") i ltac:(done) Hi eq_refl) as [E1 F1].
  destruct (unit_part_interval d (chr "d") (i mod w) ltac:(done) ltac:(by apply Hm) eq_refl) as [E2 F2].
  destruct (unit_part_interval h (chr "h") ((i mod w) mod d) ltac:(done) ltac:(by apply Hm) eq_refl) as [E3 F3].
  destruct (unit_part_interval 60 (chr "m") (((i mod w) mod d) mod h) ltac:(done) ltac:(by apply Hm) eq_refl) as [E4 F4].
  set (j := ((((i mod w) mod d) mod h) mod 60)). assert (Hj : 0 <= j) by (by apply Hm).
  set (l5 := if (0 <? j) || (i =? 0) then [(j, chr "s")] else []).
  assert (E5 : interval l5 = Some j /\ Forall (fun p => 0 <= p.1) l5).
  { unfold l5. case_if; bools; [split; [simpl; change (time_unit (chr "s")) with (Some 1); f_equal; lia|by repeat constructor]|].
    split; [simpl; f_equal; lia|done]. }
  destruct E5 as [E5 F5].
  change (time_parts i) with (unit_part w (chr "w") i ++ unit_part d (chr "d") (i mod w) ++ unit_part h (chr "h") ((i mod w) mod d)
    ++ unit_part 60 (chr "m") (((i mod w) mod d) mod h) ++ l5).
  assert (Hi' : interval (unit_part w (chr "w") i ++ unit_part d (chr "d") (i mod w) ++ unit_part h (chr "h") ((i mod w) mod d)
    ++ unit_part 60 (chr "m") (((i mod w) mod d) mod h) ++ l5) = Some i).
  { rewrite !interval_app, E1, E2, E3, E4, E5. f_equal. fold j. lia. }
  split_and!; [done|by rewrite !Forall_app|]. intros Hn. rewrite Hn in Hi'. injection Hi' as H0.
  repeat (apply app_eq_nil in Hn as [_ Hn]). unfold l5 in Hn. by rewrite (proj2 (Z.eqb_eq i 0)), orb_true_r in Hn by lia.
Qed.

Lemma interval_nonneg l t : Forall (fun p => 0 <= p.1) l -> interval l = Some t -> 0 <= t.
Proof.
  revert t. induction l as [|[n c] l IH]; intros t Hl; simpl; [by intros [= <-]|].
  apply Forall_cons in Hl as [Hn Hl]. simpl in Hn. destruct (time_unit c) as [u|] eqn:Eu; [|done].
  destruct (interval l) as [t'|]; [|done]. intros [= <-]. specialize (IH t' Hl eq_refl). apply time_unit_pos in Eu. nia.
Qed.
Lemma read_time_interval l : forall t target, Forall (fun p => 0 <= p.1) l -> interval l = Some t -> 0 <= target ->
  target + t <= INT_MAX -> read_time_loop (interval_text l) (-1) target = (true, target + t).
Proof.
  induction l as [|[n c] l IH]; intros t target Hl; simpl; [intros [= <-] _ _; f_equal; lia|].
  apply Forall_cons in Hl as [Hn Hl]. simpl in Hn. destruct (time_unit c) as [u|] eqn:Eu; [|done].
  destruct (interval l) as [t'|] eqn:El; [|done]. intros [= <-] Ht Hm.
  pose proof (interval_nonneg l t' Hl El) as H0. pose proof (time_unit_pos c u Eu) as Hu.
  assert (Hnu : n <= n * u) by nia. rewrite read_time_number by lia.
  cbn [read_time_loop]. rewrite (time_unit_letter c u Eu), (proj2 (Z.eqb_neq n (-1))), Eu by lia.
  rewrite (swrap_int (n * u)), swrap_int by lia. rewrite (IH t') by (done || lia). f_equal. lia.
Qed.

(** An interval written as numbers with units, largest first or not, is read
    as their sum, as long as that is an [int]; what [debug_readcfg] prints of
    an interval is read back as the same interval, a sign included. *)
Theorem parse_time_interval : (forall l t, Forall (fun p => 0 <= p.1) l -> interval l = Some t -> t <= INT_MAX ->
    parse_time (interval_text l) = (true, t) /\ parse_time (chr "-" :: interval_text l) = (true, - t)) /\
  (forall n, - INT_MAX <= n <= INT_MAX -> parse_time (print_time n) = (true, n)).
Proof.
  assert (Hpos : forall l t, Forall (fun p => 0 <= p.1) l -> interval l = Some t -> t <= INT_MAX ->
    parse_time (interval_text l) = (true, t) /\ parse_time (chr "-" :: interval_text l) = (true, - t)).
  { intros l t Hl Ht Hm. pose proof (interval_nonneg l t Hl Ht). unfold parse_time.
    assert (Hh : (hd0 (interval_text l) =? chr "-") = false).
    { destruct l as [|[n c] l]; [done|]. simpl. apply Forall_cons in Hl as [Hn _]. simpl in Hn.
      destruct (fmt_u_head n (c :: interval_text l) Hn) as (d & s & -> & Hd). unfold digit10 in Hd. simpl. apply Z.eqb_neq.
      change (chr "-") with 45. lia. }
    rewrite Hh. cbn [hd0 tl]. rewrite Z.eqb_refl. rewrite (read_time_interval l t) by (done || lia). cbn [andb].
    split; [done|]. rewrite swrap_id by (unfold INT_MAX in *; lia). f_equal; lia. }
  split; [intros; by apply Hpos|]. intros n Hn. rewrite print_time_parts.
  destruct (time_parts_interval (Z.abs n) ltac:(lia)) as (E & F & _). destruct (Hpos _ _ F E ltac:(lia)) as [P1 P2].
  destruct (Z.ltb_spec n 0).
  - change (str "-" ++ ?x) with (chr "-" :: x). rewrite P2. f_equal. lia.
  - simpl. rewrite P1. f_equal. lia.
Qed.

Lemma parse_time_interval_witness :
  parse_time (str "1h30m") = (true, 5400) /\ parse_time (print_time (-5461)) = (true, -5461).
Proof.
  split.
  - exact (proj1 (proj1 parse_time_interval [(1, chr "h"); (30, chr "m")] 5400 ltac:(by repeat constructor) eq_refl ltac:(done))).
  - apply (proj2 parse_time_interval). by vm_compute.
Defined.
