(* ===== verification/Process.v ===== *)
(** * readcfg.c, binkd.c, branch.c, exitproc.c: a process and what it holds

    A configuration is on the heap, and [usageCount] counts its users; the last
    one to leave frees it.  [heap] has the structures that are allocated, by
    address, and [fault] records that a freed one was touched.  The node table
    of [p_world] is that of the current configuration, the only one the managers
    look nodes up in. *)
From S2P Require Import Prelude CStr Tools FtnAddr Sys Types FtnNode Bsy Hosts Readcfg Config.

Record PROC := mkPROC {
  heap : gmap nat BINKD_CONFIG;
  current : nat;                     (* [current_config] *)
  fault : bool;
  p_world : WORLD;
  p_sighup : bool;
  p_reader : READER
}.
#[export] Instance eta_PROC : Eta PROC := fun p =>
  mkPROC (heap p) (current p) (fault p) (p_world p) (p_sighup p) (p_reader p).

Section Configs.
Context (net : RESOLVER) (getenv : cstr -> option cstr) (facilitynames : list (cstr * Z)).
Context (st_dev : cstr -> Z) (junk_dev : Z) (no_MD5_ no_crypt_ quiet_flag : bool) (verbose_flag : Z).
(** Where [xalloc] puts a structure, given the addresses in use. *)
Context (malloc : gset nat -> nat).

(** Looking at a structure. *)
Definition touch_config (i : nat) (p : PROC) : PROC := if decide (is_Some (heap p !! i)) then p else p <| fault := true |>.
Definition config_at (p : PROC) (i : nat) : BINKD_CONFIG := default example_config (heap p !! i).
Definition set_config (i : nat) (f : BINKD_CONFIG -> BINKD_CONFIG) (p : PROC) : PROC :=
  (touch_config i p) <| heap ::= alter f i |>.

Definition lock_config (i : nat) (p : PROC) : PROC := set_config i (lock_config_structure net) p.
Definition lock_current (p : PROC) : nat * PROC := (current p, lock_config (current p) p).
Definition unlock_config (i : nat) (p : PROC) : PROC :=
  (touch_config i p) <| heap ::= partial_alter (fun c => c ≫= unlock_config_structure) i |>.

(** The new configuration comes from [xalloc]; only then is the old one left. *)
Definition reload_config (checkcfg_flag : bool) (p : PROC) : mem (option bool * PROC) :=
  let p := touch_config (current p) p in
  let* r := checkcfg net getenv facilitynames st_dev junk_dev no_MD5_ no_crypt_ quiet_flag verbose_flag checkcfg_flag
              (mkMAIN (Some (config_at p (current p))) (p_world p) (p_sighup p) (p_reader p)) in
  let '(res, m) := r in
  let p := p <| p_world := m_world m |> <| p_sighup := got_sighup m |> <| p_reader := m_reader m |> in
  let c := default example_config (current_config m) in
  if decide (res = Some true) then
    let i := malloc (dom (heap p)) in
    Ok (res, unlock_config (current p) (p <| heap ::= <[i := c]> |> <| current := i |>))
  else Ok (res, p <| heap ::= <[current p := c]> |>).
End Configs.

(** ** binkd.c, common.h: the processes that were started

    [zombies] have ended and are not waited for yet; [count] is the manager's
    counter. *)
Record CHILDREN := mkCHILDREN { alive : list Z; zombies : list Z; got_sigchld : bool; count : Z }.
#[export] Instance eta_CHILDREN : Eta CHILDREN := fun k => mkCHILDREN (alive k) (zombies k) (got_sigchld k) (count k).

(** Signals let through: the children that ended, and a SIGHUP. *)
Record SIGNALS := mkSIGNALS { sg_dead : list Z; sg_hup : bool }.
Definition sighandler_chld (dead : list Z) (k : CHILDREN) : CHILDREN :=
  let gone := filter (fun p => p ∈ dead) (alive k) in
  match gone with
  | [] => k
  | _ => k <| alive := filter (fun p => p ∉ dead) (alive k) |> <| zombies := zombies k ++ gone |> <| got_sigchld := true |>
  end.
(** The loop around [waitpid]; the end of the client manager ends the server
    too, which is [None]. *)
Fixpoint wait_all (pidcmgr : Z) (l : list Z) (childcount : Z) : option Z :=
  match l with
  | [] => Some childcount
  | pid :: t => if negb (pidcmgr =? 0) && (pid =? pidcmgr) then None else wait_all pidcmgr t (childcount - 1)
  end.
Definition chld (pidcmgr : Z) (k : CHILDREN) : option CHILDREN :=
  (fun n => k <| got_sigchld := false |> <| zombies := [] |> <| count := n |>) <$> wait_all pidcmgr (zombies k) (count k).
Definition check_child (pidcmgr : Z) (k : CHILDREN) : option CHILDREN := if got_sigchld k then chld pidcmgr k else Some k.

(** ** branch.c: [None] is a failure *)
Inductive FORK := F_parent (pid : positive) | F_again | F_refused.
Fixpoint branch_again (l : list FORK) : mem (option Z) :=
  match l with
  | [] => Fuel
  | F_parent pid :: _ => Ok (Some (Zpos pid))
  | F_again :: t => branch_again t
  | F_refused :: _ => Ok None
  end.
Definition branch (room : bool) (l : list FORK) : mem (option Z) := if room then branch_again l else Ok None.

(** ** exitproc.c: what a process does when it exits *)
Definition nodes_deinit (w : WORLD) : WORLD := w <| pNodArray := [] |>.
Definition exitfunc (net : RESOLVER) (server : bool) (p : PROC) : mem PROC :=
  let '(i, p) := lock_current net p in
  let* w := bsy_remove_all (p_world p) (config_at p i) in
  let w := nodes_deinit w in
  let w := match pid_file (config_at p i) with
           | [] => w
           | f => if server then w <| sys ::= fun s => (delete_ s f).2 |> else w
           end in
  Ok (unlock_config i (p <| p_world := w |>)).

(** ** Users and structures *)
Definition users (i : nat) (l : list nat) : Z := Z.of_nat (length (filter (eq i) l)).

(** The structures allocated are those somebody uses, and each counts its
    users; [hs] are the uses besides that of [current_config]. *)
Record owned (p : PROC) (hs : list nat) : Prop := {
  ow_fault : fault p = false;
  ow_heap : forall i, match heap p !! i with
                      | Some c => usageCount c = users i (current p :: hs) /\ 0 < usageCount c
                      | None => i ∉ current p :: hs
                      end
}.

Lemma users_cons i j l : users i (j :: l) = (if decide (i = j) then 1 else 0) + users i l.
Proof. unfold users. rewrite filter_cons. repeat case_decide; simpl; lia. Qed.
Lemma users_in i l : i ∈ l <-> 0 < users i l.
Proof.
  induction l as [|j l IH]; [split; [by intros ?%elem_of_nil|done]|]. rewrite elem_of_cons, users_cons, IH.
  assert (0 <= users i l) by (unfold users; lia). case_decide; split; [lia|by left|intros [?|?]; [done|lia]|right; lia].
Qed.
Lemma users_perm i l l' : l ≡ₚ l' -> users i l = users i l'.
Proof. intros H. unfold users. by rewrite H. Qed.

Lemma owned_alloc p hs i : owned p hs -> i ∈ current p :: hs -> exists c, heap p !! i = Some c.
Proof. intros [_ H] Hi. specialize (H i). destruct (heap p !! i); [eauto|done]. Qed.
Lemma owned_touch p hs i : owned p hs -> i ∈ current p :: hs -> touch_config i p = p.
Proof. intros H Hi. destruct (owned_alloc _ _ _ H Hi) as [c Hc]. unfold touch_config. by rewrite decide_True by (rewrite Hc; eauto). Qed.
Lemma owned_perm p hs hs' : hs ≡ₚ hs' -> owned p hs -> owned p hs'.
Proof.
  intros Hp [H1 H2]. constructor; [done|]. intros i. specialize (H2 i).
  destruct (heap p !! i); [rewrite <- (users_perm i (current p :: hs) (current p :: hs')); [done|by constructor]|by rewrite <- Hp].
Qed.
(** What the process does besides leaves the structures alone. *)
Lemma owned_same p q hs : fault q = fault p -> current q = current p -> heap q = heap p -> owned p hs -> owned q hs.
Proof. intros H1 H2 H3 [A B]. constructor; [congruence|]. intros i. rewrite H3, H2. apply B. Qed.
Lemma owned_set p hs i f : owned p hs -> i ∈ current p :: hs -> (forall c, usageCount (f c) = usageCount c) ->
  owned (set_config i f p) hs.
Proof.
  intros H Hi Hf. unfold set_config. rewrite (owned_touch p hs i H Hi). destruct H as [H1 H2]. constructor; [done|].
  intros j. cbn. specialize (H2 j). destruct (decide (j = i)) as [->|Hj].
  - rewrite lookup_alter_eq. destruct (heap p !! i) as [c|]; cbn; [by rewrite Hf|done].
  - by rewrite lookup_alter_ne.
Qed.
Lemma lock_usage net c : 0 < usageCount c -> lock_config_structure net c = c <| usageCount ::= Z.succ |>.
Proof.
  intros H. unfold lock_config_structure. cbn -[Z.succ]. by rewrite (proj2 (Z.eqb_neq _ _)) by (simpl; lia).
Qed.
Lemma owned_lock net p hs i : owned p hs -> i ∈ current p :: hs -> owned (lock_config net i p) (i :: hs).
Proof.
  intros H Hi. unfold lock_config, set_config. rewrite (owned_touch p hs i H Hi). destruct H as [H1 H2]. constructor; [done|].
  intros j. specialize (H2 j). change (current (p <| heap ::= _ |>)) with (current p).
  change (heap (p <| heap ::= ?f |>)) with (f (heap p)). cbv beta. destruct (decide (j = i)) as [->|Hj].
  - rewrite lookup_alter_eq. destruct (heap p !! i) as [c|]; cbn [fmap option_fmap option_map].
    + destruct H2 as [H2 H3]. rewrite lock_usage by done. change (usageCount (c <| usageCount ::= Z.succ |>)) with (Z.succ (usageCount c)).
      split; [|lia]. rewrite H2, !users_cons. repeat case_decide; first [lia|done].
    + by destruct H2.
  - rewrite lookup_alter_ne by done. destruct (heap p !! j) as [c|].
    + destruct H2 as [H2 H3]. split; [|done]. rewrite H2, !users_cons. repeat case_decide; first [lia|done].
    + rewrite !elem_of_cons in *. tauto.
Qed.
Lemma unlock_usage c : unlock_config_structure c = if decide (usageCount c = 1) then None else Some (c <| usageCount ::= Z.pred |>).
Proof.
  unfold unlock_config_structure. change (usageCount (c <| usageCount ::= Z.pred |>)) with (Z.pred (usageCount c)).
  case_decide; case_if; bools; lia || done.
Qed.
(** A user leaves: the other structures stay, and so does this one while it is used. *)
Lemma unlock_heap p i l l' : fault p = false -> i ∈ l -> l ≡ₚ i :: l' ->
  (forall j, match heap p !! j with Some c => usageCount c = users j l /\ 0 < usageCount c | None => j ∉ l end) ->
  fault (unlock_config i p) = false /\ current (unlock_config i p) = current p /\
  forall j, match heap (unlock_config i p) !! j with Some c => usageCount c = users j l' /\ 0 < usageCount c | None => j ∉ l' end.
Proof.
  intros Hf Hi Hl H. assert (Ht : touch_config i p = p).
  { unfold touch_config. pose proof (H i) as Hh. destruct (heap p !! i) as [c|]; [by rewrite decide_True by eauto|done]. }
  unfold unlock_config. rewrite Ht. split; [done|]. split; [done|]. intros j. specialize (H j).
  change (heap (p <| heap ::= ?f |>)) with (f (heap p)). cbv beta.
  assert (Hu : users j l = users j (i :: l')) by (by apply users_perm). rewrite users_cons in Hu.
  destruct (decide (j = i)) as [->|Hj].
  - rewrite lookup_partial_alter_eq. destruct (heap p !! i) as [c|]; [|done]. destruct H as [H1 H2]. cbn [mbind option_bind].
    rewrite unlock_usage. case_decide.
    + intros Hin%users_in. lia.
    + change (usageCount (c <| usageCount ::= Z.pred |>)) with (Z.pred (usageCount c)). lia.
  - rewrite lookup_partial_alter_ne by done. destruct (heap p !! j) as [c|].
    + destruct H as [-> H3]. by rewrite Hu in *.
    + rewrite Hl, elem_of_cons in H. tauto.
Qed.
Lemma owned_unlock p hs i : owned p (i :: hs) -> owned (unlock_config i p) hs.
Proof.
  intros [H1 H2]. destruct (unlock_heap p i (current p :: i :: hs) (current p :: hs)) as (A & B & C); [done|set_solver|by rewrite Permutation_swap|done|].
  constructor; [done|]. by rewrite B.
Qed.

Section Reloading.
Context (net : RESOLVER) (getenv : cstr -> option cstr) (facilitynames : list (cstr * Z)).
Context (st_dev : cstr -> Z) (junk_dev : Z) (no_MD5_ no_crypt_ quiet_flag : bool) (verbose_flag : Z).
Context (malloc : gset nat -> nat) (malloc_new : forall s, malloc s ∉ s).
Abbreviation reload := (reload_config net getenv facilitynames st_dev junk_dev no_MD5_ no_crypt_ quiet_flag verbose_flag malloc).

Lemma usage_config_list l c : usageCount (c <| config_list := l |>) = usageCount c.
Proof. done. Qed.
Lemma checkcfg_usage flag m c res m' : current_config m = Some c ->
  checkcfg net getenv facilitynames st_dev junk_dev no_MD5_ no_crypt_ quiet_flag verbose_flag flag m = Ok (res, m') ->
  exists c', current_config m' = Some c' /\ usageCount c' = if decide (res = Some true) then 1 else usageCount c.
Proof.
  intros Hc H. unfold checkcfg in H. case_match; [injection H as <- <-; by exists c|].
  change (current_config (m <| Readcfg.got_sighup := false |>)) with (current_config m) in H. rewrite Hc in H. cbv zeta in H.
  case_match; [injection H as <- <-; by eexists|]. destruct (map _ _) as [|pc l]; [done|].
  apply mem_bind_ok in H as ([x r'] & Hr & H). cbn [fst snd] in H.
  destruct x as [[c'|]|]; injection H as <- <-; [|by eexists..]. exists c'. split; [done|].
  match type of Hr with readcfg _ _ _ _ _ _ _ _ _ ?path ?r = _ =>
    pose proof (readcfg_runs net getenv facilitynames st_dev junk_dev no_MD5_ no_crypt_ quiet_flag verbose_flag path r) as Hrun end.
  rewrite Hr in Hrun. destruct Hrun as [_ Ha]. exact (ac_usage _ _ _ (Ha c' eq_refl)).
Qed.

(** A reload keeps the count: the new structure is used as the current one
    alone, and the old one stays for those who still use it. *)
Lemma owned_reload flag p hs res q : owned p hs -> reload flag p = Ok (res, q) -> owned q hs.
Proof.
  intros Ho H. unfold reload_config in H. rewrite (owned_touch p hs (current p) Ho ltac:(by left)) in H.
  apply mem_bind_ok in H as ([r m] & Hm & H). apply checkcfg_usage with (c := config_at p (current p)) in Hm as (c' & Hc & Hu); [|done].
  rewrite Hc in H. cbn [default] in H. destruct (owned_alloc p hs (current p) Ho ltac:(by left)) as [c Hcur].
  assert (Hat : config_at p (current p) = c) by (unfold config_at; by rewrite Hcur). rewrite Hat in Hu.
  set (p1 := p <| p_world := m_world m |> <| p_sighup := Readcfg.got_sighup m |> <| p_reader := m_reader m |>) in H.
  assert (H1 : owned p1 hs) by exact (owned_same p p1 hs eq_refl eq_refl eq_refl Ho).
  destruct (decide (r = Some true)) as [->|Hr]; injection H as <- <-.
  - set (i := malloc (dom (heap p1))). assert (Hi : heap p1 !! i = None) by (apply not_elem_of_dom, malloc_new).
    destruct H1 as [F1 H1]. pose proof (H1 i) as Hn. rewrite Hi in Hn.
    destruct (unlock_heap (p1 <| heap ::= <[i:=c']> |> <| current := i |>) (current p1) (i :: current p1 :: hs) (i :: hs))
      as (A & B & C); [done|set_solver|by rewrite Permutation_swap| |].
    + intros j. change (heap (p1 <| heap ::= <[i:=c']> |> <| current := i |>)) with (<[i:=c']> (heap p1)). specialize (H1 j).
      destruct (decide (j = i)) as [->|Hj].
      * rewrite lookup_insert_eq, users_cons, decide_True by done. assert (users i (current p1 :: hs) = 0); [|lia].
        rewrite users_in in Hn. unfold users in *. lia.
      * rewrite lookup_insert_ne by done. destruct (heap p1 !! j); [by rewrite users_cons, decide_False by done|].
        rewrite elem_of_cons. tauto.
    + assert (Hq : owned (unlock_config (current p1) ((p1 <| heap ::= <[i:=c']> |>) <| current := i |>)) hs); [|exact Hq].
      constructor; [exact A|]. rewrite B. exact C.
  - destruct H1 as [F1 H1]. constructor; [done|]. intros j. specialize (H1 j). cbn [heap current].
    change (heap p1 !! j) with (heap p !! j) in H1. change (current p1) with (current p) in H1. destruct (decide (j = current p)) as [->|Hj].
    + rewrite lookup_insert_eq. rewrite Hcur in H1. by rewrite Hu.
    + by rewrite lookup_insert_ne.
Qed.
End Reloading.

(** ** The counter of a manager

    It counts the processes started and not waited for, but for the client
    manager. *)
Definition mine (pidcmgr : Z) (l : list Z) : Z := Z.of_nat (length (filter (fun p => p <> pidcmgr) l)).
Record counted (pidcmgr : Z) (k : CHILDREN) : Prop := {
  cn_count : count k = mine pidcmgr (alive k ++ zombies k);
  cn_pos : Forall (fun p => 0 < p) (alive k ++ zombies k)
}.
Lemma mine_perm c l l' : l ≡ₚ l' -> mine c l = mine c l'.
Proof. intros H. unfold mine. by rewrite H. Qed.
Lemma mine_app c l l' : mine c (l ++ l') = mine c l + mine c l'.
Proof. unfold mine. rewrite filter_app, length_app. lia. Qed.
Lemma mine_cons c p l : mine c (p :: l) = (if decide (p = c) then 0 else 1) + mine c l.
Proof. unfold mine. rewrite filter_cons. repeat case_decide; simpl; first [done|lia]. Qed.
Lemma sighandler_perm dead k : alive (sighandler_chld dead k) ++ zombies (sighandler_chld dead k) ≡ₚ alive k ++ zombies k.
Proof.
  unfold sighandler_chld. destruct (filter (fun p => p ∈ dead) (alive k)) as [|p t] eqn:E; [done|].
  cbn [alive zombies]. cbn. rewrite <- E. clear E p t. induction (alive k) as [|p l IH]; [simpl; by rewrite app_nil_r|].
  rewrite !filter_cons. destruct (decide (p ∈ dead)) as [H|H].
  - rewrite decide_False by tauto. rewrite (Permutation_app_comm (zombies k)). simpl. rewrite <- Permutation_middle.
    constructor. rewrite <- IH. f_equiv. apply Permutation_app_comm.
  - rewrite decide_True by done. simpl. by constructor.
Qed.
Lemma sighandler_counted c dead k : counted c k -> counted c (sighandler_chld dead k).
Proof.
  intros [H1 H2]. pose proof (sighandler_perm dead k) as Hp. constructor; [|by rewrite Hp].
  rewrite (mine_perm _ _ _ Hp), <- H1. unfold sighandler_chld. by destruct (filter _ _).
Qed.
Lemma wait_all_count c l n m : Forall (fun p => 0 < p) l -> wait_all c l n = Some m -> m = n - mine c l.
Proof.
  revert n. induction l as [|p l IH]; intros n Hl H; cbn [wait_all] in H; [injection H as <-; unfold mine; simpl; lia|].
  apply Forall_cons in Hl as [Hp Hl]. rewrite mine_cons. destruct (negb (c =? 0) && (p =? c)) eqn:E; [done|].
  apply IH in H; [|done]. case_decide; [bools; lia|lia].
Qed.
Lemma check_child_counted c k k' : counted c k -> check_child c k = Some k' ->
  counted c k' /\ alive k' = alive k /\ (got_sigchld k = true -> zombies k' = []).
Proof.
  intros [H1 H2] H. unfold check_child, chld in H. destruct (got_sigchld k); [|by injection H as <-].
  destruct (wait_all _ _ _) as [n|] eqn:E; [|done]. injection H as <-. apply Forall_app in H2 as [H2 H3].
  apply wait_all_count in E; [|done]. split; [|done]. constructor; cbn; rewrite app_nil_r; [|done].
  rewrite E, H1, mine_app. lia.
Qed.
Lemma fork_counted c k pid : Zpos pid <> c -> counted c k -> counted c (k <| alive ::= cons (Zpos pid) |> <| count ::= Z.succ |>).
Proof.
  intros Hp [H1 H2]. constructor; cbn; [|by constructor]. rewrite mine_cons, decide_False by done. lia.
Qed.
