(* ===== verification/Spool.v ===== *)
(** * protocol.c: what a session does to the spool

    Files that were sent are removed from the outbound, from the list they were
    read from, and from the session's own list; the status of a link without
    dupes is kept in a file of its own. *)
From S2P Require Import Prelude CStr Tools Pmatch FtnAddr Getw Sys Types FtnNode ReadFlo Prothlp FtnQ Inbound Frames.

(** ** Words of a message: the loop over [getwordx (s, i, 0)] *)
Fixpoint words_from (fuel : nat) (s : cstr) (i : nat) : mem (list cstr) :=
  match fuel with
  | O => Fuel
  | S f =>
      let* w := getwordx no_env s i GWX_0 in
      match w with
      | None => Ok []
      | Some w => let* l := words_from f s (S i) in Ok (w :: l)
      end
  end.
(** Every word takes a character. *)
Definition all_words (s : cstr) : mem (list cstr) := words_from (S (length s)) s 1.

Definition queue_list (q : QUEUE) : list FTNQ := match q with Queue l => l | SCAN_LISTED => [] end.
Definition uintmax (z : Z) : cstr := fmt_u (wrap 64 z).
(** ["%s %lu %lu"] *)
Definition file_args (t : TFILE) : cstr :=
  t_netname t ++ str " " ++ uintmax (t_size t) ++ str " " ++ uintmax (t_time t).

Definition OK_SEND_FILES (st : STATE) (config : BINKD_CONFIG) : bool :=
  (negb (send_if_pwd config) || bool_decide (state st = P_SECURE) || bool_decide (is_Some (to st))) &&
  negb (r_skipped_flag st).

(** The addresses the session holds. *)
Definition locked (st : STATE) : list FTN_ADDR := take (nfa st) (fa st).

(** [parse_args], telling the other side when it fails. *)
Definition parse_msg_args (ac : nat) (s ID : cstr) (st : STATE) : option (list cstr * cstr) * STATE :=
  match parse_args ac s with
  | Some r => (Some r, st)
  | None => (None, msg_send2 st M_ERR ID (str ": cannot parse args"))
  end.

(** ** Files that were sent *)
Definition perform_action (st : STATE) (w : WORLD) (path : cstr) (action : char) : STATE * WORLD :=
  if action =? chr "d" then
    let '(rc, w) := on_sys w (delete_ (sys w) path) in
    (if rc =? 0 then st else st <| nosendlist ::= fun l => l ++ [path] |>, w)
  else if action =? chr "t" then (st, (on_sys w (trunc_file (sys w) path)).2)
  else if action =? chr "s" then (st <| killlist ::= fun l => add_to_killlist l path (chr "s") |>, w)
  else (st, w).

(** The lines that name the file are marked; whether one did, and whether
    every line is marked now. *)
Definition flo_names (file : option cstr) (buf : cstr) : bool :=
  match file with
  | Some file => (strcmp file buf =? 0) || (((hd0 buf =? chr "^") || (hd0 buf =? chr "#")) && (strcmp file (tl buf) =? 0))
  | None => false
  end.
Fixpoint mark_loop (fuel : nat) (file : option cstr) (f : list Z) : mem (list Z * bool * bool) :=
  match fuel with
  | O => Fuel
  | S fuel =>
      match fgets (MAXPATHLEN - 1) f with
      | ([], _) => Ok ([], false, true)
      | (line, f) =>
          let* r := mark_loop fuel file f in
          let '(rest, found, empty) := r in
          let buf := trim_right (c_string line) in
          match buf with
          | [] => Ok (line ++ rest, found, empty)
          | c :: _ =>
              if flo_names file buf then Ok (chr "~" :: tl line ++ rest, true, empty)
              else Ok (line ++ rest, found, if c =? chr "~" then empty else false)
          end
      end
  end.

(** Done with a file of a list ([flopath]), with the list itself, or with a
    file of its own. *)
Definition remove_from_spool (st : STATE) (w : WORLD) (flopath : cstr) (file : option cstr) (action : char)
    (config : BINKD_CONFIG) : mem (STATE * WORLD) :=
  let finish (w : WORLD) (name : option cstr) :=
    match name, file with
    | Some name, _ | None, Some name => Ok (perform_action st w name action)
    | None, None => Ok (st, w)
    end in
  match flopath with
  | [] => finish w None
  | _ =>
      let open_ := match t_f (flo st) with Some _ => strcmp (t_path (flo st)) flopath =? 0 | None => false end in
      if negb open_ && negb (is_file (sys w) flopath && negb (deny (sys w) flopath)) then Ok (st, w) else
      let data := default [] (fopen_r (sys w) flopath) in
      let* r := mark_loop (S (length data)) file data in
      let '(data', found, empty) := r in
      let w := if found then w <| sys ::= fun s => put_file s flopath data' |> else w in
      let w := if negb open_ && empty then (on_sys w (delete_ (sys w) flopath)).2 else w in
      let* name := match file with
                   | Some file => if found then trans_flo_line file (rf_rules config) else Ok None
                   | None => Ok None
                   end in
      finish w name
  end.

Definition remove_from_sent_files_queue (st : STATE) (n : nat) : STATE :=
  let l := alter (fun t => t <| t_netname := [] |>) n (sent_fls st) in
  st <| sent_fls := if forallb (fun t => match t_netname t with [] => true | _ => false end) l then [] else l |>.

(** The first sent file that is the one named. *)
Fixpoint find_sent (l : list TFILE) (netname : cstr) (size time : Z) : option nat :=
  match l with
  | [] => None
  | t :: l => if tfile_cmp t netname size time =? 0 then Some O else S <$> find_sent l netname size time
  end.

(** ** The status of a link without dupes *)
Definition ND_set_status (w : WORLD) (status : cstr) (fa0 : FTN_ADDR) (config : BINKD_CONFIG) : mem (bool * WORLD) :=
  if fa_z fa0 =? -1 then Ok (false, w) else
  let* name := ftnaddress_to_filename_ fa0 (pDomains config) in
  match name with
  | [] => Ok (false, w)
  | _ =>
      let buf := strnzcat name (str ".stc") buf_size in
      match status with
      | [] =>
          let '(rc, w) := on_sys w (unlink (sys w) buf) in
          Ok (if rc =? 0 then true else negb (exists_ (sys w) buf), w)
      | _ =>
          if fopen_w (sys w) buf then Ok (true, w <| sys ::= fun s => put_file s buf status |>)
          else Ok (false, w)
      end
  end.
(** The address of the status is forgotten. *)
Definition clear_status (st : STATE) (w : WORLD) (config : BINKD_CONFIG) : mem (STATE * WORLD) :=
  let* r := ND_set_status w [] (ND_addr st) config in
  Ok (st <| ND_addr ::= fun a => a <| fa_z := -1 |> |>, r.2).

(** A partly received packet and an empty file are not kept. *)
Definition close_partial (st : STATE) (w : WORLD) (config : BINKD_CONFIG) : mem (STATE * WORLD) :=
  let* r :=
    match t_f (in_ st) with
    | Some h =>
        let s := if ispkt (t_netname (in_ st)) then 0 else h_pos h in
        let st := st <| in_ ::= fun t => t <| t_f := None |> |> in
        if s =? 0 then let* r := inb_reject (sys w) st config in Ok (st, w <| sys := r.2 |>)
        else Ok (st, w)
    | None => Ok (st, w)
    end in
  Ok (r.1 <| in_ := TF_ZERO |>, r.2).

(** val: the rule a file is skipped by *)
Fixpoint skip_test_loop (l : list skipchain) (amask : Z) (file : TFILE) : option skipchain :=
  match l with
  | [] => None
  | ps :: t =>
      if has (sk_atype ps) amask && pmatch_ncase (sk_mask ps) (t_netname file)
      then if (0 <=? sk_size ps) && (sk_size ps <=? t_size file) then Some ps else None
      else skip_test_loop t amask file
  end.
Definition skip_test (st : STATE) (config : BINKD_CONFIG) : option skipchain :=
  let amask := Z.lor (if listed_flag st =? 0 then A_UNLST else A_LST)
                 (if bool_decide (state st = P_SECURE) then A_PROT else A_UNPROT) in
  skip_test_loop (skipmask config) amask (in_ st).

Definition select_inbound (w : WORLD) (fa0 : option FTN_ADDR) (secure : t_state) (config : BINKD_CONFIG) : cstr * WORLD :=
  let '(node, w) := match fa0 with Some a => get_node_info w a config | None => (None, w) end in
  (match node ≫= n_ibox with
   | Some box => box
   | None => if bool_decide (secure = P_SECURE) then c_inbound config else inbound_nonsecure config
   end, w).

Definition do_prescan (st : STATE) (w : WORLD) (config : BINKD_CONFIG) : mem (STATE * WORLD) :=
  if OK_SEND_FILES st config && prescan config then
    let* r := q_scan_addrs w (Queue []) (locked st) (bool_decide (is_Some (to st))) config in
    let* g := q_get_sizes (sys r.2) (queue_list r.1) in
    let '(netsize, filessize, l) := g in
    let st := msg_send2 (st <| q := l |>) M_NUL (str "TRF ") (uintmax netsize ++ str " " ++ uintmax filessize) in
    let st := if major st * 100 + minor st <=? 100
              then Nat.iter (Z.to_nat (q_freq_num l)) (fun st => msg_send2 st M_NUL (str "FREQ") []) st else st in
    Ok (st, r.2)
  else Ok (st, w).

(** ** Which files an operation changes *)
Definition same_but (P : cstr -> Prop) (w w' : WORLD) : Prop := forall x, P x \/ fs (sys w') !! x = fs (sys w) !! x.
Lemma same_but_refl P w : same_but P w w.
Proof. intros x. by right. Qed.
Lemma same_but_trans (P : cstr -> Prop) w1 w2 w3 : same_but P w1 w2 -> same_but P w2 w3 -> same_but P w1 w3.
Proof. intros H1 H2 x. destruct (H1 x) as [?|E1]; [by left|]. destruct (H2 x) as [?|E2]; [by left|]. right. congruence. Qed.
Lemma same_but_weaken (P Q : cstr -> Prop) w w' : (forall x, P x -> Q x) -> same_but P w w' -> same_but Q w w'.
Proof. intros H H1 x. destruct (H1 x); eauto. Qed.

Lemma unlink_same s p x : x = p \/ fs (unlink s p).2 !! x = fs s !! x.
Proof.
  destruct (decide (x = p)); [by left|]. right. unfold unlink. case_if; [|done]. simpl. by rewrite lookup_delete_ne.
Qed.
Lemma put_file_same s p d x : x = p \/ fs (put_file s p d) !! x = fs s !! x.
Proof. destruct (decide (x = p)); [by left|]. right. simpl. by rewrite lookup_insert_ne. Qed.
Lemma trunc_file_same s p x : x = p \/ fs (trunc_file s p).2 !! x = fs s !! x.
Proof. unfold trunc_file. case_if; [apply put_file_same|by right]. Qed.
Lemma on_sys_same {A} (P : cstr -> Prop) w (r : A * SYS) :
  (forall x, P x \/ fs r.2 !! x = fs (sys w) !! x) -> same_but P w (on_sys w r).2.
Proof. done. Qed.

Lemma perform_action_same st w path action : same_but (fun x => x = path) w (perform_action st w path action).2.
Proof.
  unfold perform_action. case_if; [|case_if; [|by case_if; apply same_but_refl]].
  - unfold on_sys, delete_. simpl. destruct (unlink (sys w) path) as [rc s] eqn:Eu. simpl. intros x.
    pose proof (unlink_same (sys w) path x) as Hx. by rewrite Eu in Hx.
  - simpl. intros x. apply trunc_file_same.
Qed.

(** The names a file of the spool goes by: its list, itself, its translation. *)
Definition spool_names (flopath : cstr) (file : option cstr) (config : BINKD_CONFIG) (x : cstr) : Prop :=
  x = flopath \/ file = Some x \/ exists f, file = Some f /\ trans_flo_line f (rf_rules config) = Ok (Some x).

Lemma remove_from_spool_same st w flopath file action config r :
  remove_from_spool st w flopath file action config = Ok r -> same_but (spool_names flopath file config) w r.2.
Proof.
  assert (Hact : forall w name, (file = Some name \/ exists f, file = Some f /\ trans_flo_line f (rf_rules config) = Ok (Some name)) ->
    same_but (spool_names flopath file config) w (perform_action st w name action).2).
  { intros w1 name Hn. eapply same_but_weaken; [|apply perform_action_same]. intros x ->. unfold spool_names. tauto. }
  unfold remove_from_spool. destruct flopath as [|c fp] eqn:Ef.
  - destruct file as [f|]; intros [= <-]; [apply Hact; by left|apply same_but_refl].
  - rewrite <- Ef in *. set (open_ := match t_f (flo st) with Some _ => _ | None => false end).
    case_if; [intros [= <-]; apply same_but_refl|]. intros H. apply mem_bind_ok in H as ([[data' found] empty] & _ & H).
    set (w1 := if found then w <| sys ::= fun s => put_file s flopath data' |> else w) in *.
    assert (H1 : same_but (spool_names flopath file config) w w1).
    { subst w1. destruct found; [|apply same_but_refl]. intros x. simpl.
      destruct (put_file_same (sys w) flopath data' x); [left; by left|by right]. }
    set (w2 := if negb open_ && empty then (on_sys w1 (delete_ (sys w1) flopath)).2 else w1) in *.
    assert (H2 : same_but (spool_names flopath file config) w1 w2).
    { subst w2. case_if; [|apply same_but_refl]. intros x. simpl. destruct (unlink_same (sys w1) flopath x); [left; by left|by right]. }
    pose proof (same_but_trans _ _ _ _ H1 H2) as H3. apply mem_bind_ok in H as (name & Hn & H).
    destruct name as [name|].
    + injection H as <-. eapply same_but_trans; [exact H3|]. apply Hact. destruct file as [f|]; [|done].
      right. exists f. split; [done|]. by destruct found.
    + destruct file as [f|]; injection H as <-; [|done]. eapply same_but_trans; [exact H3|]. apply Hact. by left.
Qed.

(** The status file of some address. *)
Definition status_file (config : BINKD_CONFIG) (x : cstr) : Prop :=
  exists a name, ftnaddress_to_filename_ a (pDomains config) = Ok name /\ x = strnzcat name (str ".stc") buf_size.
Lemma ND_set_status_same w status a config r :
  ND_set_status w status a config = Ok r -> same_but (status_file config) w r.2.
Proof.
  unfold ND_set_status. case_if; [intros [= <-]; apply same_but_refl|]. intros H.
  apply mem_bind_ok in H as ([|c name] & Hn & H); [injection H as <-; apply same_but_refl|].
  assert (Hx : status_file config (strnzcat (c :: name) (str ".stc") buf_size)) by (by exists a, (c :: name)).
  set (buf := strnzcat _ _ _) in *. destruct status as [|s0 s1].
  - unfold on_sys in H. destruct (unlink (sys w) buf) as [rc s] eqn:Eu. injection H as <-. intros x. simpl.
    pose proof (unlink_same (sys w) buf x) as Hs. rewrite Eu in Hs. destruct Hs as [->|?]; [by left|by right].
  - revert H. case_if; intros [= <-]; [|apply same_but_refl]. intros x. simpl.
    destruct (put_file_same (sys w) buf (s0 :: s1) x) as [->|?]; [by left|by right].
Qed.

(** ** No file grows *)
Definition data_at (w : WORLD) (p : cstr) : list Z := default [] (fopen_r (sys w) p).
Definition no_growth (w w' : WORLD) : Prop := forall p, (length (data_at w' p) <= length (data_at w p))%nat.
Lemma no_growth_refl w : no_growth w w.
Proof. by intros p. Qed.
Lemma no_growth_trans w1 w2 w3 : no_growth w1 w2 -> no_growth w2 w3 -> no_growth w1 w3.
Proof. intros H1 H2 p. specialize (H1 p). specialize (H2 p). lia. Qed.
Lemma no_growth_delete w s p : s = delete p (fs (sys w)) -> forall w', fs (sys w') = s -> no_growth w w'.
Proof.
  intros -> w' E x. unfold data_at, fopen_r. rewrite E. destruct (decide (p = x)) as [->|];
    [rewrite lookup_delete_eq; simpl; lia|by rewrite lookup_delete_ne].
Qed.
Lemma no_growth_put w p d : (length d <= length (data_at w p))%nat -> no_growth w (w <| sys ::= fun s => put_file s p d |>).
Proof.
  intros Hl x. unfold data_at, fopen_r, put_file in *. simpl in *. destruct (decide (p = x)) as [->|];
    [rewrite lookup_insert_eq; done|by rewrite lookup_insert_ne].
Qed.
Lemma unlink_no_growth w p : no_growth w (on_sys w (unlink (sys w) p)).2.
Proof.
  unfold on_sys, unlink. case_if; simpl; [by eapply no_growth_delete|]. by intros x.
Qed.

Lemma perform_action_no_growth st w path action :
  no_growth w (perform_action st w path action).2 /\ flo (perform_action st w path action).1 = flo st /\
  q (perform_action st w path action).1 = q st.
Proof.
  unfold perform_action. case_if; [|case_if; [|case_if; (split; [apply no_growth_refl|done])]].
  - pose proof (unlink_no_growth w path) as H. unfold on_sys, delete_ in *. destruct (unlink (sys w) path) as [rc s].
    simpl in *. split; [done|]. by case_if.
  - split; [|done]. simpl. unfold trunc_file. case_if; [|by intros x].
    change (no_growth w (w <| sys ::= fun s => put_file s path [] |>)). apply no_growth_put. simpl. lia.
Qed.

#[local] Opaque MAXPATHLEN.
Lemma mark_loop_ends file f : outcome (fun r => (length r.1.1 <= length f)%nat) False (mark_loop (S (length f)) file f).
Proof.
  assert (Hg : forall fuel l, (length l < fuel)%nat -> outcome (fun r => (length r.1.1 <= length l)%nat) False (mark_loop fuel file l)).
  { induction fuel as [|n IH]; intros l Hl; [lia|]. cbn [mark_loop].
    destruct (fgets (MAXPATHLEN - 1) l) as [line rest] eqn:E. destruct (fgets_consume _ _ _ _ line_size E) as [_ Hlen].
    destruct line as [|c0 line]; [simpl; lia|]. simpl in Hlen.
    eapply outcome_bind; [apply IH; lia|]. intros [[d found] empty] Hd. cbn [fst] in Hd.
    destruct (trim_right _) as [|c dst]; [simpl; rewrite length_app; lia|].
    case_if; simpl; rewrite length_app; lia. }
  apply Hg. lia.
Qed.

Lemma remove_from_spool_no_growth st w flopath file action config :
  outcome (fun r => no_growth w r.2 /\ flo r.1 = flo st /\ q r.1 = q st) False (remove_from_spool st w flopath file action config).
Proof.
  unfold remove_from_spool. destruct flopath as [|c fp] eqn:Ef.
  - destruct file; [apply perform_action_no_growth|]. simpl. split; [apply no_growth_refl|done].
  - rewrite <- Ef in *. set (open_ := match t_f (flo st) with Some _ => _ | None => false end).
    case_if; [simpl; split; [apply no_growth_refl|done]|].
    eapply outcome_bind; [apply mark_loop_ends|]. intros [[data' found] empty] Hd. cbn [fst] in Hd.
    set (w1 := if found then w <| sys ::= fun s => put_file s flopath data' |> else w).
    assert (H1 : no_growth w w1) by (subst w1; destruct found; [by apply no_growth_put|apply no_growth_refl]).
    set (w2 := if negb open_ && empty then _ else w1).
    assert (H2 : no_growth w1 w2) by (subst w2; case_if; [apply unlink_no_growth|apply no_growth_refl]).
    pose proof (no_growth_trans _ _ _ H1 H2) as H3. clearbody w2. clear H1 H2 w1.
    assert (Hfin : forall name, outcome (fun r => no_growth w r.2 /\ flo r.1 = flo st /\ q r.1 = q st) False
      (Ok (perform_action st w2 name action))).
    { intros name. destruct (perform_action_no_growth st w2 name action) as (A & B & C). simpl. split; [by eapply no_growth_trans|done]. }
    destruct file as [f|]; [|simpl; done]. destruct found; [|simpl; apply Hfin].
    destruct (trans_flo_ok f (rf_rules config)) as [[name|] ->]; simpl; apply Hfin.
Qed.
