(* ===== verification/Login.v ===== *)
(** * protocol.c: the login

    The messages that open a session: what the other side is (M_NUL), its
    addresses (M_ADR), the password (M_PWD) and the answer to it (M_OK).  False
    ends the session.  The resolver and the indeterminate values that
    uninitialised variables hold are parameters. *)
From S2P Require Import Prelude CStr Crypt Tools Pmatch Md5 FtnAddr Getw Sys Types Bsy FtnNode FtnQ Inbound Frames Hosts Spool.

(** ** M_NUL: what the other side says about itself *)
Definition old_binkd : list cstr :=
  [str "binkd/0.9/"; str "binkd/0.9.1/"; str "binkd/0.9.2/"; str "binkd/0.9.3/"].
Definition has_buggy_NR (v : cstr) : bool :=
  existsb (fun p => is_prefix p v) old_binkd ||
  (is_prefix (str "binkd/0.9.3") v && isalpha (at_ v 11) && (at_ v 12 =? chr "/")) ||
  is_prefix (str "binkd/0.9.4/") v.

Definition nul_version (st : STATE) (s a b : cstr) : STATE :=
  let st := st <| major := atoi (drop 6 a) |> <| minor := atoi (drop 1 b) |> in
  if has_buggy_NR (drop 4 s) then st <| buggy_NR := true |> else st.

Definition nul_option (config : BINKD_CONFIG) (st : STATE) (w : cstr) : mem STATE :=
  if strcmp w (str "NR") =? 0 then Ok (st <| NR_flag ::= fun f => Z.lor f WE_NR |>)
  else if strcmp w (str "ND") =? 0 then Ok (st <| ND_flag ::= fun f => Z.lor f WE_ND |>)
  else if strcmp w (str "NDA") =? 0 then Ok (st <| ND_flag ::= fun f => Z.lor f CAN_NDA |>)
  else if strcmp w (str "CRYPT") =? 0 then Ok (st <| crypt_flag ::= fun f => Z.lor f THEY_CRYPT |>)
  else if (strncmp w (str "CRAM-") 5 =? 0) && negb (no_MD5 config) &&
          match to st with Some n => 0 <=? n_MD_flag n | None => false end
  then let* c := MD_getChallenge w in Ok (st <| MD_challenge := c |>)
  else if strcmp w (str "EXTCMD") =? 0 then Ok (st <| extcmd := true |>)
  else Ok st.

Definition nul_text (s : cstr) (st : STATE) : STATE :=
  if is_prefix (str "SYS ") s then st <| sysname := strnzcpy (drop 4 s) (MAXSYSTEMNAME + 1) |>
  else if is_prefix (str "ZYZ ") s then st <| sysop := strnzcpy (drop 4 s) (MAXSYSOPNAME + 1) |>
  else if is_prefix (str "LOC ") s then st <| location := strnzcpy (drop 4 s) (MAXLOCATIONNAME + 1) |>
  else if is_prefix (str "FREQ") s then st <| delay_EOB ::= Z.succ |>
  else st.

Definition NUL (config : BINKD_CONFIG) (buf : cstr) (st : STATE) : mem STATE :=
  let s := strquote buf SQ_CNTRL in
  let ver := if is_prefix (str "VER ") s
             then strstr s (PRTCLNAME ++ str "/") ≫= fun a => strstr a (str ".") ≫= fun b => Some (a, b)
             else None in
  match ver with
  | Some (a, b) => Ok (nul_version st s a b)
  | None =>
      if is_prefix (str "TRF ") s then
        let* mail := getwordx no_env (drop 4 s) 1 GWX_0 in
        match mail with
        | Some _ => let* _ := getwordx no_env (drop 4 s) 2 GWX_0 in Ok st
        | None => Ok st
        end
      else if is_prefix (str "OPT ") s then
        let* ws := all_words (drop 4 s) in mem_fold (nul_option config) ws st
      else Ok (nul_text s st)
  end.

(** ** M_ADR: the addresses of the other side *)

(** A shared address the other side presents is blanked in the line [s]; one of
    an address that shares it is added to [ad]. *)
Definition blank (w s : cstr) : option cstr :=
  match strstr s w with
  | Some c => let i := (length s - length c)%nat in
              Some (take i s ++ replicate (length w) 32 ++ drop (length w) c)
  | None => None
  end.
Fixpoint share_scan (l : list SHARED_CHAIN) (fa0 : FTN_ADDR) (ad : option cstr) : bool * option cstr :=
  match l with
  | [] => (false, ad)
  | chn :: t =>
      if ftnaddress_cmp fa0 (sha chn) =? 0 then (true, ad)
      else
        let ad := if existsb (fun f => ftnaddress_cmp f fa0 =? 0) (sfa chn)
                  then Some (default [] ad ++ str " " ++ ftnaddress_to_str (sha chn)) else ad in
        share_scan t fa0 ad
  end.
Fixpoint add_shared_loop (fuel : nat) (s : cstr) (i : nat) (ad : option cstr) (config : BINKD_CONFIG)
    : mem (cstr * option cstr) :=
  match fuel with
  | O => Fuel
  | S f =>
      let* w := getwordx no_env s i GWX_0 in
      match w with
      | None => Ok (s, ad)
      | Some w =>
          let '(ok, fa0) := parse_ftnaddress w (pDomains config) in
          if ok && is5D fa0 then
            let '(hit, ad) := share_scan (shares config) fa0 ad in
            match (if hit then blank w s else None) with
            | Some s => add_shared_loop f s i ad config
            | None => add_shared_loop f s (S i) ad config
            end
          else add_shared_loop f s (S i) ad config
      end
  end.
(** A step blanks a character or goes on to the next word. *)
Definition add_shared_akas (s : cstr) (config : BINKD_CONFIG) : mem (cstr * option cstr) :=
  add_shared_loop (2 * length s + 2) s 1 None config.

(** Which addresses of ours are told: one rule after the other. *)
Definition aka_rule (l : list FTN_ADDR) (st : STATE) (ps : akachain) : list FTN_ADDR :=
  let t := Z.land (ak_type ps) 0x7f in
  let want := if Z.land (ak_type ps) 0x80 =? 0 then 0 else -1 in
  let theirs := match to st with Some n => [n_fa n] | None => locked st end in
  let rc := ftnamask_cmpm (ak_mask ps) theirs =? want in
  if (t =? ACT_HIDE) && rc then filter (fun a => ftnaddress_cmp a (ak_fa ps) <> 0) l
  else if (t =? ACT_PRESENT) && rc then
    if existsb (fun a => ftnaddress_cmp a (ak_fa ps) =? 0) l then l else l ++ [ak_fa ps]
  else l.
Definition send_ADR (st : STATE) (config : BINKD_CONFIG) : mem STATE :=
  let l := fold_left (fun l ps => aka_rule l st ps) (akamask config) (default (pAddr config) (st_pAddr st)) in
  let st := st <| st_pAddr := Some l |> in
  match l with
  | [] => Oob
  | _ => Ok (msg_send2 st M_ADR (concat (map (fun a => str " " ++ ftnaddress_to_str a) l)) [])
  end.

(** The address the caller has is looked for among those of the node's hosts:
    1 is found, -1 not found, 0 nothing resolved, 2 the caller's address could
    not be read ([sin] is then indeterminate). *)
Fixpoint match_hosts (l : list SOCKADDR) (sin : SOCKADDR) (ipok : Z) : Z :=
  match l with
  | [] => ipok
  | a :: t => if sockaddr_cmp_addr a sin =? 0 then 1 else match_hosts t sin (if ipok =? 0 then -1 else ipok)
  end.
Fixpoint hosts_loop (fuel : nat) (net : RESOLVER) (i : nat) (hosts : cstr) (fa0 : FTN_ADDR) (sin : SOCKADDR) (ipok : Z)
    (config : BINKD_CONFIG) : mem Z :=
  match fuel with
  | O => Fuel
  | S f =>
      let* hp := get_host_and_port net i hosts fa0 config in
      match hp with
      | None => Ok ipok
      | Some None => hosts_loop f net (S i) hosts fa0 sin ipok config
      | Some (Some (host, _)) =>
          if strcmp host (str "-") =? 0 then hosts_loop f net (S i) hosts fa0 sin ipok config
          else match resolve net host with
               | None => hosts_loop f net (S i) hosts fa0 sin ipok config
               | Some l => let ipok := match_hosts l sin ipok in
                           if ipok =? 1 then Ok 1 else hosts_loop f net (S i) hosts fa0 sin ipok config
               end
      end
  end.
Definition check_ip (net : RESOLVER) (junk_sin : SOCKADDR) (pn : FTN_NODE) (st : STATE) (config : BINKD_CONFIG) : mem Z :=
  let '(sin, ipok) := match numeric_host net (ipaddr st) with Some a => (a, 0) | None => (junk_sin, 2) end in
  match n_hosts pn with
  | Some hosts => hosts_loop (length hosts + 2) net 1 hosts (n_fa pn) sin ipok config
  | None => Ok ipok
  end.

(** The variables of the loop over the addresses. *)
Record ADR_VARS := mkADR_VARS {
  main_AKA_ok : bool;
  ip_verified : Z;
  secure_NR : Z; unsecure_NR : Z;
  secure_ND : Z; unsecure_ND : Z
}.
#[export] Instance eta_ADR_VARS : Eta ADR_VARS := fun v =>
  mkADR_VARS (main_AKA_ok v) (ip_verified v) (secure_NR v) (unsecure_NR v) (secure_ND v) (unsecure_ND v).
Definition no_adr_vars : ADR_VARS := mkADR_VARS false 0 NO_NR NO_NR NO_ND NO_ND.

(** What a step of the loop does with the address. *)
Inductive ADR_STEP := A_refuse (st : STATE) | A_drop (v : ADR_VARS) (st : STATE) | A_take (v : ADR_VARS) (st : STATE).

Definition has_pwd (pn : FTN_NODE) : bool := negb (strcmp (n_pwd pn) (str "-") =? 0).

(** The address must call from a host of its own. *)
Definition adr_check_ip (net : RESOLVER) (junk_sin : SOCKADDR) (pn : option FTN_NODE) (v : ADR_VARS) (st : STATE)
    (config : BINKD_CONFIG) : mem ADR_STEP :=
  match pn with
  | None => Ok (A_take v st)
  | Some pn =>
      if negb (n_restrictIP pn =? 0) &&
         match to st, n_pipe pn with
         | None, _ | Some _, None | Some _, Some [] => true
         | Some _, Some (_ :: _) => false
         end
      then
        let* ipok := check_ip net junk_sin pn st config in
        Ok (if ipok =? 1 then A_take (v <| ip_verified := 2 |>) st
            else if (ipok <? 0) || (n_restrictIP pn =? 2) then
              if has_pwd pn && bool_decide (to st = None)
              then A_refuse (msg_send2 st M_ERR (str "Bad source IP") [])
              else A_drop (if ip_verified v =? 0 then v <| ip_verified := -1 |> else v) st
            else A_take v st)
      else Ok (A_take (v <| ip_verified := 1 |>) st)
  end.

(** All addresses with a password must have the same one, which the session
    then expects; an empty one can never be given. *)
Definition adr_password (fa0 : FTN_ADDR) (pn : FTN_NODE) (v : ADR_VARS) (st : STATE) : ADR_STEP :=
  let expect (st : STATE) := st <| MD_flag ::= fun f => Z.lor f (n_MD_flag pn) |> in
  match (match to st with Some _ => n_out_pwd pn | None => Some (n_pwd pn) end) with
  | None => A_take v st
  | Some pwd =>
      let e := expected_pwd st in
      if strcmp pwd (str "-") =? 0 then A_take v st
      else if (strcmp pwd (str "!") =? 0) &&
              negb (match remote_fa st with Some a => ftnaddress_cmp a fa0 =? 0 | None => false end)
      then A_drop v (st <| expected_pwd := [] |>)
      else if (strcmp e (str "-") =? 0) || (strcmp e (str "!") =? 0)
      then A_take v (expect (st <| expected_pwd := strnzcpy pwd (MAXPWDLEN + 1) |>))
      else if (strcmp e pwd =? 0) || (strcmp pwd (str "!") =? 0) then A_take v (expect st)
      else A_drop v (match to st with Some _ => st | None => st <| expected_pwd := [] |> end)
  end.

(** The address is locked, or noted as busy. *)
Definition adr_lock (fa0 : FTN_ADDR) (pn : option FTN_NODE) (v : ADR_VARS) (st : STATE) (w : WORLD) (config : BINKD_CONFIG)
    : mem (ADR_STEP * WORLD) :=
  let* r := bsy_add w fa0 F_BSY config in
  let '(ok, w) := r in
  if (ok : bool) then
    let st := st <| fa ::= fun l => take (nfa st) l ++ fa0 :: drop (nfa st) l |> <| nfa ::= S |> in
    let main := match to st with Some n => ftnaddress_cmp fa0 (n_fa n) =? 0 | None => false end in
    Ok (A_take (if main then v <| main_AKA_ok := true |> else v) st, w)
  else if match pn with Some pn => has_pwd pn && bool_decide (to st = None) | None => false end then
    Ok (A_refuse (msg_sendf st M_BSY (str "Secure AKA " ++ ftnaddress_to_str fa0 ++ str " busy")), w)
  else Ok (A_take v (st <| fa ::= fun l => l ++ [fa0] |>), w).

(** The modes the node's entry asks for. *)
Definition adr_modes (pn : FTN_NODE) (v : ADR_VARS) : ADR_VARS :=
  if negb (n_ND_flag pn =? 0) then
    if has_pwd pn then v <| secure_ND := THEY_ND |> <| secure_NR := WANT_NR |>
    else v <| unsecure_ND := THEY_ND |> <| unsecure_NR := WANT_NR |>
  else if negb (n_NR_flag pn =? 0) then
    if has_pwd pn then v <| secure_NR := WANT_NR |> else v <| unsecure_NR := WANT_NR |>
  else v.

Definition adr_node (net : RESOLVER) (junk_sin : SOCKADDR) (fa0 : FTN_ADDR) (pn : option FTN_NODE) (v : ADR_VARS)
    (st : STATE) (w : WORLD) (config : BINKD_CONFIG) : mem (ADR_STEP * WORLD) :=
  let* r := adr_check_ip net junk_sin pn v st config in
  match r with
  | A_take v st =>
      let st := match pn with Some pn => st <| listed_flag ::= fun f => Z.lor f (n_listed pn) |> | None => st end in
      let r := match pn, expected_pwd st with
               | Some pn, _ :: _ => adr_password fa0 pn v st
               | _, _ => A_take v st
               end in
      match r with
      | A_take v st =>
          let* r := adr_lock fa0 pn v st w config in
          match r, to st, pn with
          | (A_take v st, w), None, Some pn => Ok (A_take (adr_modes pn v) st, w)
          | _, _, _ => Ok r
          end
      | _ => Ok (r, w)
      end
  | _ => Ok (r, w)
  end.

Definition adr_word (net : RESOLVER) (junk_sin : SOCKADDR) (word : cstr) (v : ADR_VARS) (st : STATE) (w : WORLD)
    (config : BINKD_CONFIG) : mem (ADR_STEP * WORLD) :=
  let '(ok, fa0) := parse_ftnaddress word (pDomains config) in
  if negb ok || negb (is4D fa0) then Ok (A_refuse (msg_send2 st M_ERR (str "Bad address") []), w) else
  let* fa0 := match fa_domain fa0 with
              | [] => let* d := get_matched_domain (fa_z fa0) (pAddr config) (pDomains config) in
                      Ok (fa0 <| fa_domain := d |>)
              | _ => Ok fa0
              end in
  let '(pn, w) := get_node_info w fa0 config in
  adr_node net junk_sin fa0 pn v st w config.

(** [None] is a refusal. *)
Fixpoint adr_loop (fuel : nat) (net : RESOLVER) (junk_sin : SOCKADDR) (s : cstr) (i : nat) (v : ADR_VARS) (st : STATE)
    (w : WORLD) (config : BINKD_CONFIG) : mem (option ADR_VARS * STATE * WORLD) :=
  match fuel with
  | O => Fuel
  | S f =>
      let* word := getwordx no_env s i GWX_0 in
      match word with
      | None => Ok (Some v, st, w)
      | Some word =>
          let* r := adr_word net junk_sin word v st w config in
          match r with
          | (A_refuse st, w) => Ok (None, st, w)
          | (A_drop v st, w) | (A_take v st, w) => adr_loop f net junk_sin s (S i) v st w config
          end
      end
  end.

Section Login.
Context (net : RESOLVER) (junk_sin : SOCKADDR) (md5junk : list Z) (junk : Z * Z) (config : BINKD_CONFIG).

(** The password goes out, hidden in a digest if the other side asked for one. *)
Definition out_pwd_of (n : FTN_NODE) : cstr := default (str "-") (n_out_pwd n).
Definition send_password (st : STATE) (n : FTN_NODE) (w : WORLD) : mem (bool * STATE * WORLD) :=
  match MD_challenge st with
  | Some c =>
      let st := msg_send2 st M_PWD (MD_buildDigest md5junk (out_pwd_of n) c) [] in
      Ok (true, st <| MD_flag := 1 |>, w)
  | None =>
      if (n_MD_flag n =? 1) && negb (no_MD5 config) then
        let* w := bad_try w (n_fa n) (str "CRAM-MD5 is not supported by remote") junk config in
        Ok (false, st, w)
      else Ok (true, msg_send2 st M_PWD (out_pwd_of n) [], w)
  end.

(** After all addresses. *)
Definition adr_finish (v : ADR_VARS) (st : STATE) (w : WORLD) : mem (bool * STATE * WORLD) :=
  if (nfa st =? 0)%nat then
    Ok (false, msg_send2 st M_BSY (str "No AKAs in common domains or all AKAs are busy") [], w)
  else
    match to st with
    | Some n =>
        if negb (main_AKA_ok v) then
          let* w := bad_try w (n_fa n) (str "Remote has no needed AKA") junk config in Ok (false, st, w)
        else if ip_verified v <? 0 then Ok (false, msg_send2 st M_ERR (str "Bad remote IP") [], w)
        else
          let* r := do_prescan st w config in
          send_password r.1 n r.2
    | None =>
        if ip_verified v <? 0 then Ok (false, msg_send2 st M_ERR (str "Bad remote IP") [], w)
        else
          let* st := if delay_ADR st then send_ADR st config else Ok st in
          let pwd := match expected_pwd st with [] => false | e => negb (strcmp e (str "-") =? 0) end in
          let st := st <| ND_flag ::= fun f => Z.lor f (if pwd then secure_ND v else unsecure_ND v) |>
                       <| NR_flag ::= fun f => Z.lor f (if pwd then secure_NR v else unsecure_NR v) |> in
          Ok (true, st, w)
    end.

Definition ADR (s : cstr) (st : STATE) (w : WORLD) : mem (bool * STATE * WORLD) :=
  let* a := match shares config with
            | [] => Ok (s, None)
            | _ => add_shared_akas s config
            end in
  let s := a.1 ++ default [] a.2 in
  let* first := getwordx no_env s 1 GWX_0 in
  match first with
  | None => Ok (false, st, w)
  | Some _ =>
      let st := match to st with
                | Some n => st <| expected_pwd := strnzcpy (out_pwd_of n) (MAXPWDLEN + 1) |>
                | None => st
                end in
      let* r := adr_loop (length s + 2) net junk_sin s 1 no_adr_vars st w config in
      match r with
      | (None, st, w) => Ok (false, st, w)
      | (Some v, st, w) => adr_finish v st w
      end
  end.

(** ** The end of the login *)

(** A session is encrypted if both sides want it and a password was hidden in a
    digest; each direction starts from the password with a mark in front of it
    on the answering side's. *)
Definition both_crypt (st : STATE) : bool := crypt_flag st =? Z.lor WE_CRYPT THEY_CRYPT.
Definition crypt_decide (st : STATE) : STATE :=
  if negb (bool_decide (state st = P_SECURE)) then st <| crypt_flag := NO_CRYPT |>
  else if both_crypt st && (MD_flag st =? 0) then st <| crypt_flag := NO_CRYPT |>
  else if both_crypt st && (strcmp (expected_pwd st) (str "!") =? 0) then st <| crypt_flag := NO_CRYPT |>
  else st.
Definition crypt_start (st : STATE) : STATE :=
  if both_crypt st then
    let st := st <| crypt_flag := YES_CRYPT |> in
    let answer (pwd : cstr) := update_keys_str 64 (init_keys 64 (str "-")) pwd in
    match to st with
    | Some n => st <| keys_out := init_keys 64 (out_pwd_of n) |> <| keys_in := answer (out_pwd_of n) |>
    | None => st <| keys_in := init_keys 64 (expected_pwd st) |> <| keys_out := answer (expected_pwd st) |>
    end
  else if crypt_flag st =? YES_CRYPT then st else st <| crypt_flag := NO_CRYPT |>.

Definition complete_login (st : STATE) (w : WORLD) : mem (STATE * WORLD) :=
  let '(inb, w) := select_inbound w (hd_error (fa st)) (state st) config in
  let st := st <| inbound := inb |> in
  let* r := if OK_SEND_FILES st config && bool_decide (q st = []) then
              let* r := q_scan_addrs w (Queue []) (locked st) (bool_decide (is_Some (to st))) config in
              Ok (st <| q := queue_list r.1 |>, r.2)
            else Ok (st, w) in
  let '(st, w) := r in
  let st := if OK_SEND_FILES st config then st <| q := q_sort (q st) (locked st) |> else st in
  let st := st <| msgs_in_batch := 0 |> in
  let st := if has (ND_flag st) WE_ND then st <| NR_flag ::= fun f => Z.lor f WE_NR |> else st in
  Ok (crypt_start (crypt_decide st), w).

(** *** M_PWD *)
Definition is_cram (pwd : cstr) : bool := o_strnicmp pwd (str "CRAM-") 5 =? 0.
Definition no_password (st : STATE) : bool := strcmp (expected_pwd st) (str "-") =? 0.

(** Is the password wrong?  [None] refuses the caller outright. *)
Definition bad_password (pwd : cstr) (st : STATE) : option bool * STATE :=
  if (MD_flag st =? 1) || (is_cram pwd && bool_decide (is_Some (MD_challenge st))) then
    if negb (is_cram pwd) && negb (MD_flag st =? 0)
    then (None, msg_send2 st M_ERR (str "You must support MD5") [])
    else
      let st := st <| MD_flag := 1 |> in
      (Some (if strcmp (expected_pwd st) (str "!") =? 0 then false
             else match MD_challenge st with
                  | Some c => negb (o_stricmp (MD_buildDigest md5junk (expected_pwd st) c) pwd =? 0)
                  | None => true
                  end), st)
  else
    (Some (if strcmp (expected_pwd st) (str "!") =? 0 then false
           else match expected_pwd st with [] => true | e => negb (strcmp e pwd =? 0) end), st).

(** False is a refusal. *)
Definition check_password (pwd : cstr) (st : STATE) (w : WORLD) : mem (bool * STATE * WORLD) :=
  if no_password st && negb (is_cram pwd) then
    let* r := do_prescan st w config in Ok (true, r.1 <| state := P_NONSECURE |>, r.2)
  else
    match bad_password pwd st with
    | (None, st) => Ok (false, st, w)
    | (Some bad, st) =>
        if bad && negb (no_password st) then Ok (false, msg_send2 st M_ERR (str "Bad password") [], w)
        else if no_password st then
          let* r := do_prescan (st <| state := P_NONSECURE |>) w config in
          Ok (true, if bad then r.1 <| state_ext := P_WE_NONSECURE |> else r.1, r.2)
        else
          let* r := do_prescan (st <| state := P_SECURE |>) w config in Ok (true, r.1, r.2)
    end.

(** The modes agreed on, and the options told to the caller. *)
Definition pwd_modes (st : STATE) : STATE :=
  let st := crypt_decide st in
  let st := if has (ND_flag st) WE_ND && negb (has (ND_flag st) CAN_NDA)
            then st <| ND_flag ::= fun f => Z.lor f THEY_ND |> else st in
  let st := if negb (has (ND_flag st) WE_ND) && negb (has (ND_flag st) CAN_NDA)
            then st <| ND_flag ::= fun f => Z.land f (Z.lnot THEY_ND) |> else st in
  if buggy_NR st && has (NR_flag st) WANT_NR then st <| NR_flag ::= fun f => Z.lor f WE_NR |> else st.
Definition auto_NR (st : STATE) (inb : cstr) (w : WORLD) : mem STATE :=
  if Z.land (NR_flag st) (Z.lor WANT_NR WE_NR) =? 0 then
    let* p := inb_has_partials (sys w) (st <| inbound := inb |>) config in
    Ok (if p then st <| NR_flag ::= fun f => Z.lor f WANT_NR |> else st)
  else Ok st.
Definition pwd_options (st : STATE) : cstr :=
  str " EXTCMD" ++ (if has (NR_flag st) WANT_NR then str " NR" else []) ++
  (if has (ND_flag st) THEY_ND then str " ND" else []) ++
  (if negb (bool_decide (has (ND_flag st) WE_ND = has (ND_flag st) THEY_ND)) then str " NDA" else []) ++
  (if both_crypt st then str " CRYPT" else []).

Definition PWD (pwd : cstr) (st : STATE) (w : WORLD) : mem (bool * STATE * WORLD) :=
  if bool_decide (is_Some (to st)) then Ok (true, st, w)
  else if negb (bool_decide (state st = P_NULL)) then
    Ok (false, msg_send2 st M_NUL (str "MSG Warning: double of password is received (M_PWD more one)!") [], w)
  else
    let* r := check_password pwd st w in
    let '(ok, st, w) := r in
    if negb ok then Ok (false, st, w) else
    let st := pwd_modes st in
    let* r := if Z.land (NR_flag st) (Z.lor WANT_NR WE_NR) =? 0 then
                let '(inb, w) := select_inbound w (hd_error (fa st)) (state st) config in
                let* st := auto_NR st inb w in Ok (st, w)
              else Ok (st, w) in
    let '(st, w) := r in
    let st := msg_send2 st M_NUL (str "OPT") (pwd_options st) in
    let st := msg_send2 st M_OK (if bool_decide (state st = P_SECURE) then str "secure" else str "non-secure") [] in
    let* r := complete_login st w in Ok (true, r.1, r.2).

(** *** M_OK *)
Definition ok_word (st : STATE) (w : cstr) : STATE :=
  if bool_decide (state st = P_SECURE) && (strcmp w (str "non-secure") =? 0)
  then st <| crypt_flag := NO_CRYPT |> <| state_ext := P_REMOTE_NONSECURE |> else st.
Definition OK (buf : cstr) (st : STATE) (w : WORLD) : mem (bool * STATE * WORLD) :=
  match to st with
  | None => Ok (false, st, w)
  | Some n =>
      let secure := match n_out_pwd n with Some p => negb (strcmp p (str "-") =? 0) | None => false end in
      let st := st <| state := if secure then P_SECURE else P_NONSECURE |> in
      let* ws := all_words buf in
      let st := fold_left ok_word ws st in
      let st := if (ND_flag st =? WE_ND) || (ND_flag st =? THEY_ND) then st <| ND_flag := 0 |> else st in
      let* r := complete_login st w in Ok (true, r.1, r.2)
  end.
End Login.

(** ** M_ERR and M_BSY end the session *)
Definition told_why (buf : cstr) (st : STATE) (w : WORLD) (junk : Z * Z) (config : BINKD_CONFIG) : mem (bool * STATE * WORLD) :=
  match to st with
  | Some n => let* w := bad_try w (n_fa n) (strquote buf SQ_CNTRL) junk config in Ok (false, st, w)
  | None => Ok (false, st, w)
  end.
Definition RError := told_why.
Definition BSY := told_why.

(** ** Who is let in *)
#[local] Arguments mem_fold : simpl never.
#[local] Opaque MD_buildDigest MAXPATHLEN encrypt_buf hr_buf buf_size inb_has_partials q_scan_addrs.
#[local] Arguments msg_send2 : simpl never.
#[local] Arguments complete_login : simpl never.
#[local] Arguments pwd_modes : simpl never.
#[local] Arguments pwd_options : simpl never.
#[local] Arguments select_inbound : simpl never.
#[local] Arguments auto_NR : simpl never.
#[local] Arguments do_prescan : simpl never.
#[local] Arguments check_password : simpl never.

Lemma bsy_add_table w fa0 bt config r w' : bsy_add w fa0 bt config = Ok (r, w') ->
  pNodArray w' = pNodArray w /\ nNodSorted w' = nNodSorted w.
Proof.
  unfold bsy_add. destruct (bsy_name fa0 bt config) as [[|c n]| |]; simpl; [by intros [= _ <-]| |done..].
  unfold on_sys. simpl. destruct (create_sem_file _ _) as [[] s]; simpl; by intros [= _ <-].
Qed.

Section Credentials.
Context (net : RESOLVER) (junk_sin : SOCKADDR) (md5junk : list Z) (junk : Z * Z) (config : BINKD_CONFIG).
(** The table at the start of the session. *)
Context (w0 : WORLD).

Definition pwd_wf (p : cstr) : Prop := cstring p /\ (length p <= MAXPWDLEN)%nat.
(** What the password expected says about a password of an address held. *)
Definition covered (e p : cstr) : Prop := p = str "-" \/ p = str "!" \/ e = [] \/ e = p.
Definition covers (e : cstr) (l : list FTN_ADDR) : Prop := forall a p, a ∈ l -> entry w0 a p -> covered e p.

(** An answering session that has not seen a password. *)
Record greeted (st : STATE) (w : WORLD) : Prop := {
  gr_to : to st = None;
  gr_state : state st = P_NULL;
  gr_nfa : (nfa st <= length (fa st))%nat;
  gr_expected : cstring (expected_pwd st);
  gr_table : table_ok w;
  gr_keeps : keeps (fun _ => True) w0 w;
  gr_pwds : all_pwds pwd_wf w;
  gr_covers : covers (expected_pwd st) (locked st)
}.

(** The fields [greeted] looks at. *)
Definition same_login (st st' : STATE) : Prop :=
  to st' = to st /\ state st' = state st /\ nfa st' = nfa st /\ fa st' = fa st /\ expected_pwd st' = expected_pwd st.
Lemma same_login_refl st : same_login st st.
Proof. done. Qed.
Lemma same_login_trans a b c : same_login a b -> same_login b c -> same_login a c.
Proof. unfold same_login. intros (? & ? & ? & ? & ?) (? & ? & ? & ? & ?). repeat split; congruence. Qed.
Lemma greeted_same st st' w : same_login st st' -> greeted st w -> greeted st' w.
Proof. intros (E1 & E2 & E3 & E4 & E5) []. constructor; unfold locked in *; rewrite ?E1, ?E2, ?E3, ?E4, ?E5; done. Qed.

Lemma msg_send2_login st m a b : same_login st (msg_send2 st m a b).
Proof. unfold msg_send2. rewrite crypt_out_cipher. done. Qed.

Lemma strcmp_str (e p : cstr) : cstring e -> cstring p -> (strcmp e p =? 0) = bool_decide (e = p).
Proof.
  intros He Hp. destruct (Z.eqb_spec (strcmp e p) 0) as [H|H]; symmetry.
  - apply bool_decide_eq_true. by apply strcmp_eq.
  - apply bool_decide_eq_false. intros ->. apply H. by apply strcmp_eq.
Qed.
Lemma dash_cstring : cstring (str "-").
Proof. by repeat constructor. Qed.
Lemma bang_cstring : cstring (str "!").
Proof. by repeat constructor. Qed.
Lemma pwd_wf_dash : pwd_wf (str "-").
Proof. split; [apply dash_cstring|]. apply Nat.leb_le. by vm_compute. Qed.
Lemma pwd_wf_id p : pwd_wf p -> strnzcpy p (MAXPWDLEN + 1) = p.
Proof. intros [_ H]. unfold strnzcpy. rewrite take_ge; [done|]. lia. Qed.

Lemma covers_empty l : covers [] l.
Proof. intros a p _ _. right. right. by left. Qed.
(** Nobody was held to a password before one is expected. *)
Lemma covers_first (e p : cstr) l : e = str "-" \/ e = str "!" -> covers e l -> covers p l.
Proof.
  intros He H a q Ha Hq. destruct (H a q Ha Hq) as [?|[?|[->| <-]]]; unfold covered; [by left|by right; left| |].
  - by destruct He.
  - destruct He; [by left|by right; left].
Qed.

(** After the test of an entry's password. *)
Lemma adr_password_covers fa0 pn v st w step :
  greeted st w -> expected_pwd st <> [] -> pwd_wf (n_pwd pn) -> adr_password fa0 pn v st = step ->
  match step with
  | A_refuse _ => True
  | A_drop _ st' => greeted st' w
  | A_take _ st' => greeted st' w /\ locked st' = locked st /\ covered (expected_pwd st') (n_pwd pn)
  end.
Proof.
  intros [Ht Hs Hn He Htb Hk Hpw Hc] Hne Hp <-. unfold adr_password. rewrite Ht.
  destruct Hp as [Hp Hlen].
  rewrite !strcmp_str by (done || apply dash_cstring || apply bang_cstring).
  assert (Hempty : greeted (st <| expected_pwd := [] |>) w)
    by (constructor; try done; [constructor|apply covers_empty]).
  case_bool_decide as E1.
  { split_and!; [by constructor|done|]. by left. }
  case_if; [done|]. case_if.
  - rewrite (pwd_wf_id _ (conj Hp Hlen)). split_and!; [|done|by right; right; right].
    constructor; try done. simpl. apply (covers_first (expected_pwd st)); [|done].
    bools. rewrite !bool_decide_eq_true in *. tauto.
  - case_if; [|done]. split_and!; [by constructor|done|]. simpl. rewrite !orb_true_iff, !bool_decide_eq_true in *.
    destruct E2 as [->| ->]; [by right; right; right|by right; left].
Qed.
Lemma greeted_table st w w' : pNodArray w' = pNodArray w -> nNodSorted w' = nNodSorted w -> greeted st w -> greeted st w'.
Proof.
  intros E1 E2 [Ht Hs Hn He [T1 T2 T3] Hk Hpw Hc]. constructor; [done..| | | |done].
  - constructor; rewrite ?E1, ?E2; done.
  - eapply keeps_trans; [done|done|]. apply keeps_perm. by rewrite E1.
  - unfold all_pwds. by rewrite E1.
Qed.

(** Another address is held. *)
Lemma greeted_hold fa0 st st' w :
  greeted st w -> (forall p, entry w0 fa0 p -> covered (expected_pwd st) p) ->
  to st' = to st -> state st' = state st -> expected_pwd st' = expected_pwd st ->
  fa st' = take (nfa st) (fa st) ++ fa0 :: drop (nfa st) (fa st) -> nfa st' = S (nfa st) -> greeted st' w.
Proof.
  intros [Ht Hs Hn He Htb Hk Hpw Hc] Hnew E1 E2 E3 E4 E5.
  constructor; unfold locked; rewrite ?E1, ?E2, ?E3, ?E4, ?E5; try done.
  - rewrite length_app, length_take. simpl. rewrite length_drop. lia.
  - intros a p Ha. rewrite take_app_ge in Ha by (rewrite length_take; lia).
    rewrite length_take, Nat.min_l in Ha by done. replace (S (nfa st) - nfa st)%nat with 1%nat in Ha by lia.
    apply elem_of_app in Ha as [Ha|Ha]; [by apply Hc|]. apply list_elem_of_singleton in Ha as ->. apply Hnew.
Qed.
Lemma greeted_note fa0 st w : greeted st w -> greeted (st <| fa ::= fun l => l ++ [fa0] |>) w.
Proof.
  intros [Ht Hs Hn He Htb Hk Hpw Hc]. constructor; unfold locked in *; simpl; try done.
  - rewrite length_app. lia.
  - by rewrite take_app_le.
Qed.

Lemma adr_lock_greeted fa0 pn v st w step w' :
  greeted st w -> (forall p, entry w0 fa0 p -> covered (expected_pwd st) p) ->
  adr_lock fa0 pn v st w config = Ok (step, w') ->
  match step with A_refuse _ => True | A_drop _ st' | A_take _ st' => greeted st' w' end.
Proof.
  intros Hg Hnew H. unfold adr_lock in H.
  apply mem_bind_ok in H as ([ok w1] & Hb & H). apply bsy_add_table in Hb as [Hb1 Hb2].
  apply (greeted_table _ _ w1) in Hg; [|done|done].
  destruct ok.
  - injection H as <- <-. by eapply greeted_hold.
  - case_match; injection H as <- <-; [done|by apply greeted_note].
Qed.

Lemma adr_check_ip_same pn v st step : adr_check_ip net junk_sin pn v st config = Ok step ->
  match step with A_refuse _ => True | A_drop _ st' | A_take _ st' => st' = st end.
Proof.
  unfold adr_check_ip. destruct pn as [pn|]; [|by intros [= <-]]. case_if; [|by intros [= <-]].
  intros H. apply mem_bind_ok in H as (ipok & _ & [= <-]). case_if; [done|]. case_if; [|done]. by case_if.
Qed.

Lemma entry_wf w a p : all_pwds pwd_wf w -> entry w a p -> pwd_wf p.
Proof. unfold all_pwds. rewrite Forall_forall. intros H (n & Hn & _ & <-). by apply H. Qed.

(** An address whose entry [pn] is what the table says. *)
Lemma adr_node_greeted fa0 pn v st w step w' :
  greeted st w -> (forall p, entry w0 fa0 p -> exists n, pn = Some n /\ n_pwd n = p) ->
  (forall n, pn = Some n -> pwd_wf (n_pwd n)) ->
  adr_node net junk_sin fa0 pn v st w config = Ok (step, w') ->
  match step with A_refuse _ => True | A_drop _ st' | A_take _ st' => greeted st' w' end.
Proof.
  intros Hg Hpn Hwf H. unfold adr_node in H.
  apply mem_bind_ok in H as (step1 & Hi & H). apply adr_check_ip_same in Hi.
  destruct step1 as [st1|v1 st1|v1 st1]; [by injection H as <- <-|injection H as <- <-; by subst|]. subst st1.
  set (st1 := match pn with Some pn => st <| listed_flag ::= fun f => Z.lor f (n_listed pn) |> | None => st end) in *.
  assert (Hg1 : greeted st1 w) by (subst st1; destruct pn; [by apply (greeted_same st)|done]). clearbody st1. clear Hg.
  set (step2 := match pn, expected_pwd st1 with Some pn, _ :: _ => adr_password fa0 pn v1 st1 | _, _ => A_take v1 st1 end) in *.
  assert (H2 : match step2 with
    | A_refuse _ => True
    | A_drop _ st' => greeted st' w
    | A_take _ st' => greeted st' w /\ forall p, entry w0 fa0 p -> covered (expected_pwd st') p
    end).
  { subst step2. destruct pn as [n|].
    - destruct (expected_pwd st1) eqn:Ee; [split; [done|]; intros; right; right; by left|].
      pose proof (adr_password_covers fa0 n v1 st1 w _ Hg1 ltac:(by rewrite Ee) (Hwf n eq_refl) eq_refl) as Hc.
      destruct (adr_password fa0 n v1 st1); [done|done|]. destruct Hc as (? & _ & Hc). split; [done|].
      intros p Hp. destruct (Hpn p Hp) as (? & [= <-] & <-). done.
    - split; [done|]. intros p Hp. by destruct (Hpn p Hp) as (? & [=] & _). }
  destruct step2 as [st2|v2 st2|v2 st2]; [by injection H as <- <-|by injection H as <- <-|].
  destruct H2 as [Hg2 Hnew]. apply mem_bind_ok in H as ([step3 w3] & Hl & H).
  apply adr_lock_greeted in Hl; [|done|done].
  destruct step3 as [st3|v3 st3|v3 st3], (to st2), pn; injection H as <- <-; exact Hl.
Qed.

(** The words of a line of addresses have numbers an [int] subtraction can
    compare, and the domain guessed is a string. *)
Definition in_range (s : cstr) : Prop := forall i word fa0 d,
  getwordx no_env s i GWX_0 = Ok (Some word) -> parse_ftnaddress word (pDomains config) = (true, fa0) ->
  fa_wf fa0 /\ (get_matched_domain (fa_z fa0) (pAddr config) (pDomains config) = Ok d -> cstring d).

Lemma adr_word_greeted s i word v st w step w' :
  greeted st w -> in_range s -> getwordx no_env s i GWX_0 = Ok (Some word) ->
  adr_word net junk_sin word v st w config = Ok (step, w') ->
  match step with A_refuse _ => True | A_drop _ st' | A_take _ st' => greeted st' w' end.
Proof.
  intros Hg Hr Hw H. unfold adr_word in H.
  destruct (parse_ftnaddress word (pDomains config)) as [ok fa0] eqn:Ep.
  case_match eqn:E0; [by injection H as <- <-|]. bools. destruct ok; [|done].
  apply mem_bind_ok in H as (fa1 & Hd & H).
  assert (Hf : fa_wf fa1).
  { destruct (fa_domain fa0) as [|c dm] eqn:Edom.
    - apply mem_bind_ok in Hd as (d & Hd & [= <-]). destruct (Hr i word fa0 d Hw Ep) as [Hf Hc].
      destruct Hf as (_ & Hf). split; [by apply Hc|done].
    - injection Hd as <-. by destruct (Hr i word fa0 [] Hw Ep). }
  destruct (get_node_info w fa1 config) as [pn w1] eqn:En.
  pose proof (get_node_info_table config w0 w fa1 (gr_table _ _ Hg) (gr_keeps _ _ Hg) Hf) as [Ht1 Hk1].
  pose proof (get_node_info_pwds config pwd_wf pwd_wf_dash w fa1 (gr_pwds _ _ Hg)) as Hp1. rewrite En in Ht1, Hk1, Hp1.
  revert H. apply adr_node_greeted.
  - destruct Hg. by constructor.
  - intros p Hp. destruct (get_node_info_entry config w0 w fa1 p (gr_table _ _ Hg) (gr_keeps _ _ Hg) Hf Hp) as (n & E & Hn).
    rewrite En in E. by exists n.
  - intros n ->. destruct (get_node_info_world config w fa1) as (np & _ & Er). rewrite En in Er. simpl in Er.
    destruct np as [j|]; [|done]. simpl in Er. apply (Forall_lookup_1 _ _ _ _ Hp1 (eq_sym Er)).
Qed.
Lemma adr_loop_greeted s : in_range s -> forall fuel i v st w r st' w',
  greeted st w -> adr_loop fuel net junk_sin s i v st w config = Ok (Some r, st', w') -> greeted st' w'.
Proof.
  intros Hr fuel. induction fuel as [|f IH]; intros i v st w r st' w' Hg H; [done|]. simpl in H.
  apply mem_bind_ok in H as (word & Hw & H). destruct word as [word|]; [|by injection H as _ <- <-].
  apply mem_bind_ok in H as ([step w1] & Hs & H).
  pose proof (adr_word_greeted s i word v st w step w1 Hg Hr Hw Hs) as Hg1.
  destruct step as [st1|v1 st1|v1 st1]; [done|by eapply IH|by eapply IH].
Qed.

Lemma send_ADR_login st st' : send_ADR st config = Ok st' -> same_login st st'.
Proof.
  unfold send_ADR. destruct (fold_left _ _ _); [done|]. intros [= <-].
  eapply same_login_trans; [|apply msg_send2_login]. done.
Qed.

Lemma adr_finish_greeted v st w st' w' : greeted st w ->
  adr_finish md5junk junk config v st w = Ok (true, st', w') -> greeted st' w'.
Proof.
  intros Hg. unfold adr_finish. case_if; [done|]. rewrite (gr_to _ _ Hg). case_if; [done|].
  intros H. apply mem_bind_ok in H as (st1 & Ha & [= <- <-]).
  assert (Hs : same_login st st1) by (destruct (delay_ADR st); [by apply send_ADR_login|by injection Ha as <-]).
  apply (greeted_same st1); [done|]. by apply (greeted_same st).
Qed.

(** The text of an M_ADR with the addresses that shared ones stand for. *)
Definition presented (s : cstr) : mem cstr :=
  let* a := match shares config with [] => Ok (s, None) | _ => add_shared_akas s config end in
  Ok (a.1 ++ default [] a.2).

Lemma ADR_greeted s st w st' w' : greeted st w -> (forall t, presented s = Ok t -> in_range t) ->
  ADR net junk_sin md5junk junk config s st w = Ok (true, st', w') -> greeted st' w'.
Proof.
  intros Hg Hr H. unfold ADR in H. unfold presented in Hr.
  apply mem_bind_ok in H as (a & Ha & H). rewrite Ha in Hr. specialize (Hr _ eq_refl).
  apply mem_bind_ok in H as ([first|] & _ & H); [|done]. rewrite (gr_to _ _ Hg) in H.
  apply mem_bind_ok in H as ([[r st1] w1] & Hl & H). destruct r as [v|]; [|done].
  eapply adr_finish_greeted; [|exact H]. by eapply adr_loop_greeted.
Qed.

Lemma nul_option_login st o st' : nul_option config st o = Ok st' -> same_login st st'.
Proof.
  unfold nul_option. repeat (case_if; [by intros [= <-]|]). case_if.
  - intros H. apply mem_bind_ok in H as (c & _ & [= <-]). done.
  - case_if; by intros [= <-].
Qed.
Lemma nul_text_login s st : same_login st (nul_text s st).
Proof. unfold nul_text. repeat (case_if; [done|]). done. Qed.
Lemma NUL_login buf st st' : NUL config buf st = Ok st' -> same_login st st'.
Proof.
  unfold NUL. cbv zeta. destruct (if is_prefix (str "VER ") _ then _ else _) as [[a b]|].
  - intros [= <-]. unfold nul_version. by case_if.
  - case_if; [|case_if].
    + intros H. apply mem_bind_ok in H as ([m|] & _ & H); [|by injection H as <-].
      apply mem_bind_ok in H as (? & _ & [= <-]). done.
    + intros H. apply mem_bind_ok in H as (ws & _ & H). revert H.
      apply (mem_fold_ok same_login); [apply same_login_refl|apply same_login_trans|apply nul_option_login].
    + intros [= <-]. apply nul_text_login.
Qed.

(** The messages before the password: those about the other side, and its
    addresses, in any order and number. *)
Inductive greeting : STATE -> WORLD -> Prop :=
| greeting_start st : to st = None -> state st = P_NULL -> expected_pwd st = str "-" -> nfa st = O ->
    greeting st w0
| greeting_NUL buf st w st' : greeting st w -> NUL config buf st = Ok st' -> greeting st' w
| greeting_ADR s st w st' w' : greeting st w -> (forall t, presented s = Ok t -> in_range t) ->
    ADR net junk_sin md5junk junk config s st w = Ok (true, st', w') -> greeting st' w'.

Lemma greeting_greeted st w : table_ok w0 -> all_pwds pwd_wf w0 -> greeting st w -> greeted st w.
Proof.
  intros Ht Hp. induction 1 as [st E1 E2 E3 E4|buf st w st' _ IH H|s st w st' w' _ IH Hr H].
  - constructor; try done; [rewrite E4; lia|rewrite E3; apply dash_cstring|apply keeps_refl|].
    unfold locked. rewrite E4. intros a p Ha. by apply elem_of_nil in Ha.
  - eapply greeted_same; [by eapply NUL_login|done].
  - by eapply ADR_greeted.
Qed.
(** *** The password *)
Lemma iter_login n f st : (forall s, same_login s (f s)) -> same_login st (Nat.iter n f st).
Proof. intros Hf. induction n as [|n IH]; [done|]. simpl. by eapply same_login_trans. Qed.

Lemma do_prescan_login st w r : do_prescan st w config = Ok r -> same_login st r.1.
Proof.
  unfold do_prescan. case_if; [|by intros [= <-]]. intros H. apply mem_bind_ok in H as (r1 & _ & H).
  apply mem_bind_ok in H as ([[n f] l] & _ & [= <-]). cbn [fst].
  match goal with |- same_login st (if ?b then ?x else ?y) => assert (Hy : same_login st y) end.
  { eapply same_login_trans; [|apply msg_send2_login]. done. }
  case_if; [|done]. eapply same_login_trans; [exact Hy|]. apply iter_login. intros. apply msg_send2_login.
Qed.

(** The caller gave the password, in the clear or in a digest. *)
Definition proves (pwd p : cstr) (challenge : option (list Z)) : Prop :=
  pwd = p \/ exists c, challenge = Some c /\ o_stricmp (MD_buildDigest md5junk p c) pwd = 0.
Definition digest_of_nothing (pwd : cstr) (challenge : option (list Z)) : Prop :=
  exists c, challenge = Some c /\ o_stricmp (MD_buildDigest md5junk [] c) pwd = 0.

(** What a password that is not wrong proves. *)
Definition accepted (pwd : cstr) (st : STATE) : Prop :=
  expected_pwd st = str "!" \/ (expected_pwd st <> [] /\ proves pwd (expected_pwd st) (MD_challenge st)) \/
  (expected_pwd st = [] /\ digest_of_nothing pwd (MD_challenge st)).

Lemma bad_password_login pwd st o st' : bad_password md5junk pwd st = (o, st') -> same_login st st' /\ MD_challenge st' = MD_challenge st.
Proof.
  unfold bad_password. repeat case_if; intros [= <- <-]; try done. split; [apply msg_send2_login|].
  unfold msg_send2. by rewrite crypt_out_cipher.
Qed.

Lemma bad_password_accepted pwd st st' : cstring pwd -> cstring (expected_pwd st) ->
  bad_password md5junk pwd st = (Some false, st') -> accepted pwd st.
Proof.
  intros Hp He. unfold bad_password, accepted, proves, digest_of_nothing.
  rewrite !strcmp_str by (done || apply bang_cstring). case_if.
  - case_if; [done|]. intros [= Hb _]. simpl in Hb. case_bool_decide as Ee; [by left|]. destruct (MD_challenge st) as [c|]; [|done]. bools.
    destruct (decide (expected_pwd st = [])) as [En|En]; [rewrite En in Hb; right; right|right; left]; split; eauto.
  - intros [= Hb _]. case_bool_decide as Ee; [by left|]. destruct (expected_pwd st) as [|c e] eqn:E1; [done|]. bools.
    right. left. split; [done|]. left. symmetry. by apply strcmp_eq.
Qed.

Lemma check_password_accepted pwd st w st' w' : state st = P_NULL -> cstring pwd -> cstring (expected_pwd st) ->
  check_password md5junk config pwd st w = Ok (true, st', w') ->
  nfa st' = nfa st /\ fa st' = fa st /\ (state st' = P_SECURE -> accepted pwd st /\ expected_pwd st <> str "-").
Proof.
  intros Hs Hp He. unfold check_password. case_if.
  - intros H. apply mem_bind_ok in H as (r & Hr & [= <- <-]). apply do_prescan_login in Hr as (_ & _ & ? & ? & _). done.
  - destruct (bad_password md5junk pwd st) as [[bad|] st1] eqn:Eb; [|done].
    destruct (bad_password_login _ _ _ _ Eb) as [(_ & _ & E3 & E4 & E5) _]. case_if; [done|].
    rewrite <- E3, <- E4. case_if; intros H; apply mem_bind_ok in H as (r & Hr & [= <- <-]);
      apply do_prescan_login in Hr as (_ & E2 & En & Ef & _); simpl in *.
    + destruct bad; simpl; split_and!; try done; by rewrite E2.
    + split_and!; [done|done|]. intros _. rewrite andb_true_r in *. subst bad.
      split; [by eapply bad_password_accepted|]. intros Ed. unfold no_password in *. by rewrite E5, Ed in *.
Qed.

Lemma crypt_decide_login st : same_login st (crypt_decide st).
Proof. unfold crypt_decide. by repeat case_if. Qed.
Lemma pwd_modes_login st : same_login st (pwd_modes st).
Proof.
  unfold pwd_modes. eapply same_login_trans; [apply crypt_decide_login|]. by repeat case_if.
Qed.
Lemma crypt_start_login st : same_login st (crypt_start st).
Proof. unfold crypt_start. case_if; [|by case_if]. simpl. by destruct (to st) eqn:Et. Qed.
Lemma complete_login_login st w r : complete_login config st w = Ok r -> same_login st r.1.
Proof.
  unfold complete_login. destruct (select_inbound _ _ _ _) as [inb w1]. intros H.
  apply mem_bind_ok in H as ([st1 w2] & H1 & [= <-]). cbn [fst].
  assert (Hs : same_login st st1).
  { revert H1. case_if; [|by intros [= <- <-]]. intros H1. apply mem_bind_ok in H1 as (r1 & _ & [= <- <-]). done. }
  eapply same_login_trans; [|apply crypt_start_login]. eapply same_login_trans; [|apply crypt_decide_login].
  by repeat case_if.
Qed.

Lemma auto_NR_login st inb w st' : auto_NR config st inb w = Ok st' -> same_login st st'.
Proof.
  unfold auto_NR. case_if; [|by intros [= <-]]. destruct (inb_has_partials _ _ _) as [[]| |]; [|by intros [= <-]|done..].
  by intros [= <-].
Qed.
Lemma PWD_start pwd st w : to st = None -> state st = P_NULL ->
  PWD md5junk config pwd st w =
    (let* r := check_password md5junk config pwd st w in
     let '(ok, st, w) := r in
     if negb ok then Ok (false, st, w) else
     let st := pwd_modes st in
     let* r := if Z.land (NR_flag st) (Z.lor WANT_NR WE_NR) =? 0 then
                 let '(inb, w) := select_inbound w (hd_error (fa st)) (state st) config in
                 let* st := auto_NR config st inb w in Ok (st, w)
               else Ok (st, w) in
     let '(st, w) := r in
     let st := msg_send2 st M_NUL (str "OPT") (pwd_options st) in
     let st := msg_send2 st M_OK (if bool_decide (state st = P_SECURE) then str "secure" else str "non-secure") [] in
     let* r := complete_login config st w in Ok (true, r.1, r.2)).
Proof. intros Et Es. unfold PWD. by rewrite Et, Es. Qed.

(** What follows an accepted password. *)
Lemma PWD_rest_login (st : STATE) (w : WORLD) (ok : bool) (st' : STATE) (w' : WORLD) (b : bool) :
  (let st := pwd_modes st in
   let* r := if Z.land (NR_flag st) (Z.lor WANT_NR WE_NR) =? 0 then
               let '(inb, w) := select_inbound w (hd_error (fa st)) (state st) config in
               let* st := auto_NR config st inb w in Ok (st, w)
             else Ok (st, w) in
   let '(st, w) := r in
   let st := msg_send2 st M_NUL (str "OPT") (pwd_options st) in
   let st := msg_send2 st M_OK (if bool_decide (state st = P_SECURE) then str "secure" else str "non-secure") [] in
   let* r := complete_login config st w in Ok (b, r.1, r.2)) = Ok (ok, st', w') ->
  ok = b /\ same_login st st'.
Proof.
  intros H. apply mem_bind_ok in H as ([st2 w2] & H2 & H). apply mem_bind_ok in H as (r & Hr & [= <- <- <-]).
  split; [done|]. eapply same_login_trans; [apply pwd_modes_login|].
  assert (Hm : same_login (pwd_modes st) st2).
  { revert H2. case_if; [|by intros [= <- <-]].
    destruct (select_inbound _ _ _ _) as [inb w3]. intros H2. apply mem_bind_ok in H2 as (st3 & H3 & [= <- <-]).
    by eapply auto_NR_login. }
  eapply same_login_trans; [exact Hm|]. eapply same_login_trans; [apply msg_send2_login|].
  eapply same_login_trans; [apply msg_send2_login|]. by eapply complete_login_login.
Qed.


#[local] Transparent MD_buildDigest.
Lemma digest_is_cram pw c : is_cram (MD_buildDigest md5junk pw c) = true.
Proof. reflexivity. Qed.
#[local] Opaque MD_buildDigest.

(** C2: an answering session that expects no password any more, because the
    caller presented addresses with different ones, does not refuse every
    password: the digest of its challenge under the empty key, which needs no
    secret, makes it a secure session. *)
Theorem empty_password_lets_in st w c ok st' w' :
  to st = None -> state st = P_NULL -> expected_pwd st = [] -> MD_challenge st = Some c ->
  PWD md5junk config (MD_buildDigest md5junk [] c) st w = Ok (ok, st', w') ->
  ok = true /\ state st' = P_SECURE.
Proof.
  intros Et Es Ee Ec H. rewrite PWD_start in H by done.
  apply mem_bind_ok in H as ([[ok1 st1] w1] & Hc & H).
  assert (Hc1 : ok1 = true /\ state st1 = P_SECURE).
  { revert Hc. set (d := MD_buildDigest md5junk [] c).
    assert (Hb : bad_password md5junk d st = (Some false, st <| MD_flag := 1 |>)).
    { unfold bad_password. unfold d at 1 2. rewrite digest_is_cram, Ec.
      change (expected_pwd (st <| MD_flag := 1 |>)) with (expected_pwd st).
      change (MD_challenge (st <| MD_flag := 1 |>)) with (MD_challenge st).
      rewrite Ee, Ec, orb_true_r. fold d. by rewrite stricmp_refl. }
    unfold check_password, no_password. rewrite Hb. unfold d at 1. rewrite digest_is_cram, andb_false_r.
    change (expected_pwd (st <| MD_flag := 1 |>)) with (expected_pwd st). rewrite Ee. cbn [andb strcmp hd0].
    intros Hc. apply mem_bind_ok in Hc as (r & Hr & [= <- <- _]). apply do_prescan_login in Hr as (_ & Ex & _).
    by rewrite Ex. }
  destruct Hc1 as [-> Es1]. cbn [negb] in H.
  apply PWD_rest_login in H as (-> & (_ & E2 & _)). split; [done|congruence].
Qed.
End Credentials.

(** *** A caller of two nodes with different passwords *)
Definition two_pwds : WORLD :=
  mkWORLD example_sys [example_node (example_addr 12) (str "alpha"); example_node (example_addr 13) (str "beta")] true [] 0.
Definition no_net : RESOLVER := mkRESOLVER (fun _ => None) (fun _ => None) (fun _ => true).
Definition challenged : STATE := example_state <| MD_challenge := Some [2; 17; 34] |>.
Definition no_run : bool * STATE * WORLD := (false, example_state, two_pwds).
Definition after_ADR (s : cstr) : bool * STATE * WORLD :=
  from_ok no_run (ADR no_net (SA_OTHER 0) [] (0, 0) example_config s challenged two_pwds).
Definition after_PWD (pwd : cstr) (r : bool * STATE * WORLD) : bool * STATE * WORLD :=
  from_ok no_run (PWD [] example_config pwd r.1.2 r.2).
Definition one_aka := after_ADR (str "2:5047/12").
Definition both_akas := after_ADR (str "2:5047/12 2:5047/13").

Lemma example_addr_wf_bare : fa_wf (mkFTN_ADDR [] 2 5047 12 0).
Proof. unfold fa_wf, INT_MAX. simpl. split; [constructor|lia]. Qed.
Lemma one_aka_in_range t : presented example_config (str "2:5047/12") = Ok t -> in_range example_config t.
Proof.
  intros [= <-] i word a d Hw Ha. simpl app in Hw. destruct i as [|[|i]]; [done| |].
  - assert (word = str "2:5047/12") as -> by (vm_compute in Hw; by injection Hw as <-).
    vm_compute in Ha. injection Ha as <-. split; [apply example_addr_wf_bare|].
    intros [= <-]. by repeat constructor.
  - rewrite getwordx_words in Hw; [|lia|done|done|by apply plain_forallb].
    vm_compute in Hw. by destruct i.
Qed.

Lemma two_pwds_ok : table_ok two_pwds.
Proof.
  constructor.
  - apply Forall_cons. split; [by apply example_addr_wf|]. apply Forall_singleton. by apply example_addr_wf.
  - change (node_key <$> pNodArray two_pwds) with [addr_key (example_addr 12); addr_key (example_addr 13)].
    apply NoDup_cons. split; [|apply NoDup_singleton]. by intros [=]%list_elem_of_singleton.
  - intros _. constructor; [repeat constructor|]. by apply Forall_singleton.
Qed.
Lemma two_pwds_pwds : all_pwds pwd_wf two_pwds.
Proof.
  assert (H : forall p, forallb (fun c => (0 <? c) && (c <? 256)) p && (length p <=? MAXPWDLEN)%nat = true -> pwd_wf p).
  { intros p Hp. bools. split; [|by apply Nat.leb_le]. apply List.Forall_forall. intros c Hc.
    rewrite forallb_forall in H. specialize (H c Hc). bools. lia. }
  apply Forall_cons. split; [by apply H|]. apply Forall_singleton. by apply H.
Qed.


Lemma empty_password_lets_in_witness :
  let r := after_PWD (MD_buildDigest [] [] [2; 17; 34]) both_akas in
  locked r.1.2 = [example_addr 12] /\ r.1.1 = true /\ state r.1.2 = P_SECURE.
Proof.
  split; [vm_compute; reflexivity|].
  apply (empty_password_lets_in [] example_config both_akas.1.2 both_akas.2 [2; 17; 34] _ _
    (after_PWD (MD_buildDigest [] [] [2; 17; 34]) both_akas).2); [vm_compute; reflexivity..|].
  apply (from_ok_eq3 no_run); vm_compute; reflexivity.
Defined.

(** ** Encryption starts in step *)

(** when a caller and an answering session start the encryption, the first
    with the password it sends to the node and the second with the password it
    expected, each side deciphers whatever frames the other enciphers, in both
    directions, and the keys stay in step. *)
Theorem crypt_start_agrees c s n ms : both_crypt c = true -> both_crypt s = true ->
  to c = Some n -> to s = None -> out_pwd_of n = expected_pwd s ->
  let c' := crypt_start c in
  let s' := crypt_start s in
  crypt_flag c' = YES_CRYPT /\ crypt_flag s' = YES_CRYPT /\
  decipher (crypt_flag s') (cipher (crypt_flag c') (encode_all ms) (keys_out c')).1 (keys_in s') =
    (encode_all ms, (cipher (crypt_flag c') (encode_all ms) (keys_out c')).2) /\
  decipher (crypt_flag c') (cipher (crypt_flag s') (encode_all ms) (keys_out s')).1 (keys_in c') =
    (encode_all ms, (cipher (crypt_flag s') (encode_all ms) (keys_out s')).2).
Proof.
  intros Hc Hs Ec Es Ep. unfold crypt_start. rewrite Hc, Hs. cbv zeta.
  change (to (c <| crypt_flag := YES_CRYPT |>)) with (to c). change (to (s <| crypt_flag := YES_CRYPT |>)) with (to s).
  rewrite Ec, Es, Ep. split; [done|]. split; [done|]. split; apply decipher_cipher.
Qed.

Lemma crypt_start_agrees_witness :
  let n := example_node (example_addr 13) (str "secret") in
  let c := crypt_start (example_state <| to := Some n |> <| crypt_flag := Z.lor WE_CRYPT THEY_CRYPT |>) in
  let s := crypt_start (example_state <| expected_pwd := str "secret" |> <| crypt_flag := Z.lor WE_CRYPT THEY_CRYPT |>) in
  decipher (crypt_flag s) (cipher (crypt_flag c) (encode_all [F_msg M_EOB []]) (keys_out c)).1 (keys_in s) =
    (encode_all [F_msg M_EOB []], (cipher (crypt_flag c) (encode_all [F_msg M_EOB []]) (keys_out c)).2).
Proof.
  intros n c s.
  refine (proj1 (proj2 (proj2 (crypt_start_agrees (example_state <| to := Some n |> <| crypt_flag := Z.lor WE_CRYPT THEY_CRYPT |>)
    (example_state <| expected_pwd := str "secret" |> <| crypt_flag := Z.lor WE_CRYPT THEY_CRYPT |>) n [F_msg M_EOB []] _ _ _ _ _))));
    vm_compute; reflexivity.
Defined.
