(* ===== verification/Transfer.v ===== *)
(** * protocol.c: the transfer of files

    The messages about files (M_FILE, M_GET, M_SKIP, M_GOT, M_EOB) and the
    blocks of data.  What programs started by events do, and the free space of
    a file system, are parameters. *)
From S2P Require Import Prelude CStr Tools Pmatch FtnAddr Getw Sys Types FtnNode Prothlp FtnQ Srif Inbound Frames Spool.

(** ** Files *)
Section Files.
Context (run : cstr -> SYS -> SYS) (getfree : cstr -> Z) (junk : Z * Z) (config : BINKD_CONFIG).

(** A received file that cannot be stored ends the session. *)
Definition local_error (st : STATE) (w : WORLD) : mem (bool * STATE * WORLD) :=
  let st := msg_send2 st M_ERR (str "Local error saving file") [] in
  match to st with
  | Some n => let* w := bad_try w (n_fa n) (str "Local error saving file") junk config in Ok (false, st, w)
  | None => Ok (false, st, w)
  end.

(** A complete file whose M_GOT the other side has not answered yet is stored now. *)
Definition store_complete (st : STATE) (w : WORLD) : mem (bool * STATE * WORLD) :=
  match t_netname (in_complete st) with
  | _ :: _ =>
      if has (ND_flag st) THEY_ND then
        let* r := inb_done run w (in_complete st) st config in
        match r with
        | (false, st, w) => local_error st w
        | (true, st, w) => Ok (true, st <| in_complete := TF_ZERO |>, w)
        end
      else Ok (true, st, w)
  | [] => Ok (true, st, w)
  end.

(** *** M_FILE name size time offset *)
Definition new_file (st : STATE) (w : WORLD) (name size time : cstr) : STATE :=
  st <| in_ ::= fun t => t <| t_start := safe_time (sys w) |> <| t_netname := strnzcpy name MAX_NETNAME |>
                           <| t_size := swrap 64 (strtoumax size) |> <| t_time := (safe_atol time).1 |> |>.

Inductive OPENED := O_answered (st : STATE) (w : WORLD) | O_open (h : HANDLE) (st : STATE) (w : WORLD).
Definition answer (st : STATE) (m : Z) (w : WORLD) : OPENED := O_answered (msg_sendf st m (file_args (in_ st))) w.

(** The file is wanted: it is opened, or everything is skipped from now on. *)
Definition open_in (st : STATE) (w : WORLD) : mem OPENED :=
  let* r := if skip_all_flag st then Ok (None, sys w) else inb_fopen getfree (sys w) st config in
  let w := w <| sys := r.2 |> in
  match r.1 with
  | Some h => Ok (O_open h (st <| in_ ::= fun t => t <| t_f := Some h |> |>) w)
  | None =>
      let st := msg_sendf (st <| skip_all_flag := true |>) M_SKIP (file_args (in_ st)) in
      Ok (O_answered (st <| in_ := TF_ZERO |>) w)
  end.
Definition open_new (st : STATE) (w : WORLD) : mem OPENED :=
  match skip_test st config with
  | Some mask => Ok (answer st (if sk_destr mask then M_GOT else M_SKIP) w)
  | None =>
      let f := in_ st in
      let* t := inb_test (sys w) (t_netname f) (t_size f) (t_time f) (inbound st) (renamestyle config) in
      if (t.1 : bool) then Ok (answer st M_GOT w) else open_in st w
  end.

(** The transfer starts where the file ends, and nowhere else. *)
Definition start_at (off_req : bool) (offset : Z) (rest : cstr) (h : HANDLE) (st : STATE) (w : WORLD)
    : mem (bool * STATE * WORLD) :=
  if off_req || negb (offset =? h_pos h) then
    let st := msg_sendf st M_GET (file_args (in_ st) ++ str " " ++ uintmax (h_pos h)) in
    Ok (true, st <| GET_FILE_balance ::= Z.succ |> <| in_ := TF_ZERO |>, w)
  else
    let st := if negb (offset =? 0) || has (NR_flag st) THEY_NR then st <| GET_FILE_balance ::= Z.pred |> else st in
    let* _ := all_words rest in
    Ok (true, st, w).

Definition file_recv (argv : list cstr) (rest : cstr) (st : STATE) (w : WORLD) : mem (bool * STATE * WORLD) :=
  match argv with
  | [name; size; time; off] =>
      let* r := match t_f (in_ st) with
                | Some _ => if strcmp name (t_netname (in_ st)) =? 0 then Ok (st, w) else close_partial st w config
                | None => Ok (st, w)
                end in
      let* r := store_complete r.1 r.2 in
      match r with
      | (false, st, w) => Ok (false, st, w)
      | (true, st, w) =>
          let st := match t_f (in_ st) with None => new_file st w name size time | Some _ => st end in
          let offset := swrap 64 (strtoumax off) in
          let off_req := strcmp off (str "-1") =? 0 in
          let st := if off_req then st <| NR_flag ::= fun f => Z.lor f THEY_NR |> else st in
          let* o := match t_f (in_ st) with
                    | Some h => Ok (O_open h st w)
                    | None => open_new st w
                    end in
          match o with
          | O_answered st w => Ok (true, st, w)
          | O_open h st w => start_at off_req offset rest h st w
          end
      end
  | _ => Oob
  end.
Definition start_file_recv (args : cstr) (st : STATE) (w : WORLD) : mem (bool * STATE * WORLD) :=
  match parse_msg_args 4 args (str "M_FILE") st with
  | (None, st) => Ok (false, st, w)
  | (Some (argv, rest), st) => file_recv argv rest st w
  end.

(** *** M_GET name size time offset *)

(** A file that was sent becomes the one in transfer again. *)
Definition reopen_sent (netname : cstr) (fsize ftime : Z) (st : STATE) (w : WORLD) : STATE :=
  match find_sent (sent_fls st) netname fsize ftime with
  | None => st
  | Some i =>
      let t := default TF_ZERO (sent_fls st !! i) in
      let st := match t_f (out st) with
                | Some _ => st <| sent_fls ::= fun l => <[i := (out st) <| t_f := None |>]> l |> <| out := t |>
                | None => remove_from_sent_files_queue (st <| out := t |>) i
                end in
      match fopen_r (sys w) (t_path t) with
      | Some _ => st <| out ::= fun t => t <| t_f := Some (mkHANDLE (t_path t) 0) |> |>
      | None => st <| out := TF_ZERO |>
      end
  end.

(** The answer to an offer of a status: the file is not in the file system. *)
Definition get_status (off : cstr) (st : STATE) (w : WORLD) : mem (bool * STATE * WORLD) :=
  let st := msg_sendf st M_FILE (file_args (out st) ++ str " " ++ fmt_u (strtoumax off)) in
  if (strtoumax off =? wrap 64 (t_size (out st))) && has (ND_flag st) WE_ND
  then Ok (true, st <| send_eof := true |> <| waiting_for_GOT := true |> <| off_req_sent := false |>, w)
  else
    let* r := ND_set_status w [] (t_fa (out st)) config in
    Ok (false, st <| out := TF_ZERO |>, r.2).

(** Options of the request: after [NZ] no text is there to be printed. *)
Definition get_extra (words : list cstr) : mem cstr :=
  if existsb (fun x => strcmp x (str "NZ") =? 0) words then Oob else Ok [].
Definition get_from (name : cstr) (offset : Z) (rest : cstr) (h : HANDLE) (st : STATE) (w : WORLD)
    : mem (bool * STATE * WORLD) :=
  let closed := st <| out ::= fun t => t <| t_f := None |> |> in
  if t_size (out st) <? offset then
    let st := msg_sendf closed M_ERR (str "Invalid M_GET violates binkp: offset " ++ uintmax offset ++
                str " after end of file, file " ++ name ++ str " size " ++ uintmax (t_size (out st))) in
    Ok (false, st, (on_sys w (touch (sys w) (t_path (out st)) (clock (sys w)))).2)
  else if offset <? 0 then
    Ok (false, msg_sendf closed M_ERR (str "Error seeking: " ++ name ++ str " size " ++ uintmax (t_size (out st)) ++
                 str " to offset " ++ uintmax offset), w)
  else
    let st := st <| out ::= fun t => t <| t_f := Some (h <| h_pos := offset |>) |> |> in
    let* words := all_words rest in
    let* extra := get_extra words in
    Ok (true, msg_sendf st M_FILE (file_args (out st) ++ str " " ++ uintmax offset ++ extra), w).

Definition get_end (rc : bool) (st : STATE) (w : WORLD) : mem (bool * STATE * WORLD) :=
  let* r := clear_status st w config in
  let '(st, w) := r in
  let st := if has (ND_flag st) WE_ND then st <| waiting_for_GOT := false |> else st in
  Ok (rc, st <| off_req_sent := false |>, w).
Definition get_file (argv : list cstr) (rest : cstr) (st : STATE) (w : WORLD) : mem (bool * STATE * WORLD) :=
  match argv with
  | [name; size; time; off] =>
      let fsize := swrap 64 (strtoumax size) in
      let ftime := (safe_atol time).1 in
      let st := reopen_sent name fsize ftime st w in
      if tfile_cmp (out st) name fsize ftime =? 0 then
        match t_f (out st) with
        | Some h =>
            let* r := get_from name (swrap 64 (strtoumax off)) rest h st w in
            let '(rc, st, w) := r in get_end rc st w
        | None =>
            if off_req_sent st then
              let* r := get_status off st w in
              match r with
              | (true, st, w) => Ok (true, st, w)
              | (false, st, w) => get_end true st w
              end
            else get_end false st w
        end
      else get_end false st w
  | _ => Oob
  end.
Definition GET (args : cstr) (st : STATE) (w : WORLD) : mem (bool * STATE * WORLD) :=
  match parse_msg_args 4 args (str "M_GET") st with
  | (None, st) => Ok (false, st, w)
  | (Some (argv, rest), st) => get_file argv rest st w
  end.

(** *** M_SKIP name size time *)
Fixpoint skip_sent (k : nat) (n : nat) (netname : cstr) (fsize ftime : Z) (st : STATE) : STATE :=
  match k with
  | O => st
  | S k =>
      let st := match sent_fls st !! n with
                | Some t => if tfile_cmp t netname fsize ftime =? 0
                            then remove_from_sent_files_queue (st <| r_skipped_flag := true |> <| ND_addr := t_fa t |>) n
                            else st
                | None => st
                end in
      skip_sent k (S n) netname fsize ftime st
  end.
Definition skip_file (argv : list cstr) (st : STATE) (w : WORLD) : mem (bool * STATE * WORLD) :=
  match argv with
  | [name; size; time] =>
      let fsize := swrap 64 (strtoumax size) in
      let ftime := (safe_atol time).1 in
      let st := skip_sent (length (sent_fls st)) 0 name fsize ftime st in
      let finish (st : STATE) :=
        let* r := clear_status st w config in
        let '(st, w) := r in
        Ok (true, if has (ND_flag st) WE_ND || has (NR_flag st) WE_NR
                  then st <| waiting_for_GOT := false |> <| off_req_sent := false |> else st, w) in
      if tfile_cmp (out st) name fsize ftime =? 0 then
        let st := st <| r_skipped_flag := true |> in
        match t_f (out st) with
        | Some _ => finish (st <| out := TF_ZERO |>)
        | None => Ok (false, msg_send2 st M_ERR (str "Cannot skip ND-status") [], w)
        end
      else finish st
  | _ => Oob
  end.
Definition SKIP (args : cstr) (st : STATE) (w : WORLD) : mem (bool * STATE * WORLD) :=
  match parse_msg_args 3 args (str "M_SKIP") st with
  | (None, st) => Ok (false, st, w)
  | (Some (argv, _), st) => skip_file argv st w
  end.

(** *** M_GOT name size time: one file is acknowledged *)
Definition got_status (clear : bool) (status : option cstr) (st : STATE) (w : WORLD) : mem (bool * WORLD) :=
  match status with
  | None => Ok (true, w)
  | Some s => ND_set_status w (if clear then [] else s) (ND_addr st) config
  end.

Definition got_out (status : option cstr) (st : STATE) (w : WORLD) : mem (bool * STATE * WORLD) :=
  let t := out st in
  let st := st <| out ::= fun t => t <| t_f := None |> |> <| ND_addr := t_fa t |> in
  let* r := got_status (off_req_sent st) status st w in
  let st := st <| waiting_for_GOT := false |> <| off_req_sent := false |> in
  let* s := remove_from_spool st r.2 (t_flo t) (Some (t_path t)) (t_action t) config in
  Ok (r.1, s.1 <| out := TF_ZERO |>, s.2).

Definition got_sent (n : nat) (t : TFILE) (status : option cstr) (st : STATE) (w : WORLD) : mem (bool * STATE * WORLD) :=
  let st := st <| bytes_sent ::= fun b => wrap 64 (b + t_size t) |> <| files_sent ::= Z.succ |> <| ND_addr := t_fa t |> in
  let* r := got_status (off_req_sent st || negb (has (ND_flag st) WE_ND)) status st w in
  let st := st <| waiting_for_GOT := false |> in
  let* s := remove_from_spool st r.2 (t_flo t) (Some (t_path t)) (t_action t) config in
  Ok (r.1, remove_from_sent_files_queue s.1 n, s.2).

Definition got_file (argv : list cstr) (saved_args : cstr) (st : STATE) (w : WORLD) : mem (bool * STATE * WORLD) :=
  match argv with
  | [name; size; time] =>
      let* r := if has (NR_flag st) WE_NR && negb (has (ND_flag st) WE_ND)
                then let* r := ND_set_status w [] (ND_addr st) config in Ok (None, r.2)
                else Ok (Some saved_args, w) in
      let '(status, w) := r in
      let fsize := swrap 64 (strtoumax size) in
      let ftime := (safe_atol time).1 in
      if tfile_cmp (out st) name fsize ftime =? 0 then got_out status st w
      else match find_sent (sent_fls st) name fsize ftime with
           | Some n => got_sent n (default TF_ZERO (sent_fls st !! n)) status st w
           | None => Ok (true, st, w)
           end
  | _ => Oob
  end.
Definition GOT (args : cstr) (st : STATE) (w : WORLD) : mem (bool * STATE * WORLD) :=
  match parse_msg_args 3 args (str "M_GOT") st with
  | (None, st) => Ok (false, st, w)
  | (Some (argv, _), st) => got_file argv args st w
  end.

(** *** M_EOB: the other side has nothing more to send *)
Definition EOB (st : STATE) (w : WORLD) : mem (bool * STATE * WORLD) :=
  let st := st <| remote_EOB := true |> in
  let* r :=
    match t_f (in_ st) with
    | Some h =>
        if negb (has (NR_flag st) THEY_NR) && negb (h_pos h =? 0) then
          let* _ := deref (fa st) in
          let st := st <| in_ ::= fun t => t <| t_f := None |> |> in
          let* r := inb_reject (sys w) st config in
          Ok (st <| in_ := TF_ZERO |>, w <| sys := r.2 |>)
        else close_partial st w config
    | None => Ok (st, w)
    end in
  let* r := store_complete r.1 r.2 in
  match r with
  | (false, st, w) => Ok (false, st, w)
  | (true, st, w) => Ok (true, st <| delay_EOB := 0 |>, w)
  end.

(** ** A block of data *)

(** [fwrite] and [fflush] at the position of the stream. *)
Definition fwrite (s : SYS) (h : HANDLE) (bs : list Z) : option (HANDLE * SYS) :=
  if deny s (h_path h) then None else
  let d := default [] (fopen_r s (h_path h)) in
  let p := Z.to_nat (h_pos h) in
  let d := take p d ++ replicate (p - length d) 0 ++ bs ++ drop (p + length bs) d in
  Some (h <| h_pos ::= fun x => x + Z.of_nat (length bs) |>,
        if is_file s (h_path h) then put_file s (h_path h) d else s).

Definition file_complete (st : STATE) (w : WORLD) : mem (bool * STATE * WORLD) :=
  let st := st <| in_ ::= fun t => t <| t_f := None |> |> in
  let* r := if has (ND_flag st) THEY_ND then Ok (true, st <| in_complete := in_ st |>, w)
            else inb_done run w (in_ st) st config in
  match r with
  | (false, st, w) => local_error st w
  | (true, st, w) => Ok (true, (msg_sendf st M_GOT (file_args (in_ st))) <| in_ := TF_ZERO |>, w)
  end.

Definition got_data (bs : list Z) (st : STATE) (w : WORLD) : mem (bool * STATE * WORLD) :=
  match t_f (in_ st) with
  | None => Ok (true, st, w)
  | Some h =>
      match (match bs with [] => Some (h, sys w) | _ => fwrite (sys w) h bs end) with
      | None => Ok (false, st, w)
      | Some (h, s) =>
          let st := st <| in_ ::= fun t => t <| t_f := Some h |> |> in
          let w := w <| sys := s |> in
          if h_pos h =? t_size (in_ st) then file_complete st w
          else if t_size (in_ st) <? h_pos h then Ok (false, st, w)
          else Ok (true, st, w)
      end
  end.
End Files.

(** ** What an M_GOT does to the spool *)
Section Got.
Context (config : BINKD_CONFIG).

Lemma find_sent_some l name size time n : find_sent l name size time = Some n ->
  exists t, l !! n = Some t /\ tfile_cmp t name size time = 0.
Proof.
  revert n. induction l as [|t l IH]; intros n; simpl; [done|].
  destruct (Z.eqb_spec (tfile_cmp t name size time) 0); [intros [= <-]; by exists t|].
  destruct (find_sent l name size time) as [k|]; [|done]. intros [= <-]. by apply IH.
Qed.

Lemma got_status_same clear status st w r : got_status config clear status st w = Ok r -> same_but (status_file config) w r.2.
Proof. unfold got_status. destruct status; [apply ND_set_status_same|]. intros [= <-]. apply same_but_refl. Qed.

(** The file in transfer or one that was sent, as the message names it. *)
Definition acknowledged (st : STATE) (name : cstr) (size time : Z) (t : TFILE) : Prop :=
  (t = out st \/ t ∈ sent_fls st) /\ tfile_cmp t name size time = 0.
(** The files one M_GOT may change. *)
Definition got_may_change (args : cstr) (st : STATE) (x : cstr) : Prop :=
  status_file config x \/
  exists name size time rest t, parse_args 3 args = Some ([name; size; time], rest) /\
    acknowledged st name (swrap 64 (strtoumax size)) (safe_atol time).1 t /\
    spool_names (t_flo t) (Some (t_path t)) config x.

Lemma spool_step_same (P : cstr -> Prop) clear status st1 w1 w (r : bool * WORLD) st2 t (s : STATE * WORLD) :
  (forall x, status_file config x -> P x) -> (forall x, spool_names (t_flo t) (Some (t_path t)) config x -> P x) ->
  same_but P w w1 -> got_status config clear status st1 w1 = Ok r ->
  remove_from_spool st2 r.2 (t_flo t) (Some (t_path t)) (t_action t) config = Ok s -> same_but P w s.2.
Proof.
  intros H1 H2 Hw Hr Hs. eapply same_but_trans; [exact Hw|]. eapply same_but_trans.
  - eapply same_but_weaken; [exact H1|]. by eapply got_status_same.
  - eapply same_but_weaken; [exact H2|]. by eapply remove_from_spool_same.
Qed.

End Got.

(** A packet was sent and is acknowledged; another file of the outbound stays. *)
Definition sent_packet : TFILE :=
  TF_ZERO <| t_path := str "/s/a.pkt" |> <| t_netname := str "a.pkt" |> <| t_action := chr "d" |> <| t_size := 3 |> <| t_time := 1000 |>
    <| t_fa := example_addr 13 |>.
Definition sender_state : STATE := example_state <| sent_fls := [sent_packet] |>.
Definition two_files : WORLD :=
  example_world <| sys ::= fun s => put_file (put_file s (str "/s/a.pkt") [1; 2; 3]) (str "/s/b.pkt") [4] |>.
Definition got_packet : bool * STATE * WORLD :=
  from_ok (false, sender_state, two_files) (GOT example_config (str "a.pkt 3 1000") sender_state two_files).

