(* ===== verification/Session.v ===== *)
(** * protocol.c: a session

    The start of a session, the dispatch of complete blocks, the offering of
    files, the main loop of [protocol] and what it does at the end.  A run of
    the loop is driven by a list of events: what [select] reported and what the
    calls on the socket did. *)
From S2P Require Import Prelude CStr Crypt Tools Pmatch Md5 FtnAddr Getw Sys Types Bsy FtnNode ReadFlo Prothlp FtnQ Srif Inbound Frames Hosts Spool Login Transfer.

(** ** A complete block *)
Section Blocks.
Context (run : cstr -> SYS -> SYS) (getfree : cstr -> Z) (net : RESOLVER) (junk_sin : SOCKADDR) (md5junk : list Z)
  (junk : Z * Z) (config : BINKD_CONFIG).

(** The table [commands]. *)
Definition command (m : Z) (buf : cstr) (st : STATE) (w : WORLD) : mem (bool * STATE * WORLD) :=
  if m =? M_NUL then let* st := NUL config buf st in Ok (true, st, w)
  else if m =? M_ADR then ADR net junk_sin md5junk junk config buf st w
  else if m =? M_PWD then PWD md5junk config buf st w
  else if m =? M_FILE then start_file_recv run getfree junk config buf st w
  else if m =? M_OK then OK config buf st w
  else if m =? M_EOB then EOB run junk config st w
  else if m =? M_GOT then GOT config buf st w
  else if m =? M_ERR then RError buf st w junk config
  else if m =? M_BSY then BSY buf st w junk config
  else if m =? M_GET then GET config buf st w
  else if m =? M_SKIP then SKIP config buf st w
  else Oob.

(** The body of [recv_block] for a block that is complete; an unknown message is
    ignored. *)
Definition got_block (body : list Z) (st : STATE) (w : WORLD) : mem (bool * STATE * WORLD) :=
  if imsg st then
    let st := st <| msgs_in_batch ::= Z.succ |> in
    match body with
    | [] => Ok (true, st, w)
    | m :: text => if M_MAX <? m then Ok (true, st, w) else command m (c_string text) st w
    end
  else got_data run junk config body st w.
End Blocks.

(** ** The start *)
Definition init_protocol (to_ : option FTN_NODE) (fa0 : option FTN_ADDR) (peer addr : cstr) (config : BINKD_CONFIG) : STATE :=
  {| to := to_; expected_pwd := str "-"; obuf := []; ibuf := []; isize := -1; imsg := false; msgs := [];
     in_ := TF_ZERO; out := TF_ZERO; flo := TF_ZERO; sent_fls := []; q := []; fa := []; nfa := 0;
     remote_fa := fa0; st_pAddr := None; maxflvr := chr "h"; skip_all_flag := false; r_skipped_flag := false;
     listed_flag := 0; inbound := inbound_nonsecure config; peer_name := peer; ipaddr := addr; io_error := false;
     msgs_in_batch := 0; minor := 0; major := 1; killlist := []; rcvdlist := []; nosendlist := [];
     files_sent := 0; files_rcvd := 0; bytes_sent := 0; bytes_rcvd := 0; sysname := []; sysop := []; location := [];
     local_EOB := false; remote_EOB := false; GET_FILE_balance := 0; off_req_sent := false; state := P_NULL;
     state_ext := P_NA;
     NR_flag := match to_ with
                | Some n => if (n_NR_flag n =? NR_ON) || (n_ND_flag n =? ND_ON) then WANT_NR else NO_NR
                | None => NO_NR
                end;
     ND_flag := match to_ with Some n => if n_ND_flag n =? ND_ON then THEY_ND else NO_ND | None => NO_ND end;
     MD_flag := 0; MD_challenge := None; waiting_for_GOT := false; send_eof := false; in_complete := TF_ZERO;
     ND_addr := mkFTN_ADDR [] (-1) 0 0 0; crypt_flag := if no_crypt config then NO_CRYPT else WE_CRYPT;
     keys_out := mkKEYS 0 0 0; keys_in := mkKEYS 0 0 0; evt_queue := [];
     delay_ADR := match akamask config with [] => false | _ => true end;
     delay_EOB := 0; extcmd := false; buggy_NR := false |}.

(** [struct tm], as [localtime] and [gmtime] fill it, and [mktime]. *)
Record TM := mkTM { tm_sec : Z; tm_min : Z; tm_hour : Z; tm_mday : Z; tm_mon : Z; tm_year : Z; tm_wday : Z }.
Record CLOCK := mkCLOCK { localtime : Z -> TM; gmtime : Z -> TM; mktime : TM -> Z }.
Definition tz_off (c : CLOCK) (t tzoff : Z) : Z :=
  if negb (tzoff =? -1) then tzoff ÷ 60
  else swrap 32 ((mktime c (localtime c t) - mktime c (gmtime c t)) ÷ 60).

Definition fmt_pad (width : nat) (pad : char) (n : Z) : cstr :=
  let s := fmt_d n in replicate (width - length s) pad ++ s.
Definition dayweek : list cstr := [str "Sun"; str "Mon"; str "Tue"; str "Wed"; str "Thu"; str "Fri"; str "Sat"].
Definition month : list cstr :=
  [str "Jan"; str "Feb"; str "Mar"; str "Apr"; str "May"; str "Jun";
   str "Jul"; str "Aug"; str "Sep"; str "Oct"; str "Nov"; str "Dec"].
Definition time_text (tm : TM) (tz : Z) : cstr :=
  let two := fmt_pad 2 (chr "0") in
  strnzcpy (nth (Z.to_nat (tm_wday tm)) dayweek [] ++ str ", " ++ fmt_pad 2 32 (tm_mday tm) ++ str " " ++
            nth (Z.to_nat (tm_mon tm)) month [] ++ str " " ++ fmt_d (tm_year tm + 1900) ++ str " " ++
            two (tm_hour tm) ++ str ":" ++ two (tm_min tm) ++ str ":" ++ two (tm_sec tm) ++ str " " ++
            (if 0 <=? tz then str "+" else str "-") ++ two (Z.abs tz ÷ 60) ++ two (Z.rem (Z.abs tz) 60)) 60.

Section Start.
Context (tm : CLOCK) (getrand : nat -> nat -> list Z) (version : cstr) (config : BINKD_CONFIG).

(** The answering side's challenge is the first message. *)
Definition send_challenge (st : STATE) : STATE :=
  if negb (no_MD5 config) && bool_decide (to st = None) then
    let c := MD_newChallenge getrand in
    msg_send2 (st <| MD_challenge := Some c |>) M_NUL
      (str "OPT " ++ MD_toString (take (Z.to_nat (hd 0 c)) (tl c))) []
  else st <| MD_flag := 0 |>.

Definition banner_options (st : STATE) : cstr :=
  str " NDA EXTCMD" ++ (if has (NR_flag st) WANT_NR then str " NR" else []) ++
  (if has (ND_flag st) THEY_ND then str " ND" else []) ++ (if has (crypt_flag st) WE_CRYPT then str " CRYPT" else []).

Definition banner (st : STATE) (w : WORLD) : mem STATE :=
  let st := send_challenge st in
  let st := msg_send2 st M_NUL (str "SYS ") (c_sysname config) in
  let st := msg_send2 st M_NUL (str "ZYZ ") (c_sysop config) in
  let st := msg_send2 st M_NUL (str "LOC ") (c_location config) in
  let st := msg_send2 st M_NUL (str "NDL ") (c_nodeinfo config) in
  let t := safe_time (sys w) in
  let st := msg_send2 st M_NUL (str "TIME ") (time_text (localtime tm t) (tz_off tm t (tzoff config))) in
  let st := msg_sendf st M_NUL (str "VER " ++ version ++ str " binkp/1.1") in
  let* st := if bool_decide (is_Some (to st)) || negb (delay_ADR st) then send_ADR st config else Ok st in
  if bool_decide (is_Some (to st)) then
    let* st := auto_NR config st (inbound st) w in
    Ok (msg_send2 st M_NUL (str "OPT") (banner_options st))
  else Ok st.
End Start.

(** ** Offering a file *)
Section Offer.
Context (config : BINKD_CONFIG).

Definition not_to_send (st : STATE) (path : cstr) : bool := existsb (fun s => strcmp path s =? 0) (nosendlist st).

(** The next file of the list that is open; [None] when the list is done.  The
    comparison with the files not to be sent looks at the element of the queue
    if there is no name translation, and there is no element when the list was
    open already. *)
Fixpoint flo_next (fuel : nat) (file : option FTNQ) (st : STATE) (w : WORLD)
    : mem (option (HANDLE * FILE_ * char) * STATE * WORLD) :=
  match fuel, t_f (flo st) with
  | S fuel, Some h =>
      let data := default [] (fopen_r (sys w) (h_path h)) in
      let rest := drop (Z.to_nat (h_pos h)) data in
      let* r := read_flo_line rest in
      match r with
      | None =>
          let path := t_path (flo st) in
          let st := st <| flo ::= fun t => t <| t_f := None |> |> in
          let* r := remove_from_spool st w path None 0 config in
          Ok (None, r.1 <| flo := TF_ZERO |>, r.2)
      | Some (path, action, rest') =>
          let h := h <| h_pos := Z.of_nat (length data - length rest') |> in
          let st := st <| flo ::= fun t => t <| t_f := Some h |> |> <| out ::= fun t => t <| t_path := path |> |> in
          let drop_line := remove_from_spool st w (t_flo (out st)) (Some path) (t_action (out st)) config in
          let* name := trans_flo_line path (rf_rules config) in
          let* unsendable :=
            match nosendlist st, name, file with
            | [], _, _ => Ok false
            | _, Some name, _ => Ok (not_to_send st name)
            | _, None, Some e => Ok (not_to_send st (q_path e))
            | _, None, None => Oob
            end in
          let real := default path name in
          match (if (unsendable : bool) then None else fs (sys w) !! real) with
          | None => let* r := drop_line in flo_next fuel file r.1 r.2
          | Some f => Ok (Some (mkHANDLE real 0, f, action), st, w)
          end
      end
  | _, _ => Fuel
  end.

(** Opening an element of the queue; [None] is a file that is not there. *)
Definition open_queued (e : FTNQ) (st : STATE) (w : WORLD) : option (option HANDLE * Z * Z * STATE) :=
  if q_type e =? chr "s" then Some (None, q_size e, q_time e, st)
  else if not_to_send st (q_path e) then None
  else
    match fs (sys w) !! q_path e with
    | None => None
    | Some f =>
        let h := mkHANDLE (q_path e) 0 in
        if q_type e =? chr "l" then
          if deny (sys w) (q_path e) then None
          else Some (Some h, strlen (f_data f), f_mtime f,
                     st <| flo ::= fun t => t <| t_action := q_action e |> <| t_path := q_path e |> <| t_fa := q_fa e |>
                                              <| t_f := Some h |> |>)
        else Some (Some h, strlen (f_data f), f_mtime f, st)
    end.

(** Empty packets, archives and files may be dropped instead of sent. *)
Definition rank (e : dontsendemptytype) : Z := match e with EMPTY_NO => 0 | EMPTY_ARCMAIL => 1 | EMPTY_ALL => 2 end.
Definition dont_send (t : TFILE) : bool :=
  let arc := rank EMPTY_ARCMAIL <=? rank (dontsendempty config) in
  ((t_type t =? chr "m") || (ispkt (t_netname t) && arc)) && (t_size t <=? 60)
  || arc && (t_size t =? 0) && isarcmail (t_netname t)
  || (rank (dontsendempty config) =? rank EMPTY_ALL) && (t_size t =? 0).

Definition offer_text (st : STATE) : cstr :=
  file_args (out st) ++
  (if has (NR_flag st) WE_NR then str " -1"
   else match t_f (out st) with None => str " " ++ uintmax (t_size (out st)) | Some _ => str " 0" end).

(** The file is described in [out] and offered to the other side. *)
Definition offer (st : STATE) (w : WORLD) : mem (bool * STATE * WORLD) :=
  let st := st <| waiting_for_GOT := false |> <| out ::= fun t => t <| t_start := safe_time (sys w) |> |> in
  let '(name, w) := on_sys w (netname_ (sys w) (out st)) in
  let st := st <| out ::= fun t => t <| t_netname := name |> |> in
  if dont_send (out st) then
    let t := out st in
    let* r := remove_from_spool (st <| out ::= fun t => t <| t_f := None |> |>) w (t_flo t) (Some (t_path t)) (t_action t) config in
    Ok (false, r.1 <| out := TF_ZERO |>, r.2)
  else
    let st := msg_sendf st M_FILE (offer_text st) in
    Ok (true, if has (NR_flag st) WE_NR then st <| off_req_sent := true |> else st, w).

Definition offer_from_flo (file : option FTNQ) (st : STATE) (w : WORLD) : mem (bool * STATE * WORLD) :=
  let st := st <| out ::= fun t => t <| t_flo := t_path (flo st) |> |> in
  let fuel := match t_f (flo st) with
              | Some h => S (length (default [] (fopen_r (sys w) (h_path h))))
              | None => O
              end in
  let* r := flo_next fuel file st w in
  match r with
  | (None, st, w) => Ok (false, st, w)
  | (Some (h, f, action), st, w) =>
      offer (st <| out ::= fun t => t <| t_fa := t_fa (flo st) |> <| t_action := action |> <| t_type := 0 |> <| t_f := Some h |>
                                      <| t_size := strlen (f_data f) |> <| t_time := f_mtime f |> |>) w
  end.

Definition start_file_transfer (file : option FTNQ) (st : STATE) (w : WORLD) : mem (bool * STATE * WORLD) :=
  let st := st <| out := TF_ZERO |> in
  match t_f (flo st), file with
  | Some _, _ => offer_from_flo file st w
  | None, None => Oob
  | None, Some e =>
      let st := st <| maxflvr := MAXFLVR (maxflvr st) (q_flvr e) |> in
      match open_queued e st w with
      | None => Ok (false, st, w)
      | Some (f, size, time, st) =>
          let st := st <| out ::= fun t => t <| t_fa := q_fa e |> |> in
          let st := if has (ND_flag st) WE_ND then st else st <| ND_addr := q_fa e |> in
          if bool_decide (is_Some (t_f (flo st))) then offer_from_flo file st w
          else
            offer (st <| out ::= fun t => t <| t_path := q_path e |> <| t_flo := [] |> <| t_action := q_action e |>
                                            <| t_type := q_type e |> <| t_f := f |> <| t_size := size |> <| t_time := time |> |>) w
      end
  end.
End Offer.

(** ** The main loop *)
Section Loop.
Context (run : cstr -> SYS -> SYS) (getfree : cstr -> Z) (net : RESOLVER) (junk_sin : SOCKADDR) (md5junk : list Z)
  (junk : Z * Z) (binkd_exit : bool) (config : BINKD_CONFIG).

(** Every call that offers nothing closes the open list, takes an element of the
    queue or drops a line of a list. *)
Definition total_bytes (s : SYS) : nat := sum_list (map (fun x => length (f_data x.2)) (map_to_list (fs s))).
Definition offer_fuel (st : STATE) (w : WORLD) : nat := S (S (length (q st)) * (2 + total_bytes (sys w))).
Fixpoint next_file (fuel : nat) (st : STATE) (w : WORLD) : mem (STATE * WORLD) :=
  match fuel with
  | O => Fuel
  | S fuel =>
      let next := match t_f (flo st) with
                  | Some _ => Some (None, st)
                  | None => match select_next_file (q st) with
                            | Some (_, e, l) => Some (Some e, st <| q := l |>)
                            | None => None
                            end
                  end in
      match next with
      | Some (file, st) =>
          let* r := start_file_transfer config file st w in
          match r with
          | (true, st, w) => Ok (st, w)
          | (false, st, w) => next_file fuel st w
          end
      | None => let* w := q_free w (Queue (q st)) config in Ok (st <| q := [] |>, w)
      end
  end.

Definition idle (st : STATE) : bool := bool_decide (t_f (out st) = None).
Definition offer_next (st : STATE) (w : WORLD) : mem (STATE * WORLD) :=
  if negb (local_EOB st) && negb (bool_decide (q st = [])) && idle st && negb (waiting_for_GOT st) &&
     negb (off_req_sent st) && negb (bool_decide (state st = P_NULL))
  then next_file (offer_fuel st w) st w else Ok (st, w).

Definition binkp10 (st : STATE) : bool := major st * 100 + minor st <=? 100.
Definition send_EOB (st : STATE) : STATE :=
  if idle st && bool_decide (q st = []) && negb (local_EOB st) && negb (bool_decide (state st = P_NULL)) &&
     bool_decide (sent_fls st = []) && ((delay_EOB st =? 0) || negb (binkp10 st))
  then msg_send2 (st <| local_EOB := true |>) M_EOB [] [] else st.

Definition want_write (st : STATE) : bool :=
  negb (bool_decide (msgs st = [])) ||
  (negb (idle st) && negb (off_req_sent st) && negb (waiting_for_GOT st)) ||
  negb (bool_decide (obuf st = [])) || send_eof st.

Definition nothing_left (st : STATE) : bool :=
  local_EOB st && remote_EOB st && bool_decide (sent_fls st = []) && (GET_FILE_balance st =? 0) &&
  bool_decide (t_f (in_ st) = None) && idle st.

Definition process_rcvdlist (st : STATE) (w : WORLD) : mem (STATE * WORLD) :=
  let* r := mem_fold (fun sw name =>
      let '(st, w) := sw in
      let* r := evt_run run w (q st) name true st config in
      let '(q', st, w) := r in Ok (st <| q := q' |>, w)) (rcvdlist st) (st, w) in
  let '(st, w) := r in
  let '(k, l) := q_to_killlist (killlist st) (q st) in
  Ok (st <| killlist := k |> <| q := l |> <| rcvdlist := [] |>, w).

(** Both sides are done with a batch: the session ends, or another one starts. *)
Definition end_of_batch (st : STATE) (w : WORLD) : mem (bool * STATE * WORLD) :=
  let* r := match rcvdlist st with [] => Ok (st, w) | _ => process_rcvdlist st w end in
  let '(st, w) := r in
  if (msgs_in_batch st <=? 2) || binkp10 st then
    let* r := clear_status st w config in Ok (false, r.1, r.2)
  else
    let st := st <| msgs_in_batch := 0 |> <| remote_EOB := false |> <| local_EOB := false |> in
    if OK_SEND_FILES st config then
      let* r := q_scan_boxes w (Queue (q st)) (locked st) (bool_decide (is_Some (to st))) config in
      Ok (true, st <| q := q_sort (queue_list r.1) (locked st) |>, r.2)
    else Ok (true, st, w).

(** What is done before the session waits; false leaves the loop. *)
Definition before_wait (st : STATE) (w : WORLD) : mem (bool * STATE * WORLD) :=
  let round (st : STATE) (w : WORLD) := let* r := offer_next st w in Ok (send_EOB r.1, r.2) in
  let* r := round st w in
  if nothing_left r.1 then
    let* r := end_of_batch r.1 r.2 in
    match r with
    | (true, st, w) => let* r := round st w in Ok (true, r.1, r.2)
    | (false, st, w) => Ok (false, st, w)
    end
  else Ok (true, r.1, r.2).

(** What [select] reported, with the results of the calls that follow. *)
Inductive EVENT :=
| E_timeout
| E_select_error (msg : cstr)
| E_ready (rd wr : option IO).

Definition to_failed (st : STATE) (w : WORLD) (msg : cstr) : mem (bool * list Z * STATE * WORLD) :=
  let st := st <| io_error := true |> in
  let* w := try_failed config junk w st msg in Ok (false, [], st, w).

Definition after_wait (ev : EVENT) (st : STATE) (w : WORLD) : mem (bool * list Z * STATE * WORLD) :=
  let write := want_write st in
  let* w := bsy_touch w config in
  match ev with
  | E_timeout => to_failed st w (str "Timeout!")
  | E_select_error msg =>
      if binkd_exit then Ok (false, [], st <| io_error := true |>, w) else to_failed st w msg
  | E_ready rd wr =>
      let* r := match rd with
                | Some io => recv_block config junk binkd_exit
                               (got_block run getfree net junk_sin md5junk junk config) io st w
                | None => Ok (true, st, w)
                end in
      match r with
      | (false, st, w) => Ok (false, [], st, w)
      | (true, st, w) =>
          match (if write then wr else None) with
          | Some io =>
              let* r := send_block config junk binkd_exit io st w in
              let '(rc, bytes, st, w) := r in Ok (negb (rc =? 0), bytes, st, w)
          | None => Ok (true, [], st, w)
          end
      end
  end.

(** The loop runs as long as there are events; the bytes it sent, whether it
    has ended, and where it stands. *)
Fixpoint main_loop (evs : list EVENT) (st : STATE) (w : WORLD) : mem (list Z * bool * STATE * WORLD) :=
  let* r := before_wait st w in
  match r, evs with
  | (false, st, w), _ => Ok ([], true, st, w)
  | (true, st, w), [] => Ok ([], false, st, w)
  | (true, st, w), ev :: evs =>
      let* r := after_wait ev st w in
      match r with
      | (false, bytes, st, w) => Ok (bytes, true, st, w)
      | (true, bytes, st, w) =>
          let* r := main_loop evs st w in
          let '(more, ended, st, w) := r in Ok (bytes ++ more, ended, st, w)
      end
  end.

(** ** The end *)

(** What is queued still goes out. *)
Fixpoint flush_output (ios : list IO) (st : STATE) (w : WORLD) : mem (list Z * STATE * WORLD) :=
  if io_error st || (bool_decide (msgs st = []) && bool_decide (obuf st = [])) then Ok ([], st, w)
  else match ios with
       | [] => Ok ([], st, w)
       | io :: ios =>
           let* r := send_block config junk binkd_exit io st w in
           let '(rc, bytes, st, w) := r in
           if rc =? 0 then Ok (bytes, st, w)
           else let* r := flush_output ios st w in Ok (bytes ++ r.1.1, r.1.2, r.2)
       end.

Definition deinit_protocol (st : STATE) (w : WORLD) : mem (STATE * WORLD) :=
  let* r := close_partial st w config in
  let '(st, w) := r in
  let* w := mem_fold (fun w a => bsy_remove w a F_BSY config) (locked st) w in
  let* w := match q st with [] => Ok w | l => q_free w (Queue l) config end in
  Ok (st, w).

Definition session_over (st : STATE) (w : WORLD) : mem WORLD :=
  if nothing_left st then
    let w := w <| sys ::= fun s => process_killlist s (killlist st) (chr "s") |> in
    let* s := inb_remove_partial (sys w) st config in
    let w := w <| sys := s |> in
    match to st with Some n => good_try w (n_fa n) (str "CONNECT/BND") junk config | None => Ok w end
  else
    let w := w <| sys ::= fun s => process_killlist s (killlist st) 0 |> in
    match to st with
    | Some n => if negb (tolower (maxflvr st) =? chr "h")
                then let* r := create_poll w (n_fa n) (maxflvr st) config in Ok r.2 else Ok w
    | None => Ok w
    end.

(** [in_error]: purging the input failed. *)
Definition finish (in_error : bool) (ios : list IO) (st : STATE) (w : WORLD) : mem (list Z * STATE * WORLD) :=
  let st := if io_error st then st else st <| io_error := in_error |> in
  let* r := flush_output ios st w in
  let '(bytes, st, w) := r in
  let* w := session_over st w in
  let* w := match to st with
            | Some n => if r_skipped_flag st && (0 <? hold_skipped config)
                        then hold_node w (n_fa n) (safe_time (sys w) + hold_skipped config) config else Ok w
            | None => Ok w
            end in
  let* r := deinit_protocol st w in
  let '(st, w) := r in
  Ok (bytes, st <| evt_queue := [] |>, w <| sys ::= fun s => evt_set run s (evt_queue st) |>).
End Loop.

(** [protocol]: a whole session, for a list of events.  [servers] are the
    sessions already answered. *)
Section Protocol.
Context (run : cstr -> SYS -> SYS) (getfree : cstr -> Z) (net : RESOLVER) (junk_sin : SOCKADDR) (md5junk : list Z)
  (junk : Z * Z) (binkd_exit : bool) (tm : CLOCK) (getrand : nat -> nat -> list Z) (version : cstr) (servers : Z)
  (config : BINKD_CONFIG).

Definition too_many (st : STATE) : bool := (max_servers config <? servers) && bool_decide (to st = None).
Definition start_session (to_ : option FTN_NODE) (fa0 : option FTN_ADDR) (peer addr : cstr) (w : WORLD) : mem (bool * STATE) :=
  let* st := banner tm getrand version config (init_protocol to_ fa0 peer addr config) w in
  Ok (if too_many st then (false, msg_send2 st M_BSY (str "Too many servers") []) else (true, st)).

Definition protocol (to_ : option FTN_NODE) (fa0 : option FTN_ADDR) (peer addr : cstr) (evs : list EVENT) (in_error : bool)
    (ios : list IO) (w : WORLD) : mem (list Z * STATE * WORLD) :=
  let* s := start_session to_ fa0 peer addr w in
  let* r := if s.1 then main_loop run getfree net junk_sin md5junk junk binkd_exit config evs s.2 w
            else Ok ([], true, s.2, w) in
  let '(bytes, _, st, w) := r in
  let* r := finish run junk binkd_exit config in_error ios st w in
  let '(more, st, w) := r in Ok (bytes ++ more, st, w).
End Protocol.

(** ** What is queued goes out *)
#[local] Arguments send_block : simpl never.



(** ** An offer is understood *)
#[local] Opaque MAX_NETNAME.

Lemma uintmax_fmt n : 0 <= n < 2 ^ 63 -> uintmax n = fmt_u n.
Proof. intros Hn. unfold uintmax, wrap. by rewrite Z.mod_small by lia. Qed.

Ltac words := repeat (apply Forall_cons; split); first [done | apply fmt_u_word; lia | constructor].
(** The words of a description of a file. *)
Lemma file_args_parse t rest : word (t_netname t) -> 0 <= t_size t < 2 ^ 63 -> 0 <= t_time t < 2 ^ 63 ->
  parse_args 3 (file_args t ++ match rest with [] => [] | _ => 32 :: rest end) =
    Some ([t_netname t; fmt_u (t_size t); fmt_u (t_time t)], rest).
Proof.
  intros Hn Hs Ht. unfold file_args. rewrite !uintmax_fmt by done.
  pose proof (parse_args_join [t_netname t; fmt_u (t_size t); fmt_u (t_time t)] rest) as H. cbn [length join] in H.
  apply H; [words|done].
Qed.
Lemma file_args_offset t off : word (t_netname t) -> 0 <= t_size t < 2 ^ 63 -> 0 <= t_time t < 2 ^ 63 -> word off ->
  parse_args 4 (file_args t ++ str " " ++ off) = Some ([t_netname t; fmt_u (t_size t); fmt_u (t_time t); off], []).
Proof.
  intros Hn Hs Ht Ho. unfold file_args. rewrite !uintmax_fmt by done.
  pose proof (parse_args_join [t_netname t; fmt_u (t_size t); fmt_u (t_time t); off] []) as H. cbn [length join] in H.
  rewrite app_nil_r in H. rewrite <- H; [|words|done].
  f_equal. by rewrite <- !app_assoc.
Qed.

Lemma offer_out config st w st1 w1 : offer config st w = Ok (true, st1, w1) ->
  t_netname (out st1) = (netname_ (sys w) ((out st) <| t_start := safe_time (sys w) |>)).1 /\
  t_size (out st1) = t_size (out st) /\ t_time (out st1) = t_time (out st) /\ t_f (out st1) = t_f (out st).
Proof.
  unfold offer, on_sys. cbv zeta. set (nn := netname_ _ _). case_if.
  - intros H. by apply mem_bind_ok in H as (r & _ & [=]).
  - intros [= <- _]. unfold msg_sendf, msg_send2. rewrite crypt_out_cipher. by case_if.
Qed.

(** C13: an offer is understood and its acknowledgement recognised: the words of
    an M_FILE parse into a name, size, time and offset that describe the
    file to the receiver exactly, and the M_GOT the receiver answers with
    parses into words that compare equal to the sender's file, whatever
    characters the name of the file has. *)
Theorem offer_acknowledged config st w st1 w1 rst rw :
  cstring (t_path (out st)) -> 0 <= t_size (out st) < 2 ^ 63 -> 0 <= t_time (out st) < 2 ^ 63 ->
  offer config st w = Ok (true, st1, w1) -> t_netname (out st1) <> [] ->
  exists name size time off, parse_args 4 (offer_text st1) = Some ([name; size; time; off], []) /\
    let f := in_ (new_file rst rw name size time) in
    (t_netname f, t_size f, t_time f) = (t_netname (out st1), t_size (out st1), t_time (out st1)) /\
    exists name' size' time', parse_args 3 (file_args f) = Some ([name'; size'; time'], []) /\
      tfile_cmp (out st1) name' (swrap 64 (strtoumax size')) (safe_atol time').1 = 0.
Proof.
  intros Hp Hs Ht H Hne. destruct (offer_out _ _ _ _ _ H) as (En & Es & Et & _). rewrite <- Es in Hs. rewrite <- Et in Ht.
  assert (Hw : word (t_netname (out st1))) by (apply wire_word; [done|]; rewrite En; by apply netname_wire).
  assert (Hl : (length (t_netname (out st1)) < MAX_NETNAME)%nat) by (rewrite En; apply netname_length).
  assert (Hoff : exists off, word off /\ offer_text st1 = file_args (out st1) ++ str " " ++ off).
  { unfold offer_text. case_if; [by exists (str "-1"); repeat constructor|]. destruct (t_f (out st1)).
    - by exists (str "0"); repeat constructor.
    - exists (uintmax (t_size (out st1))). split; [|done]. rewrite uintmax_fmt by done. apply fmt_u_word. lia. }
  destruct Hoff as (off & Ho & ->).
  exists (t_netname (out st1)), (fmt_u (t_size (out st1))), (fmt_u (t_time (out st1))), off.
  split; [by apply file_args_offset|]. cbv zeta.
  set (f := in_ (new_file rst rw _ _ _)).
  assert (Ef : (t_netname f, t_size f, t_time f) = (t_netname (out st1), t_size (out st1), t_time (out st1))).
  { subst f. unfold new_file. cbn [in_ t_netname t_size t_time set_field].
    rewrite size_fmt_u, safe_atol_fmt_u by done. unfold strnzcpy. by rewrite take_ge by lia. }
  split; [done|]. clearbody f. injection Ef as E1 E2 E3.
  exists (t_netname f), (fmt_u (t_size f)), (fmt_u (t_time f)). split.
  - pose proof (file_args_parse f []) as Hq. rewrite app_nil_r in Hq. apply Hq; rewrite ?E1, ?E2, ?E3; done.
  - rewrite E1, E2, E3, size_fmt_u, safe_atol_fmt_u by done. apply tfile_cmp_self.
Qed.

(** A file with a blank and a backslash in its name. *)
Definition odd_file : STATE :=
  example_state <| out := TF_ZERO <| t_path := str "/s/a b\c.zip" |> <| t_size := 70000 |> <| t_time := 1700000000 |>
                            <| t_f := Some (mkHANDLE (str "/s/a b\c.zip") 0) |> |>.
Definition offered : bool * STATE * WORLD := from_ok (false, odd_file, example_world) (offer example_config odd_file example_world).
Lemma offer_acknowledged_witness :
  exists name size time off, parse_args 4 (offer_text offered.1.2) = Some ([name; size; time; off], []) /\
    let f := in_ (new_file example_state example_world name size time) in
    (t_netname f, t_size f, t_time f) = (t_netname (out offered.1.2), t_size (out offered.1.2), t_time (out offered.1.2)) /\
    exists name' size' time', parse_args 3 (file_args f) = Some ([name'; size'; time'], []) /\
      tfile_cmp (out offered.1.2) name' (swrap 64 (strtoumax size')) (safe_atol time').1 = 0.
Proof.
  apply (offer_acknowledged example_config odd_file example_world offered.1.2 offered.2).
  - repeat constructor; vm_compute; reflexivity.
  - split; vm_compute; [discriminate|reflexivity].
  - split; vm_compute; [discriminate|reflexivity].
  - apply (from_ok_eq3 (false, odd_file, example_world)); vm_compute; reflexivity.
  - vm_compute. discriminate.
Defined.

(** ** Looking for a file to offer ends *)
Section Offering.
Context (config : BINKD_CONFIG).
#[local] Arguments mem_fold : simpl never.

(** What is left of the list that is open. *)
Definition unread (w : WORLD) (h : HANDLE) : nat := length (drop (Z.to_nat (h_pos h)) (data_at w (h_path h))).
Definition open_list (st : STATE) (w : WORLD) : nat := match t_f (flo st) with Some h => S (unread w h) | None => O end.

Lemma open_some st w h : t_f (flo st) = Some h -> open_list st w = S (unread w h).
Proof. unfold open_list. by intros ->. Qed.
Lemma open_none st w : t_f (flo st) = None -> open_list st w = O.
Proof. unfold open_list. by intros ->. Qed.

Lemma unread_no_growth w w' h : no_growth w w' -> (unread w' h <= unread w h)%nat.
Proof. intros H. specialize (H (h_path h)). unfold unread. rewrite !length_drop. lia. Qed.

Definition flo_result (st : STATE) (w : WORLD) (r : option (HANDLE * FILE_ * char) * STATE * WORLD) : Prop :=
  no_growth w r.2 /\ q r.1.2 = q st /\ (open_list r.1.2 r.2 < open_list st w)%nat.

Lemma flo_next_ends fuel file st w h : t_f (flo st) = Some h -> (unread w h < fuel)%nat ->
  outcome (flo_result st w) True (flo_next config fuel file st w).
Proof.
  revert st w h. induction fuel as [|fuel IH]; intros st w h Eh Hl; [lia|]. cbn [flo_next]. rewrite Eh. cbv zeta.
  fold (data_at w (h_path h)). set (data := data_at w (h_path h)) in *. set (rest := drop (Z.to_nat (h_pos h)) data).
  eapply outcome_bind; [eapply outcome_weaken; [apply read_flo_ends|intros a Ha; exact Ha|done]|].
  intros [[[path action] rest']|] Hr; cbn beta iota in Hr.
  - set (h2 := h <| h_pos := Z.of_nat (length data - length rest') |>).
    set (st2 := st <| flo ::= fun t => t <| t_f := Some h2 |> |> <| out ::= fun t => t <| t_path := path |> |>).
    assert (Hrest : (length rest <= length data)%nat) by (subst rest; rewrite length_drop; lia).
    assert (Hu : (unread w h2 < unread w h)%nat).
    { change (unread w h) with (length rest).
      change (unread w h2) with (length (drop (Z.to_nat (Z.of_nat (length data - length rest'))) data)).
      rewrite length_drop. lia. }
    destruct (trans_flo_ok path (rf_rules config)) as [name ->]. cbn [mem_bind].
    eapply outcome_bind with (P := fun _ => True); [by repeat case_match|]. intros unsendable _.
    destruct (if unsendable then None else _) as [f|].
    + split; [apply no_growth_refl|]. split; [done|]. unfold open_list. cbn [fst snd]. rewrite Eh.
      change (t_f (flo st2)) with (Some h2). cbv iota. lia.
    + eapply outcome_bind; [eapply outcome_weaken; [apply remove_from_spool_no_growth|intros a Ha; exact Ha|done]|].
      intros [st3 w3] (Hs & Hf & Hq). cbn [fst snd] in *.
      assert (Eh3 : t_f (flo st3) = Some h2) by by rewrite Hf.
      pose proof (unread_no_growth w w3 h2 Hs) as Hu3.
      eapply outcome_weaken; [apply (IH st3 w3 h2 Eh3); lia| |done]. intros r (A & B & C). split; [by eapply no_growth_trans|].
      split; [by rewrite B, Hq|]. unfold open_list in *. rewrite Eh, Eh3 in *. lia.
  - eapply outcome_bind; [eapply outcome_weaken; [apply remove_from_spool_no_growth|intros a Ha; exact Ha|done]|].
    intros [st3 w3] (Hs & Hf & Hq). split; [done|]. split; [done|]. unfold open_list. simpl. rewrite Eh. lia.
Qed.

(** The bytes of the file system bound every list. *)
Definition at_most (T : nat) (w : WORLD) : Prop := forall p, (length (data_at w p) <= T)%nat.
Lemma at_most_no_growth T w w' : no_growth w w' -> at_most T w -> at_most T w'.
Proof. intros H Ht p. specialize (H p). specialize (Ht p). lia. Qed.
Lemma total_bytes_at_most w : at_most (total_bytes (sys w)) w.
Proof.
  intros p. unfold data_at, fopen_r, total_bytes. destruct (fs (sys w) !! p) as [f|] eqn:E; simpl; [|lia].
  apply elem_of_map_to_list in E. induction (map_to_list (fs (sys w))) as [|x l IH]; [by apply elem_of_nil in E|].
  simpl. apply elem_of_cons in E as [<-|E]; [simpl; lia|]. specialize (IH E). lia.
Qed.

(** A file was offered, or there is less left to look at. *)
Definition offers (st : STATE) (w : WORLD) : Prop := exists st0 w0, offer config st0 w0 = Ok (true, st, w).
Definition tried (n : nat) (st : STATE) (w : WORLD) (r : bool * STATE * WORLD) : Prop :=
  if r.1.1 then offers r.1.2 r.2
  else no_growth w r.2 /\ q r.1.2 = q st /\ (open_list r.1.2 r.2 <= n)%nat.

Lemma outcome_result {A} (P Q : A -> Prop) E m : outcome P E m -> (forall a, m = Ok a -> P a -> Q a) -> outcome Q E m.
Proof. destruct m; simpl; auto. Qed.

Lemma offer_ends st w : outcome (tried (open_list st w) st w) True (offer config st w).
Proof.
  apply (outcome_result (fun r => r.1.1 = false -> no_growth w r.2 /\ q r.1.2 = q st /\ flo r.1.2 = flo st)).
  - unfold offer, on_sys. cbv zeta. set (nn := netname_ _ _).
    assert (Hn : no_growth w (w <| sys := nn.2 |>)).
    { assert (E : fs nn.2 = fs (sys w)) by (subst nn; unfold netname_, rnd; by repeat case_if).
      intros p. unfold data_at, fopen_r. simpl. by rewrite E. }
    case_if; [|done]. eapply outcome_bind; [eapply outcome_weaken; [apply remove_from_spool_no_growth|intros a Ha; exact Ha|done]|].
    intros [st1 w1] (Hs & Hf & Hq) _. cbn in *. split_and!; [by eapply no_growth_trans|done|done].
  - intros [[b st1] w1] E H. destruct b; [by exists st, w|]. destruct (H eq_refl) as (Hs & Hq & Hf). cbn in *.
    split; [done|]. split; [done|]. unfold open_list. cbn. rewrite Hf. destruct (t_f (flo st)) as [h|]; [|lia].
    pose proof (unread_no_growth w w1 h Hs). lia.
Qed.

Lemma tried_weaken n m st st0 w w0 r : tried n st w r -> (n <= m)%nat -> no_growth w0 w -> q st = q st0 -> tried m st0 w0 r.
Proof.
  unfold tried. destruct r as [[[] st1] w1]; simpl; [done|]. intros (A & B & C) Hn Hs Hq.
  split; [by eapply no_growth_trans|]. split; [congruence|lia].
Qed.

Lemma offer_from_flo_ends file st w : (0 < open_list st w)%nat ->
  outcome (tried (open_list st w - 1) st w) True (offer_from_flo config file st w).
Proof.
  unfold offer_from_flo. cbv zeta. set (st1 := st <| out ::= _ |>). change (flo st1) with (flo st).
  unfold open_list at 1. destruct (t_f (flo st)) as [h|] eqn:Eh; [|lia]. intros _.
  assert (E1 : t_f (flo st1) = Some h) by done.
  eapply outcome_bind.
  - apply (flo_next_ends _ file st1 w h E1). unfold unread, data_at. rewrite length_drop. lia.
  - intros [[[[[h2 f] action]|] st2] w2] (Hs & Hq & Ho); cbn [fst snd] in *.
    + change (open_list st1 w) with (open_list st w) in Ho. change (q st1) with (q st) in Hq.
      eapply outcome_weaken; [apply offer_ends| |done]. intros r Hr. eapply tried_weaken; [exact Hr| |done|exact Hq].
      unfold open_list in *. cbn. lia.
    + change (open_list st1 w) with (open_list st w) in Ho. unfold tried, outcome. cbn [fst snd].
      split_and!; [done|done|lia].
Qed.

Definition measure (T : nat) (st : STATE) (w : WORLD) : nat := length (unsent (q st)) * (2 + T) + open_list st w.

(** A call that offers nothing leaves less. *)
Lemma start_file_transfer_ends (T : nat) (file : option FTNQ) (st st0 : STATE) (w : WORLD) : at_most T w ->
  match t_f (flo st0), file with
  | Some _, _ => st = st0
  | None, Some e => exists i, select_next_file (q st0) = Some (i, e, q st) /\ flo st = flo st0
  | None, None => False
  end ->
  outcome (fun r : bool * STATE * WORLD => if r.1.1 then offers r.1.2 r.2
                    else no_growth w r.2 /\ (measure T r.1.2 r.2 < measure T st0 w)%nat) True
    (start_file_transfer config file st w).
Proof.
  intros HT Hsel. unfold start_file_transfer. cbv zeta. set (st1 := st <| out := TF_ZERO |>).
  change (flo st1) with (flo st). destruct (t_f (flo st0)) as [h|] eqn:Eh.
  - subst st0. rewrite Eh. assert (Hp : (0 < open_list st1 w)%nat) by (rewrite (open_some st1 _ h Eh); lia).
    eapply outcome_weaken; [by apply offer_from_flo_ends| |done]. intros [[b st2] w2]. unfold tried, measure. cbn [fst snd].
    destruct b; [done|]. intros (A & B & C). split; [done|]. rewrite B. change (q st1) with (q st).
    change (open_list st1 w) with (open_list st w) in *. lia.
  - destruct file as [e|]; [|done]. destruct Hsel as (i & Hi & Hf). rewrite Hf, Eh.
    pose proof (select_next_spec (q st0)) as Hsp. rewrite Hi in Hsp. destruct Hsp as (e0 & rest & Hu & _ & Hrest & _).
    assert (Hm : (length (unsent (q st)) * (2 + T) + (1 + T) < measure T st0 w)%nat).
    { unfold measure. rewrite Hu, Hrest. simpl length. rewrite (open_none st0 w Eh). lia. }
    set (st2 := st1 <| maxflvr := _ |>).
    destruct (open_queued e st2 w) as [[[[f size] time] st3]|] eqn:Eo.
    + assert (H3 : q st3 = q st /\ (open_list st3 w <= 1 + T)%nat).
      { revert Eo. unfold open_queued. case_if; [intros [= _ _ _ <-]; rewrite open_none by (cbn; congruence); split; [done|lia]|].
        case_if; [done|]. destruct (fs (sys w) !! q_path e) as [f0|]; [|done]. case_if.
        - case_if; [done|]. intros [= _ _ _ <-]. split; [done|]. rewrite (open_some _ _ (mkHANDLE (q_path e) 0)) by done.
          specialize (HT (q_path e)). unfold unread. cbn [h_path h_pos]. rewrite length_drop. lia.
        - intros [= _ _ _ <-]. rewrite open_none by (cbn; congruence). split; [done|lia]. }
      destruct H3 as [Hq3 Ho3]. set (st4 := if has (ND_flag _) WE_ND then _ else _).
      assert (H4 : q st4 = q st /\ flo st4 = flo st3) by (subst st4; by case_if). destruct H4 as [Hq4 Hf4].
      assert (Ho4 : open_list st4 w = open_list st3 w) by (unfold open_list; by rewrite Hf4).
      assert (Hweak : forall r : bool * STATE * WORLD, tried (1 + T) st4 w r -> if r.1.1 then offers r.1.2 r.2
          else no_growth w r.2 /\ (measure T r.1.2 r.2 < measure T st0 w)%nat).
      { intros [[b st5] w5]. unfold tried, measure in *. cbn [fst snd]. destruct b; [done|]. intros (A & B & C).
        split; [done|]. rewrite B, Hq4. lia. }
      case_if.
      * eapply outcome_weaken; [apply offer_from_flo_ends| |done].
        -- bools. apply bool_decide_eq_true in E as [h E]. rewrite (open_some _ _ h E). lia.
        -- intros r Hr. apply Hweak. eapply tried_weaken; [exact Hr|lia|apply no_growth_refl|done].
      * eapply outcome_weaken; [apply offer_ends| |done]. intros r Hr. apply Hweak.
        eapply tried_weaken; [exact Hr| |apply no_growth_refl|done]. unfold open_list in *. cbn. lia.
    + simpl. split; [apply no_growth_refl|]. unfold measure at 1. change (q st2) with (q st).
      assert (Ho2 : open_list st2 w = 0%nat) by (apply open_none; cbn; congruence).
      rewrite Ho2. lia.
Qed.

(** Nothing is left to offer. *)
Definition exhausted (st : STATE) : Prop := q st = [] /\ t_f (flo st) = None.

Lemma next_file_ends T fuel st w : at_most T w -> (measure T st w < fuel)%nat ->
  outcome (fun r => offers r.1 r.2 \/ exhausted r.1) True (next_file config fuel st w).
Proof.
  revert st w. induction fuel as [|fuel IH]; intros st w HT Hf; [lia|]. cbn [next_file].
  assert (Hrec : forall file st1,
    match t_f (flo st), file with
    | Some _, _ => st1 = st
    | None, Some e => exists i, select_next_file (q st) = Some (i, e, q st1) /\ flo st1 = flo st
    | None, None => False
    end ->
    outcome (fun r => offers r.1 r.2 \/ exhausted r.1) True
      (let* r := start_file_transfer config file st1 w in
       match r with (true, st, w) => Ok (st, w) | (false, st, w) => next_file config fuel st w end)).
  { intros file st1 H. eapply outcome_bind; [by apply (start_file_transfer_ends T file st1 st w)|].
    intros [[[] st2] w2]; cbn [fst snd]; [by left|]. intros [Hs Hm]. apply IH; [by eapply at_most_no_growth|lia]. }
  destruct (t_f (flo st)) as [h|] eqn:Eh; [by apply (Hrec None)|].
  destruct (select_next_file (q st)) as [[[i e] l]|] eqn:Es; [|simpl; by right].
  apply (Hrec (Some e)). by exists i.
Qed.

End Offering.
