(* ===== verification/Binlog.v ===== *)
(** * binlog.c: the statistics files

    A record for each session, in the styles of T-Mail and FrontDoor.  What an
    array of characters holds after its text is not initialised; it is an
    argument. *)
From S2P Require Import Prelude CStr Tools FtnAddr Sys Types Session.

(** Numbers in Intel byte order. *)
Definition fput16 (arg : Z) : list Z := [Z.land arg 0xff; Z.shiftr arg 8].
Definition fput32 (arg : Z) : list Z := fput16 (wrap 16 (Z.land arg 0xffff)) ++ fput16 (wrap 16 (arg / 0x10000)).
(** [fopen (name, "ab")] and the writes; the flag is false when it cannot be opened. *)
Definition append_to (name : cstr) (bytes : list Z) (s : SYS) : bool * SYS :=
  if fopen_w s name then (true, put_file s name (default [] (fopen_r s name) ++ bytes)) else (false, s).

Record TS := mkTS { fZone : Z; fNet : Z; fNode : Z; fPoint : Z; fSTime : Z; fLTime : Z; fBReceive : Z; fBSent : Z;
  fFReceive : Z; fFSent : Z; fStatus : Z }.
Record FD := mkFD { fd_Zone : Z; fd_Net : Z; fd_Node : Z; fd_Point : Z; Domain : list Z; TimeStart : Z; TimeEnd : Z;
  StationName : list Z; StationLoc : list Z; Received : Z; Sent : Z; Cost : Z }.

Section Log.
Context (tm : CLOCK) (start_time now : Z).
Definition stamp (t tzoff : Z) : Z := wrap 32 (t + tz_off tm t tzoff * 60).

Definition ts_of (status : bool) (st : STATE) (tzoff : Z) : TS :=
  let '(a, n) := match to st, fa st with
                 | Some n, _ => (Some (n_fa n), 1)
                 | None, a :: _ => (Some a, 2)
                 | None, [] => (None, 0)
                 end in
  let f (g : FTN_ADDR -> Z) := match a with Some a => wrap 16 (g a) | None => 0 end in
  mkTS (f fa_z) (f fa_net) (f fa_node) (f fa_p) (stamp start_time tzoff) (wrap 32 (now - start_time)) (wrap 32 (bytes_rcvd st)) (wrap 32 (bytes_sent st))
    (wrap 8 (files_rcvd st)) (wrap 8 (files_sent st)) (if status then Z.lor n 3 else n).
Definition ts_bytes (r : TS) : list Z :=
  fput16 (fZone r) ++ fput16 (fNet r) ++ fput16 (fNode r) ++ fput16 (fPoint r) ++ fput32 (fSTime r) ++ fput32 (fLTime r) ++
  fput32 (fBReceive r) ++ fput32 (fBSent r) ++ [fFReceive r; fFSent r] ++ fput16 (fStatus r).
Definition TLogStat (status : bool) (st : STATE) (binlogpath : cstr) (tzoff : Z) (s : SYS) : SYS :=
  match binlogpath with [] => s | f => (append_to f (ts_bytes (ts_of status st tzoff)) s).2 end.

(** An array of [n] characters: the text, its terminator, and what was there. *)
Definition field (n : nat) (s : cstr) (old : list Z) : list Z :=
  let t := strnzcpy s n ++ [0] in t ++ take (n - length t) (drop (length t) old).
Definition fd_of (st : STATE) (a : FTN_ADDR) (tzoff : Z) (old : list Z * list Z * list Z) : FD :=
  mkFD (wrap 16 (fa_z a)) (wrap 16 (fa_net a)) (wrap 16 (fa_node a)) (wrap 16 (fa_p a)) (field 16 (fa_domain a) old.1.1)
    (stamp start_time tzoff) (stamp now tzoff) (field 32 (sysname st) old.1.2) (field 40 (location st) old.2)
    (wrap 32 (bytes_rcvd st)) (wrap 32 (bytes_sent st)) 0.
Definition fd_bytes (r : FD) : list Z :=
  fput16 (fd_Zone r) ++ fput16 (fd_Net r) ++ fput16 (fd_Node r) ++ fput16 (fd_Point r) ++ Domain r ++ fput32 (TimeStart r) ++
  fput32 (TimeEnd r) ++ StationName r ++ StationLoc r ++ fput32 (Received r) ++ fput32 (Sent r) ++ fput32 (Cost r).
Definition FDLogStat (st : STATE) (fdinhist fdouthist : cstr) (tzoff : Z) (old : list Z * list Z * list Z) (s : SYS) : SYS :=
  match fa st with
  | [] => s
  | a :: _ =>
      let f := match to st with Some _ => fdouthist | None => fdinhist end in
      match f with [] => s | _ => (append_to f (fd_bytes (fd_of st a tzoff old)) s).2 end
  end.
Definition BinLogStat (status : bool) (st : STATE) (config : BINKD_CONFIG) (old : list Z * list Z * list Z) (s : SYS) : SYS :=
  FDLogStat st (fdinhist config) (fdouthist config) (tzoff config) old (TLogStat status st (binlogpath config) (tzoff config) s).
End Log.

(** ** Reading a log back *)
Definition get16 (b : list Z) (i : nat) : Z := nth i b 0 + 256 * nth (S i) b 0.
Definition get32 (b : list Z) (i : nat) : Z := get16 b i + 0x10000 * get16 b (S (S i)).
Definition TS_SIZE : nat := 28.
Definition ts_read (b : list Z) : TS :=
  mkTS (get16 b 0) (get16 b 2) (get16 b 4) (get16 b 6) (get32 b 8) (get32 b 12) (get32 b 16) (get32 b 20) (nth 24 b 0) (nth 25 b 0) (get16 b 26).
Fixpoint ts_records (n : nat) (b : list Z) : list TS :=
  match n with O => [] | S n => ts_read (take TS_SIZE b) :: ts_records n (drop TS_SIZE b) end.
Definition ts_ok (r : TS) : Prop :=
  Forall (fun v => 0 <= v < 2 ^ 16) [fZone r; fNet r; fNode r; fPoint r; fStatus r] /\
  Forall (fun v => 0 <= v < 2 ^ 32) [fSTime r; fLTime r; fBReceive r; fBSent r] /\ Forall (fun v => 0 <= v < 2 ^ 8) [fFReceive r; fFSent r].

Lemma fput16_value v : 0 <= v < 2 ^ 16 -> fput16 v = [v mod 256; v / 256].
Proof.
  intros Hv. unfold fput16. rewrite Z.shiftr_div_pow2 by lia. change 0xff with (Z.ones 8). by rewrite Z.land_ones by lia.
Qed.
Lemma fput32_value v : 0 <= v < 2 ^ 32 -> fput32 v = [v mod 256; v / 256 mod 256; v / 65536 mod 256; v / 16777216].
Proof.
  intros Hv. unfold fput32, wrap. change 0xffff with (Z.ones 16). rewrite Z.land_ones by lia. rewrite Z.mod_mod by lia.
  pose proof (Z.mod_pos_bound v (2 ^ 16) ltac:(lia)) as Hm. assert (Hd : 0 <= v / 65536 < 2 ^ 16) by (split; [apply Z.div_pos; lia|apply Z.div_lt_upper_bound; lia]).
  change 0x10000 with 65536. rewrite (Z.mod_small (v / 65536)) by done. rewrite !fput16_value by done. cbn [app].
  rewrite Z.div_div by lia. change (65536 * 256) with 16777216. f_equal; [|f_equal].
  - change (2 ^ 16) with (256 * 256). rewrite Z.rem_mul_r by lia. rewrite Z.mul_comm, Z.mod_add, Z.mod_mod by lia. done.
  - change (2 ^ 16) with (256 * 256). rewrite Z.rem_mul_r by lia. rewrite Z.add_comm, Z.mul_comm, Z.div_add_l by lia.
    rewrite (Z.div_small (v mod 256)) by (apply Z.mod_pos_bound; lia). lia.
Qed.
Lemma ts_bytes_length r : length (ts_bytes r) = TS_SIZE.
Proof. done. Qed.
Lemma le32 v : v mod 256 + 256 * (v / 256 mod 256) + 65536 * (v / 65536 mod 256 + 256 * (v / 16777216)) = v.
Proof.
  change 16777216 with (65536 * 256). change 65536 with (256 * 256). rewrite <- !Z.div_div by lia.
  pose proof (Z.div_mod v 256 ltac:(lia)). pose proof (Z.div_mod (v / 256) 256 ltac:(lia)). pose proof (Z.div_mod (v / 256 / 256) 256 ltac:(lia)). lia.
Qed.
Lemma le16 v : v mod 256 + 256 * (v / 256) = v.
Proof. pose proof (Z.div_mod v 256 ltac:(lia)). lia. Qed.
Lemma ts_roundtrip r : ts_ok r -> ts_read (ts_bytes r) = r.
Proof.
  intros (H1 & H2 & _). rewrite !Forall_cons in H1, H2. rewrite Forall_singleton in H1. destruct H1 as (? & ? & ? & ? & ?), H2 as (? & ? & ? & ? & _).
  unfold ts_bytes. rewrite !fput16_value, !fput32_value by done. unfold ts_read, get32, get16. cbn [app nth].
  rewrite !le16. change 0x10000 with 65536. rewrite !le32. by destruct r.
Qed.
Lemma ts_records_all l : Forall ts_ok l -> ts_records (length l) (concat (map ts_bytes l)) = l.
Proof.
  induction 1 as [|r l Hr _ IH]; [done|]. cbn [length map concat ts_records].
  rewrite (take_app_length' (ts_bytes r)), (drop_app_length' (ts_bytes r)) by done. by rewrite ts_roundtrip, IH.
Qed.
Lemma ts_of_ok tm start_time now status st tzoff : ts_ok (ts_of tm start_time now status st tzoff).
Proof.
  assert (Hw : forall w v, 0 < w -> 0 <= wrap w v < 2 ^ w) by (intros w v Hw; apply Z.mod_pos_bound; lia).
  unfold ts_of. destruct (to st) as [n|]; [|destruct (fa st) as [|a l]]; split_and!;
    repeat (apply Forall_cons; split; [cbn; try (by apply Hw); destruct status; vm_compute; (split; [discriminate|reflexivity])|]); try constructor.
Qed.
(** A log that can be opened gets exactly one record more; what is read back are
    the records of before and this session's, its counters to their widths. *)
Theorem TLogStat_appends tm start_time now status st path tzoff s l :
  path <> [] -> fopen_w s path = true -> Forall ts_ok l -> default [] (fopen_r s path) = concat (map ts_bytes l) ->
  let s' := TLogStat tm start_time now status st path tzoff s in
  ts_records (S (length l)) (default [] (fopen_r s' path)) = l ++ [ts_of tm start_time now status st tzoff] /\
  forall q, q <> path -> fs s' !! q = fs s !! q.
Proof.
  intros Hp Ho Hl Hf s'. assert (Hs : s' = put_file s path (concat (map ts_bytes (l ++ [ts_of tm start_time now status st tzoff])))).
  { unfold s', TLogStat. destruct path as [|c path]; [done|]. unfold append_to. rewrite Ho, Hf. cbn [snd]. by rewrite map_app, concat_app. }
  rewrite Hs. split.
  - assert (Hr : forall d, default [] (fopen_r (put_file s path d) path) = d) by (intros d; unfold fopen_r, put_file; cbn; by rewrite lookup_insert_eq).
    rewrite Hr.
    replace (S (length l)) with (length (l ++ [ts_of tm start_time now status st tzoff])) by (rewrite length_app; cbn; lia).
    apply ts_records_all, Forall_app. split; [done|]. constructor; [apply ts_of_ok|constructor].
  - intros q Hq. unfold put_file. cbn. by rewrite lookup_insert_ne.
Qed.
