(* ===== verification/Https.v ===== *)
(** * https.c: connecting through a proxy

    [h_connect] speaks HTTP CONNECT, SOCKS4 or SOCKS5 on a socket that is
    connected to the proxy.  What it sends is a list of messages; what comes is
    a list of [RECV], a byte at a time.  The buffer has [BUF] characters; more is
    an access out of bounds.  The build is the one without NTLM. *)
From S2P Require Import Prelude CStr.

Definition BUF : Z := 1024.
(** A byte of the other side; no byte: an error, a timeout or the end of the stream. *)
Inductive RECV := R_byte (b : Z) | R_none.

(** ** Base 64 *)
Definition b64t : cstr := str "ABCDEFGHIJKLMNOPQRSTUVWXYZabcdefghijklmnopqrstuvwxyz0123456789+/".
Definition b64 (i : Z) : char := nth (Z.to_nat i) b64t 0.
(** Four characters for three bytes. *)
Definition quad (x y w : Z) : cstr :=
  let c := (x * 256 + y) * 256 + w in
  [b64 (Z.shiftr (Z.land c 0xfc0000) 18); b64 (Z.shiftr (Z.land c 0x3f000) 12); b64 (Z.shiftr (Z.land c 0xfc0) 6); b64 (Z.land c 0x3f)].
Fixpoint enbase64 (data : list Z) : cstr :=
  match data with
  | [] => []
  | [x] => take 2 (quad x 0 0) ++ str "=="
  | [x; y] => take 3 (quad x y 0) ++ str "="
  | x :: y :: w :: t => quad x y w ++ enbase64 t
  end.

(** ** The HTTP proxy *)
Definition CRLF : cstr := [13; 10].
Definition before_slash (s : cstr) : cstr := match strchr s (chr "/") with Some i => take i s | None => s end.
Definition after_slash (s : cstr) : option cstr := (fun i => drop (S i) s) <$> strchr s (chr "/").
(** [strncpy] and a terminator. *)
Definition bounded (n : Z) (s : cstr) : cstr := take (Z.to_nat n) s.
(** The first slash of user and password becomes a colon. *)
Fixpoint slash_to_colon (s : cstr) : cstr :=
  match s with [] => [] | c :: t => if c =? chr "/" then chr ":" :: t else c :: slash_to_colon t end.
Definition credentials (proxy : cstr) : option cstr := enbase64 ∘ slash_to_colon <$> after_slash (bounded (BUF - 1) proxy).

(** [buf] with the length [i] that [snprintf] returned, which may be more. *)
Definition sn (bi : cstr * Z) (text : cstr) : cstr * Z :=
  let '(buf, i) := bi in if i <? BUF then (buf ++ bounded (BUF - i - 1) text, i + strlen text) else bi.
Definition socks_host (socks : cstr) : cstr :=
  let s := before_slash (bounded (BUF - 6) socks) in if in_set s (chr ":") then s else s ++ str ":1080".
Definition target (host port socks : cstr) : cstr :=
  match socks with [] => host ++ str ":" ++ port | _ => socks_host socks end.
(** The request; sending more than the buffer reads past it. *)
Definition request (host port proxy socks : cstr) : mem (list Z) :=
  let '(buf, i) := sn ([], 0) (str "CONNECT " ++ target host port socks ++ str " HTTP/1.0" ++ CRLF) in
  let '(buf, i) := match credentials proxy with
                   | Some s => sn (buf, i) (str "Proxy-Authorization: basic " ++ s ++ CRLF)
                   | None => (buf, i)
                   end in
  let '(buf, i) := if i + 2 <? BUF then (buf ++ CRLF, i + 2) else (buf, i) in
  if BUF <? i then Oob else Ok (take (Z.to_nat i) (buf ++ replicate (Z.to_nat i) 0)).

Definition ends_header (buf : cstr) : bool :=
  match strstr buf (CRLF ++ CRLF), strstr buf [10; 10] with None, None => false | _, _ => true end.
(** The first line; a line feed at the start makes the code look before the buffer. *)
Definition first_line (buf : cstr) : mem cstr :=
  match strchr buf 10 with
  | None => Ok buf
  | Some O => Oob
  | Some (S i) => let l := take (S i) buf in Ok (if nth i l 0 =? 13 then take i l else l)
  end.
(** The answer, byte by byte; [n] is the room that is left.  The string ends at a NUL byte. *)
Fixpoint http_reply (n : nat) (buf : list Z) (inp : list RECV) : mem (bool * list RECV) :=
  match n with
  | O => Ok (true, inp)
  | S n =>
      match inp with
      | R_byte b :: inp =>
          let buf := buf ++ [b] in
          if (BUF <=? strlen buf + 1) || ends_header (c_string buf) then
            let* l := first_line (c_string buf) in
            Ok (match strstr l (str " 200 ") with Some _ => true | None => false end, inp)
          else http_reply n buf inp
      | _ => Ok (false, tail inp)
      end
  end.

(** ** SOCKS *)
(** Writing into the buffer. *)
Definition buffered (l : list Z) : mem (list Z) := if BUF <? strlen l then Oob else Ok l.
Definition recv2 (inp : list RECV) : option (Z * Z) * list RECV :=
  match inp with
  | R_byte a :: R_byte b :: t => (Some (a, b), t)
  | R_byte _ :: t => (None, tail t)
  | _ => (None, tail inp)
  end.
(** User and password, as SOCKS5 wants them; a terminator is written after the password. *)
Definition user_of (sauth : cstr) : cstr := before_slash sauth.
Definition login5 (sauth : cstr) : mem (list Z) :=
  let u := user_of sauth in
  match after_slash sauth with
  | None => buffered ([1; uchar (strlen u)] ++ u ++ [0])
  | Some p => let m := [1; uchar (strlen u)] ++ u ++ [uchar (strlen p)] ++ p in let* _ := buffered (m ++ [0]) in Ok m
  end.
Definition methods5 (sauth : cstr) : list Z :=
  match sauth with [] => [5; 1; 0] | _ => [5; 2; 0; match after_slash sauth with Some _ => 2 | None => 1 end] end.
(** The state: what was sent, and what is still to come. *)
Definition negotiate5 (sauth : cstr) (sent : list (list Z)) (inp : list RECV) : mem (bool * list (list Z) * list RECV) :=
  let sent := sent ++ [methods5 sauth] in
  let '(r, inp) := recv2 inp in
  match r with
  | Some (_, m) =>
      if (m =? 0) || (m =? 1) then Ok (true, sent, inp)
      else if m =? 2 then
        let* l := login5 sauth in
        let '(r, inp) := recv2 inp in
        Ok (match r with Some (_, 0) => true | _ => false end, sent ++ [l], inp)
      else Ok (false, sent, inp)
  | None => Ok (false, sent, inp)
  end.
Definition port_bytes (port : Z) : list Z := [Z.land (Z.shiftr port 8) 0xff; Z.land port 0xff].
Definition request4 (addr : list Z) (port : Z) : list Z := [4; 1] ++ port_bytes port ++ take 4 addr ++ [0].
(** [inet] is [inet_addr]: the bytes of an address in digits. *)
Definition request5 (inet : cstr -> option (list Z)) (host : cstr) (port : Z) : mem (list Z) :=
  match (if isdigit (hd0 host) then inet host else None) with
  | Some a => buffered ([5; 1; 0; 1] ++ take 4 a ++ port_bytes port)
  | None => buffered ([5; 1; 0; 3; uchar (strlen host)] ++ host ++ port_bytes port)
  end.

(** The outcome for one address: the connection, the next address, or an error. *)
Inductive VERDICT := V_connected | V_next | V_failed.
Definition verdict4 (buf : list Z) : option VERDICT :=
  if (length buf <=? 7)%nat then None
  else Some (if negb (nth 0 buf 0 =? 0) then V_failed else if negb (nth 1 buf 0 =? 90) then V_next else V_connected).
Definition verdict5 (buf : list Z) : option VERDICT :=
  let i := strlen buf - 1 in
  if i <=? 5 then None
  else if negb (nth 0 buf 0 =? 5) then Some V_failed
  else if (nth 3 buf 0 =? 1) && (i <? 9) then None
  else if (nth 3 buf 0 =? 3) && (i <? 6 + nth 4 buf 0) then None
  else if (nth 3 buf 0 =? 4) && (i <? 21) then None
  else Some (if nth 1 buf 0 =? 0 then V_connected else V_failed).
Fixpoint socks_reply (verdict : list Z -> option VERDICT) (n : nat) (buf : list Z) (inp : list RECV) : VERDICT * list RECV :=
  match n with
  | O => (V_next, inp)
  | S n =>
      match inp with
      | R_byte b :: inp =>
          match verdict (buf ++ [b]) with Some v => (v, inp) | None => socks_reply verdict n (buf ++ [b]) inp end
      | _ => (V_failed, tail inp)
      end
  end.

Section Connect.
Context (inet : cstr -> option (list Z)).
(** [srv_getaddrinfo] of the host for SOCKS4, [getaddrinfo] of the port for SOCKS5. *)
Context (addrs4 addrs5 : option (list (list Z * Z))).

(** When no address is left the result is that of a connection. *)
Fixpoint try_socks (five : bool) (host : cstr) (l : list (list Z * Z)) (sent : list (list Z)) (inp : list RECV) :
    mem (bool * list (list Z) * list RECV) :=
  match l with
  | [] => Ok (true, sent, inp)
  | (addr, port) :: t =>
      let* m := if five then request5 inet host port else Ok (request4 addr port) in
      let sent := sent ++ [m] in
      let '(v, inp) := socks_reply (if five then verdict5 else verdict4) (Z.to_nat BUF) [] inp in
      match v with
      | V_connected => Ok (true, sent, inp)
      | V_failed => Ok (false, sent, inp)
      | V_next => try_socks five host t sent inp
      end
  end.
Definition socks_connect (host socks : cstr) (sent : list (list Z)) (inp : list RECV) : mem (bool * list (list Z) * list RECV) :=
  match after_slash (bounded (BUF - 1) socks) with
  | None =>
      match addrs4 with
      | None => Ok (false, sent, inp)
      | Some l => try_socks false host l sent inp
      end
  | Some sauth =>
      match addrs5 with
      | None => Ok (false, sent, inp)
      | Some l =>
          let* r := negotiate5 sauth sent inp in
          let '(ok, sent, inp) := r in
          if ok : bool then try_socks true host l sent inp else Ok (false, sent, inp)
      end
  end.
Definition h_connect (host port proxy socks : cstr) (inp : list RECV) : mem (bool * list (list Z) * list RECV) :=
  let* r := match proxy with
            | [] => Ok (true, [], inp)
            | _ =>
                let* m := request host port proxy socks in
                let* x := http_reply (Z.to_nat (BUF - 1)) [] inp in
                Ok (x.1, [m], x.2)
            end in
  let '(ok, sent, inp) := r in
  if negb ok then Ok (false, sent, inp)
  else match socks with [] => Ok (true, sent, inp) | _ => socks_connect host socks sent inp end.
End Connect.

(** ** Base 64 is read back *)
Definition b64_value (c : char) : Z :=
  if isupper c then c - 65 else if islower c then c - 71 else if isdigit c then c + 4 else if c =? chr "+" then 62 else 63.
Definition three (a b c d : Z) : list Z := let n := ((a * 64 + b) * 64 + c) * 64 + d in [n / 65536; n / 256 mod 256; n mod 256].
Fixpoint debase64 (s : cstr) : list Z :=
  match s with
  | a :: b :: c :: d :: t =>
      let l := three (b64_value a) (b64_value b) (if c =? chr "=" then 0 else b64_value c) (if d =? chr "=" then 0 else b64_value d) in
      (if c =? chr "=" then take 1 l else if d =? chr "=" then take 2 l else l) ++ debase64 t
  | _ => []
  end.
Lemma b64_table i : 0 <= i < 64 -> b64_value (b64 i) = i /\ b64 i <> chr "=".
Proof.
  intros Hi. assert (Hall : forallb (fun k => (b64_value (b64 (Z.of_nat k)) =? Z.of_nat k) && negb (b64 (Z.of_nat k) =? chr "=")) (seq 0 64) = true) by (by vm_compute).
  rewrite forallb_forall in Hall. specialize (Hall (Z.to_nat i)). rewrite Z2Nat.id in Hall by lia.
  assert (Hin : In (Z.to_nat i) (seq 0 64)) by (apply in_seq; lia). apply Hall, andb_true_iff in Hin as [H1 H2]. bools. done.
Qed.
Lemma b64_value_of i : 0 <= i < 64 -> b64_value (b64 i) = i.
Proof. apply b64_table. Qed.
Lemma b64_pad i : 0 <= i < 64 -> (b64 i =? 61) = false.
Proof. intros Hi. apply Z.eqb_neq. by apply b64_table. Qed.
Lemma quad_index x y w : is_byte x -> is_byte y -> is_byte w ->
  exists a b c d, quad x y w = [b64 a; b64 b; b64 c; b64 d] /\ 0 <= a < 64 /\ 0 <= b < 64 /\ 0 <= c < 64 /\ 0 <= d < 64 /\
    ((a * 64 + b) * 64 + c) * 64 + d = (x * 256 + y) * 256 + w /\ (y = 0 -> w = 0 -> c = 0 /\ d = 0) /\ (w = 0 -> d = 0).
Proof.
  unfold is_byte. intros Hx Hy Hw. set (n := (x * 256 + y) * 256 + w). assert (Hn : 0 <= n < 2 ^ 24) by lia.
  assert (Hm : forall k, 0 <= k -> Z.shiftr (Z.land n (Z.shiftl 0x3f k)) k = (n / 2 ^ k) mod 64).
  { intros k Hk. rewrite Z.shiftr_land, Z.shiftr_shiftl_l, Z.sub_diag, Z.shiftl_0_r by lia. rewrite Z.shiftr_div_pow2 by lia.
    change 0x3f with (Z.ones 6). by rewrite Z.land_ones by lia. }
  pose proof (Hm 18 ltac:(lia)) as H18. pose proof (Hm 12 ltac:(lia)) as H12. pose proof (Hm 6 ltac:(lia)) as H6. pose proof (Hm 0 ltac:(lia)) as H0.
  change (Z.shiftl 63 18) with 0xfc0000 in H18. change (Z.shiftl 63 12) with 0x3f000 in H12. change (Z.shiftl 63 6) with 0xfc0 in H6.
  change (Z.shiftl 63 0) with 63 in H0. rewrite Z.shiftr_0_r in H0.
  change (2 ^ 18) with 262144 in H18. change (2 ^ 12) with 4096 in H12. change (2 ^ 6) with 64 in H6. change (2 ^ 0) with 1 in H0. rewrite Z.div_1_r in H0.
  exists (n / 262144 mod 64), (n / 4096 mod 64), (n / 64 mod 64), (n mod 64). split; [unfold quad; fold n; by rewrite H18, H12, H6, H0|].
  pose proof (Z.mod_pos_bound (n / 262144) 64 ltac:(lia)). pose proof (Z.mod_pos_bound (n / 4096) 64 ltac:(lia)).
  pose proof (Z.mod_pos_bound (n / 64) 64 ltac:(lia)). pose proof (Z.mod_pos_bound n 64 ltac:(lia)).
  assert (E : ((n / 262144 mod 64 * 64 + n / 4096 mod 64) * 64 + n / 64 mod 64) * 64 + n mod 64 = n).
  { change 262144 with (64 * 64 * 64). change 4096 with (64 * 64). rewrite <- !Z.div_div by lia.
    pose proof (Z.div_mod n 64 ltac:(lia)). pose proof (Z.div_mod (n / 64) 64 ltac:(lia)). pose proof (Z.div_mod (n / 64 / 64) 64 ltac:(lia)).
    rewrite (Z.mod_small (n / 64 / 64 / 64)); [lia|]. rewrite !Z.div_div by lia. split; [apply Z.div_pos; lia|apply Z.div_lt_upper_bound; lia]. }
  split_and!; try lia; try done.
Qed.
Lemma three_back x y w a b c d : is_byte x -> is_byte y -> is_byte w -> ((a * 64 + b) * 64 + c) * 64 + d = (x * 256 + y) * 256 + w ->
  three a b c d = [x; y; w].
Proof.
  unfold is_byte, three. intros Hx Hy Hw ->. change 65536 with (256 * 256). rewrite <- Z.div_div by lia.
  rewrite (Z.div_add_l (x * 256 + y)), (Z.div_small w), Z.add_0_r by lia. rewrite Z.div_add_l, (Z.div_small y), Z.add_0_r by lia.
  rewrite !(Z.add_comm (_ * 256)), !Z.mod_add, !Z.mod_small by lia. done.
Qed.
(** The credentials a proxy reads are those that were given. *)
Theorem enbase64_roundtrip data : Forall is_byte data -> debase64 (enbase64 data) = data.
Proof.
  remember (length data) as n eqn:Hn. assert (Hle : (length data <= n)%nat) by lia. clear Hn. revert data Hle.
  induction n as [|n IH]; intros data Hl Hd; [by destruct data; [|simpl in Hl; lia]|].
  assert (Hzero : is_byte 0) by (unfold is_byte; lia).
  destruct data as [|x [|y [|w t]]]; [done|..]; rewrite ?Forall_cons in Hd.
  - destruct Hd as (Hx & _). destruct (quad_index x 0 0 Hx Hzero Hzero) as (a & b & c & d & E & Ha & Hb & Hc & Hd & En & E0 & _).
    destruct (E0 eq_refl eq_refl) as [-> ->]. cbn [enbase64]. rewrite E. cbn -[b64_value b64 three]. rewrite !b64_value_of by done.
    by rewrite (three_back x 0 0) by done.
  - destruct Hd as (Hx & Hy & _). destruct (quad_index x y 0 Hx Hy Hzero) as (a & b & c & d & E & Ha & Hb & Hc & Hd & En & _ & E0).
    rewrite (E0 eq_refl) in *. cbn [enbase64]. rewrite E. cbn -[b64_value b64 three].
    rewrite b64_pad by done. rewrite !b64_value_of by done. by rewrite (three_back x y 0) by done.
  - destruct Hd as (Hx & Hy & Hw & Ht). destruct (quad_index x y w Hx Hy Hw) as (a & b & c & d & E & Ha & Hb & Hc & Hd & En & _).
    cbn [enbase64]. rewrite E. cbn -[b64_value b64 three debase64 enbase64]. cbn [debase64].
    change (chr "=") with 61. rewrite !b64_pad by done. rewrite !b64_value_of by done.
    rewrite (three_back x y w) by done. cbn. do 3 f_equal. apply IH; [simpl in Hl; lia|done].
Qed.

(** ** What is read of the stream *)
(** The reply that was read is the shortest one there is a verdict on. *)
Lemma socks_reply_prefix verdict n : forall buf inp v rest, socks_reply verdict n buf inp = (v, rest) -> v = V_connected ->
  exists bytes b, inp = map R_byte (bytes ++ [b]) ++ rest /\ verdict (buf ++ bytes ++ [b]) = Some v /\
    forall p q, bytes = p ++ q -> p <> [] -> verdict (buf ++ p) = None.
Proof.
  induction n as [|n IH]; intros buf inp v rest E Hv; cbn [socks_reply] in E; [by injection E as <- <-|].
  destruct inp as [|[b|] inp]; [by injection E as <- <-| |by injection E as <- <-].
  destruct (verdict (buf ++ [b])) as [v'|] eqn:Ev.
  - injection E as -> ->. exists [], b. split; [done|]. split; [done|]. intros p q Hp Hne. by destruct p.
  - destruct (IH _ _ _ _ E Hv) as (bytes & b' & -> & H2 & H3). exists (b :: bytes), b'. split; [done|]. rewrite <- app_assoc in H2.
    split; [done|]. intros [|x p] q Hp Hne; [done|]. injection Hp as -> Hp. destruct p as [|y p]; [done|].
    specialize (H3 (y :: p) q Hp ltac:(done)). by rewrite <- app_assoc in H3.
Qed.
(** The length of a reply of SOCKS5, after its first seven bytes. *)
Definition reply_length (r : list Z) : Z :=
  let t := nth 3 r 0 in if t =? 1 then 10 else if t =? 3 then 7 + nth 4 r 0 else if t =? 4 then 22 else 7.
Definition granted (r : list Z) : Prop := nth 0 r 0 = 5 /\ nth 1 r 0 = 0 /\ strlen r = reply_length r /\ 7 <= strlen r.
Lemma verdict5_none r : 7 <= strlen r -> nth 0 r 0 = 5 -> verdict5 r = None <-> strlen r < reply_length r.
Proof.
  intros Hl H0. unfold verdict5, reply_length. rewrite (proj2 (Z.leb_gt _ 5)), H0 by lia. cbn [Z.eqb negb].
  destruct (nth 3 r 0 =? 1) eqn:E1; bools; [rewrite E1|]; cbn [andb].
  { cbn. destruct (_ <? 9) eqn:E; bools; split; try done; lia. }
  destruct (nth 3 r 0 =? 3) eqn:E3; bools; [rewrite E3|]; cbn [andb].
  { cbn. destruct (_ <? _) eqn:E; bools; split; try done; lia. }
  destruct (nth 3 r 0 =? 4) eqn:E4; cbn [andb].
  { destruct (_ <? 21) eqn:E; bools; split; try done; lia. }
  split; [done|lia].
Qed.
Lemma verdict5_some r v : 7 <= strlen r -> nth 0 r 0 = 5 -> verdict5 r = Some v -> v = if nth 1 r 0 =? 0 then V_connected else V_failed.
Proof.
  intros Hl H0 E. unfold verdict5 in E. rewrite (proj2 (Z.leb_gt _ 5)), H0, Z.eqb_refl in E by lia. cbn [negb] in E.
  repeat match type of E with (if ?b then None else _) = _ => destruct b; [done|] end. by injection E as <-.
Qed.

Lemma nth_prefix {A} (p q : list A) i d : (i < length p)%nat -> nth i (p ++ q) d = nth i p d.
Proof. intros Hi. by apply app_nth1. Qed.
(** C40: a connection through SOCKS5 is taken to be there exactly when the reply
    says so, and the reply is read to its last byte and no further:
    what follows in the stream is left to the session. *)
Theorem socks5_exact inp rest :
  (forall b, R_byte b ∈ inp -> is_byte b) ->
  socks_reply verdict5 (Z.to_nat BUF) [] inp = (V_connected, rest) <->
  exists reply, inp = map R_byte reply ++ rest /\ granted reply.
Proof.
  intros Hbytes. split.
  - intros E. apply socks_reply_prefix in E as (bytes & b & -> & Hv & Hp); [|done]. cbn [app] in Hv, Hp. exists (bytes ++ [b]). split; [done|].
    set (r := bytes ++ [b]) in *. assert (Hr : strlen r = strlen bytes + 1) by (unfold r, strlen; rewrite length_app; simpl; lia).
    assert (H7 : 7 <= strlen r). { destruct (Z.leb_spec 7 (strlen r)); [done|]. unfold verdict5 in Hv. rewrite (proj2 (Z.leb_le _ 5)) in Hv by lia. done. }
    assert (H5 : nth 0 r 0 = 5).
    { destruct (Z.eqb_spec (nth 0 r 0) 5); [done|]. unfold verdict5 in Hv. rewrite (proj2 (Z.leb_gt _ 5)), (proj2 (Z.eqb_neq (nth 0 r 0) 5)) in Hv by (done || lia). done. }
    pose proof (verdict5_some r _ H7 H5 Hv) as Hok. destruct (nth 1 r 0 =? 0) eqn:E1; [|done]. bools.
    assert (Hlen : reply_length r <= strlen r). { destruct (Z.leb_spec (reply_length r) (strlen r)); [done|]. apply (verdict5_none r H7 H5) in H. congruence. }
    split; [done|]. split; [done|]. split; [|done]. destruct (Z.eq_dec (strlen r) (reply_length r)) as [|Hne]; [done|].
    destruct (Z.eq_dec (strlen r) 7) as [H7'|H7'].
    { assert (7 <= reply_length r); [|lia]. unfold reply_length. destruct (_ =? 1); [lia|]. destruct (_ =? 3); [|destruct (_ =? 4); lia].
      destruct (Hbytes (nth 4 r 0)); [|lia]. rewrite elem_of_app. left. apply list_elem_of_fmap_2.
      apply list_elem_of_In, nth_In. unfold strlen in H7. lia. }
    assert (Hb7 : (7 <= length bytes)%nat) by (unfold strlen in *; lia).
    assert (Hn : forall i, (i < 7)%nat -> nth i bytes 0 = nth i r 0) by (intros i Hi; unfold r; symmetry; apply nth_prefix; lia).
    assert (Hnone : verdict5 bytes = None) by (apply (Hp bytes []); [by rewrite app_nil_r|by intros ->; simpl in Hb7; lia]).
    apply verdict5_none in Hnone; [|unfold strlen; lia|rewrite Hn; [done|lia]].
    assert (Hsame : reply_length bytes = reply_length r) by (unfold reply_length; by rewrite !Hn by lia). lia.
  - intros (reply & -> & H5 & H1 & Hl & H7).
    assert (Hlt : strlen reply <= 262).
    { rewrite Hl. unfold reply_length. destruct (_ =? 1); [lia|]. destruct (_ =? 3); [|destruct (_ =? 4); lia].
      destruct (Hbytes (nth 4 reply 0)); [|lia]. rewrite elem_of_app. left. apply list_elem_of_fmap_2.
      apply list_elem_of_In, nth_In. unfold strlen in H7. lia. }
    assert (Hgo : forall n p q, reply = p ++ q -> q <> [] -> (length q <= n)%nat -> socks_reply verdict5 n p (map R_byte q ++ rest) = (V_connected, rest)).
    { induction n as [|n IH]; intros p q Hpq Hq Hn; [destruct q; simpl in *; [done|lia]|]. destruct q as [|b q]; [done|]. cbn [map app socks_reply].
      assert (Hr : reply = (p ++ [b]) ++ q) by (by rewrite <- app_assoc). destruct q as [|b2 q].
      - rewrite app_nil_r in Hr. rewrite <- Hr. destruct (verdict5 reply) as [v|] eqn:Ev.
        + apply verdict5_some in Ev; [|done..]. rewrite H1 in Ev. by subst v.
        + apply (verdict5_none reply H7 H5) in Ev. lia.
      - assert (Hnone : verdict5 (p ++ [b]) = None).
        { set (s := p ++ [b]) in *. assert (Hsl : strlen reply = strlen s + strlen (b2 :: q)) by (rewrite Hr; unfold strlen; rewrite length_app; lia).
          assert (0 < strlen (b2 :: q)) by (unfold strlen; simpl; lia).
          destruct (Z.leb_spec 7 (strlen s)) as [Hs|Hs]; [|unfold verdict5; by rewrite (proj2 (Z.leb_le _ 5)) by lia].
          assert (Hsn : forall i, (i < 7)%nat -> nth i s 0 = nth i reply 0) by (intros i Hi; rewrite Hr; symmetry; apply nth_prefix; unfold strlen in Hs; lia).
          apply verdict5_none; [done|by rewrite Hsn by lia|]. assert (Hsame : reply_length s = reply_length reply) by (unfold reply_length; by rewrite !Hsn by lia). lia. }
        rewrite Hnone. apply IH; [done|done|simpl in *; lia]. }
    apply (Hgo _ [] reply); [done|by intros ->|]. unfold BUF, strlen in *. lia.
Qed.

(** ** The request and the answer of an HTTP proxy *)
Lemma bounded_all n s : strlen s <= n -> bounded n s = s.
Proof. intros H. unfold bounded. apply take_ge. unfold strlen in H. lia. Qed.
Lemma sn_fits buf text : strlen (buf ++ text) < BUF -> sn (buf, strlen buf) text = (buf ++ text, strlen (buf ++ text)).
Proof.
  unfold sn, strlen. rewrite length_app. intros H. rewrite (proj2 (Z.ltb_lt _ _)) by lia. rewrite bounded_all by (unfold strlen; lia).
  f_equal. lia.
Qed.
Definition request_text (host port proxy socks : cstr) : cstr :=
  (str "CONNECT " ++ target host port socks ++ str " HTTP/1.0" ++ CRLF) ++
  match credentials proxy with Some s => str "Proxy-Authorization: basic " ++ s ++ CRLF | None => [] end ++ CRLF.
(** When it is shorter than the buffer the request is what was meant. *)
Lemma request_exact host port proxy socks : strlen (request_text host port proxy socks) < BUF ->
  request host port proxy socks = Ok (request_text host port proxy socks).
Proof.
  intros H. unfold request, request_text in *. set (a := str "CONNECT " ++ _) in *.
  set (b := match credentials proxy with Some s => str "Proxy-Authorization: basic " ++ s ++ CRLF | None => [] end) in *.
  assert (Hl : strlen (a ++ b ++ CRLF) = strlen a + strlen b + 2) by (unfold strlen; rewrite !length_app; simpl; lia).
  assert (0 <= strlen a /\ 0 <= strlen b) by (unfold strlen; lia).
  change 0 with (strlen []) at 1. rewrite sn_fits by (cbn [app]; lia). cbn [app].
  assert (Hab : strlen (a ++ b) = strlen a + strlen b) by (unfold strlen; rewrite length_app; lia).
  assert (Hb : (match credentials proxy with Some s => sn (a, strlen a) (str "Proxy-Authorization: basic " ++ s ++ CRLF) | None => (a, strlen a) end)
    = (a ++ b, strlen (a ++ b))).
  { assert (Hfit : strlen (a ++ b) < BUF) by lia. unfold b in *. destruct (credentials proxy); [by apply sn_fits|by rewrite app_nil_r]. }
  rewrite Hb.
  rewrite (proj2 (Z.ltb_lt _ _)) by lia. rewrite (proj2 (Z.ltb_ge _ _)) by lia. f_equal. rewrite !app_assoc.
  apply take_app_length'. rewrite length_app, length_app. unfold strlen. rewrite length_app. simpl. lia.
Qed.
(** A proxy that lets us through has said so in its first line, and its header
    was read to the end, or to the end of the buffer. *)
Lemma http_reply_true n : forall buf inp rest, strlen buf + Z.of_nat n = BUF - 1 -> (0 < n)%nat -> http_reply n buf inp = Ok (true, rest) ->
  exists text l, inp = map R_byte text ++ rest /\ first_line (c_string (buf ++ text)) = Ok l /\ strstr l (str " 200 ") <> None /\
    (ends_header (c_string (buf ++ text)) = true \/ strlen (buf ++ text) = BUF - 1).
Proof.
  induction n as [|n IH]; intros buf inp rest Hn H0 E; [lia|]. cbn [http_reply] in E. destruct inp as [|[b|] inp]; [done| |done].
  assert (Hl : strlen (buf ++ [b]) = strlen buf + 1) by (unfold strlen; rewrite length_app; simpl; lia).
  destruct (_ || _) eqn:Ed.
  - apply mem_bind_ok in E as (l & El & E). injection E as Es <-. exists [b], l. split; [done|]. split; [done|].
    split; [by destruct (strstr l _)|]. apply orb_true_iff in Ed as [Ed|Ed]; [right; apply Z.leb_le in Ed; lia|by left].
  - apply orb_false_iff in Ed as [Ed _]. apply Z.leb_gt in Ed. destruct (IH (buf ++ [b]) inp rest ltac:(lia) ltac:(lia) E) as (text & l & -> & H2 & H3 & H4).
    exists (b :: text), l. rewrite <- app_assoc in H2, H4. done.
Qed.

(** ** Where it goes wrong *)

(** A SOCKS4 server that refuses every address is taken for a connection. *)
Definition refused4 (r : list Z) : Prop := exists t, r = 0 :: t /\ length t = 7%nat /\ nth 0 t 0 <> 90.
Lemma refusal4 r rest : refused4 r -> socks_reply verdict4 (Z.to_nat BUF) [] (map R_byte r ++ rest) = (V_next, rest).
Proof.
  intros (t & -> & Hl & Hn). do 8 (destruct t as [|? t]; [try discriminate Hl|]); [|discriminate Hl].
  cbn in Hn. change (Z.to_nat BUF) with (8 + 1016)%nat. cbn. unfold verdict4. cbn. by rewrite (proj2 (Z.eqb_neq _ _) Hn).
Qed.
Lemma socks4_refused_connects inet host l : forall replies sent rest, length replies = length l -> Forall refused4 replies ->
  exists sent', try_socks inet false host l sent (map R_byte (concat replies) ++ rest) = Ok (true, sent', rest).
Proof.
  induction l as [|[a p] l IH]; intros replies sent rest Hl Hr; destruct replies as [|r replies]; try discriminate Hl; [by eexists|].
  apply Forall_cons in Hr as [Hr Hrs]. cbn [try_socks concat mem_bind]. rewrite map_app, <- app_assoc, refusal4 by done.
  apply IH; [by injection Hl|done].
Qed.
(** An answer that begins with a line feed makes the code look before the
    buffer; a long host with credentials makes it send what is behind it. *)
Lemma http_out_of_bounds :
  http_reply (Z.to_nat (BUF - 1)) [] [R_byte 10; R_byte 10] = Oob /\ request (replicate 1010 104) (str "24554") (str "p:3128") [] = Oob.
Proof. by vm_compute. Qed.

Definition example_reply : list Z := [5; 0; 0; 3; 2; 97; 98; 1; 2].
Lemma socks5_exact_witness :
  socks_reply verdict5 (Z.to_nat BUF) [] (map R_byte example_reply ++ [R_byte 7]) = (V_connected, [R_byte 7]).
Proof.
  apply (socks5_exact (map R_byte example_reply ++ [R_byte 7]) [R_byte 7]); [|exists example_reply; by split_and!].
  intros b Hb. assert (Hall : Forall is_byte (example_reply ++ [7])) by (repeat (apply Forall_cons; split; [unfold is_byte; lia|]); constructor).
  rewrite Forall_forall in Hall. apply Hall. change (map R_byte example_reply ++ [R_byte 7]) with (map R_byte (example_reply ++ [7])) in Hb.
  apply list_elem_of_fmap in Hb as (x & Hx & Hb). by injection Hx as ->.
Defined.
