(* ===== verification/Calls.v ===== *)
(** * srv_gai.c and client.c: placing a call

    [call0] goes through the hosts of a node, the addresses of each, and tries
    to connect; each failure counts as a failed try of the node.  The results
    of name resolution and of the socket calls are parameters: [attempt n] is
    what happens at the [n]-th socket of the call. *)
From S2P Require Import Prelude CStr Tools FtnAddr Getw Sys Types FtnNode ReadFlo Bsy FtnQ Hosts Session.

Record ADDRINFO := mkADDRINFO { ai_family : Z; ai_addr : SOCKADDR }.

(** ** srv_gai.c: SRV records

    A resource record of the answer, and the length and the text of the name
    that [dn_expand] takes from its data. *)
Record RR := mkRR { rr_class : Z; rr_type : Z; rr_data : list Z; rr_name : Z * cstr }.
Definition ns_c_in : Z := 1.
Definition ns_t_srv : Z := 33.
Record DNS := mkDNS {
  getaddrinfo : cstr -> cstr -> Z -> option (list ADDRINFO);
  inet_aton : cstr -> bool;
  srv_records : cstr -> option (list RR)     (* [res_search] and [ns_initparse] *)
}.

Section Srv.
Context (dns : DNS) (service : cstr) (family : Z).

Definition AF_UNSPEC_ : Z := 0.
Definition literal_address (node : cstr) : bool :=
  (((family =? 2) || (family =? AF_UNSPEC_)) && inet_aton dns node) ||
  (((family =? 10) || (family =? AF_UNSPEC_)) && in_set node (chr ":")).
Definition srv_name (node : cstr) : cstr := str "_" ++ service ++ str "._tcp." ++ node.
(** The addresses a record adds to the end of the list. *)
Definition srv_target (r : RR) : list ADDRINFO :=
  if negb (rr_class r =? ns_c_in) || negb (rr_type r =? ns_t_srv) then [] else
  if (length (rr_data r) <? 8)%nat || ((rr_name r).1 <? 2) then [] else
  let port := Z.lor (Z.shiftl (nth 4 (rr_data r) 0) 8) (nth 5 (rr_data r) 0) in
  default [] (getaddrinfo dns (rr_name r).2 (take 5 (fmt_u port)) family).
Definition srv_getaddrinfo (node : cstr) : option (list ADDRINFO) :=
  let plain := getaddrinfo dns node service family in
  if bool_decide (node = []) || bool_decide (service = []) || literal_address node ||
     (hd0 service =? chr "0") || (0 <? atoi service)
  then plain
  else match srv_records dns (srv_name node) with
       | None => plain
       | Some rrs => match concat (map srv_target rrs) with [] => plain | l => Some l end
       end.
End Srv.

(** ** client.c: one call *)
Definition invalidAddresses : list SOCKADDR := [SA_INET 0; SA_INET6 (replicate 16 0)].
Definition invalid_address (a : SOCKADDR) : bool := existsb (fun i => sockaddr_cmp_addr a i =? 0) invalidAddresses.

(** A socket made for an address, or the two ends of a program's pipe. *)
Inductive SOCK := S_net (ai : ADDRINFO) (connected : bool) | S_pipe (process : Z).
(** [socket] works; the process is to exit when it has; [connect] fails; the
    process is to exit by then. *)
Record ATTEMPT := mkATTEMPT { at_socket : bool; at_exit : bool; at_error : option cstr; at_quit : bool }.
(** What looking [bindaddr] up for a family gives. *)
Inductive BINDADDR := B_found | B_family | B_failed.

Record DIAL := mkDIAL {
  dl_sock : option SOCK;             (* [sockfd]; [None] is [INVALID_SOCKET] *)
  dl_out : option SOCK;              (* [sock_out]; [None] before it is assigned *)
  dl_host : cstr;
  dl_port : cstr;
  dl_ip : option cstr;
  dl_n : nat;                        (* sockets asked for so far *)
  dl_world : WORLD
}.
#[export] Instance eta_DIAL : Eta DIAL := fun d =>
  mkDIAL (dl_sock d) (dl_out d) (dl_host d) (dl_port d) (dl_ip d) (dl_n d) (dl_world d).

Section Call.
Context (net : RESOLVER) (dns : DNS) (attempt : nat -> ATTEMPT) (bind_lookup : cstr -> Z -> BINDADDR)
  (nameinfo : SOCKADDR -> option (cstr * cstr)) (run3 : cstr -> Z) (junk : Z * Z).
Context (node : FTN_NODE) (config : BINKD_CONFIG).

Definition count_failure (error : cstr) (d : DIAL) : mem DIAL :=
  let* w := bad_try (dl_world d) (n_fa node) error junk config in Ok (d <| dl_world := w |>).

(** The flag is true when the call is given up because the process exits.  An
    address whose family the bind address does not have is passed over, but
    the socket made for it stays. *)
Fixpoint try_addrs (l : list ADDRINFO) (d : DIAL) : mem (bool * DIAL) :=
  match l, dl_sock d with
  | [], _ | _, Some _ => Ok (false, d)
  | ai :: t, None =>
      if invalid_address (ai_addr ai) then try_addrs t d else
      let a := attempt (dl_n d) in
      let d := d <| dl_n ::= S |> in
      if negb (at_socket a) then try_addrs t d else
      let d := d <| dl_sock := Some (S_net ai false) |> in
      if at_exit a then Ok (true, d) else
      let '(addrbuf, servbuf) := default (str "invalid", []) (nameinfo (ai_addr ai)) in
      let d := d <| dl_ip := Some addrbuf |> <| dl_port := strnzcpy servbuf MAXPORTSTRLEN |> in
      let passed := match bindaddr config with
                    | [] => false
                    | b => match bind_lookup b (ai_family ai) with B_family => true | _ => false end
                    end in
      if passed then try_addrs t d else
      match at_error a with
      | None => Ok (false, d <| dl_sock := Some (S_net ai true) |> <| dl_out := Some (S_net ai true) |>)
      | Some e =>
          let* d := if at_quit a then Ok d else count_failure e d in
          try_addrs t (d <| dl_sock := None |>)
      end
  end.

Definition has_pipe : option cstr := match n_pipe node with Some (c :: p) => Some (c :: p) | _ => None end.
Definition pipe_command (p host port : cstr) : mem cstr :=
  let* c := ed p (str "*H") host None in
  let* c := ed c.1 (str "*I") port None in Ok c.1.

(** The hosts of the node from the [i]-th on. *)
Fixpoint try_hosts (fuel : nat) (i : nat) (d : DIAL) : mem (bool * DIAL) :=
  match dl_sock d, fuel with
  | Some _, _ => Ok (false, d)
  | None, O => Fuel
  | None, S fuel =>
      let* h := get_host_and_port net i (default [] (n_hosts node)) (n_fa node) config in
      match h with
      | None => Ok (false, d)
      | Some None => try_hosts fuel (S i) d
      | Some (Some (host, port)) =>
          let d := d <| dl_host := host |> <| dl_port := port |> in
          match has_pipe with
          | Some p =>
              let* cmdline := pipe_command p host port in
              let process := run3 cmdline in
              if process =? -1 then try_hosts fuel (S i) d
              else Ok (false, d <| dl_sock := Some (S_pipe process) |> <| dl_out := Some (S_pipe process) |>)
          | None =>
              match srv_getaddrinfo dns port (n_IP_afamily node) host with
              | None => let* d := count_failure (str "Cannot getaddrinfo") d in try_hosts fuel (S i) d
              | Some l =>
                  let* r := try_addrs l d in
                  if (r.1 : bool) then Ok r else try_hosts fuel (S i) r.2
              end
          end
      end
  end.
Definition hosts_fuel : nat := length (default [] (n_hosts node)) + 2.
Definition dial (w : WORLD) : mem (bool * DIAL) :=
  try_hosts hosts_fuel 1 (mkDIAL None None [] [] None 0 w).
End Call.

(** The call, with the session it leads to; the flag is [call0]'s result.  A
    socket that was passed over leaves [sock_out] unassigned. *)
Section Call0.
Context (net : RESOLVER) (dns : DNS) (attempt : nat -> ATTEMPT) (bind_lookup : cstr -> Z -> BINDADDR)
  (nameinfo : SOCKADDR -> option (cstr * cstr)) (run3 : cstr -> Z) (junk : Z * Z).
Context (session : SOCK -> SOCK -> FTN_NODE -> cstr -> cstr -> option cstr -> WORLD -> mem WORLD).
Context (node : FTN_NODE) (config : BINKD_CONFIG).

Definition call0 (w : WORLD) : mem (bool * WORLD) :=
  let* r := dial net dns attempt bind_lookup nameinfo run3 junk node config w in
  let '(gone, d) := r in
  match dl_sock d, dl_out d with
  | None, _ => Ok (false, dl_world d)
  | Some sockfd, out =>
      if (gone : bool) then Ok (false, dl_world d) else
      match out with
      | None => Oob
      | Some sock_out =>
          let* w := session sockfd sock_out node (dl_host d) (dl_port d) (dl_ip d) (dl_world d) in Ok (true, w)
      end
  end.
(** A call is placed under the lock for calls. *)
Definition call (w : WORLD) : mem WORLD :=
  let* r := bsy_add w (n_fa node) F_CSY config in
  if r.1 : bool then
    let* r := call0 r.2 in bsy_remove r.2 (n_fa node) F_CSY config
  else Ok r.2.
End Call0.

(** ** The hosts of a list are finitely many *)
Lemma esc_digits_suffix base src : forall ch r, esc_digits base ch src = Ok r -> r.2 `suffix_of` src.
Proof.
  induction src as [|c t IH]; intros ch r E; [done|]. cbn [esc_digits] in E.
  destruct (isxdigit c); [destruct (isdigit c); [|destruct (base =? 16)]|]; try (injection E as <-; done);
    apply IH in E; by apply suffix_cons_r.
Qed.
Lemma escape_suffix src r : escape src = Ok r -> r.2 `suffix_of` src.
Proof.
  unfold escape. destruct src as [|c t]; [done|]. cbn [deref next mem_bind]. intros E.
  destruct (_ && _); [injection E as <-; by apply suffix_cons_r|].
  destruct (_ =? _); [|by apply esc_digits_suffix in E]. apply esc_digits_suffix in E. by apply suffix_cons_r.
Qed.
(** Where a word ends. *)
Lemma word_loop_stops sep fuel : forall src quoted acc cap a cp r q,
  word_loop no_env fuel GWX_0 sep src quoted acc cap = Ok (a, cp, r, q) ->
  r `suffix_of` src /\ exists c t, r = c :: t /\ (c = 0 \/ c = 10 \/ c = 13 \/ in_set sep c = true).
Proof.
  induction fuel as [|fuel IH]; intros src quoted acc cap a cp r q E; [done|]. cbn [word_loop] in E.
  destruct src as [|c t]; [done|]. cbn [deref next mem_bind] in E.
  assert (Hput : forall (k : cstr -> mem (cstr * nat * list Z * bool)) x, mem_bind (put acc cap x) k = Ok (a, cp, r, q) ->
    exists acc', k acc' = Ok (a, cp, r, q)).
  { intros k x Hk. apply mem_bind_ok in Hk as (acc' & _ & Hk). eauto. }
  destruct (negb (GWX_NOESC GWX_0) && (c =? BSLASH)).
  { apply mem_bind_ok in E as (e & He & E). apply Hput in E as [acc' E]. apply escape_suffix in He.
    apply IH in E as [Hs Hc]. split; [|done]. by trans (e.2); [|apply suffix_cons_r]. }
  destruct ((c =? 0) || (c =? 10) || (c =? 13)) eqn:Ez.
  { injection E as <- <- <- <-. split; [done|]. exists c, t. split; [done|]. bools. lia. }
  destruct (c =? DQUOTE); [apply IH in E as [Hs Hc]; split; [by apply suffix_cons_r|done]|].
  destruct (in_set sep c && negb quoted) eqn:Es.
  { injection E as <- <- <- <-. split; [done|]. exists c, t. bools. auto 6. }
  replace ((c =? chr "%") && GWX_SUBST GWX_0) with false in E by (by rewrite andb_false_r).
  apply Hput in E as [acc' E]. apply IH in E as [Hs Hc]. split; [by apply suffix_cons_r|done].
Qed.
Definition one_line (s : list Z) : Prop := ~ (10 ∈ s) /\ ~ (13 ∈ s).
Lemma one_line_suffix r s : r `suffix_of` s -> one_line s -> one_line r.
Proof. intros [p ->] [H1 H2]. unfold one_line. rewrite elem_of_app in H1, H2. tauto. Qed.
Lemma words_loop_count sep n : forall src quoted cap w, one_line src ->
  words_loop no_env n GWX_0 sep [] src quoted cap = Ok (Some w) -> (n <= length src)%nat.
Proof.
  induction n as [|n IH]; intros src quoted cap w Hsrc E; [lia|]. cbn [words_loop] in E.
  destruct src as [|c t]; [done|].
  assert (Hskip : skip_set [] (c :: t) = Ok (c :: t)) by (cbn; unfold in_set; cbn [strchr]; by destruct (c =? 0)).
  rewrite Hskip in E. cbn [deref mem_bind] in E. destruct (_ || _); [done|].
  apply mem_bind_ok in E as ([[[a cp] r] q] & Hw & E). apply word_loop_stops in Hw as [Hsuf (c' & t' & -> & Hc')].
  destruct n as [|n]; [simpl; lia|]. cbn [deref mem_bind] in E.
  pose proof (suffix_length _ _ Hsuf) as Hl. pose proof (one_line_suffix _ _ Hsuf Hsrc) as [H1 H2].
  destruct (decide (c' = 0)) as [->|Hne].
  - cbn [Z.eqb negb andb mem_bind words_loop] in E. 
    assert (Hs0 : skip_set [] (0 :: t') = Ok (0 :: t')) by done. rewrite Hs0 in E. done.
  - assert (Hsep : in_set sep c' = true) by (destruct Hc' as [?|[->|[->|?]]]; [done|by destruct H1; left|by destruct H2; left|done]).
    rewrite Hsep, (proj2 (Z.eqb_neq c' 0) Hne) in E. cbn [negb andb next mem_bind] in E.
    apply IH in E; [simpl in *; lia|]. eapply one_line_suffix; [|done]. trans (c' :: t'); [by exists [c']|done].
Qed.
Lemma host_count net i hosts fa0 config x : one_line hosts ->
  get_host_and_port net i hosts fa0 config = Ok (Some x) -> (i <= length hosts + 1)%nat.
Proof.
  intros [H1 H2] E. unfold get_host_and_port in E. apply mem_bind_ok in E as ([s|] & Hw & E); [|done].
  unfold getwordx2 in Hw. apply words_loop_count in Hw; [rewrite length_app in Hw; simpl in Hw; lia|].
  split; rewrite elem_of_app; intros [?|?%list_elem_of_singleton]; done.
Qed.

(** ** What a call does *)

(** The retry functions fail only where the name of the node's files is built. *)
Section Tries.
Context (config : BINKD_CONFIG) (fa0 : FTN_ADDR).
Definition no_name : Prop := ftnaddress_to_filename_ fa0 (pDomains config) = Oob.
Lemma out_file_ends ext : outcome (fun _ => True) no_name (out_file fa0 ext config).
Proof.
  unfold out_file, no_name. destruct (ftnaddress_to_filename_ fa0 (pDomains config)) eqn:E; [done|done|].
  unfold ftnaddress_to_filename_ in E. destruct (get_domain_info _ _); [|done]. by destruct (_ <? _)%nat.
Qed.
Lemma read_try_ends w old : outcome (fun _ => True) no_name (read_try w fa0 old config).
Proof.
  unfold read_try. eapply outcome_bind; [apply out_file_ends|]. intros [|c b] _; [done|].
  destruct (fopen_r _ _) as [[|? [|? [|? [|? ?]]]]|]; done.
Qed.
Lemma write_try_ends w nok nbad comment : outcome (fun _ => True) no_name (write_try w fa0 nok nbad comment config).
Proof.
  unfold write_try. case_if; [done|]. eapply outcome_bind; [apply out_file_ends|]. by intros [|c b] _.
Qed.
Lemma hold_node_ends w until : outcome (fun _ => True) no_name (hold_node w fa0 until config).
Proof.
  unfold hold_node. eapply outcome_bind; [apply out_file_ends|]. intros [|c b] _; [done|]. by case_if.
Qed.
Lemma bad_try_ends w error junk : outcome (fun _ => True) no_name (bad_try w fa0 error junk config).
Proof.
  unfold bad_try. case_if; [done|]. eapply outcome_bind; [apply read_try_ends|]. intros [nok nbad] _.
  case_if; [|apply write_try_ends]. case_if; [|apply write_try_ends].
  eapply outcome_bind; [apply hold_node_ends|]. intros w' _. apply write_try_ends.
Qed.
End Tries.

Section Dial.
Context (net : RESOLVER) (dns : DNS) (attempt : nat -> ATTEMPT) (bind_lookup : cstr -> Z -> BINDADDR)
  (nameinfo : SOCKADDR -> option (cstr * cstr)) (run3 : cstr -> Z) (junk : Z * Z).
Context (node : FTN_NODE) (config : BINKD_CONFIG).
Abbreviation tryAddrs := (try_addrs attempt bind_lookup nameinfo junk node config).
Abbreviation tryHosts := (try_hosts net dns attempt bind_lookup nameinfo run3 junk node config).

(** The worlds that failed tries of the node lead to. *)
Definition failed_tries : WORLD -> WORLD -> Prop := rtc (fun w w' => exists e, bad_try w (n_fa node) e junk config = Ok w').
Definition fails (a : ATTEMPT) : Prop := at_socket a = false \/ at_error a <> None.
Definition works (a : ATTEMPT) : Prop := at_socket a = true /\ at_exit a = false /\ at_error a = None.
(** Nothing is connected yet: every socket so far failed. *)
Definition unanswered (d : DIAL) : Prop :=
  dl_sock d = None /\ dl_out d = None /\ forall j, (j < dl_n d)%nat -> fails (attempt j).
(** The first socket that connects is the one that is used. *)
Definition answered (d : DIAL) : Prop := exists ai n,
  dl_sock d = Some (S_net ai true) /\ dl_out d = Some (S_net ai true) /\ invalid_address (ai_addr ai) = false /\
  dl_n d = S n /\ works (attempt n) /\ (forall j, (j < n)%nat -> fails (attempt j)).
Definition piped (d : DIAL) : Prop := exists p, p <> -1 /\ dl_sock d = Some (S_pipe p) /\ dl_out d = Some (S_pipe p).
(** A socket that was passed over because of the bind address. *)
Definition passed_over (d : DIAL) : Prop := exists ai,
  dl_sock d = Some (S_net ai false) /\ dl_out d = None /\
  bindaddr config <> [] /\ bind_lookup (bindaddr config) (ai_family ai) = B_family.

Definition dialled (w : WORLD) (r : bool * DIAL) : Prop :=
  failed_tries w (dl_world r.2) /\ (r.1 = false -> unanswered r.2 \/ answered r.2 \/ piped r.2 \/ passed_over r.2).

Lemma dialled_from w1 w2 r : failed_tries w1 w2 -> dialled w2 r -> dialled w1 r.
Proof. intros H [H1 H2]. split; [|done]. by etrans. Qed.
Lemma count_failure_ends (E : Prop) e d (k : DIAL -> mem (bool * DIAL)) w : (no_name config (n_fa node) -> E) ->
  failed_tries w (dl_world d) ->
  (forall w', failed_tries w w' -> outcome (dialled w') E (k (d <| dl_world := w' |>))) ->
  outcome (dialled w) E (mem_bind (count_failure junk node config e d) k).
Proof.
  intros HE Hd Hk. unfold count_failure. rewrite mem_bind_assoc.
  pose proof (bad_try_ends config (n_fa node) (dl_world d) e junk) as Hb.
  destruct (bad_try _ _ _ _ _) as [w'| |] eqn:Eb; [|by apply HE|done]. cbn [mem_bind].
  assert (Hw : failed_tries w w') by (etrans; [exact Hd|]; apply rtc_once; by exists e).
  eapply outcome_weaken; [by apply Hk| |done]. intros r Hr. by eapply dialled_from.
Qed.
Lemma try_addrs_ends l : forall d, unanswered d ->
  outcome (dialled (dl_world d)) (no_name config (n_fa node)) (tryAddrs l d).
Proof.
  induction l as [|ai l IH]; intros d Hd; cbn [try_addrs].
  { destruct Hd. split; [done|]. by left. }
  destruct Hd as (Hs & Ho & Hf). rewrite Hs. case_if; [by apply IH|].
  set (a := attempt (dl_n d)). set (d1 := d <| dl_n ::= S |>).
  assert (H1 : fails a -> unanswered d1).
  { intros Ha. split; [done|]. split; [done|]. cbn. intros j Hj. destruct (decide (j = dl_n d)) as [->|]; [done|apply Hf; lia]. }
  case_if; [exact (IH d1 (H1 ltac:(left; by apply negb_true_iff)))|].
  case_if; [split; done|]. destruct (default _ (nameinfo (ai_addr ai))) as [addrbuf servbuf].
  set (d2 := _ <| dl_port := _ |>). set (passed := match bindaddr config with [] => false | _ => _ end).
  destruct passed eqn:Ep.
  - assert (Hp : passed_over d2).
    { exists ai. split; [done|]. split; [done|]. unfold passed in Ep. destruct (bindaddr config) as [|c b]; [done|].
      split; [done|]. by destruct (bind_lookup (c :: b) (ai_family ai)). }
    destruct l; cbn [try_addrs]; (split; [done|]; intros _; by right; right; right).
  - destruct (at_error a) as [e|] eqn:Ee.
    + assert (Hd3 : forall w, unanswered (d2 <| dl_world := w |> <| dl_sock := None |>)).
      { intros w. destruct H1 as (_ & H2 & H3); [right; congruence|]. done. }
      case_if; [exact (IH _ (Hd3 (dl_world d)))|]. apply count_failure_ends; [done..|]. intros w' Hw'. exact (IH _ (Hd3 w')).
    + split; [done|]. intros _. right. left. exists ai, (dl_n d). bools. split_and!; try done.
Qed.

Definition hosts_of : cstr := default [] (n_hosts node).
(** The list of hosts has a word that cannot be split in bounds. *)
Definition bad_hosts : Prop := exists i, getwordx2 no_env hosts_of i GWX_0 (str ",;") [] = Oob.
Lemma host_ends i : (0 < i)%nat -> outcome (fun _ => True) bad_hosts (get_host_and_port net i hosts_of (n_fa node) config).
Proof.
  intros Hi. unfold get_host_and_port. pose proof (words_loop_ends no_env GWX_0 (str ",;") [] i (hosts_of ++ [0]) false (length hosts_of + 1) Hi) as Hw.
  fold (getwordx2 no_env hosts_of i GWX_0 (str ",;") []) in Hw.
  destruct (getwordx2 _ _ _ _ _ _) as [[s|]| |] eqn:E; [|done|by exists i|done]. cbn [mem_bind].
  by destruct (match strchr s (chr "]") with Some _ => _ | None => None end); repeat case_match.
Qed.
Lemma pipe_command_ok p host port : exists c, pipe_command p host port = Ok c.
Proof.
  unfold pipe_command. destruct (ed_ok p (str "*H") host) as [r ->]. cbn [mem_bind].
  destruct (ed_ok r.1 (str "*I") port) as [r' ->]. by eexists.
Qed.
Lemma try_hosts_ends (Hone : one_line hosts_of) fuel : forall i d, unanswered d -> (0 < i <= length hosts_of + 2)%nat ->
  (length hosts_of + 2 < i + fuel)%nat ->
  outcome (dialled (dl_world d)) (no_name config (n_fa node) \/ bad_hosts) (tryHosts fuel i d).
Proof.
  induction fuel as [|fuel IH]; intros i d Hd Hi Hf; [lia|].
  pose proof Hd as (Hs & Ho & Hn). cbn [try_hosts]. rewrite Hs. fold hosts_of.
  pose proof (host_ends i ltac:(lia)) as Hh. destruct (get_host_and_port _ _ _ _ _) as [[x|]| |] eqn:E; cbn [mem_bind]; [|..|by right|done].
  2:{ split; [done|]. by left. }
  pose proof (host_count net i hosts_of (n_fa node) config x Hone E) as Hc.
  assert (Hnext : forall d', unanswered d' -> outcome (dialled (dl_world d')) (no_name config (n_fa node) \/ bad_hosts) (tryHosts fuel (S i) d'))
    by (intros d' Hd'; apply IH; [done|lia..]).
  destruct x as [[host port]|]; [|by apply Hnext]. set (d1 := _ <| dl_port := port |>). assert (Hd1 : unanswered d1) by done.
  destruct (has_pipe node) as [p|].
  - destruct (pipe_command_ok p host port) as [c ->]. cbn [mem_bind]. destruct (Z.eqb_spec (run3 c) (-1)) as [Ep|Ep].
    + exact (Hnext d1 Hd1).
    + split; [done|]. intros _. right. right. left. by exists (run3 c).
  - destruct (srv_getaddrinfo _ _ _ _) as [l|].
    + eapply outcome_bind; [eapply outcome_weaken; [exact (try_addrs_ends l d1 Hd1)|intros r Hr; exact Hr|by left]|].
      intros r [Hw Hr]. destruct r as [gone d2]. cbn [fst snd] in *. destruct gone; [split; done|].
      destruct (Hr eq_refl) as [Hu|Ha].
      * eapply outcome_weaken; [exact (Hnext d2 Hu)| |done]. intros r Hr'. by eapply dialled_from.
      * assert (Hsock : exists s, dl_sock d2 = Some s)
          by (destruct Ha as [(? & ? & -> & _)|[(? & _ & -> & _)|(? & -> & _)]]; eauto).
        destruct Hsock as [s Es]. destruct fuel; cbn [try_hosts]; rewrite Es; (split; [done|]; intros _; by right).
    + apply count_failure_ends; [by left|done|]. intros w' _. by match goal with |- outcome _ _ (_ ?d') => exact (Hnext d' Hd1) end.
Qed.
End Dial.


(** ** A list of hosts with an escaped line feed

    The word after the line feed is the empty one, at any index: the reader
    stays where it is. *)
Definition no_dns : DNS := mkDNS (fun _ _ _ => None) (fun _ => false) (fun _ => None).
Definition plain_net : RESOLVER := mkRESOLVER (fun _ => None) (fun _ => None) (fun _ => true).
Definition two_lines : FTN_NODE :=
  (example_node (example_addr 13) (str "secret")) <| n_hosts := Some (str "a,b" ++ [10] ++ str "c") |>.
Lemma words_loop_step n fl sep skip src quoted cap : words_loop no_env (S (S n)) fl sep skip src quoted cap =
  let* src := skip_set skip src in
  let* c := deref src in
  if (c =? 0) || (GWX_HASH fl && (c =? chr "#")) then Ok None
  else
    let* r := word_loop no_env (S (length src)) fl sep src quoted [] cap in
    let* c := deref r.1.2 in
    let* src := if negb (c =? 0) && in_set sep c then next r.1.2 else Ok r.1.2 in
    words_loop no_env (S n) fl sep skip src r.2 r.1.1.2.
Proof.
  cbn [words_loop]. destruct (skip_set skip src) as [s| |]; [cbn [mem_bind]|done..].
  destruct (deref s); [cbn [mem_bind]|done..]. case_if; [done|].
  by destruct (word_loop no_env (S (length s)) fl sep s quoted [] cap) as [[[[? ?] ?] ?]| |].
Qed.
Ltac words_step := rewrite words_loop_step; match goal with |- context [words_loop no_env ?m] => generalize (words_loop no_env m) end; intros k; by vm_compute.
Lemma words_stay n : words_loop no_env (S n) GWX_0 (str ",;") [] [10; 99; 0] false 6 = Ok (Some []).
Proof.
  induction n as [|n IH]; [done|]. trans (words_loop no_env (S n) GWX_0 (str ",;") [] [10; 99; 0] false 6); [words_step|exact IH].
Qed.
Lemma words_after n : words_loop no_env (S (S (S n))) GWX_0 (str ",;") [] (hosts_of two_lines ++ [0]) false (length (hosts_of two_lines) + 1) =
  words_loop no_env (S n) GWX_0 (str ",;") [] [10; 99; 0] false 6.
Proof.
  trans (words_loop no_env (S (S n)) GWX_0 (str ",;") [] (drop 2 (hosts_of two_lines ++ [0])) false 6); words_step.
Qed.
Lemma two_lines_host i : (2 < i)%nat ->
  get_host_and_port plain_net i (hosts_of two_lines) (n_fa two_lines) example_config = Ok (Some (Some ([], str "24554"))).
Proof.
  intros Hi. destruct i as [|[|[|n]]]; [lia..|]. unfold get_host_and_port, getwordx2. by rewrite words_after, words_stay.
Qed.
Definition busy_socket : ATTEMPT := mkATTEMPT true false (Some (str "Connection refused")) false.
Definition endless (fuel i : nat) (d : DIAL) : mem (bool * DIAL) :=
  try_hosts plain_net no_dns (fun _ => busy_socket) (fun _ _ => B_found) (fun _ => None) (fun _ => -1) (0, 0) two_lines example_config fuel i d.
Lemma endless_step fuel i host d : dl_sock d = None ->
  get_host_and_port plain_net i (hosts_of two_lines) (n_fa two_lines) example_config = Ok (Some (Some (host, str "24554"))) ->
  exists d', dl_sock d' = None /\ endless (S fuel) i d = endless fuel (S i) d'.
Proof.
  intros Hd Hi. unfold endless. cbn [try_hosts]. rewrite Hd. fold (hosts_of two_lines). rewrite Hi. cbn [mem_bind].
  change (has_pipe two_lines) with (@None cstr). cbn iota.
  assert (Hs : srv_getaddrinfo no_dns (str "24554") (n_IP_afamily two_lines) host = None)
    by (unfold srv_getaddrinfo; case_if; done).
  rewrite Hs. eexists; split; [|reflexivity]; exact Hd.
Qed.
Lemma dial_endless fuel w : endless fuel 1 (mkDIAL None None [] [] None 0 w) = Fuel.
Proof.
  assert (H : forall fuel i d, (0 < i)%nat -> dl_sock d = None -> endless fuel i d = Fuel).
  { clear. induction fuel as [|fuel IH]; intros i d Hi Hd; [unfold endless; cbn; by rewrite Hd|].
    destruct (decide (2 < i)%nat) as [H2|H2].
    - destruct (endless_step fuel i [] d Hd (two_lines_host i H2)) as (d' & Hd' & ->). apply IH; [lia|done].
    - assert (exists h, get_host_and_port plain_net i (hosts_of two_lines) (n_fa two_lines) example_config = Ok (Some (Some (h, str "24554")))) as [h Hh]
        by (destruct i as [|[|[|n]]]; [lia|exists (str "a")|exists (str "b")|lia]; by vm_compute).
      destruct (endless_step fuel i h d Hd Hh) as (d' & Hd' & ->). apply IH; [lia|done]. }
  apply H; [lia|done].
Qed.

(** A node with two hosts, of which the second has an address that answers. *)
Definition two_hosts : FTN_NODE :=
  (example_node (example_addr 13) (str "secret")) <| n_hosts := Some (str "a,b") |>.
Definition example_dns : DNS :=
  mkDNS (fun h _ _ => if bool_decide (h = str "b") then Some [mkADDRINFO 2 (SA_INET 0); mkADDRINFO 2 (SA_INET 7)] else Some [mkADDRINFO 2 (SA_INET 5)])
    (fun _ => false) (fun _ => None).
Definition second_answers (n : nat) : ATTEMPT := if decide (n = 1)%nat then mkATTEMPT true false None false else busy_socket.
