(* ===== verification/Client.v ===== *)
(** * client.c: the client manager

    [do_client] is one turn of the loop: it calls a node, or waits.  What comes
    from outside during a turn is in an [EVENTS]: the result of [fork], the
    signals that are delivered and what each sleep leaves behind.  In this build
    a signal to stop ends the process in its handler, so [binkd_exit] stays
    false. *)
From S2P Require Import Prelude CStr Tools FtnAddr Getw Sys Types FtnNode ReadFlo Bsy FtnQ Hosts Readcfg Config Process Calls.

(** A sleep: the time it took, the signals it let through and the file system after it. *)
Record NAP := mkNAP { nap_time : Z; nap_signals : SIGNALS; nap_sys : SYS }.
Record EVENTS := mkEVENTS {
  ev_room : bool;                    (* the copy of the arguments can be allocated *)
  ev_fork : list FORK;
  ev_pending : SIGNALS;              (* delivered when signals are let through *)
  ev_delay : NAP;                    (* the sleep of a second, or the call delay *)
  ev_naps : list NAP                 (* the sleeps while idle *)
}.

Record CMGR := mkCMGR {
  cm_proc : PROC;
  cm_config : nat;                   (* [config] *)
  cm_children : CHILDREN;            (* with [n_clients] *)
  cm_calls : list FTN_NODE           (* the calls placed since the last scan, the last one first *)
}.
#[export] Instance eta_CMGR : Eta CMGR := fun m => mkCMGR (cm_proc m) (cm_config m) (cm_children m) (cm_calls m).

Section Client.
Context (net : RESOLVER) (poll_flag : bool).

Definition n_clients (m : CMGR) : Z := count (cm_children m).
Definition cm_world (m : CMGR) : WORLD := p_world (cm_proc m).
Definition the_config (m : CMGR) : BINKD_CONFIG := config_at (cm_proc m) (cm_config m).
Definition use_config (m : CMGR) : CMGR := m <| cm_proc ::= touch_config (cm_config m) |>.
Definition set_world (w : WORLD) (m : CMGR) : CMGR := m <| cm_proc ::= set_field p_world (fun _ => w) |>.
Definition set_present (b : bool) (m : CMGR) : CMGR :=
  m <| cm_proc ::= set_config (cm_config m) (fun c => c <| q_present := b |>) |>.

Definition take_signals (sg : SIGNALS) (m : CMGR) : CMGR :=
  m <| cm_children ::= sighandler_chld (sg_dead sg) |>
    <| cm_proc ::= set_field p_sighup (fun b => b || sg_hup sg) |>.
(** The client manager has no client manager to watch, so [chld] returns. *)
Definition reap (m : CMGR) : CMGR := m <| cm_children ::= fun k => default k (check_child 0 k) |>.
(** A sleep with the signals let through. *)
Definition take_nap (nap : NAP) (m : CMGR) : CMGR :=
  take_signals (nap_signals nap) (set_world ((cm_world m) <| sys := nap_sys nap |>) m).
(** A sleep with the signals blocked. *)
Definition sleep_blocked (nap : NAP) (m : CMGR) : CMGR := set_world ((cm_world m) <| sys := nap_sys nap |>) m.

Definition rescan (m : CMGR) : mem CMGR :=
  let* w := q_free (cm_world m) SCAN_LISTED (the_config m) in
  let* r := q_scan w SCAN_LISTED (the_config m) in
  Ok ((set_present true (set_world r.2 m)) <| cm_calls := [] |>).

(** Calling [r]: the child has its own copy of the configuration. *)
Definition place_call (ev : EVENTS) (r : FTN_NODE) (m : CMGR) : mem CMGR :=
  let* b := bsy_test (cm_world m) (n_fa r) F_BSY (the_config m) in
  let m := set_world b.2 m in
  let* c := if b.1 : bool then bsy_test (cm_world m) (n_fa r) F_CSY (the_config m) else Ok b in
  let m := set_world c.2 m in
  if negb (c.1 : bool) then Ok m else
  let m := m <| cm_children ::= set_field count Z.succ |> <| cm_proc ::= lock_config net (cm_config m) |> in
  let* pid := branch (ev_room ev) (ev_fork ev) in
  let m := m <| cm_proc ::= unlock_config (cm_config m) |> in
  Ok match pid with
     | None => sleep_blocked (ev_delay ev) (m <| cm_children ::= set_field count Z.pred |>)
     | Some pid => m <| cm_children ::= set_field alive (cons pid) |> <| cm_calls ::= cons r |>
     end.

(** Waiting for the next scan; true when a poll has nothing left to do. *)
Fixpoint idle (naps : list NAP) (need_sleep : Z) (m : CMGR) : mem (bool * CMGR) :=
  if (need_sleep <=? 0) || p_sighup (cm_proc m) then Ok (false, m) else
  let m := reap m in
  let* r := if poll_flag && (n_clients m <=? 0) then
              let* r := q_not_empty (cm_world m) (the_config m) in
              Ok (bool_decide (r.1 = None), set_world r.2 m)
            else Ok (false, m) in
  let '(empty, m) := r in
  if (empty : bool) then Ok (true, m) else
  match naps with
  | [] => Fuel
  | nap :: naps => idle naps (if 0 <? nap_time nap then need_sleep - nap_time nap else need_sleep) (take_nap nap m)
  end.

(** The flag is true for -1, the end of the manager. *)
Definition do_client (ev : EVENTS) (m : CMGR) : mem (bool * CMGR) :=
  let m := use_config m in
  let* m := if q_present (the_config m) then Ok m else rescan m in
  if n_clients m <? max_clients (the_config m) then
    let* r := q_next_node (cm_world m) (the_config m) in
    let m := set_world r.2 m in
    match r.1 with
    | Some r => let* m := place_call ev r m in Ok (false, m)
    | None =>
        let* r := idle (ev_naps ev) (rescan_delay (the_config m)) (take_signals (ev_pending ev) m) in
        let '(quit, m) := r in
        if (quit : bool) then Ok (true, m) else
        let m := reap m in
        Ok (false, if poll_flag then m else set_present false m)
    end
  else
    let m := reap (take_signals (ev_pending ev) m) in
    let m := if no_call_delay (the_config m) then m else take_nap (ev_delay ev) m in
    Ok (false, reap m).
End Client.

Section Manager.
Context (net : RESOLVER) (getenv : cstr -> option cstr) (facilitynames : list (cstr * Z)).
Context (st_dev : cstr -> Z) (junk_dev : Z) (no_MD5_ no_crypt_ quiet_flag : bool) (verbose_flag : Z).
Context (malloc : gset nat -> nat) (poll_flag checkcfg_flag : bool).

Definition client_start (p : PROC) (k : CHILDREN) : CMGR :=
  let '(i, p) := lock_current net p in mkCMGR p i k [].
(** A newer configuration takes the place of the one in use. *)
Definition refresh (m : CMGR) : CMGR :=
  if decide (cm_config m = current (cm_proc m)) then m else
  let p := unlock_config (cm_config m) (cm_proc m) in
  let '(i, p) := lock_current net p in m <| cm_proc := p |> <| cm_config := i |>.
(** One turn of the loop of [clientmgr]; [inr] when it is left, by the end of
    the work or by [checkcfg]. *)
Definition client_turn (ev : EVENTS) (m : CMGR) : mem (CMGR + CMGR) :=
  let* r := do_client net poll_flag ev (refresh m) in
  let '(quit, m) := r in
  if (quit : bool) then Ok (inr m) else
  if poll_flag then Ok (inl m) else
  let* r := reload_config net getenv facilitynames st_dev junk_dev no_MD5_ no_crypt_ quiet_flag verbose_flag malloc
              checkcfg_flag (cm_proc m) in
  let m := m <| cm_proc := r.2 |> in
  Ok match r.1 with None => inr m | Some _ => inl m end.
(** The manager, for as many turns as there are events. *)
Fixpoint clientmgr (evs : list EVENTS) (m : CMGR) : mem (CMGR + CMGR) :=
  match evs with
  | [] => Ok (inl m)
  | ev :: evs =>
      let* r := client_turn ev m in
      match r with inl m => clientmgr evs m | inr m => Ok (inr m) end
  end.
(** What is done on leaving the loop: [exit] runs [exitfunc]. *)
Definition downing (m : CMGR) : mem PROC := exitfunc net false (unlock_config (cm_config m) (cm_proc m)).

(** The child: its copy of the configuration is locked for it. *)
Definition client_child (call_ : FTN_NODE -> BINKD_CONFIG -> WORLD -> mem WORLD) (r : FTN_NODE) (m : CMGR) : mem PROC :=
  let p := lock_config net (cm_config m) (cm_proc m) in
  let* w := call_ r (config_at p (cm_config m)) (p_world p) in
  exitfunc net false (unlock_config (cm_config m) (p <| p_world := w |>)).
End Manager.

(** ** What holds between the turns *)
Record client_ok (m : CMGR) : Prop := {
  ck_owned : owned (cm_proc m) [cm_config m];
  ck_counted : counted 0 (cm_children m)
}.
Lemma ok_world w m : client_ok m -> client_ok (set_world w m).
Proof. intros [H1 H2]. by constructor; [apply (owned_same (cm_proc m))|]. Qed.
Lemma ok_signals sg m : client_ok m -> client_ok (take_signals sg m).
Proof. intros [H1 H2]. constructor; [by apply (owned_same (cm_proc m))|by apply sighandler_counted]. Qed.
Lemma ok_nap nap m : client_ok m -> client_ok (take_nap nap m).
Proof. intros H. by apply ok_signals, ok_world. Qed.
Lemma ok_reap m : client_ok m -> client_ok (reap m).
Proof.
  intros [H1 H2]. constructor; [done|]. cbn. destruct (check_child 0 (cm_children m)) as [k|] eqn:E; [|done].
  by apply (check_child_counted _ _ _ H2) in E as [? _].
Qed.
Lemma ok_present b m : client_ok m -> client_ok (set_present b m).
Proof. intros [H1 H2]. constructor; [|done]. apply owned_set; [done|cbn; set_solver|done]. Qed.
Lemma ok_use m : client_ok m -> client_ok (use_config m).
Proof.
  intros [H1 H2]. constructor; [|done]. unfold use_config. cbn [cm_proc cm_config set_field].
  cbn. rewrite (owned_touch _ [cm_config m]); [done|done|set_solver].
Qed.
Create HintDb client.
#[local] Hint Resolve ok_world ok_signals ok_nap ok_reap ok_present ok_use : client.

Lemma rescan_ok m m' : client_ok m -> rescan m = Ok m' -> client_ok m'.
Proof.
  intros H E. unfold rescan in E. apply mem_bind_ok in E as (w & _ & E). apply mem_bind_ok in E as (r & _ & E).
  injection E as <-. assert (H1 : client_ok (set_present true (set_world r.2 m))) by auto with client.
  destruct H1 as [H1 H2]. by constructor.
Qed.
Lemma idle_ok poll naps : forall need m r m', client_ok m -> idle poll naps need m = Ok (r, m') ->
  client_ok m' /\ (r = true -> poll = true /\ n_clients m' <= 0 /\ exists w, q_not_empty w (the_config m') = Ok (None, cm_world m')).
Proof.
  induction naps as [|nap naps IH]; intros need m r m' H E; cbn [idle] in E; case_match; try by injection E as <- <-.
  all: apply mem_bind_ok in E as ([empty m1] & E1 & E).
  all: assert (H1 : client_ok m1 /\ (empty = true -> poll = true /\ n_clients m1 <= 0 /\ exists w, q_not_empty w (the_config m1) = Ok (None, cm_world m1))).
  1,3: destruct (poll && (n_clients (reap m) <=? 0)) eqn:Ep; [|by injection E1 as <- <-; split; [auto with client|]];
    apply mem_bind_ok in E1 as ([o w] & E2 & E1); injection E1 as <- <-; cbn [fst snd] in *; split; [auto with client|];
    intros Hb; apply bool_decide_eq_true in Hb; subst o; bools; split_and!; [done|done|by exists (cm_world (reap m))].
  - destruct empty; [|done]. by injection E as <- <-.
  - destruct empty; [by injection E as <- <-|]. apply IH in E; [done|]. apply ok_nap, H1.
Qed.
Lemma place_call_ok net ev r m m' : client_ok m -> place_call net ev r m = Ok m' -> client_ok m'.
Proof.
  intros H E. unfold place_call in E. apply mem_bind_ok in E as (b & _ & E). apply mem_bind_ok in E as (c & _ & E).
  case_match; [injection E as <-; auto with client|]. apply mem_bind_ok in E as (pid & Hp & E).
  set (m1 := set_world c.2 (set_world b.2 m)) in E. assert (H1 : client_ok m1) by (unfold m1; auto with client). clearbody m1.
  destruct H1 as [H1 H2]. injection E as <-.
  assert (H3 : owned (unlock_config (cm_config m1) (lock_config net (cm_config m1) (cm_proc m1))) [cm_config m1]).
  { apply owned_unlock, owned_lock; [done|set_solver]. }
  destruct pid as [pid|].
  - constructor; [exact H3|]. unfold branch in Hp. destruct (ev_room ev); [|done].
    assert (Hpos : exists q, pid = Zpos q).
    { clear -Hp. induction (ev_fork ev) as [|[q| |] l IH]; cbn [branch_again] in Hp; [done|injection Hp as <-; eauto|auto|done]. }
    destruct Hpos as [q ->]. exact (fork_counted 0 (cm_children m1) q ltac:(done) H2).
  - constructor; [eapply owned_same; [| | |exact H3]; reflexivity|]. destruct H2 as [H5 H6]. constructor; [|exact H6].
    change (Z.pred (Z.succ (count (cm_children m1))) = mine 0 (alive (cm_children m1) ++ zombies (cm_children m1))).
    rewrite Z.pred_succ. exact H5.
Qed.
Lemma do_client_ok net poll ev m r m' : client_ok m -> do_client net poll ev m = Ok (r, m') ->
  client_ok m' /\ (r = true -> poll = true /\ n_clients m' <= 0 /\ exists w, q_not_empty w (the_config m') = Ok (None, cm_world m')).
Proof.
  intros H E. unfold do_client in E. apply ok_use in H. set (m1 := use_config m) in *. clearbody m1.
  apply mem_bind_ok in E as (m2 & E2 & E).
  assert (H2 : client_ok m2) by (destruct (q_present (the_config m1)); [by injection E2 as <-|by eapply rescan_ok]). clear E2 H.
  case_match; [|case_match; injection E as <- <-; split; auto 8 with client; done].
  apply mem_bind_ok in E as ([o w] & _ & E). cbn [fst snd] in E. destruct o as [n|].
  - apply mem_bind_ok in E as (m3 & E3 & E). injection E as <- <-. split; [|done]. eapply place_call_ok; [|exact E3]. auto with client.
  - apply mem_bind_ok in E as ([quit m3] & E3 & E). apply idle_ok in E3; [|auto with client]. destruct quit.
    + by injection E as <- <-.
    + injection E as <- <-. destruct E3 as [H3 _]. split; [|done]. case_match; auto with client.
Qed.

Section Turns.
Context (net : RESOLVER) (getenv : cstr -> option cstr) (facilitynames : list (cstr * Z)).
Context (st_dev : cstr -> Z) (junk_dev : Z) (no_MD5_ no_crypt_ quiet_flag : bool) (verbose_flag : Z).
Context (malloc : gset nat -> nat) (poll_flag checkcfg_flag : bool).
Abbreviation turn := (client_turn net getenv facilitynames st_dev junk_dev no_MD5_ no_crypt_ quiet_flag verbose_flag malloc poll_flag checkcfg_flag).
Abbreviation manager := (clientmgr net getenv facilitynames st_dev junk_dev no_MD5_ no_crypt_ quiet_flag verbose_flag malloc poll_flag checkcfg_flag).
Definition manager_of (r : CMGR + CMGR) : CMGR := match r with inl m | inr m => m end.

Lemma refresh_ok m : client_ok m -> client_ok (refresh net m).
Proof.
  intros [H1 H2]. unfold refresh. case_decide; [by constructor|]. unfold lock_current. constructor; [|done]. cbn [cm_proc cm_config].
  assert (Hu : owned (unlock_config (cm_config m) (cm_proc m)) []) by (by apply owned_unlock).
  set (p := unlock_config _ _) in *. clearbody p. assert (Hl : owned (lock_config net (current p) p) [current p]) by (apply owned_lock; [done|set_solver]).
  exact Hl.
Qed.
Lemma client_turn_ok (malloc_new : forall s, malloc s ∉ s) ev m r : client_ok m -> turn ev m = Ok r -> client_ok (manager_of r).
Proof.
  intros H E. unfold client_turn in E. apply mem_bind_ok in E as ([quit m1] & E1 & E).
  apply do_client_ok in E1 as [H1 _]; [|by apply refresh_ok]. destruct quit; [by injection E as <-|].
  destruct poll_flag; [by injection E as <-|]. apply mem_bind_ok in E as ([res p] & E2 & E).
  assert (H2 : client_ok (m1 <| cm_proc := p |>)).
  { destruct H1 as [H1 H2]. constructor; [|done]. by eapply owned_reload. }
  injection E as <-. by destruct res.
Qed.
Lemma clientmgr_ok (malloc_new : forall s, malloc s ∉ s) evs : forall m r, client_ok m -> manager evs m = Ok r -> client_ok (manager_of r).
Proof.
  induction evs as [|ev evs IH]; intros m r H E; cbn [clientmgr] in E; [by injection E as <-|].
  apply mem_bind_ok in E as ([m1|m1] & E1 & E); apply client_turn_ok in E1; try done; [by apply IH in E|by injection E as <-].
Qed.
Lemma exitfunc_owned server p hs q : owned p hs -> exitfunc net server p = Ok q -> owned q hs.
Proof.
  intros H E. unfold exitfunc, lock_current in E. apply mem_bind_ok in E as (w & _ & E). injection E as <-.
  assert (Hl : owned (lock_config net (current p) p) (current p :: hs)) by (apply owned_lock; [done|set_solver]).
  set (p1 := lock_config net (current p) p) in *. apply owned_unlock.
  match goal with |- owned ?q _ => exact (owned_same p1 q _ eq_refl eq_refl eq_refl Hl) end.
Qed.
Lemma owned_two p i j : owned p [i] -> is_Some (heap p !! j) -> j = current p \/ j = i.
Proof.
  intros [_ H] [c Hc]. specialize (H j). rewrite Hc in H. destruct H as [H1 H2]. rewrite H1, <- users_in in H2.
  rewrite !elem_of_cons, elem_of_nil in H2. tauto.
Qed.

(** C5: whatever happens from outside, and however often the configuration is
    read again, the client manager touches no configuration that was freed and
    keeps none that nobody uses: at any time the only ones allocated are the
    current one and the one the manager is using, with the exact count of their
    users.  Its counter is the number of children that were started and not
    waited for.  A child works on its own copy and leaves no user behind, and so
    does the manager when it ends. *)
Theorem clientmgr_configs (malloc_new : forall s, malloc s ∉ s) p k evs r :
  owned p [] -> counted 0 k -> manager evs (client_start net p k) = Ok r ->
  let m := manager_of r in
  fault (cm_proc m) = false /\
  (forall i, is_Some (heap (cm_proc m) !! i) <-> i = current (cm_proc m) \/ i = cm_config m) /\
  (forall i c, heap (cm_proc m) !! i = Some c -> usageCount c = users i [current (cm_proc m); cm_config m]) /\
  n_clients m = Z.of_nat (length (alive (cm_children m) ++ zombies (cm_children m))) /\
  (forall call_ n q, client_child net call_ n m = Ok q -> fault q = false /\ heap q !! cm_config m <> None) /\
  (forall q, downing net m = Ok q -> fault q = false /\ forall i, is_Some (heap q !! i) <-> i = current q).
Proof.
  intros Hp Hk E. assert (H0 : client_ok (client_start net p k)).
  { constructor; [|done]. exact (owned_lock net p [] (current p) Hp ltac:(set_solver)). }
  apply clientmgr_ok in E; [|done..]. destruct E as [H1 [H2 H3]]. cbv zeta. split; [apply H1|]. split_and!.
  - intros i. split; [by apply owned_two|]. intros Hi. apply (owned_alloc _ _ _ H1). rewrite !elem_of_cons. tauto.
  - intros i c Hc. pose proof (ow_heap _ _ H1 i) as Hi. rewrite Hc in Hi. apply Hi.
  - unfold n_clients. rewrite H2. unfold mine. f_equal. f_equal. clear H2. induction H3 as [|x l Hx _ IH]; [done|].
    rewrite filter_cons, decide_True by lia. by f_equal.
  - intros call_ n q E. unfold client_child in E. apply mem_bind_ok in E as (w & _ & E).
    assert (Hl : owned (lock_config net (cm_config (manager_of r)) (cm_proc (manager_of r))) [cm_config (manager_of r); cm_config (manager_of r)])
      by (apply owned_lock; [done|set_solver]).
    apply exitfunc_owned with (hs := [cm_config (manager_of r)]) in E; [|apply owned_unlock; eapply owned_same; [| | |exact Hl]; reflexivity].
    split; [apply E|]. by destruct (owned_alloc _ _ (cm_config (manager_of r)) E ltac:(set_solver)) as [c ->].
  - intros q E. apply exitfunc_owned with (hs := []) in E; [|by apply owned_unlock]. split; [apply E|]. intros i. split.
    + intros [c Hc]. pose proof (ow_heap _ _ E i) as Hi. rewrite Hc in Hi. destruct Hi as [Hi1 Hi2]. rewrite Hi1, <- users_in in Hi2.
      by apply list_elem_of_singleton in Hi2.
    + intros ->. apply (owned_alloc _ _ _ E). set_solver.
Qed.
End Turns.

(** ** Each node once

    [q_next_node] marks the node it takes; what is remembered of a node here is
    its address and that mark. *)
Definition tag (n : FTN_NODE) := (node_key n, n_busy n).
Definition tags (w : WORLD) := tag <$> pNodArray w.
Lemma tags_alter (f : FTN_NODE -> FTN_NODE) (i : nat) (l : list FTN_NODE) : (forall n, tag (f n) = tag n) -> tag <$> alter f i l = tag <$> l.
Proof.
  intros Hf. revert i. induction l as [|x l IH]; intros [|i]; simpl; [done|done|by rewrite Hf|f_equal; apply IH].
Qed.
(** The same entries with the same marks. *)
Record same_tags (w w' : WORLD) : Prop := { st_table : table_ok w'; st_tags : tags w' ≡ₚ tags w }.
Lemma same_tags_refl w : table_ok w -> same_tags w w.
Proof. done. Qed.
Lemma same_tags_trans w1 w2 w3 : same_tags w1 w2 -> same_tags w2 w3 -> same_tags w1 w3.
Proof. intros [_ H2] [H3 H4]. constructor; [done|]. by rewrite H4. Qed.
Lemma same_tags_edit w f i : (forall n, n_fa (f n) = n_fa n) -> (forall n, n_busy (f n) = n_busy n) -> table_ok w ->
  same_tags w (w <| pNodArray ::= alter f i |>).
Proof.
  intros H1 H2 Hw. constructor; [by apply edit_ok|]. unfold tags. cbn. rewrite tags_alter; [done|].
  intros n. unfold tag, node_key. by rewrite H1, H2.
Qed.
Lemma same_tags_sorted w : table_ok w -> same_tags w (if nNodSorted w then w else sort_nodes w).
Proof.
  intros Hw. destruct (nNodSorted w); [done|]. destruct (sort_nodes_ok w Hw) as [H1 H2]. constructor; [done|].
  unfold tags. by rewrite H2.
Qed.
Lemma tags_nodup w : table_ok w -> NoDup (tags w).*1.
Proof. intros [_ H _]. unfold tags. by rewrite <- list_fmap_compose. Qed.
Lemma tag_in n w : n ∈ pNodArray w -> tag n ∈ tags w.
Proof. intros H. unfold tags. apply list_elem_of_fmap. by exists n. Qed.

Lemma get_node_info_tags config w n : table_ok w -> n ∈ pNodArray w ->
  same_tags w (get_node_info w (n_fa n) config).2 /\
  forall r, (get_node_info w (n_fa n) config).1 = Some r -> tag r ∈ tags w /\ node_wf r.
Proof.
  intros Hw Hn. assert (Hf : fa_wf (n_fa n)) by (eapply (proj1 (Forall_forall _ _) (tb_wf w Hw)), Hn).
  unfold get_node_info, get_node_index. pose proof (same_tags_sorted w Hw) as H1.
  set (w1 := if nNodSorted w then w else sort_nodes w) in *.
  assert (Hs : nNodSorted w1 = true) by (unfold w1; by destruct (nNodSorted w) eqn:E).
  pose proof (search_spec w1 (n_fa n) (st_table _ _ H1) Hs Hf) as Hi.
  assert (Hin : exists n', n' ∈ pNodArray w1 /\ node_key n' = node_key n).
  { pose proof (tag_in _ _ Hn) as Ht. rewrite <- (st_tags _ _ H1) in Ht. apply list_elem_of_fmap in Ht as (n' & E & ?). exists n'. unfold tag in E. split; [done|congruence]. }
  destruct (search_for_node w1 (n_fa n)) as [i|].
  2:{ destruct Hin as (n' & H2 & H3). rewrite Forall_forall in Hi. by apply Hi in H2. }
  clear Hin. clearbody w1.
  assert (Hend : forall v h, same_tags w v -> (forall m, n_fa (h m) = n_fa m) -> (forall m, n_busy (h m) = n_busy m) ->
    same_tags w (v <| pNodArray ::= alter h i |>) /\ forall r, alter h i (pNodArray v) !! i = Some r -> tag r ∈ tags w /\ node_wf r).
  { intros v h H2 Hh1 Hh2. assert (H3 : same_tags w (v <| pNodArray ::= alter h i |>))
      by (eapply same_tags_trans; [exact H2|]; apply same_tags_edit; [done..|apply H2]).
    split; [exact H3|]. intros r Hr. rewrite <- (st_tags _ _ H3). apply list_elem_of_lookup_2 in Hr.
    split; [by apply tag_in|]. by eapply (proj1 (Forall_forall _ _) (tb_wf _ (st_table _ _ H3))). }
  assert (H2 : forall np, same_tags w (w1 <| pNodArray ::= alter (copy_defnode np) i |>))
    by (intros np; eapply same_tags_trans; [exact H1|]; apply same_tags_edit; [done..|apply H1]).
  match goal with |- context [if ?b then get_defnode_info _ _ _ else _] => destruct b end;
    [unfold get_defnode_info; destruct (search_for_node w1 defnode_addr ≫= _)|];
    (apply Hend; [done|intros m; by destruct (n_hosts m)..]).
Qed.

(** What [qn_not_empty] asks of a node. *)
Definition waiting (s : SYS) (n : FTN_NODE) : Prop :=
  n_busy n = 0 /\ strcmp (default [] (n_hosts n)) (str "-") <> 0 /\ n_hold_until n < safe_time s.
Definition flavour_of (n : FTN_NODE) : char := MAXFLVR (n_mail_flvr n) (n_files_flvr n).
(** Some waiting node, with the flavour to call it for. *)
Definition best_so_far (w : WORLD) (a : qn_not_empty_arg) : Prop :=
  forall n, ne_fn a = Some n -> tag n ∈ tags w /\ node_wf n /\ waiting (sys w) n /\ ne_maxflvr a = flavour_of n.

Lemma get_node_info_sys w fa0 config : sys (get_node_info w fa0 config).2 = sys w.
Proof. rewrite get_node_info_index. apply get_node_index_sys. Qed.
Lemma qn_not_empty_best w0 w n a : sys w = sys w0 -> tag n ∈ tags w0 -> node_wf n -> best_so_far w0 a ->
  exists a', qn_not_empty n a w = Ok (false, a', w) /\ best_so_far w0 a'.
Proof.
  intros Hs Hn Hf Ha. unfold qn_not_empty. case_match eqn:E; [|by exists a]. eexists. split; [done|].
  intros x [= <-]. split; [done|]. split; [done|]. split; [|done]. bools. unfold waiting. split_and!; [lia|done|by rewrite <- Hs].
Qed.
Lemma foreach_best config l : forall w0 w a, table_ok w0 -> same_tags w0 w -> sys w = sys w0 -> Forall (fun n => node_wf n /\ node_key n ∈ (tags w0).*1) l ->
  best_so_far w0 a -> exists a' w', foreach_loop config qn_not_empty l a w = Ok (false, a', w') /\
    same_tags w0 w' /\ sys w' = sys w0 /\ best_so_far w0 a'.
Proof.
  induction l as [|n l IH]; intros w0 w a H0 Hw Hs Hl Ha; [by exists a, w|]. apply Forall_cons in Hl as [[Hwf Hkey] Hl].
  cbn [foreach_loop]. assert (Hn : entry_now w n ∈ pNodArray w).
  { unfold entry_now. pose proof (find_node_spec (pNodArray w) (n_fa n) Hwf (tb_wf w (st_table _ _ Hw))) as Hf.
    destruct (find_node _ _) as [i|]; [destruct Hf as (x & Hx & _); cbn; rewrite Hx; by eapply list_elem_of_lookup_2|].
    exfalso. rewrite Forall_forall in Hf. rewrite <- (st_tags _ _ Hw) in Hkey. unfold tags in Hkey.
    rewrite <- list_fmap_compose in Hkey. apply list_elem_of_fmap in Hkey as (x & E & Hx). by apply (Hf x Hx). }
  set (n1 := entry_now w n) in *. clearbody n1. destruct (get_node_info_tags config w n1 (st_table _ _ Hw) Hn) as [Hg Hr].
  assert (Hstep : forall n' w', same_tags w0 w' -> sys w' = sys w0 -> tag n' ∈ tags w0 -> node_wf n' ->
    exists a' w'', mem_bind (qn_not_empty n' a w') (fun '(stop, arg, w) => if (stop : bool) then Ok (true, arg, w) else foreach_loop config qn_not_empty l arg w)
      = Ok (false, a', w'') /\ same_tags w0 w'' /\ sys w'' = sys w0 /\ best_so_far w0 a').
  { intros n' w' Hw' Hs' Ht Hf. destruct (qn_not_empty_best w0 w' n' a Hs' Ht Hf Ha) as (a' & -> & Ha'). by apply IH. }
  assert (Hf1 : node_wf n1) by (by eapply (proj1 (Forall_forall _ _) (tb_wf w (st_table _ _ Hw)))).
  destruct (n_hosts n1).
  - apply Hstep; [done|done| |done]. rewrite <- (st_tags _ _ Hw). by apply tag_in.
  - pose proof (get_node_info_sys w (n_fa n1) config) as Hsys. destruct (get_node_info w (n_fa n1) config) as [r w'].
    cbn [fst snd] in *. apply Hstep; [by eapply same_tags_trans|by rewrite Hsys|..].
    + rewrite <- (st_tags _ _ Hw). destruct r as [r|]; [by apply Hr|by apply tag_in].
    + destruct r as [r|]; [by apply Hr|done].
Qed.
Lemma sort_nodes_sys w : sys (if nNodSorted w then w else sort_nodes w) = sys w.
Proof. by destruct (nNodSorted w). Qed.
Lemma q_not_empty_spec config w : table_ok w -> exists o w', q_not_empty w config = Ok (o, w') /\ same_tags w w' /\ sys w' = sys w /\
  forall n, o = Some n -> tag n ∈ tags w /\ node_wf n /\ waiting (sys w) n /\ tolower (flavour_of n) <> chr "h" /\ flavour_of n <> 0.
Proof.
  intros Hw. unfold q_not_empty, foreach_node. pose proof (same_tags_sorted w Hw) as H1. pose proof (sort_nodes_sys w) as Hs.
  set (w1 := if nNodSorted w then w else sort_nodes w) in *. clearbody w1.
  destruct (foreach_best config (pNodArray w1) w w1 (mkqn_not_empty_arg 0 None) Hw H1 Hs) as (a & w' & -> & H2 & Hs2 & Ha).
  - apply Forall_forall. intros n Hn. split; [by eapply (proj1 (Forall_forall _ _) (tb_wf w1 (st_table _ _ H1)))|].
    rewrite <- (st_tags _ _ H1). apply list_elem_of_fmap. exists (tag n). split; [done|by apply tag_in].
  - done.
  - cbn [mem_bind]. do 2 eexists. split; [done|]. split_and!; [done|done|]. intros n Hn.
    case_match eqn:E; [|done]. destruct (Ha n Hn) as (A & A' & B & C). bools. rewrite C in *. by split_and!.
Qed.

(** The nodes not taken since the last scan. *)
Definition free_tags (l : list FTN_NODE) := (filter (fun t => t.2 = 0) (tag <$> l)).*1.
Definition free_nodes (w : WORLD) := free_tags (pNodArray w).
Lemma same_tags_free w w' : same_tags w w' -> free_nodes w' ≡ₚ free_nodes w.
Proof. intros [_ H]. unfold free_nodes, free_tags, tags in *. by rewrite H. Qed.
Lemma free_nodup w : table_ok w -> NoDup (free_nodes w).
Proof.
  intros Hw. pose proof (tags_nodup w Hw) as H. unfold free_nodes, free_tags, tags in *. revert H. generalize (tag <$> pNodArray w) as l.
  induction l as [|[k b] l IH]; [done|]. cbn [fmap list_fmap]. intros [Hk Hl]%NoDup_cons. rewrite filter_cons. case_decide; [|by apply IH].
  cbn [fmap list_fmap]. apply NoDup_cons. split; [|by apply IH]. intros Hin. apply Hk. apply list_elem_of_fmap in Hin as (t & -> & Hin).
  apply list_elem_of_filter in Hin as [_ Hin]. apply list_elem_of_fmap. by exists t.
Qed.
Definition taken (n : FTN_NODE) : FTN_NODE := n <| n_mail_flvr := 0 |> <| n_files_flvr := 0 |> <| n_busy := chr "c" |>.
Lemma free_take w n : table_ok w -> tag n ∈ tags w -> n_busy n = 0 -> fa_wf (n_fa n) ->
  table_ok (update_node w (n_fa n) taken) /\ free_nodes w ≡ₚ node_key n :: free_nodes (update_node w (n_fa n) taken).
Proof.
  intros Hw Hn Hb Hf. unfold update_node. pose proof (find_node_spec (pNodArray w) (n_fa n) Hf (tb_wf w Hw)) as Hi.
  apply list_elem_of_fmap in Hn as (x & Ex & Hx). destruct (find_node _ _) as [i|].
  2:{ rewrite Forall_forall in Hi. unfold tag in Ex. destruct (Hi x Hx). unfold node_key in *. congruence. }
  split; [by apply edit_ok|]. destruct Hi as (y & Hy & Hk).
  assert (y = x) as ->.
  { apply (table_unique w); [done|by eapply list_elem_of_lookup_2|done|]. unfold tag, node_key in *. congruence. }
  unfold free_nodes. change (pNodArray (w <| pNodArray ::= alter taken i |>)) with (alter taken i (pNodArray w)).
  revert Hy. generalize (pNodArray w) as l. unfold free_tags. clear -Ex Hb. revert i.
  enough (forall l i, l !! i = Some x -> (filter (fun t => t.2 = 0) (tag <$> l)).*1 ≡ₚ
    node_key n :: (filter (fun t => t.2 = 0) (tag <$> alter taken i l)).*1) by eauto.
  induction l as [|z l IH]; intros i Hl; [done|]. destruct i as [|i].
  - injection Hl as ->. cbn [fmap list_fmap alter list_alter]. rewrite !filter_cons, <- Ex.
    rewrite decide_True by done. rewrite decide_False by done. done.
  - cbn [fmap list_fmap alter list_alter]. rewrite !filter_cons. apply IH in Hl.
    case_decide; [|exact Hl]. cbn [fmap list_fmap]. rewrite Permutation_swap. by constructor.
Qed.

(** Who is called: a node of the table that waits for it. *)
Definition due (s : SYS) (n : FTN_NODE) : Prop :=
  exists n0, n = taken n0 /\ waiting s n0 /\ tolower (flavour_of n0) <> chr "h" /\ flavour_of n0 <> 0.
Lemma q_next_node_spec config w : table_ok w -> exists o w', q_next_node w config = Ok (o, w') /\ table_ok w' /\ sys w' = sys w /\
  match o with
  | None => same_tags w w'
  | Some n => due (sys w) n /\ free_nodes w ≡ₚ node_key n :: free_nodes w'
  end.
Proof.
  intros Hw. unfold q_next_node. destruct (q_not_empty_spec config w Hw) as (o & w1 & -> & H1 & Hs & Hn). cbn [mem_bind].
  destruct o as [n|]; [|exists None, w1; split_and!; [done|apply H1|done|done]].
  destruct (Hn n eq_refl) as (Ht & Hf & Hd & Hfl).
  rewrite <- (st_tags _ _ H1) in Ht. destruct (free_take w1 n (st_table _ _ H1) Ht (proj1 Hd) Hf) as [H2 H3].
  exists (Some (taken n)), (update_node w1 (n_fa n) taken). split_and!; [done|done| |by exists n|].
  - unfold update_node. by case_match.
  - rewrite <- (same_tags_free _ _ H1). exact H3.
Qed.

Lemma same_tags_array w w' : table_ok w -> pNodArray w' = pNodArray w -> nNodSorted w' = nNodSorted w -> same_tags w w'.
Proof.
  intros [H1 H2 H3] E1 E2. constructor; [constructor; rewrite ?E1, ?E2; done|]. unfold tags. by rewrite E1.
Qed.
#[local] Opaque mkpath.
Lemma bsy_test_tags w a bt config b w' : table_ok w -> bsy_test w a bt config = Ok (b, w') -> same_tags w w'.
Proof.
  intros Hw E. unfold bsy_test in E. apply mem_bind_ok in E as (f & _ & E). destruct f as [|c f]; apply (f_equal (fun r => (from_ok (b, w) r).2)) in E; cbn [from_ok snd] in E; subst w';
    [done|]. by apply same_tags_array.
Qed.
#[local] Transparent mkpath.
Lemma touch_world i p : p_world (touch_config i p) = p_world p.
Proof. unfold touch_config. by case_decide. Qed.
Lemma touch_heap i p : heap (touch_config i p) = heap p.
Proof. unfold touch_config. by case_decide. Qed.

Section Calling.
Context (net : RESOLVER) (poll_flag : bool).

(** The node is not locked, by a session or by another call. *)
Definition unlocked (m : CMGR) (n : FTN_NODE) (config : BINKD_CONFIG) : Prop := exists w1 w2 w3,
  bsy_test w1 (n_fa n) F_BSY config = Ok (true, w2) /\ bsy_test w2 (n_fa n) F_CSY config = Ok (true, w3) /\ sys w1 = sys (cm_world m).
Lemma place_call_spec ev r m m' : table_ok (cm_world m) -> place_call net ev r m = Ok m' ->
  same_tags (cm_world m) (cm_world m') /\
  (cm_calls m' = cm_calls m \/
   cm_calls m' = r :: cm_calls m /\ n_clients m' = n_clients m + 1 /\ unlocked m r (the_config m)).
Proof.
  intros Hw E. unfold place_call in E. apply mem_bind_ok in E as ([b w1] & E1 & E). pose proof (bsy_test_tags _ _ _ _ _ _ Hw E1) as H1.
  cbn [fst snd] in E. apply mem_bind_ok in E as ([c w2] & E2 & E). cbn [fst snd] in E.
  assert (H2 : same_tags (cm_world m) w2).
  { destruct b; [|by injection E2 as <- <-]. eapply same_tags_trans; [exact H1|]. eapply bsy_test_tags; [apply H1|exact E2]. }
  destruct c; cbn [negb] in E; [|injection E as <-; split; [exact H2|by left]].
  apply mem_bind_ok in E as (pid & _ & E). injection E as <-. set (m1 := set_world w2 (set_world w1 m)) in *.
  assert (Hp : p_world (unlock_config (cm_config m1) (lock_config net (cm_config m1) (cm_proc m1))) = w2).
  { unfold unlock_config, lock_config, set_config. cbn. rewrite touch_world. cbn. by rewrite touch_world. }
  destruct pid as [pid|].
  - split; [unfold cm_world; change (same_tags (p_world (cm_proc m)) (p_world (unlock_config (cm_config m1) (lock_config net (cm_config m1) (cm_proc m1)))));
      rewrite Hp; exact H2|]. right. split; [done|]. split; [unfold n_clients; cbn; lia|].
    destruct b; [|done]. exists (cm_world m), w1, w2. split_and!; [exact E1|exact E2|done].
  - split; [|by left]. eapply same_tags_trans; [exact H2|]. apply same_tags_array; [apply H2|..]; unfold cm_world; cbn;
      unfold unlock_config, lock_config, set_config; cbn; by rewrite touch_world; cbn; rewrite touch_world.
Qed.
Lemma idle_tags naps : forall need m r m', table_ok (cm_world m) -> idle poll_flag naps need m = Ok (r, m') ->
  same_tags (cm_world m) (cm_world m') /\ cm_calls m' = cm_calls m.
Proof.
  induction naps as [|nap naps IH]; intros need m r m' Hw E; cbn [idle] in E; case_match; try by injection E as <- <-.
  all: apply mem_bind_ok in E as ([empty m1] & E1 & E).
  all: assert (H1 : same_tags (cm_world m) (cm_world m1) /\ cm_calls m1 = cm_calls m).
  1,3: destruct (poll_flag && (n_clients (reap m) <=? 0)); [|by injection E1 as <- <-];
    destruct (q_not_empty_spec (the_config (reap m)) (cm_world (reap m)) Hw) as (o & w' & Eq & Hs & _); rewrite Eq in E1;
    by injection E1 as <- <-.
  - destruct empty; [|done]. by injection E as <- <-.
  - destruct empty; [by injection E as <- <-|]. destruct H1 as [H1 H2].
    assert (H3 : same_tags (cm_world m1) (cm_world (take_nap nap m1))) by (by apply same_tags_array; [apply H1|..]).
    apply IH in E; [|apply H3]. destruct E as [E1' E2']. split; [|by rewrite E2'].
    eapply same_tags_trans; [exact H1|]. by eapply same_tags_trans.
Qed.

(** The turn finds a node to call. *)
Definition takes (m : CMGR) : bool :=
  (n_clients m <? max_clients (the_config m)) &&
  match q_next_node (cm_world m) (the_config m) with Ok (Some _, _) => true | _ => false end.
Record turned (m m' : CMGR) : Prop := {
  tu_table : table_ok (cm_world m');
  tu_free : if takes m then exists n, due (sys (cm_world m)) n /\ free_nodes (cm_world m) ≡ₚ node_key n :: free_nodes (cm_world m') /\
              (cm_calls m' = cm_calls m \/
               cm_calls m' = n :: cm_calls m /\ n_clients m' = n_clients m + 1 /\ unlocked m n (the_config m))
            else free_nodes (cm_world m') ≡ₚ free_nodes (cm_world m) /\ cm_calls m' = cm_calls m
}.
Lemma do_client_turned ev m q m' : table_ok (cm_world m) -> q_present (the_config m) = true -> do_client net poll_flag ev m = Ok (q, m') ->
  turned m m'.
Proof.
  intros Hw Hq E. unfold do_client in E.
  assert (Hc : the_config (use_config m) = the_config m) by (unfold the_config, use_config, config_at; cbn; by rewrite touch_heap).
  assert (Hcw : cm_world (use_config m) = cm_world m) by (unfold cm_world, use_config; cbn; by rewrite touch_world).
  assert (Hcn : n_clients (use_config m) = n_clients m /\ cm_calls (use_config m) = cm_calls m) by done.
  set (m1 := use_config m) in *. clearbody m1. rewrite Hc, Hq in E. cbn [mem_bind] in E.
  destruct (q_next_node_spec (the_config m) (cm_world m) Hw) as (o & w' & En & Hw' & Hs & Ho).
  assert (Ht : takes m = (n_clients m <? max_clients (the_config m)) && match o with Some _ => true | None => false end)
    by (unfold takes; by rewrite En).
  destruct Hcn as [Hcn Hcc]. rewrite Hcn, Hc in E. destruct (n_clients m <? max_clients (the_config m)).
  - rewrite Hcw, En in E. cbn [mem_bind fst snd] in E. destruct o as [n|].
    + apply mem_bind_ok in E as (m2 & Ep & E). injection E as <- <-. apply place_call_spec in Ep as [H1 H2]; [|exact Hw'].
      destruct Ho as [Hd Hf]. constructor; [apply H1|]. rewrite Ht. cbn [andb]. exists n. split; [done|]. split.
      { rewrite Hf. by rewrite (same_tags_free _ _ H1). }
      change (cm_calls (set_world w' m1)) with (cm_calls m1) in H2. rewrite Hcc in H2. destruct H2 as [H2|(H2 & H3 & (w1 & w2 & w3 & A & B & C))]; [by left|right].
      split; [done|]. split; [rewrite H3; change (n_clients m1 + 1 = n_clients m + 1); by rewrite Hcn|].
      exists w1, w2, w3. change (the_config (set_world w' m1)) with (the_config m1) in A, B. rewrite Hc in A, B. split_and!; [done|done|].
      rewrite C. exact Hs.
    + apply mem_bind_ok in E as ([quit m2] & Ei & E). apply idle_tags in Ei as [H1 H2]; [|exact Hw'].
      assert (Hst : same_tags (cm_world m) (cm_world m2)) by (eapply same_tags_trans; [exact Ho|exact H1]).
      change (cm_calls (take_signals (ev_pending ev) (set_world w' m1))) with (cm_calls m1) in H2. rewrite Hcc in H2.
      assert (Hend : forall m3, cm_world m3 = cm_world m2 -> cm_calls m3 = cm_calls m2 -> turned m m3).
      { intros m3 E1 E2. constructor; [rewrite E1; apply Hst|]. rewrite Ht. cbn [andb]. rewrite E1, E2. split; [by apply same_tags_free|done]. }
      destruct quit; injection E as <- <-; [by apply Hend|]. destruct poll_flag; apply Hend; [done|done| |done].
      unfold cm_world, set_present, set_config. cbn. by rewrite touch_world.
  - injection E as <- <-. constructor.
    + case_if; (apply (same_tags_array (cm_world m)); [done|by rewrite <- Hcw|by rewrite <- Hcw]).
    + rewrite Ht. cbn [andb]. case_if; (split; [apply same_tags_free, same_tags_array; [done|by rewrite <- Hcw|by rewrite <- Hcw]|done]).
Qed.


(** Turns without a scan, and how many of them found a node to call. *)
Inductive turns : nat -> CMGR -> CMGR -> Prop :=
| turns_none m : turns 0 m m
| turns_more ev m m1 k m2 : q_present (the_config m) = true -> do_client net poll_flag ev m = Ok (false, m1) ->
    turns k m1 m2 -> turns ((if takes m then 1 else 0) + k) m m2.

Lemma turns_worked k m m' : turns k m m' -> table_ok (cm_world m) ->
  table_ok (cm_world m') /\ exists l skipped, length l = k /\ free_nodes (cm_world m) ≡ₚ l ++ free_nodes (cm_world m') /\
    exists calls, cm_calls m' = calls ++ cm_calls m /\ l ≡ₚ (node_key <$> calls) ++ skipped.
Proof.
  induction 1 as [m|ev m m1 k m2 Hq E Ht IH]; intros Hw.
  - split; [done|]. exists [], []. split; [done|]. split; [done|]. by exists [].
  - destruct (do_client_turned ev m false m1 Hw Hq E) as [Hw1 Hf].
    destruct (IH Hw1) as (Hw2 & l & sk & Hl & Hp & calls & Hc & Hlc). split; [done|]. destruct (takes m).
    + destruct Hf as (n & _ & Hfree & [Hcalls|[Hcalls _]]).
      * exists (node_key n :: l), (node_key n :: sk). split; [simpl; lia|]. split; [rewrite Hfree, Hp; done|].
        exists calls. rewrite Hc, Hcalls. split; [done|]. by rewrite Hlc, Permutation_middle.
      * exists (node_key n :: l), sk. split; [simpl; lia|]. split; [rewrite Hfree, Hp; done|].
        exists (calls ++ [n]). rewrite Hc, Hcalls. split; [by rewrite <- app_assoc|].
        rewrite fmap_app, <- app_assoc. simpl. by rewrite Hlc, Permutation_middle.
    + destruct Hf as [Hfree Hcalls]. exists l, sk. split; [done|]. split; [by rewrite <- Hfree, Hp|].
      exists calls. by rewrite Hc, Hcalls.
Qed.

(** C12: between two scans no node is called twice, and the turns that find one to
    call are no more than the nodes: then the manager waits for the next scan,
    or, polling, for the end. *)
Theorem each_node_once k m m' : table_ok (cm_world m) -> cm_calls m = [] -> turns k m m' ->
  NoDup (node_key <$> cm_calls m') /\ (length (cm_calls m') <= k)%nat /\
  (k + length (free_nodes (cm_world m')) = length (free_nodes (cm_world m)))%nat /\
  (free_nodes (cm_world m') = [] -> takes m' = false).
Proof.
  intros Hw H0 Ht. destruct (turns_worked k m m' Ht Hw) as (Hw' & l & sk & Hl & Hp & calls & Hc & Hlc).
  rewrite H0, app_nil_r in Hc. subst calls. pose proof (free_nodup _ Hw) as Hnd. rewrite Hp, Hlc in Hnd.
  apply NoDup_app in Hnd as [Hnd _]. apply NoDup_app in Hnd as [Hnd _]. split; [done|]. split_and!.
  - rewrite <- Hl, Hlc, length_app, length_fmap. lia.
  - rewrite Hp, length_app. lia.
  - intros Hfree. destruct (q_next_node_spec (the_config m') (cm_world m') Hw') as (o & w' & E & _ & _ & Ho).
    unfold takes. rewrite E. destruct o as [n|]; [|by rewrite andb_false_r]. destruct Ho as [_ Ho]. rewrite Hfree in Ho.
    by apply Permutation_nil in Ho.
Qed.
End Calling.

(** ** The configuration in two files, and mail for a node *)
Definition example_proc : PROC :=
  mkPROC {[0%nat := example_accepted <| config_list := [mkconflist_type (str "/c") 7] |>]} 0 false (m_world example_main) false example_reader.
Definition example_children : CHILDREN := mkCHILDREN [] [] false 0.
Definition example_nap : NAP := mkNAP 60 (mkSIGNALS [7] false) example_files.
Definition example_events : EVENTS := mkEVENTS true [F_again; F_parent 7] (mkSIGNALS [] false) example_nap [example_nap].
Definition example_turns (evs : list EVENTS) :=
  clientmgr example_net no_env [] (fun _ => 0) 0 false false false 0 fresh false true evs (client_start example_net example_proc example_children).
Definition example_before : CMGR := manager_of (from_ok (inl (client_start example_net example_proc example_children)) (example_turns [example_events])).
Definition example_after : CMGR := manager_of (from_ok (inl example_before) (example_turns [example_events; example_events])).

Lemma clientmgr_configs_witness :
  cm_config example_before <> current (cm_proc example_before) /\ current (cm_proc example_after) = cm_config example_after /\
  fault (cm_proc example_after) = false /\ heap (cm_proc example_after) !! 0%nat = None.
Proof.
  split; [by vm_compute|]. split; [by vm_compute|].
  assert (Ho : owned example_proc []).
  { constructor; [done|]. intros i. change (heap example_proc) with ({[0%nat := example_accepted <| config_list := [mkconflist_type (str "/c") 7] |>]} : gmap nat BINKD_CONFIG).
    destruct (decide (i = 0%nat)) as [->|Hi]; [by vm_compute|]. rewrite lookup_singleton_ne by done. simpl. by intros ->%list_elem_of_singleton. }
  assert (Hc : counted 0 example_children) by (by constructor).
  assert (Hr : match example_turns [example_events; example_events] with
               | Ok (inl m) => bool_decide (0%nat <> current (cm_proc m) /\ 0%nat <> cm_config m) | _ => false end = true) by (by vm_compute).
  pose proof (clientmgr_configs example_net no_env [] (fun _ => 0) 0 false false false 0 fresh false true (fun s => is_fresh s)
    example_proc example_children [example_events; example_events]) as H.
  unfold example_after. destruct (example_turns [example_events; example_events]) as [[m|m]| |] eqn:E;
    [|discriminate Hr..]. cbn [from_ok manager_of].
  destruct (H (inl m) Ho Hc E) as (A & B & _). split; [exact A|]. apply bool_decide_eq_true in Hr. cbn [manager_of] in B.
  destruct (heap (cm_proc m) !! 0%nat) eqn:Eh; [|done]. destruct (proj1 (B 0%nat)); [eauto|tauto..].
Defined.

(** A node with mail, and two turns: the call, and a wait. *)
Definition mail_files : SYS := put_file example_files (str "/s/outb/13b7000d.dut") (str "mail").
Definition scanned_proc : PROC :=
  example_proc <| p_world := mkWORLD mail_files [(example_node (example_addr 13) (str "secret")) <| n_mail_flvr := chr "d" |>] true [] 0 |>
               <| heap := {[0%nat := example_accepted <| q_present := true |>]} |>.
Definition scanned_manager : CMGR := client_start example_net scanned_proc example_children.
Definition called_manager : CMGR := (from_ok (false, scanned_manager) (do_client example_net false example_events scanned_manager)).2.
Lemma scanned_manager_table : table_ok (cm_world scanned_manager).
Proof.
  constructor; cbn.
  - constructor; [|constructor]. by apply example_addr_wf.
  - by apply NoDup_singleton.
  - intros _. by repeat constructor.
Qed.


Lemma each_node_once_witness : exists m', turns example_net true 1 scanned_manager m' /\ length (cm_calls m') = 1%nat /\ takes m' = false.
Proof.
  assert (E : do_client example_net true example_events scanned_manager = Ok (false, called_manager)) by (by vm_compute).
  assert (Ht : turns example_net true 1 scanned_manager called_manager)
    by (exact (turns_more example_net true example_events scanned_manager called_manager 0 called_manager eq_refl E (turns_none _ _ _))).
  exists called_manager. split; [exact Ht|]. split; [by vm_compute|].
  apply (each_node_once example_net true 1 scanned_manager called_manager scanned_manager_table eq_refl Ht). by vm_compute.
Defined.
