(* ===== verification/Server.v ===== *)
(** * server.c: the server manager

    [servmgr] listens on the addresses of the configuration and starts a process
    for each connection; after a reload it begins again with the new
    configuration.  A turn is one pass of the loop around [select], or the
    opening of the listening sockets before it.  What comes from outside is in
    an [SEVENT].  As in [Client], a signal to stop ends the process at once. *)
From S2P Require Import Prelude CStr Tools FtnAddr Getw Sys Types FtnNode Bsy Hosts Readcfg Config Process Calls Client.

Definition MAX_LISTENSOCK : nat := 16.

(** ** Opening the listening sockets *)
Inductive TRY := T_nosocket | T_nobind | T_nolisten | T_open (fd : Z).
(** [accept] on one socket that is ready. *)
Inductive ACCEPT :=
| A_new (fd : Z) (room : bool) (forks : list FORK)
| A_again                            (* EINVAL, EINTR and lost connections *)
| A_failed.
Inductive SELECT := S_timeout | S_eintr | S_error | S_ready (l : list ACCEPT).
Record SEVENT := mkSEVENT {
  se_tries : nat -> TRY;             (* the sockets asked for while opening *)
  se_pending : SIGNALS;              (* delivered when signals are let through *)
  se_select : SELECT;
  se_signals : SIGNALS;              (* delivered during [select] *)
  se_sys : SYS                       (* the file system after it *)
}.

Record SMGR := mkSMGR {
  sm_proc : PROC;
  sm_open : option nat;              (* [config], once the sockets are open *)
  sockfd : list Z;                   (* the first [sockfd_used] elements *)
  sm_children : CHILDREN;            (* with [n_servers] *)
  sm_sessions : list (Z * Z)         (* the sessions answered: the process, and the limit in force, the last one first *)
}.
#[export] Instance eta_SMGR : Eta SMGR := fun m =>
  mkSMGR (sm_proc m) (sm_open m) (sockfd m) (sm_children m) (sm_sessions m).
Definition n_servers (m : SMGR) : Z := count (sm_children m).

Section Server.
Context (net : RESOLVER) (getenv : cstr -> option cstr) (facilitynames : list (cstr * Z)).
Context (st_dev : cstr -> Z) (junk_dev : Z) (no_MD5_ no_crypt_ quiet_flag : bool) (verbose_flag : Z).
Context (malloc : gset nat -> nat) (checkcfg_flag : bool) (pidcmgr : Z).
(** [getaddrinfo] for listening; the address is [None] for any. *)
Context (passive : option cstr -> cstr -> option (list ADDRINFO)).

(** Sockets are opened while there is room; the flag is false on a failure. *)
Fixpoint open_addrs (tries : nat -> TRY) (l : list ADDRINFO) (n : nat) (socks : list Z) : bool * nat * list Z :=
  match l with
  | [] => (true, n, socks)
  | _ :: t =>
      if (length socks <? MAX_LISTENSOCK)%nat then
        match tries n with
        | T_open fd => open_addrs tries t (S n) (socks ++ [fd])
        | _ => (false, S n, socks)
        end
      else (true, n, socks)
  end.
Fixpoint open_listen (tries : nat -> TRY) (l : list listenchain) (n : nat) (socks : list Z) : bool * list Z :=
  match l with
  | [] => (true, socks)
  | e :: t =>
      match passive (match l_addr e with [] => None | a => Some a end) (l_port e) with
      | None => (false, socks)
      | Some ais =>
          let '(ok, n, socks) := open_addrs tries ais n socks in
          if (ok : bool) then open_listen tries t n socks else (false, socks)
      end
  end.

Definition s_signals (sg : SIGNALS) (m : SMGR) : SMGR :=
  m <| sm_children ::= sighandler_chld (sg_dead sg) |>
    <| sm_proc ::= set_field p_sighup (fun b => b || sg_hup sg) |>.
(** Children waited for are forgotten; [None] is the end with the client manager. *)
Definition s_reap (m : SMGR) : option SMGR :=
  (fun k => m <| sm_children := k |> <| sm_sessions ::= filter (fun s => s.1 ∈ alive k ++ zombies k) |>) <$> check_child pidcmgr (sm_children m).

(** The process for a connection.  It counts itself among the servers, and
    refuses the session when they are too many ([Session.too_many]). *)
Definition serve (room : bool) (forks : list FORK) (m : SMGR) : mem SMGR :=
  let m := m <| sm_children ::= set_field count Z.succ |> in
  let* pid := branch room forks in
  Ok match pid with
     | None => m <| sm_children ::= set_field count Z.pred |>
     | Some pid =>
         let limit := max_servers (config_at (sm_proc m) (current (sm_proc m))) in
         let m := m <| sm_children ::= set_field alive (cons pid) |> in
         if limit <? n_servers m then m else m <| sm_sessions ::= cons (pid, limit) |>
     end.
(** The sockets that are ready, in turn; false on a failure of [accept]. *)
Fixpoint accept_all (l : list ACCEPT) (m : SMGR) : mem (bool * SMGR) :=
  match l with
  | [] => Ok (true, m)
  | A_new fd room forks :: t => let* m := serve room forks m in accept_all t m
  | A_again :: t => accept_all t m
  | A_failed :: _ => Ok (false, m)
  end.

(** The results of a turn: the manager goes on, [do_server] returned -1 or
    [servmgr] is left, or the process exited. *)
Inductive SRESULT := S_goes (m : SMGR) | S_ends (m : SMGR) | S_exits (m : SMGR).
Definition s_reload (m : SMGR) (k : SMGR -> SRESULT) : mem SRESULT :=
  let* r := reload_config net getenv facilitynames st_dev junk_dev no_MD5_ no_crypt_ quiet_flag verbose_flag malloc
              checkcfg_flag (sm_proc m) in
  let m := m <| sm_proc := r.2 |> in
  Ok match r.1, sm_open m with
     | None, _ => S_exits m
     | Some true, Some i =>
         (* the delay is read from the new configuration, the sockets are closed,
            and [servmgr] gives up the old configuration *)
         let '(j, p) := lock_current net (sm_proc m) in
         let p := unlock_config j (touch_config j p) in
         S_goes (m <| sm_proc := unlock_config i p |> <| sockfd := [] |> <| sm_open := None |>)
     | _, _ => k m
     end.
Definition leave (m : SMGR) : SRESULT :=
  match sm_open m with
  | Some i => S_ends (m <| sm_proc ::= unlock_config i |> <| sm_open := None |>)
  | None => S_ends m
  end.
Definition reaped (m : SMGR) (k : SMGR -> mem SRESULT) : mem SRESULT :=
  match s_reap m with Some m => k m | None => Ok (S_exits m) end.

(** The beginning of [do_server]. *)
Definition server_open (ev : SEVENT) (m : SMGR) : SRESULT :=
  let '(i, p) := lock_current net (sm_proc m) in
  let m := m <| sm_proc := p |> <| sm_open := Some i |> in
  let '(ok, socks) := open_listen (se_tries ev) (listen_ (config_at p i)) 0 (sockfd m) in
  let m := m <| sockfd := socks |> in
  if negb ok || bool_decide (socks = []) then leave m else S_goes m.
Definition server_turn (ev : SEVENT) (m : SMGR) : mem SRESULT :=
  match sm_open m with
  | None => Ok (server_open ev m)
  | Some _ =>
      reaped (s_signals (se_pending ev) m) (fun m =>
        let m := s_signals (se_signals ev) (m <| sm_proc ::= set_field p_world (fun w => w <| sys := se_sys ev |>) |>) in
        match se_select ev with
        | S_timeout => s_reload m (fun m => match s_reap m with Some m => S_goes m | None => S_exits m end)
        | S_eintr => reaped m (fun m => s_reload m S_goes)
        | S_error => Ok (leave m)
        | S_ready l => let* r := accept_all l m in Ok (if r.1 : bool then S_goes r.2 else leave r.2)
        end)
  end.
Fixpoint servmgr (evs : list SEVENT) (m : SMGR) : mem SRESULT :=
  match evs with
  | [] => Ok (S_goes m)
  | ev :: evs => let* r := server_turn ev m in match r with S_goes m => servmgr evs m | r => Ok r end
  end.

(** The child: its own copy of everything, and the current configuration. *)
Definition server_child (session : Z -> BINKD_CONFIG -> WORLD -> mem WORLD) (m : SMGR) : mem PROC :=
  let '(i, p) := lock_current net (sm_proc m) in
  let* w := session (n_servers m) (config_at p i) (p_world p) in
  exitfunc net false (unlock_config i (p <| p_world := w |>)).
End Server.

(** ** What holds between the turns *)

(** Each session was answered within the limit in force then, with those
    answered before it that still run. *)
Fixpoint limited (l : list (Z * Z)) : Prop :=
  match l with [] => True | s :: t => Z.of_nat (length l) <= s.2 /\ limited t end.
Lemma limited_filter (P : Z * Z -> Prop) `{forall x, Decision (P x)} l : limited l -> limited (filter P l).
Proof.
  induction l as [|s l IH]; [done|]. intros [H1 H2]. rewrite filter_cons. pose proof (length_filter P l) as Hl.
  case_decide; [|auto]. split; [simpl in *; lia|auto].
Qed.
Lemma limited_suffix l1 s l2 : limited (l1 ++ s :: l2) -> Z.of_nat (length l2) + 1 <= s.2.
Proof. induction l1 as [|x l1 IH]; intros [H1 H2]; [simpl in H1; lia|auto]. Qed.

Section Turns.
Context (pidcmgr : Z).
Definition procs (k : CHILDREN) : list Z := alive k ++ zombies k.
Definition users_of (m : SMGR) : list nat := match sm_open m with Some i => [i] | None => [] end.
Record server_ok (m : SMGR) : Prop := {
  sv_owned : owned (sm_proc m) (users_of m);
  sv_counted : counted pidcmgr (sm_children m);
  sv_nodup : NoDup (procs (sm_children m));
  sv_socks : (length (sockfd m) <= MAX_LISTENSOCK)%nat;
  sv_pids : NoDup (sm_sessions m).*1 /\ Forall (fun s => s.1 ∈ procs (sm_children m) /\ s.1 <> pidcmgr) (sm_sessions m);
  sv_limited : limited (sm_sessions m)
}.

Lemma sessions_counted m : server_ok m -> Z.of_nat (length (sm_sessions m)) <= n_servers m.
Proof.
  intros [_ [Hc _] _ _ [H1 H2] _]. unfold n_servers. rewrite Hc. unfold mine, procs in *.
  assert (Hs : (sm_sessions m).*1 ⊆+ filter (fun p => p <> pidcmgr) (alive (sm_children m) ++ zombies (sm_children m))).
  { apply NoDup_submseteq; [done|]. intros x (s & -> & Hs)%list_elem_of_fmap. rewrite Forall_forall in H2.
    apply list_elem_of_filter. destruct (H2 s Hs). done. }
  apply submseteq_length in Hs. rewrite length_fmap in Hs. lia.
Qed.

(** The processes the kernel makes have numbers that are not in use. *)
Definition forked (forks : list FORK) : list Z := flat_map (fun f => match f with F_parent p => [Zpos p] | _ => [] end) forks.
Definition new_pids (l : list ACCEPT) : list Z := flat_map (fun a => match a with A_new _ _ forks => forked forks | _ => [] end) l.
Definition fresh_pids (k : CHILDREN) (l : list Z) : Prop := NoDup l /\ forall p, p ∈ l -> p <> pidcmgr /\ p ∉ procs k.
Lemma branch_forked room forks pid : branch room forks = Ok (Some pid) -> pid ∈ forked forks.
Proof.
  unfold branch. destruct room; [|done]. induction forks as [|[p| |] l IH]; cbn [branch_again]; [done|intros [= <-]; left|exact IH|done].
Qed.

Lemma procs_signals sg m : procs (sm_children (s_signals sg m)) ≡ₚ procs (sm_children m).
Proof. exact (sighandler_perm (sg_dead sg) (sm_children m)). Qed.
Lemma fresh_less k k' l : (forall p, p ∈ procs k' -> p ∈ procs k) -> fresh_pids k l -> fresh_pids k' l.
Proof. intros H [A B]. split; [done|]. intros p Hp. destruct (B p Hp). auto. Qed.
Lemma server_signals sg m : server_ok m -> server_ok (s_signals sg m) /\
  forall l, fresh_pids (sm_children m) l -> fresh_pids (sm_children (s_signals sg m)) l.
Proof.
  intros [H1 H2 H3 H4 [H5 H6] H7]. pose proof (procs_signals sg m) as Hp.
  split; [|intros l; apply fresh_less; intros p; by rewrite Hp].
  constructor; [by apply (owned_same (sm_proc m))|by apply sighandler_counted|by rewrite Hp|done| |done].
  split; [done|]. eapply Forall_impl; [exact H6|]. intros s [A B]. by rewrite Hp.
Qed.
Lemma server_reap m m' : server_ok m -> s_reap pidcmgr m = Some m' -> server_ok m' /\ sm_open m' = sm_open m /\
  forall l, fresh_pids (sm_children m) l -> fresh_pids (sm_children m') l.
Proof.
  intros [H1 H2 H3 H4 [H5 H6] H7] E. unfold s_reap in E. destruct (check_child pidcmgr (sm_children m)) as [k|] eqn:Ek; [|done].
  injection E as <-. destruct (check_child_counted _ _ _ H2 Ek) as (Hk & Ha & Hz).
  assert (Hsub : procs k = procs (sm_children m) \/ procs k = alive (sm_children m)).
  { unfold check_child in Ek. destruct (got_sigchld (sm_children m)); [right|left; by injection Ek as <-].
    unfold procs. by rewrite Ha, Hz, app_nil_r. }
  split; [|split; [done|intros l; apply fresh_less; intros p; destruct Hsub as [E|E]; cbn; rewrite E; [done|]; unfold procs; rewrite elem_of_app; auto]].
  constructor; cbn [sm_proc sm_open sm_children sockfd sm_sessions]; [done|done| |done| |by apply limited_filter].
  - cbn. destruct Hsub as [->| ->]; [done|]. by apply NoDup_app in H3 as [? _].
  - cbn. split.
    + eapply sublist_NoDup; [exact H5|]. apply fmap_sublist, sublist_filter.
    + apply Forall_forall. intros s [Hs1 Hs2]%list_elem_of_filter. rewrite Forall_forall in H6. split; [done|by apply H6].
Qed.

Lemma server_serve l room forks rest m m' : server_ok m -> l = forked forks ++ rest -> fresh_pids (sm_children m) l ->
  serve room forks m = Ok m' -> server_ok m' /\ sm_open m' = sm_open m /\ fresh_pids (sm_children m') rest.
Proof.
  intros Hm -> [Hd Hf] E. pose proof (sessions_counted m Hm) as Hlen. destruct Hm as [H1 H2 H3 H4 [H5 H6] H7].
  unfold serve in E. apply mem_bind_ok in E as (pid & Hp & E). apply NoDup_app in Hd as (_ & Hdis & Hd).
  assert (Hrest : fresh_pids (sm_children m) rest) by (split; [done|]; intros p Hin; apply Hf; rewrite elem_of_app; auto).
  destruct pid as [pid|]; injection E as <-.
  - apply branch_forked in Hp. destruct (Hf pid) as [Hne Hnew]; [rewrite elem_of_app; auto|].
    set (k := sm_children m) in *. set (k' := k <| alive ::= cons pid |> <| count ::= Z.succ |>).
    assert (Hpos : exists q, pid = Zpos q).
    { clear -Hp. unfold forked in Hp. apply list_elem_of_In, in_flat_map in Hp as ([q| |] & _ & Hq); [|done..]. destruct Hq as [<-|[]]. by exists q. }
    destruct Hpos as [q ->]. assert (Hk' : counted pidcmgr k') by (by apply fork_counted).
    assert (Hprocs : procs k' = Zpos q :: procs k) by done.
    assert (Hfresh : fresh_pids k' rest).
    { split; [done|]. intros p Hin. destruct (proj2 Hrest p Hin). split; [done|]. rewrite Hprocs, elem_of_cons. intros [->|?]; [|done].
      by apply (Hdis (Zpos q)). }
    set (m1 := m <| sm_children := k' |>).
    assert (H6' : Forall (fun s => s.1 ∈ procs k' /\ s.1 <> pidcmgr) (sm_sessions m)).
    { eapply Forall_impl; [exact H6|]. intros s [A B]. split; [|done]. rewrite Hprocs. by right. }
    match goal with |- context [if ?b then ?x else ?y] => destruct b eqn:Eb end.
    + split; [|split; [done|exact Hfresh]]. constructor; try done. change (NoDup (procs k')). rewrite Hprocs. by constructor.
    + split; [|split; [done|exact Hfresh]]. apply Z.ltb_ge in Eb. constructor; try done.
      * change (NoDup (procs k')). rewrite Hprocs. by constructor.
      * split; [|constructor; [|exact H6']].
        -- cbn. constructor; [|done]. intros (s & Es & Hs)%list_elem_of_fmap. rewrite Forall_forall in H6.
           destruct (H6 s Hs) as [A _]. by rewrite <- Es in A.
        -- split; [|done]. change (Zpos q ∈ procs k'). rewrite Hprocs. left.
      * split; [|done]. cbn [snd]. etrans; [|exact Eb]. unfold n_servers in *. cbn. fold k in Hlen |- *. lia.
  - split; [|split; [done|]].
    + constructor; try done. destruct H2 as [A B]. constructor; [|exact B]. cbn. rewrite Z.pred_succ. exact A.
    + exact Hrest.
Qed.
Lemma server_accept l : forall m ok m', server_ok m -> fresh_pids (sm_children m) (new_pids l) -> accept_all l m = Ok (ok, m') ->
  server_ok m' /\ sm_open m' = sm_open m.
Proof.
  induction l as [|[fd room forks| |] l IH]; intros m ok m' Hm Hf E; cbn [accept_all] in E.
  - by injection E as <- <-.
  - apply mem_bind_ok in E as (m1 & E1 & E). destruct (server_serve _ _ _ (new_pids l) _ _ Hm eq_refl Hf E1) as (A & B & C).
    destruct (IH m1 ok m' A C E) as [D F]. split; [done|congruence].
  - by apply (IH m ok m').
  - by injection E as <- <-.
Qed.

Context (net : RESOLVER) (getenv : cstr -> option cstr) (facilitynames : list (cstr * Z)).
Context (st_dev : cstr -> Z) (junk_dev : Z) (no_MD5_ no_crypt_ quiet_flag : bool) (verbose_flag : Z).
Context (malloc : gset nat -> nat) (checkcfg_flag : bool) (passive : option cstr -> cstr -> option (list ADDRINFO)).
Abbreviation turn := (server_turn net getenv facilitynames st_dev junk_dev no_MD5_ no_crypt_ quiet_flag verbose_flag malloc
  checkcfg_flag pidcmgr passive).
Abbreviation reload_ := (s_reload net getenv facilitynames st_dev junk_dev no_MD5_ no_crypt_ quiet_flag verbose_flag malloc checkcfg_flag).
Definition smgr_of (r : SRESULT) : SMGR := match r with S_goes m | S_ends m | S_exits m => m end.
Definition accepts (ev : SEVENT) : list ACCEPT := match se_select ev with S_ready l => l | _ => [] end.

Lemma open_addrs_room tries l : forall n socks ok n' socks', (length socks <= MAX_LISTENSOCK)%nat ->
  open_addrs tries l n socks = (ok, n', socks') -> (length socks' <= MAX_LISTENSOCK)%nat.
Proof.
  induction l as [|a l IH]; intros n socks ok n' socks' Hs E; cbn [open_addrs] in E; [by injection E as <- <- <-|].
  destruct (_ <? _)%nat eqn:El; [|by injection E as <- <- <-]. apply Nat.ltb_lt in El.
  destruct (tries n); try by injection E as <- <- <-. apply IH in E; [done|]. rewrite length_app. simpl. lia.
Qed.
Lemma open_listen_room tries l : forall n socks ok socks', (length socks <= MAX_LISTENSOCK)%nat ->
  open_listen passive tries l n socks = (ok, socks') -> (length socks' <= MAX_LISTENSOCK)%nat.
Proof.
  induction l as [|e l IH]; intros n socks ok socks' Hs E; cbn [open_listen] in E; [by injection E as <- <-|].
  destruct (passive _ _) as [ais|]; [|by injection E as <- <-].
  destruct (open_addrs tries ais n socks) as [[ok1 n1] socks1] eqn:Ea. apply open_addrs_room in Ea; [|done].
  destruct ok1; [by eapply IH|by injection E as <- <-].
Qed.

(** The parts of the state besides the process and the sockets. *)
Lemma server_proc m p o socks : server_ok m -> owned p (match o with Some i => [i] | None => [] end) ->
  (length socks <= MAX_LISTENSOCK)%nat -> server_ok (m <| sm_proc := p |> <| sm_open := o |> <| sockfd := socks |>).
Proof. intros [H1 H2 H3 H4 H5 H6] Hp Hs. by constructor. Qed.
Lemma leave_ok m : server_ok m -> server_ok (smgr_of (leave m)).
Proof.
  intros H. unfold leave. destruct (sm_open m) as [i|] eqn:E; [|done]. cbn [smgr_of].
  pose proof (sv_owned m H) as Ho. unfold users_of in Ho. rewrite E in Ho.
  exact (server_proc m _ None (sockfd m) H (owned_unlock _ _ _ Ho) (sv_socks m H)).
Qed.
Lemma s_reload_ok (malloc_new : forall s, malloc s ∉ s) m k r : server_ok m -> (forall m, server_ok m -> server_ok (smgr_of (k m))) ->
  reload_ m k = Ok r -> server_ok (smgr_of r).
Proof.
  intros H Hk E. unfold s_reload in E. apply mem_bind_ok in E as ([res p] & Er & E). cbn [fst snd] in E.
  pose proof (sv_owned m H) as Ho. apply (owned_reload net getenv facilitynames st_dev junk_dev no_MD5_ no_crypt_ quiet_flag verbose_flag malloc malloc_new checkcfg_flag _ (users_of m)) in Er; [|done].
  set (m1 := m <| sm_proc := p |>) in E.
  assert (H1 : server_ok m1) by exact (server_proc m p (sm_open m) (sockfd m) H Er (sv_socks m H)).
  injection E as <-. destruct res as [[]|]; [|by apply Hk|done]. change (sm_open m1) with (sm_open m).
  destruct (sm_open m) as [i|] eqn:Ei; [|by apply Hk]. cbn [lock_current smgr_of]. unfold users_of in Er. rewrite Ei in Er.
  pose proof (owned_lock net p [i] (current p) Er ltac:(left)) as Hl. set (q := lock_config net (current p) p) in *.
  assert (Ht : touch_config (current p) q = q) by (by apply (owned_touch q [current p; i]); [|right; left]).
  apply (server_proc m _ None [] H); [|simpl; lia]. apply owned_unlock. change (sm_proc m1) with p. fold q. rewrite Ht. by apply owned_unlock.
Qed.
Lemma server_open_ok ev m : server_ok m -> sm_open m = None -> server_ok (smgr_of (server_open net passive ev m)).
Proof.
  intros H Hn. unfold server_open, lock_current. pose proof (sv_owned m H) as Ho. unfold users_of in Ho. rewrite Hn in Ho.
  pose proof (owned_lock net (sm_proc m) [] (current (sm_proc m)) Ho ltac:(left)) as Hl. set (p := lock_config net _ _) in *.
  destruct (open_listen _ _ _ _ _) as [ok socks] eqn:Es. apply open_listen_room in Es; [|apply (sv_socks m H)].
  assert (H1 : server_ok (m <| sm_proc := p |> <| sm_open := Some (current (sm_proc m)) |> <| sockfd := socks |>)) by (by apply server_proc).
  case_if; [by apply leave_ok|exact H1].
Qed.
Lemma server_turn_ok (malloc_new : forall s, malloc s ∉ s) ev m r : server_ok m -> fresh_pids (sm_children m) (new_pids (accepts ev)) ->
  turn ev m = Ok r -> server_ok (smgr_of r).
Proof.
  intros H Hf E. unfold server_turn in E. destruct (sm_open m) as [i|] eqn:Ei; [|injection E as <-; by apply server_open_ok].
  apply server_signals with (sg := se_pending ev) in H as [H Hf1]. specialize (Hf1 _ Hf). clear Hf. unfold reaped in E at 1.
  set (m1 := s_signals (se_pending ev) m) in *. clearbody m1. destruct (s_reap pidcmgr m1) as [m2|] eqn:E2; [|by injection E as <-].
  destruct (server_reap m1 m2 H E2) as (H2 & _ & Hf2). specialize (Hf2 _ Hf1).
  set (m3 := m2 <| sm_proc ::= _ |>) in E. assert (H3 : server_ok m3) by (destruct H2 as [A B C D F G]; constructor; [by apply (owned_same (sm_proc m2))|done..]).
  destruct (server_signals (se_signals ev) m3 H3) as [H4 Hf4]. specialize (Hf4 _ Hf2).
  set (m4 := s_signals (se_signals ev) m3) in *. clearbody m4. unfold accepts in *. destruct (se_select ev) as [| | |l].
  - apply (s_reload_ok malloc_new m4 _ _ H4) in E; [done|]. intros m5 H5. destruct (s_reap pidcmgr m5) as [m6|] eqn:E6; [|done].
    by destruct (server_reap m5 m6 H5 E6).
  - unfold reaped in E. destruct (s_reap pidcmgr m4) as [m5|] eqn:E5; [|by injection E as <-].
    destruct (server_reap m4 m5 H4 E5) as [H5 _]. by apply (s_reload_ok malloc_new m5 _ _ H5) in E.
  - injection E as <-. by apply leave_ok.
  - apply mem_bind_ok in E as ([ok m5] & E5 & E). destruct (server_accept l m4 ok m5 H4 Hf4 E5) as [H5 _]. injection E as <-.
    destruct ok; [exact H5|by apply leave_ok].
Qed.

(** Any number of turns, whatever comes from outside. *)
Definition serving (m m' : SMGR) : Prop := exists ev, fresh_pids (sm_children m) (new_pids (accepts ev)) /\ turn ev m = Ok (S_goes m').
Definition server_start (p : PROC) (k : CHILDREN) : SMGR := mkSMGR p None [] k [].
Lemma server_start_ok p k : owned p [] -> counted pidcmgr k -> NoDup (procs k) -> server_ok (server_start p k).
Proof. intros Hp Hk Hd. constructor; try done; [simpl; lia|]. split; constructor. Qed.
Lemma serving_ok (malloc_new : forall s, malloc s ∉ s) m m' : rtc serving m m' -> server_ok m -> server_ok m'.
Proof.
  induction 1 as [|m m1 m' (ev & Hf & E) _ IH]; [done|]. intros H. apply IH. exact (server_turn_ok malloc_new ev m (S_goes m1) H Hf E).
Qed.

(** C6: the server manager uses no configuration that was freed, through any
    reloads: the only ones allocated are the current one and the one it listens
    for.  It never has more listening sockets than the array holds, and its
    counter is the number of processes for connections not waited for.  A child
    leaves no user behind in its own copy. *)
Theorem server_configs (malloc_new : forall s, malloc s ∉ s) p k m :
  owned p [] -> counted pidcmgr k -> NoDup (procs k) -> rtc serving (server_start p k) m ->
  fault (sm_proc m) = false /\
  (forall i, is_Some (heap (sm_proc m) !! i) <-> i = current (sm_proc m) \/ sm_open m = Some i) /\
  (length (sockfd m) <= MAX_LISTENSOCK)%nat /\
  n_servers m = mine pidcmgr (procs (sm_children m)) /\
  (forall session q, server_child net session m = Ok q -> owned q (users_of m)).
Proof.
  intros Hp Hk Hd Hm. destruct (serving_ok malloc_new _ _ Hm (server_start_ok p k Hp Hk Hd)) as [H1 [H2 _] _ H4 _ _].
  split; [apply H1|]. split_and!; [|done|done|].
  - intros i. transitivity (i ∈ current (sm_proc m) :: users_of m).
    + split; [|by apply owned_alloc]. intros [c Hc]. pose proof (ow_heap _ _ H1 i) as Hi. rewrite Hc in Hi. destruct Hi as [Hi1 Hi2].
      by rewrite users_in, <- Hi1.
    + unfold users_of. rewrite elem_of_cons. destruct (sm_open m) as [j|]; [|rewrite elem_of_nil; intuition congruence].
      rewrite list_elem_of_singleton. intuition congruence.
  - intros session q E. unfold server_child, lock_current in E. apply mem_bind_ok in E as (w & _ & E).
    refine (exitfunc_owned net false _ (users_of m) q _ E). apply owned_unlock.
    eapply owned_same; [| | |apply (owned_lock net _ _ (current (sm_proc m)) H1); left]; reflexivity.
Qed.

End Turns.

(** ** Witnesses *)

(** One address to listen on; two connections in one turn; a reload. *)
Definition example_passive : option cstr -> cstr -> option (list ADDRINFO) :=
  fun _ _ => Some [mkADDRINFO 2 (SA_INET 0)].
Definition example_event (l : SELECT) (dead : list Z) (hup : bool) : SEVENT :=
  mkSEVENT (fun _ => T_open 3) (mkSIGNALS [] false) l (mkSIGNALS dead hup) example_files.
Definition s_example_turn (ev : SEVENT) (m : SMGR) : mem SRESULT :=
  server_turn example_net no_env [] (fun _ => 0) 0 false false false 0 fresh false 5 example_passive ev m.
Definition example_opening : SEVENT := example_event S_timeout [] false.
Definition example_arrivals : SEVENT :=
  example_event (S_ready [A_new 8 true [F_again; F_parent 7]; A_again; A_new 9 true [F_parent 8]]) [] false.
Definition example_hangup : SEVENT := example_event S_eintr [7] true.
Definition s_after (r : mem SRESULT) : SMGR := smgr_of (from_ok (S_ends (server_start example_proc example_children)) r).
Definition example_listening : SMGR := s_after (s_example_turn example_opening (server_start example_proc example_children)).
Definition example_serving : SMGR := s_after (s_example_turn example_arrivals example_listening).
Definition example_reloaded : SMGR := s_after (s_example_turn example_hangup example_serving).

Lemma turn_goes r : (match r with Ok (S_goes _) => true | _ => false end) = true -> r = Ok (S_goes (s_after r)).
Proof. destruct r as [[m|m|m]| |]; done. Qed.
Abbreviation s_serving := (serving 5 example_net no_env [] (fun _ => 0) 0 false false false 0 fresh false example_passive).
Lemma example_served : rtc s_serving (server_start example_proc example_children) example_serving.
Proof.
  eapply rtc_l; [exists example_opening|apply rtc_once; exists example_arrivals].
  - split; [split; [constructor|by intros p ?%elem_of_nil]|]. by apply (turn_goes (s_example_turn example_opening _)); vm_compute.
  - split; [split|].
    + change (NoDup [7; 8]). by apply (bool_decide_unpack _); vm_compute.
    + change (forall p, p ∈ [7; 8] -> p <> 5 /\ p ∉ procs (sm_children example_listening)).
      intros p Hp. replace (procs (sm_children example_listening)) with ([] : list Z) by (by vm_compute).
      split; [|by apply not_elem_of_nil].
      rewrite !elem_of_cons, elem_of_nil in Hp. lia.
    + by apply (turn_goes (s_example_turn example_arrivals example_listening)); vm_compute.
Qed.
Lemma example_reloads : rtc s_serving (server_start example_proc example_children) example_reloaded.
Proof.
  eapply rtc_r; [exact example_served|]. exists example_hangup. split; [split; [constructor|by intros p ?%elem_of_nil]|].
  by apply (turn_goes (s_example_turn example_hangup example_serving)); vm_compute.
Qed.
Lemma example_owned : owned example_proc [].
Proof.
  constructor; [done|]. intros i.
  change (heap example_proc) with ({[0%nat := example_accepted <| config_list := [mkconflist_type (str "/c") 7] |>]} : gmap nat BINKD_CONFIG).
  destruct (decide (i = 0%nat)) as [->|Hi]; [by vm_compute|]. rewrite lookup_singleton_ne by done. simpl. by intros ->%list_elem_of_singleton.
Qed.
Lemma example_counted : counted 5 example_children.
Proof. by constructor. Qed.

Lemma server_configs_witness :
  current (sm_proc example_reloaded) = 1%nat /\ fault (sm_proc example_reloaded) = false /\
  heap (sm_proc example_reloaded) !! 0%nat = None /\ n_servers example_reloaded = 1.
Proof.
  assert (Hc : current (sm_proc example_reloaded) = 1%nat) by (by vm_compute).
  assert (Hn : sm_open example_reloaded = None) by (by vm_compute).
  assert (Hs : mine 5 (procs (sm_children example_reloaded)) = 1) by (by vm_compute).
  destruct (server_configs 5 example_net no_env [] (fun _ => 0) 0 false false false 0 fresh false example_passive (fun s => is_fresh s)
    example_proc example_children example_reloaded example_owned example_counted ltac:(constructor) example_reloads) as (A & B & _ & D & _).
  split; [exact Hc|]. split; [exact A|]. split; [|by rewrite D].
  destruct (heap (sm_proc example_reloaded) !! 0%nat) as [c|] eqn:E; [|reflexivity].
  destruct (proj1 (B 0%nat) (ex_intro _ c E)) as [H|H]; [rewrite Hc in H|rewrite Hn in H]; discriminate H.
Defined.

