(* ===== verification/Startup.v ===== *)
(** * binkd.c, getopt.c: the command line and the order of the start

    [getopt] is the one of this repository.  [main] is what the process does up
    to the point where a manager or a session takes over; [START] says which.
    The log is opened and signals are set on the way, which changes nothing
    that is modelled. *)
From S2P Require Import Prelude CStr Tools FtnAddr Getw Sys Types FtnNode Bsy FtnQ Cleanup Hosts Readcfg Config Process Calls Client Server.

(** ** getopt.c *)
Record OPT := mkOPT { optind : nat; sp : nat; optopt : Z; optarg : option cstr }.
#[export] Instance eta_OPT : Eta OPT := fun o => mkOPT (optind o) (sp o) (optopt o) (optarg o).
Definition init_getopt : OPT := mkOPT 1 1 0 None.

(** The argument at an index, and a character of it, the NUL included. *)
Definition arg_at (argv : list cstr) (i : nat) : mem cstr := match argv !! i with Some a => Ok a | None => Oob end.
Definition char_at (a : cstr) (i : nat) : mem char := deref (drop i (a ++ [0])).
Definition DASH : char := 45.
Definition EOF : Z := -1.
(** Is there an option [c], and does it take an argument? *)
Definition index (opts : cstr) (c : char) : option cstr := (fun i => drop (S i) opts) <$> strchr opts c.
Definition option_at (opts : cstr) (c : char) : option cstr := if c =? 58 then None else index opts c.
(** The rest of a group of options. *)
Definition next_letter (a : cstr) (o : OPT) : mem OPT :=
  let o := o <| sp ::= S |> in
  let* c := char_at a (sp o) in
  Ok (if c =? 0 then o <| optind ::= S |> <| sp := 1%nat |> else o).

(** The option letter at [sp] of the word [a], the one at [optind]. *)
Definition getopt_letter (argv : list cstr) (opts a : cstr) (o : OPT) : mem (Z * OPT) :=
  let* c := char_at a (sp o) in
  let o := o <| optopt := c |> in
  match option_at opts c with
  | None => let* o := next_letter a o in Ok (63, o)
  | Some cp =>
      if hd0 cp =? 58 then
        let* c1 := char_at a (S (sp o)) in
        if negb (c1 =? 0) then Ok (c, o <| optarg := Some (drop (S (sp o)) a) |> <| optind ::= S |> <| sp := 1%nat |>)
        else
          let o := o <| optind ::= S |> in
          if (length argv <=? optind o)%nat then Ok (63, o <| sp := 1%nat |>)
          else let* v := arg_at argv (optind o) in Ok (c, o <| optarg := Some v |> <| optind ::= S |> <| sp := 1%nat |>)
      else let* o := next_letter a o in Ok (c, o <| optarg := None |>)
  end.
Definition getopt (argv : list cstr) (opts : cstr) (o : OPT) : mem (Z * OPT) :=
  if (optind o <? length argv)%nat then
    let* a := arg_at argv (optind o) in
    if bool_decide (a = [DASH]) then
      Ok (match index opts DASH with Some _ => DASH | None => 63 end, o <| optind ::= S |>)
    else if (sp o =? 1)%nat && negb (hd0 a =? DASH) then Ok (EOF, o)
    else if (sp o =? 1)%nat && bool_decide (a = [DASH; DASH]) then Ok (EOF, o <| optind ::= S |>)
    else getopt_letter argv opts a o
  else if (sp o =? 1)%nat then Ok (EOF, o)
  else let* a := arg_at argv (optind o) in getopt_letter argv opts a o.

(** ** Command line flags *)
Record CMDLINE := mkCMDLINE {
  inetd_flag : bool; daemon_flag : bool; server_flag : bool; client_flag : bool; o_poll_flag : bool; o_quiet_flag : bool;
  o_verbose_flag : Z; dumpcfg_flag : Z; o_checkcfg_flag : bool; o_no_MD5 : bool; o_no_crypt : bool; no_flag : bool;
  psPolls : list cstr; o_remote_addr : option cstr; remote_node : option cstr
}.
#[export] Instance eta_CMDLINE : Eta CMDLINE := fun f => mkCMDLINE (inetd_flag f) (daemon_flag f) (server_flag f) (client_flag f)
  (o_poll_flag f) (o_quiet_flag f) (o_verbose_flag f) (dumpcfg_flag f) (o_checkcfg_flag f) (o_no_MD5 f) (o_no_crypt f) (no_flag f)
  (psPolls f) (o_remote_addr f) (remote_node f).
Definition no_options : CMDLINE :=
  mkCMDLINE false false false false false false 0 0 false false false false [] None None.
Definition optstring : cstr := str "CchmP:pqrsvd-:?nDia:f:".

(** An option as [getopt] gives it: its result, [optopt], the argument, and the
    word it was found in. *)
Record ITEM := mkITEM { i_opt : Z; i_optopt : Z; i_arg : option cstr; i_word : cstr }.
(** [None] is the end of the process: [usage], an error, or [exit (1)]. *)
Definition set_option (x : ITEM) (f : CMDLINE) : mem (option CMDLINE) :=
  let opt_is (c : ascii) := i_opt x =? chr c in
  let arg (k : cstr -> CMDLINE) := match i_arg x with Some a => Ok (Some (k a)) | None => Oob end in
  if opt_is "-"%char then Ok None
  else if opt_is "C"%char then Ok (Some (f <| o_checkcfg_flag := true |>))
  else if opt_is "c"%char then Ok (Some (f <| client_flag := true |>))
  else if opt_is "i"%char then Ok (Some (f <| inetd_flag := true |>))
  else if opt_is "a"%char then arg (fun a => f <| o_remote_addr := Some a |>)
  else if opt_is "f"%char then arg (fun a => f <| remote_node := Some a |>)
  else if opt_is "P"%char then arg (fun a => f <| psPolls ::= fun l => l ++ [a] |>)
  else if opt_is "p"%char then Ok (Some (f <| o_poll_flag := true |> <| client_flag := true |>))
  else if opt_is "q"%char then Ok (Some (f <| o_quiet_flag := true |>))
  else if opt_is "s"%char then Ok (Some (f <| server_flag := true |>))
  else if opt_is "m"%char then Ok (Some (f <| o_no_MD5 := true |> <| o_no_crypt := true |>))
  else if opt_is "r"%char then Ok (Some (f <| o_no_crypt := true |>))
  else if opt_is "v"%char then Ok (Some (f <| o_verbose_flag ::= Z.succ |>))
  else if opt_is "d"%char then Ok (Some (f <| dumpcfg_flag ::= Z.succ |>))
  else if opt_is "D"%char then Ok (Some (f <| daemon_flag := true |>))
  else if opt_is "n"%char then Ok (Some (f <| no_flag := true |>))
  else if opt_is "h"%char then Ok None
  else if i_optopt x =? 63 then Ok (Some (f <| no_flag := true |>))
  else Ok None.

(** The loop of [parseargs]: the flags, or the end, and where it stopped. *)
Fixpoint parse_loop (fuel : nat) (argv : list cstr) (o : OPT) (f : CMDLINE) : mem (option (CMDLINE * nat)) :=
  match fuel with
  | O => Fuel
  | S n =>
      let curind := optind o in
      let* (i, o) := getopt argv optstring o in
      if i =? EOF then Ok (Some (f, optind o)) else
      let* w := arg_at argv curind in
      let* r := set_option (mkITEM i (optopt o) (optarg o) w) f in
      match r with Some f => parse_loop n argv o f | None => Ok None end
  end.
Fixpoint words (args : list cstr) : nat := match args with [] => O | a :: t => S (length a + words t) end.
Definition parse_fuel (argv : list cstr) : nat := S (words argv).
Definition looks_like_address (s : cstr) : bool := in_set s 58 || in_set s 64.
(** The rest of [parseargs]; [exists_] tells whether a file can be opened. *)
Definition config_arg (exists_ : cstr -> bool) (f : CMDLINE) (rest : list cstr) : option (CMDLINE * option cstr) :=
  match rest with
  | [] => Some (f, None)
  | cfgfile :: extra =>
      if looks_like_address cfgfile && negb (exists_ cfgfile) then None
      else if existsb looks_like_address extra then None
      else Some (f, Some cfgfile)
  end.
Definition parseargs (exists_ : cstr -> bool) (argv : list cstr) : mem (option (CMDLINE * option cstr)) :=
  let* r := parse_loop (parse_fuel argv) argv init_getopt no_options in
  Ok (r ≫= fun x => config_arg exists_ x.1 (drop x.2 argv)).

(** ** A reference: the words from left to right

    [l] is what is left of a group of options, in the word [w]. *)
Fixpoint options (fuel : nat) (opts : cstr) (w l : cstr) (args : list cstr) : list ITEM * list cstr :=
  match fuel with
  | O => ([], [])
  | S n =>
      let also x r := (x :: r.1, r.2) in
      match l with
      | [] =>
          match args with
          | [] => ([], [])
          | a :: t =>
              if bool_decide (a = [DASH]) then
                also (mkITEM (match index opts DASH with Some _ => DASH | None => 63 end) 0 None a) (options n opts [] [] t)
              else if negb (hd0 a =? DASH) then ([], args)
              else if bool_decide (a = [DASH; DASH]) then ([], t)
              else options n opts a (tl a) t
          end
      | c :: l =>
          match option_at opts c with
          | Some cp =>
              if hd0 cp =? 58 then
                match l, args with
                | _ :: _, _ => also (mkITEM c c (Some l) w) (options n opts [] [] args)
                | [], [] => ([mkITEM 63 c None w], [])
                | [], v :: t => also (mkITEM c c (Some v) w) (options n opts [] [] t)
                end
              else also (mkITEM c c None w) (options n opts w l args)
          | None => also (mkITEM 63 c None w) (options n opts w l args)
          end
      end
  end.
Fixpoint set_options (l : list ITEM) (f : CMDLINE) : mem (option CMDLINE) :=
  match l with
  | [] => Ok (Some f)
  | x :: t => let* r := set_option x f in match r with Some f => set_options t f | None => Ok None end
  end.

(** ** The loop reads what the reference reads *)
(** Where [getopt] is: between two words, or before the letters [l] of the word [w]. *)
Definition before (argv : list cstr) (o : OPT) (w l : cstr) (args : list cstr) : Prop :=
  match l with
  | [] => sp o = 1%nat /\ args = drop (optind o) argv /\ (optind o <= length argv)%nat
  | _ => argv !! optind o = Some w /\ drop (sp o) w = l /\ (1 <= sp o)%nat /\ hd0 w = DASH /\ w <> [DASH; DASH] /\
         args = drop (S (optind o)) argv
  end.
Lemma char_at_drop a i : (i <= length a)%nat -> char_at a i = Ok (hd0 (drop i a)).
Proof. intros Hi. unfold char_at. rewrite drop_app_le by done. by destruct (drop i a). Qed.
Lemma drop_tl {A} i (l : list A) : drop (S i) l = tl (drop i l).
Proof. rewrite <- Nat.add_1_r, <- drop_drop. by destruct (drop i l). Qed.
(** After a letter: the next one, or the next word. *)
Lemma next_before argv o w c l args : cstring w -> before argv o w (c :: l) args ->
  exists o', next_letter w o = Ok o' /\ optopt o' = optopt o /\ optarg o' = optarg o /\ before argv o' w l args.
Proof.
  intros Hw (H1 & H2 & H3 & H4 & H5 & H6). assert (Hl : drop (S (sp o)) w = l) by (by rewrite drop_tl, H2).
  assert (Hlen : (sp o < length w)%nat) by (apply (f_equal length) in H2; rewrite length_drop in H2; simpl in H2; lia).
  unfold next_letter. cbn -[char_at]. rewrite char_at_drop, Hl by lia. cbn [mem_bind]. destruct l as [|c2 l].
  - cbn. eexists. split; [done|]. split; [done|]. split; [done|]. cbn. split; [done|]. split; [done|]. apply lookup_lt_Some in H1. lia.
  - cbn [hd0]. assert (Hc : c2 <> 0).
    { pose proof (Forall_drop _ (S (sp o)) _ Hw) as Hd. rewrite Hl in Hd. apply Forall_cons in Hd as [Hd _]. lia. }
    rewrite (proj2 (Z.eqb_neq c2 0)) by done. eexists. split; [done|]. cbn -[drop]. split_and!; try done. lia.
Qed.

Definition same_item (x : ITEM) (i : Z) (o : OPT) : Prop :=
  i_opt x = i /\ (i <> DASH -> i_optopt x = optopt o) /\ (forall a, i_arg x = Some a -> optarg o = Some a) /\
  (i_arg x = None -> optarg o = None \/ i = 63).
Lemma set_option_same x i o w f : same_item x i o ->
  set_option x f = set_option (mkITEM i (optopt o) (optarg o) w) f.
Proof.
  intros (H1 & H2 & H3 & H4). unfold set_option. cbn [i_opt i_optopt i_arg]. rewrite H1.
  destruct (i =? chr "-") eqn:E; [done|]. bools. rewrite H2 by done.
  destruct (i_arg x) as [a|]; [by rewrite (H3 a)|]. destruct H4 as [->| ->]; done.
Qed.
(** One call of [getopt] at a letter. *)
Lemma getopt_at argv opts o w c l args : Forall cstring argv -> before argv o w (c :: l) args ->
  exists o1, getopt argv opts o = getopt_letter argv opts w o /\
  match option_at opts c with
  | Some cp =>
      if hd0 cp =? 58 then
        match l, args with
        | _ :: _, _ => getopt argv opts o = Ok (c, o1) /\ optopt o1 = c /\ optarg o1 = Some l /\ before argv o1 [] [] args
        | [], [] => getopt argv opts o = Ok (63, o1) /\ optopt o1 = c /\ before argv o1 [] [] []
        | [], v :: t => getopt argv opts o = Ok (c, o1) /\ optopt o1 = c /\ optarg o1 = Some v /\ before argv o1 [] [] t
        end
      else getopt argv opts o = Ok (c, o1) /\ optopt o1 = c /\ optarg o1 = None /\ before argv o1 w l args
  | None => getopt argv opts o = Ok (63, o1) /\ optopt o1 = c /\ before argv o1 w l args
  end.
Proof.
  intros Hargv Hb. pose proof Hb as (H1 & H2 & H3 & H4 & H5 & H6).
  assert (Hw : cstring w) by (rewrite Forall_lookup in Hargv; by eapply Hargv).
  assert (Hlen : (sp o < length w)%nat) by (apply (f_equal length) in H2; rewrite length_drop in H2; simpl in H2; lia).
  assert (Hi : (optind o < length argv)%nat) by (by eapply lookup_lt_Some).
  assert (Hget : getopt argv opts o = getopt_letter argv opts w o).
  { unfold getopt, arg_at. rewrite (proj2 (Nat.ltb_lt _ _)), H1 by done. cbn [mem_bind].
    rewrite bool_decide_eq_false_2 by (intros ->; cbn in Hlen; lia). rewrite H4. cbn [Z.eqb negb]. rewrite andb_false_r.
    by rewrite (bool_decide_eq_false_2 (w = _)), andb_false_r by done. }
  rewrite !Hget. unfold getopt_letter. rewrite char_at_drop, H2 by lia. cbn [mem_bind hd0].
  set (o0 := o <| optopt := c |>). assert (Hb0 : before argv o0 w (c :: l) args) by exact Hb.
  destruct (option_at opts c) as [cp|] eqn:Ec.
  2:{ destruct (next_before argv o0 w c l args Hw Hb0) as (o1 & -> & E2 & E3 & E4). exists o1. by split_and!. }
  destruct (hd0 cp =? 58).
  2:{ destruct (next_before argv o0 w c l args Hw Hb0) as (o1 & -> & E2 & E3 & E4). exists (o1 <| optarg := None |>). split; [done|].
      split; [done|]. split; [done|]. split; [done|]. by destruct l. }
  change (sp o0) with (sp o). change (optind (o0 <| optind ::= S |>)) with (S (optind o)).
  rewrite char_at_drop, drop_tl, H2 by lia. cbn [mem_bind tl]. destruct l as [|c2 l].
  - cbn [hd0 Z.eqb negb]. destruct args as [|v t].
    + assert (Hend : length argv = S (optind o)). { apply (f_equal length) in H6. rewrite length_drop in H6. simpl in H6. lia. }
      rewrite (proj2 (Nat.leb_le _ _)) by lia. eexists. split; [done|]. split; [done|]. split; [done|]. cbn -[drop].
      split; [done|]. split; [exact H6|lia].
    + assert (Hv : argv !! S (optind o) = Some v) by (by rewrite <- (Nat.add_0_r (S (optind o))), <- lookup_drop, <- H6).
      pose proof (lookup_lt_Some _ _ _ Hv) as Hvl. rewrite (proj2 (Nat.leb_gt _ _)) by lia. unfold arg_at.
      rewrite Hv. cbn [mem_bind]. eexists. split; [done|]. split; [done|]. split; [done|]. split; [done|]. cbn -[drop]. split; [done|].
      split; [|lia]. by rewrite drop_tl, <- H6.
  - pose proof (Forall_drop _ (sp o) _ Hw) as Hd. rewrite H2 in Hd. apply Forall_cons in Hd as [_ Hd]. apply Forall_cons in Hd as [Hc2 _].
    cbn [hd0]. rewrite (proj2 (Z.eqb_neq c2 0)) by lia. cbn [negb]. eexists. split; [done|]. split; [done|]. split; [done|].
    cbn -[drop]. split; [done|]. split; [done|]. split; [done|lia].
Qed.

Lemma before_nil argv o w : before argv o w [] [] -> optind o = length argv.
Proof. intros (_ & H & ?). apply (f_equal length) in H. rewrite length_drop in H. simpl in H. lia. Qed.
Lemma before_word argv o w a t : before argv o w [] (a :: t) -> argv !! optind o = Some a /\ t = drop (S (optind o)) argv /\ sp o = 1%nat.
Proof. intros (H1 & H2 & _). split; [by rewrite <- (Nat.add_0_r (optind o)), <- lookup_drop, <- H2|]. by rewrite drop_tl, <- H2. Qed.
Definition reads (n m : nat) : Prop := forall argv o f w l args, Forall cstring argv -> before argv o w l args ->
  (length l + words args < n)%nat -> (length l + words args < m)%nat ->
  parse_loop m argv o f = (let '(items, rest) := options n optstring w l args in
    let* r := set_options items f in Ok ((fun f => (f, (length argv - length rest)%nat)) <$> r)).
(** One option, and the rest. *)
Lemma reads_item m argv o o1 i x w f items (rest : list cstr) : argv !! optind o = Some w -> i <> EOF -> getopt argv optstring o = Ok (i, o1) ->
  same_item x i o1 ->
  (forall f, parse_loop m argv o1 f = let* r := set_options items f in Ok ((fun f => (f, (length argv - length rest)%nat)) <$> r)) ->
  parse_loop (S m) argv o f = let* r := set_options (x :: items) f in Ok ((fun f => (f, (length argv - length rest)%nat)) <$> r).
Proof.
  intros Hw Hi Hg Hx IH. cbn [parse_loop set_options]. rewrite Hg. cbn [mem_bind]. rewrite (proj2 (Z.eqb_neq i EOF)) by done.
  unfold arg_at. rewrite Hw. cbn [mem_bind]. rewrite <- (set_option_same x i o1 w f Hx).
  destruct (set_option x f) as [[f'|]| |]; [apply IH|done..].
Qed.
Lemma parse_loop_reads n : forall m, reads n m.
Proof.
  induction n as [|n IH]; intros m argv o f w l args Hargv Hb Hn Hm; [lia|]. destruct l as [|c l].
  - destruct m as [|m]; [lia|]. destruct args as [|a t].
    + pose proof (before_nil _ _ _ Hb) as Hend. cbn. unfold getopt. rewrite Hend, Nat.ltb_irrefl. destruct Hb as [-> _]. cbn. by rewrite Hend, Nat.sub_0_r.
    + destruct (before_word _ _ _ _ _ Hb) as (Ha & Ht & Hsp). pose proof (lookup_lt_Some _ _ _ Ha) as Hi.
      assert (Hrest : optind o = (length argv - length (a :: t))%nat).
      { destruct Hb as (_ & -> & ?). rewrite length_drop. lia. }
      assert (Hg : getopt argv optstring o = if bool_decide (a = [DASH]) then Ok (DASH, o <| optind ::= S |>)
                   else if negb (hd0 a =? DASH) then Ok (EOF, o) else if bool_decide (a = [DASH; DASH]) then Ok (EOF, o <| optind ::= S |>)
                   else getopt_letter argv optstring a o).
      { unfold getopt, arg_at. rewrite (proj2 (Nat.ltb_lt _ _)), Ha, Hsp by done. done. }
      cbn [options]. destruct (bool_decide (a = [DASH])) eqn:E1; bools.
      { cbn [parse_loop]. rewrite Hg. cbn [mem_bind]. unfold arg_at. rewrite Ha. cbn. by destruct (options n optstring [] [] t). }
      destruct (negb (hd0 a =? DASH)) eqn:E2; bools.
      { cbn [parse_loop]. rewrite Hg. cbn -[length]. by rewrite <- Hrest. }
      destruct (bool_decide (a = [DASH; DASH])) eqn:E3; bools.
      { cbn [parse_loop]. rewrite Hg. cbn -[length]. replace (length argv - length t)%nat with (S (optind o)) by (rewrite Ht, length_drop; lia). done. }
      apply (IH (S m)); [done| |destruct a; [done|cbn in Hn, Hm |- *; lia]|destruct a; [done|cbn in Hn, Hm |- *; lia]].
      destruct a as [|x [|y a]]; [done|cbn in E2; subst x; done|]. cbn [tl before]. rewrite Hsp. apply bool_decide_eq_false_1 in E3.
      split; [done|]. split; [done|]. split; [lia|]. by split.
  - destruct m as [|m]; [lia|]. destruct (getopt_at argv optstring o w c l args Hargv Hb) as (o1 & _ & Hg).
    pose proof Hb as (Hw & Hd & _). assert (Hc : 0 < c < 256).
    { assert (Hcw : cstring w) by (rewrite Forall_lookup in Hargv; by eapply Hargv). pose proof (Forall_drop _ (sp o) _ Hcw) as H.
      rewrite Hd in H. by apply Forall_cons in H as [H _]. }
    assert (Heof : c <> EOF /\ 63 <> EOF) by (unfold EOF; lia). destruct Heof as [He1 He2]. cbn [length] in Hn, Hm.
    cbn [options]. destruct (option_at optstring c) as [cp|].
    2:{ destruct Hg as (Hg & Ho & Hb1).
        pose proof (fun f => IH m argv o1 f w l args Hargv Hb1 ltac:(lia) ltac:(lia)) as IH1.
        destruct (options n optstring w l args) as [items rest]. cbn [fst snd].
        apply (reads_item m argv o o1 63 _ w f items rest Hw He2 Hg); [|exact IH1]. split_and!; [done|by intros _|done|by right]. }
    destruct (hd0 cp =? 58).
    2:{ destruct Hg as (Hg & Ho & Ha & Hb1).
        pose proof (fun f => IH m argv o1 f w l args Hargv Hb1 ltac:(lia) ltac:(lia)) as IH1.
        destruct (options n optstring w l args) as [items rest]. cbn [fst snd].
        apply (reads_item m argv o o1 c _ w f items rest Hw He1 Hg); [|exact IH1]. split_and!; [done|by intros _|done|by left]. }
    destruct l as [|c2 l]; [destruct args as [|v t]|].
    + destruct Hg as (Hg & Ho & Hb1).
      apply (reads_item m argv o o1 63 _ w f [] [] Hw He2 Hg); [split_and!; [done|by intros _|done|by right]|].
      intros f'. destruct m as [|m]; [lia|]. cbn. pose proof (before_nil _ _ _ Hb1) as Hend. unfold getopt. rewrite Hend, Nat.ltb_irrefl.
      destruct Hb1 as [-> _]. cbn. by rewrite Hend, Nat.sub_0_r.
    + destruct Hg as (Hg & Ho & Ha & Hb1). cbn in Hn, Hm.
      pose proof (fun f => IH m argv o1 f [] [] t Hargv Hb1 ltac:(cbn; lia) ltac:(cbn; lia)) as IH1.
      destruct (options n optstring [] [] t) as [items rest]. cbn [fst snd].
      apply (reads_item m argv o o1 c _ w f items rest Hw He1 Hg); [|exact IH1]. split_and!; [done|by intros _|by intros a [= <-]|done].
    + destruct Hg as (Hg & Ho & Ha & Hb1). cbn in Hn, Hm.
      pose proof (fun f => IH m argv o1 f [] [] args Hargv Hb1 ltac:(cbn; lia) ltac:(cbn; lia)) as IH1.
      destruct (options n optstring [] [] args) as [items rest]. cbn [fst snd].
      apply (reads_item m argv o o1 c _ w f items rest Hw He1 Hg); [|exact IH1]. split_and!; [done|by intros _|by intros a [= <-]|done].
Qed.

(** What is left is an end of what there was. *)
Lemma options_suffix n opts : forall w l args, exists p, args = p ++ (options n opts w l args).2.
Proof.
  induction n as [|n IH]; intros w l args; cbn [options]; [by exists args; rewrite app_nil_r|].
  assert (Hx : forall v t w l, exists p, v :: t = p ++ (options n opts w l t).2).
  { intros v t w' l'. destruct (IH w' l' t) as [p Hp]. exists (v :: p). cbn. by rewrite <- Hp. }
  destruct l as [|c l]; [destruct args as [|a t]; [by exists []|]|].
  - destruct (bool_decide _); [apply Hx|]. destruct (negb _); [by exists []|]. destruct (bool_decide _); [by exists [a]|apply Hx].
  - destruct (option_at opts c) as [cp|]; [|apply IH]. destruct (_ =? _); [|apply IH].
    destruct l; [destruct args as [|v t]; [by exists []|apply Hx]|apply IH].
Qed.
(** The options that need an argument have one. *)
Definition takes_arg (i : Z) : bool := (i =? chr "a") || (i =? chr "f") || (i =? chr "P").
Definition has_arg (x : ITEM) : Prop := takes_arg (i_opt x) = true -> i_arg x <> None.
Lemma options_args n : forall w l args, Forall has_arg (options n optstring w l args).1.
Proof.
  assert (Hq : forall o w, has_arg (mkITEM 63 o None w)) by done.
  induction n as [|n IH]; intros w l args; cbn [options]; [constructor|]. destruct l as [|c l]; [destruct args as [|a t]; [constructor|]|].
  - destruct (bool_decide _); [constructor; [|apply IH]|destruct (negb _); [constructor|]; destruct (bool_decide _); [constructor|apply IH]].
    done.
  - destruct (option_at optstring c) as [cp|] eqn:Ec; [|constructor; [apply Hq|apply IH]]. destruct (hd0 cp =? 58) eqn:E58.
    + destruct l; [destruct args as [|v t]; [by repeat constructor|]|]; (constructor; [by intros _|apply IH]).
    + constructor; [|apply IH]. intros H. exfalso. unfold takes_arg in H. cbn [i_opt] in H.
      apply orb_true_iff in H as [H|H]; [apply orb_true_iff in H as [H|H]|]; bools; subst c; vm_compute in Ec; injection Ec as <-; by destruct E58.
Qed.
Lemma set_options_ok l : forall f, Forall has_arg l -> exists r, set_options l f = Ok r.
Proof.
  induction l as [|x l IH]; intros f Hl; [by eexists|]. apply Forall_cons in Hl as [Hx Hl]. cbn [set_options].
  assert (Hs : exists r, set_option x f = Ok r).
  { unfold set_option. destruct (i_arg x) eqn:Ea; [|].
    - repeat case_match; eauto.
    - destruct (takes_arg (i_opt x)) eqn:Et; [by apply Hx in Et|]. unfold takes_arg in Et. apply orb_false_iff in Et as [Et ->].
      apply orb_false_iff in Et as [-> ->]. repeat case_match; eauto. }
  destruct Hs as [[f'|] ->]; [by apply IH|by eexists].
Qed.

(** C25: the command line is read as the reference reads it: every option once, in order,
    grouped or not, its argument in the same word or the next; the first word
    that is no option is the configuration, and words that look
    like addresses are refused.  Reading ends, and no word is read past its end. *)
Theorem parseargs_reads exists_ prog args : Forall cstring (prog :: args) ->
  exists r, set_options (options (S (words args)) optstring [] [] args).1 no_options = Ok r /\
  parseargs exists_ (prog :: args) = Ok (r ≫= fun f => config_arg exists_ f (options (S (words args)) optstring [] [] args).2).
Proof.
  intros Hc. unfold parseargs. rewrite (parse_loop_reads (S (words args)) _ _ _ _ [] [] args Hc); [|by split_and!; cbn; [..|lia]|cbn; lia|unfold parse_fuel; cbn; lia].
  destruct (set_options_ok _ no_options (options_args (S (words args)) [] [] args)) as [r Hr]. exists r. split; [done|].
  destruct (options_suffix (S (words args)) optstring [] [] args) as [p Hp].
  destruct (options (S (words args)) optstring [] [] args) as [items rest]. cbn [fst snd] in *. rewrite Hr. cbn [mem_bind]. f_equal.
  destruct r as [f|]; [|done]. cbn [fmap option_fmap option_map mbind option_bind fst snd]. f_equal.
  rewrite Hp at 2. change (prog :: p ++ rest) with ((prog :: p) ++ rest). rewrite Hp. cbn [length]. rewrite length_app.
  replace (S (length p + length rest) - length rest)%nat with (length (prog :: p)) by (cbn; lia). by rewrite drop_app_length.
Qed.

(** ** The start *)

(** What takes over.  [R_stops] is the end of the process before there is
    anything to clean up, [R_exits] after its exit handler ran; [R_managers] is
    the server manager, with the client manager's process and its number. *)
Inductive START :=
| R_stops
| R_dump (c : BINKD_CONFIG)
| R_version
| R_exits (p : PROC)
| R_session (fa : option FTN_ADDR) (addr : option cstr) (p : PROC)
| R_client (p : PROC)
| R_managers (pidcmgr : Z) (child : option PROC) (p : PROC).

Section Start.
Context (net : RESOLVER) (getenv : cstr -> option cstr) (facilitynames : list (cstr * Z)).
Context (st_dev : cstr -> Z) (junk_dev : Z) (malloc : gset nat -> nat).
(** The process number after [binkd_daemonize], if that works, and what [fork] does. *)
Context (daemonized : option Z) (forks : list FORK).

(** [psPolls], in order *)
Definition create_polls (config : BINKD_CONFIG) (l : list cstr) (w : WORLD) : mem WORLD :=
  mem_fold (fun w s => let* r := poll_node w s config in Ok r.2) l w.
(** [-f]: the address of the other side. *)
Definition inetd_node (f : CMDLINE) (config : BINKD_CONFIG) : mem (option FTN_ADDR) :=
  match remote_node f with
  | None => Ok None
  | Some s =>
      match parse_ftnaddress s (pDomains config) with
      | (true, a) => exp_ftnaddress a (pAddr config) (pDomains config)
      | (false, _) => Ok None
      end
  end.
(** [-a], or the first word of [SSH_CONNECTION]. *)
Definition until_space (s : cstr) : cstr := match strchr s 32 with Some i => take i s | None => s end.
Definition inetd_addr (f : CMDLINE) : option cstr :=
  match o_remote_addr f with Some a => Some a | None => until_space <$> getenv (str "SSH_CONNECTION") end.
Definition write_pid_file (f : cstr) (s : SYS) : SYS :=
  match f with [] => s | _ => (create_sem_file (unlink s f).2 f).2 end.
Definition one_of_both (f : CMDLINE) : CMDLINE :=
  if negb (client_flag f) && negb (server_flag f) then f <| client_flag := true |> <| server_flag := true |> else f.

(** After the sessions of [-i]: the managers. *)
Definition start_managers (f : CMDLINE) (p : PROC) : mem START :=
  if daemon_flag f && bool_decide (daemonized = None) then let* p := exitfunc net false p in Ok (R_exits p) else
  let p := if daemon_flag f then p <| p_world ::= fun w => w <| sys ::= fun s => s <| pid := default (pid s) daemonized |> |> |> else p in
  if client_flag f && negb (server_flag f) then Ok (R_client p) else
  let* cmgr := if client_flag f then (let* r := branch true forks in Ok (Some r)) else Ok None in
  let own := p <| p_world ::= fun w => w <| sys ::= write_pid_file (pid_file (config_at p (current p))) |> |> in
  match cmgr with
  | None => Ok (R_managers 0 None own)
  | Some (Some pidcmgr) => Ok (R_managers pidcmgr (Some p) own)
  | Some None => let* p := exitfunc net true p in Ok (R_exits p)
  end.
(** With a configuration. *)
Definition start_process (f : CMDLINE) (c : BINKD_CONFIG) (r : READER) : mem START :=
  let w := nodes r in
  let* s := cleanup_old_bsy c (sys w) in
  let i := malloc ∅ in
  let* w := create_polls c (psPolls f) (w <| sys := s |>) in
  let p := mkPROC {[i := c]} i false w false r in
  if no_flag f then let* p := exitfunc net false p in Ok (R_exits p)
  else if inetd_flag f then let* fa := inetd_node f c in Ok (R_session fa (inetd_addr f) p)
  else start_managers f p.
Definition main (argv : list cstr) (r : READER) : mem START :=
  let* a := parseargs (is_file (sys (nodes r))) argv in
  match a with
  | None => Ok R_stops
  | Some (f, configpath) =>
      if o_poll_flag f && server_flag f then Ok R_stops else
      let f := one_of_both f in
      match configpath with
      | Some path =>
          let* x := readcfg net getenv facilitynames st_dev junk_dev (o_no_MD5 f) (o_no_crypt f) (o_quiet_flag f) (o_verbose_flag f) path r in
          match x.1 with
          | Some (Some c) => if dumpcfg_flag f =? 0 then start_process f c x.2 else Ok (R_dump c)
          | _ => Ok R_stops
          end
      | None => if o_verbose_flag f =? 0 then Ok R_stops else Ok R_version
      end
  end.

(** The children each manager begins with. *)
Definition server_children (pidcmgr : Z) : CHILDREN := mkCHILDREN (if pidcmgr =? 0 then [] else [pidcmgr]) [] false 0.
Definition client_children : CHILDREN := mkCHILDREN [] [] false 0.
End Start.

(** ** What the managers begin with *)
Section Started.
Context (net : RESOLVER) (getenv : cstr -> option cstr) (facilitynames : list (cstr * Z)).
Context (st_dev : cstr -> Z) (junk_dev : Z) (malloc : gset nat -> nat) (malloc_new : forall s, malloc s ∉ s).
Context (daemonized : option Z) (forks : list FORK) (passive : option cstr -> cstr -> option (list ADDRINFO)).

(** One configuration, with one user: the program itself. *)
Definition starts_with (c : BINKD_CONFIG) (p : PROC) : Prop := fault p = false /\ heap p = {[current p := c]}.
Lemma starts_owned c p : usageCount c = 1 -> starts_with c p -> owned p [].
Proof.
  intros Hc [Hf Hh]. constructor; [done|]. intros i. rewrite Hh. destruct (decide (i = current p)) as [->|Hi].
  - rewrite lookup_singleton_eq, users_cons, decide_True by done. change (users (current p) []) with 0. lia.
  - rewrite lookup_singleton_ne by done. by intros ->%list_elem_of_singleton.
Qed.
Lemma starts_world c p f : starts_with c p -> starts_with c (p <| p_world ::= f |>).
Proof. done. Qed.

(** What is so of the process that goes on. *)
Definition started (c : BINKD_CONFIG) (f : CMDLINE) (s : START) : Prop :=
  match s with
  | R_exits p => owned p []
  | R_session _ _ p => starts_with c p /\ inetd_flag f = true
  | R_client p => starts_with c p /\ server_flag f = false
  | R_managers pidcmgr child p => starts_with c p /\ server_flag (one_of_both f) = true /\
      match child with
      | Some q => client_flag (one_of_both f) = true /\ starts_with c q /\ 0 < pidcmgr
      | None => client_flag (one_of_both f) = false /\ pidcmgr = 0
      end
  | _ => False
  end.
Lemma one_of_both_flags f : client_flag (one_of_both f) || server_flag (one_of_both f) = true.
Proof. unfold one_of_both. by destruct (client_flag f) eqn:E1, (server_flag f) eqn:E2; cbn; rewrite ?E1, ?E2. Qed.
Lemma one_of_both_twice f : one_of_both (one_of_both f) = one_of_both f.
Proof. pose proof (one_of_both_flags f) as H. unfold one_of_both at 1. by destruct (client_flag (one_of_both f)), (server_flag (one_of_both f)). Qed.
Lemma branch_pid room l pid : branch room l = Ok (Some pid) -> 0 < pid.
Proof.
  unfold branch. destruct room; [|done]. induction l as [|[p| |] l IH]; cbn [branch_again]; [done|by intros [= <-]|exact IH|done].
Qed.

Lemma start_managers_started c f p res : usageCount c = 1 -> starts_with c p ->
  start_managers net daemonized forks (one_of_both f) p = Ok res -> started c (one_of_both f) res.
Proof.
  intros Hc Hp E. unfold start_managers in E. destruct (_ && bool_decide _).
  { apply mem_bind_ok in E as (q & Eq & E). injection E as <-. by apply (exitfunc_owned net false p [] q (starts_owned c p Hc Hp)). }
  set (p1 := if daemon_flag _ then _ else p) in E. assert (Hp1 : starts_with c p1) by (unfold p1; by case_if). clearbody p1.
  destruct (client_flag (one_of_both f) && negb (server_flag (one_of_both f))) eqn:Ec.
  { injection E as <-. split; [done|]. by apply andb_true_iff in Ec as [_ Ec%negb_true_iff]. }
  pose proof (one_of_both_flags f) as Hf. apply mem_bind_ok in E as (cmgr & Eb & E).
  assert (Hs : server_flag (one_of_both f) = true) by (by destruct (client_flag (one_of_both f)), (server_flag (one_of_both f))).
  destruct (client_flag (one_of_both f)) eqn:Ecl; [apply mem_bind_ok in Eb as ([pid|] & Ef & Eb)|]; injection Eb as <-.
  - injection E as <-. apply branch_pid in Ef. cbn. rewrite !one_of_both_twice. by split_and!.
  - apply mem_bind_ok in E as (q & Eq & E). injection E as <-. by apply (exitfunc_owned net true p1 [] q (starts_owned c p1 Hc Hp1)).
  - injection E as <-. cbn. rewrite !one_of_both_twice. by split_and!.
Qed.
Lemma start_process_started c f r res : usageCount c = 1 ->
  start_process net getenv malloc daemonized forks (one_of_both f) c r = Ok res -> started c (one_of_both f) res.
Proof.
  intros Hc E. unfold start_process in E. apply mem_bind_ok in E as (s & _ & E). apply mem_bind_ok in E as (w & _ & E).
  set (p := mkPROC _ _ _ _ _ _) in E. assert (Hp : starts_with c p) by done. clearbody p.
  destruct (no_flag _).
  { apply mem_bind_ok in E as (q & Eq & E). injection E as <-. by apply (exitfunc_owned net false p [] q (starts_owned c p Hc Hp)). }
  destruct (inetd_flag _) eqn:Ei; [|exact (start_managers_started c f p res Hc Hp E)].
  apply mem_bind_ok in E as (fa & _ & E). by injection E as <-.
Qed.

End Started.

(** ** Small command lines *)
Definition example_args : list cstr := [str "-qC"; str "-P2:5047/13"; str "-v"; str "-v"; str "/c"].
Definition example_argv : list cstr := str "binkd" :: example_args.
Definition example_cmdline : CMDLINE :=
  no_options <| o_quiet_flag := true |> <| o_checkcfg_flag := true |> <| psPolls := [str "2:5047/13"] |> <| o_verbose_flag := 2 |>.

(** The option [-?] is let through to the case of [-n]. *)
Lemma question_mark_is_n : parseargs (fun _ => true) [str "binkd"; str "-?"; str "/c"] = Ok (Some (no_options <| no_flag := true |>, Some (str "/c"))) /\
  parseargs (fun _ => true) [str "binkd"; str "-?"; str "/c"] = parseargs (fun _ => true) [str "binkd"; str "-n"; str "/c"].
Proof. by vm_compute. Qed.

Lemma parseargs_reads_witness :
  exists r, set_options (options (S (words example_args)) optstring [] [] example_args).1 no_options = Ok r /\ r = Some example_cmdline /\
  parseargs (fun _ => false) example_argv = Ok (Some (example_cmdline, Some (str "/c"))).
Proof.
  destruct (parseargs_reads (fun _ => false) (str "binkd") example_args) as (r & H1 & H2); [by apply (bool_decide_unpack _); vm_compute|].
  exists r. split; [exact H1|]. assert (Hr : r = Some example_cmdline).
  { assert (H : Ok r = Ok (Some example_cmdline)) by (rewrite <- H1; by vm_compute). by injection H. }
  split; [exact Hr|]. etrans; [exact H2|]. rewrite Hr. by vm_compute.
Defined.

Definition example_started : START :=
  from_ok R_stops (main example_net no_env [] (fun _ => 0) 0 fresh None [F_again; F_parent 7] example_argv example_reader).
Definition started_proc : PROC := match example_started with R_managers _ _ p => p | _ => example_proc end.
Definition started_child : PROC := match example_started with R_managers _ (Some q) _ => q | _ => example_proc end.
Definition started_turn : mem SRESULT :=
  server_turn example_net no_env [] (fun _ => 0) 0 false false true 2 fresh true 7 example_passive example_opening
    (server_start started_proc (server_children 7)).
Lemma no_pids pidcmgr k : fresh_pids pidcmgr k [].
Proof. split; [constructor|by intros p ?%elem_of_nil]. Qed.
